(** * fs/verity/verify.c: the on-read Merkle tree verifier

    A shallow embedding of the data verification hooks of fs-verity
    (is_hash_block_verified, verify_data_block, the pending-block context,
    fsverity_verify_blocks and fsverity_verify_bio), followed by the
    properties of the design description that concern them.

    Integers are kept as [Z] with the C wrap-around written out, bytes as
    [Byte.byte], the PG_checked flags of the tree pages and the
    hash_block_verified bitmap as bit sets over [Z].  Every function runs in
    a state-and-log monad: the state is the memoization state shared between
    readers, together with the once-only flags of the WARN_ON_ONCE call
    sites; the log is the sequence of calls into the rest of the kernel
    (page cache, kmap, crypto, barriers, diagnostics) in program order, and
    of the stores that miss the array of pending blocks. *)

From Stdlib Require Import ZArith List Bool Lia.
From Stdlib.Strings Require Import Byte.
Import ListNotations.
Local Open Scope Z_scope.

(** ** Machine integers *)

Definition wrap (w x : Z) : Z := x mod 2 ^ w.
(** u64, and unsigned long / size_t / pgoff_t on a 64-bit kernel. *)
Definition u64 (x : Z) : Z := wrap 64 x.
(** unsigned int. *)
Definition u32 (x : Z) : Z := wrap 32 x.

(** ** Bytes *)

Definition bytes := list byte.

Fixpoint bytes_eqb (a b : bytes) : bool :=
  match a, b with
  | [], [] => true
  | x :: a', y :: b' => Byte.eqb x y && bytes_eqb a' b'
  | _, _ => false
  end.

(** memcmp(a, b, n) == 0 *)
Definition memcmp_eq (a b : bytes) (n : Z) : bool :=
  bytes_eqb (firstn (Z.to_nat n) a) (firstn (Z.to_nat n) b).

(** memchr_inv(p, 0, n) != NULL: some byte among the first n is not zero. *)
Definition memchr_inv0 (p : bytes) (n : Z) : bool :=
  existsb (fun b => negb (Byte.eqb b x00)) (firstn (Z.to_nat n) p).

(** memcpy(dst, src + off, n): the n bytes of src from offset off. *)
Definition memcpy_from (src : bytes) (off n : Z) : bytes :=
  firstn (Z.to_nat n) (skipn (Z.to_nat off) src).

(** ** Data model *)

(** struct fsverity_hash_alg, as far as the verifier uses it.  [tfm] is the
    block hash computed with the file's prepared (salted) state: [None] is a
    failure of the crypto layer.  [shash_setup_err] is the status returned by
    crypto_shash_import / crypto_shash_init (0 on success). *)
Record fsverity_hash_alg := {
  tfm : bytes -> option bytes;
  shash_setup_err : Z;
  mb_max_msgs : Z
}.

(** struct merkle_tree_params *)
Record merkle_tree_params := {
  hash_alg : fsverity_hash_alg;
  hashstate : bool;               (* is a prepared hash state present? *)
  digest_size : Z;
  block_size : Z;
  log_digestsize : Z;
  log_blocksize : Z;
  log_arity : Z;
  log_blocks_per_page : Z;
  blocks_per_page : Z;
  num_levels : Z;
  tree_pages : Z;
  level_start : list Z
}.

(** struct fsverity_info without its bitmap, which is mutable and lives in
    the state below. *)
Record fsverity_info := {
  tree_params : merkle_tree_params;
  root_hash : bytes
}.

(** struct inode: size, verity info and the filesystem's
    ->read_merkle_tree_page(inode, index, num_ra_pages), which yields the
    bytes of a pinned tree page or fails. *)
Record inode_t := {
  i_size : Z;
  i_verity_info : fsverity_info;
  read_merkle_tree_page : Z -> Z -> option bytes
}.

(** Constants of the kernel configuration.  PAGE_SIZE is 1 << PAGE_SHIFT, and
    ~PAGE_MASK is PAGE_SIZE - 1.  FS_VERITY_MAX_PENDING_DATA_BLOCKS, the
    number of entries of the array pending_blocks of a verification
    context, is defined in fsverity_private.h, which is not part of these
    sources. *)
Record kernel := {
  PAGE_SHIFT : Z;
  REQ_RAHEAD : Z;
  BLK_STS_IOERR : Z;
  FS_VERITY_MAX_PENDING_DATA_BLOCKS : Z
}.

(** struct folio: a data folio of the file. *)
Record folio := {
  folio_index : Z;
  folio_locked : bool;
  folio_uptodate : bool;
  folio_bytes : bytes
}.

(** struct bio with its folio segments (folio, length, offset). *)
Record bio := {
  bi_opf : Z;
  bi_size : Z;
  bi_status : Z;
  bi_segments : list (folio * Z * Z)
}.

(** A local mapping, named by what it maps: a tree page, or a data folio at
    an offset. *)
Inductive view :=
| VPage (idx : Z)
| VFolio (index off : Z).

(** struct fsverity_pending_block.  The pointer [data] is kept as the view
    it was mapped with and the bytes from its address on. *)
Record fsverity_pending_block := {
  data_view : view;
  data : bytes;
  pos : Z;
  real_hash : bytes
}.

(** struct fsverity_verification_context.  The array pending_blocks with its
    fill count is kept as the list of its first num_pending entries, oldest
    first.  The array has FS_VERITY_MAX_PENDING_DATA_BLOCKS entries: the
    store that queues a block is checked against this capacity where it is
    made, in the loop of fsverity_add_data_blocks.  The fields inode and vi
    are those of the one inode the definitions below are about. *)
Record fsverity_verification_context := {
  max_ra_pages : Z;
  pending_blocks : list fsverity_pending_block
}.

Definition num_pending (ctx : fsverity_verification_context) : Z :=
  Z.of_nat (length (pending_blocks ctx)).

(** One entry of the local array hblocks[] of verify_data_block. *)
Record hblock := {
  hb_page : Z;        (* index of the page containing the hash block *)
  hb_addr : bytes;    (* the bytes from the mapped address of the block on *)
  hb_index : Z;       (* index of the hash block in the tree overall *)
  hb_hoffset : Z      (* byte offset of the wanted hash relative to addr *)
}.

(** ** State and log *)

(** The memoization state: the PG_checked flag of every tree page (bit p of
    [pg_checked] is the flag of page p) and vi->hash_block_verified, absent
    ([None]) when the tree block size equals the page size.  With it, the
    static flags in which the WARN_ON_ONCE call sites remember that they
    have warned (bit k of [warned] is the flag of call site k). *)
Record vstate := {
  pg_checked : Z;
  hash_block_verified : option Z;
  warned : Z
}.

Inductive diag :=
| ErrPastEOF
| ErrReadPage (hpage_idx : Z)
| ErrCorrupted (data_pos level : Z) (want real : bytes)
| ErrImport (err : Z)
| ErrFinup.

Inductive event :=
| EvReadPage (idx ra : Z) (ok : bool)
| EvKmap (v : view)
| EvKunmap (v : view)
| EvPutPage (idx : Z)
| EvPageChecked (idx : Z)
| EvSetPageChecked (idx : Z)
| EvTestBit (i : Z)
| EvSetBit (i : Z)
| EvClearBit (i : Z)
| EvRmb
| EvWmb
| EvShashSetup (import : bool)
| EvFinupMb (n : Z)
| EvHashBlock
| EvErr (d : diag)
| EvWarn
| EvOutOfBounds (i : Z).

Definition M (A : Type) : Type := vstate -> A * vstate * list event.

Definition ret {A} (a : A) : M A := fun s => (a, s, []).

Definition bind {A B} (m : M A) (k : A -> M B) : M B :=
  fun s =>
    let '(a, s1, e1) := m s in
    let '(b, s2, e2) := k a s1 in
    (b, s2, e1 ++ e2).

Definition emit (e : event) : M unit := fun s => (tt, s, [e]).

Declare Scope verity_scope.
Delimit Scope verity_scope with verity.
Notation "x <- m ;; k" := (bind m (fun x => k))
  (at level 61, m at next level, right associativity) : verity_scope.
Notation "m ;;; k" := (bind m (fun _ => k))
  (at level 61, right associativity) : verity_scope.
Local Open Scope verity_scope.

(** *** Page flags, bitmap and barriers *)

Definition PageChecked (p : Z) : M bool :=
  fun s => (Z.testbit (pg_checked s) p, s, [EvPageChecked p]).

Definition SetPageChecked (p : Z) : M unit :=
  fun s => (tt,
            {| pg_checked := Z.setbit (pg_checked s) p;
               hash_block_verified := hash_block_verified s;
               warned := warned s |},
            [EvSetPageChecked p]).

Definition bitmap_present : M bool :=
  fun s => (match hash_block_verified s with Some _ => true | None => false end,
            s, []).

Definition test_bit (i : Z) : M bool :=
  fun s => (match hash_block_verified s with
            | Some bm => Z.testbit bm i
            | None => false
            end, s, [EvTestBit i]).

Definition set_bit (i : Z) : M unit :=
  fun s => (tt,
            {| pg_checked := pg_checked s;
               hash_block_verified :=
                 option_map (fun bm => Z.setbit bm i) (hash_block_verified s);
               warned := warned s |},
            [EvSetBit i]).

Definition clear_bit (i : Z) : M unit :=
  fun s => (tt,
            {| pg_checked := pg_checked s;
               hash_block_verified :=
                 option_map (fun bm => Z.clearbit bm i) (hash_block_verified s);
               warned := warned s |},
            [EvClearBit i]).

Definition smp_rmb : M unit := emit EvRmb.
Definition smp_wmb : M unit := emit EvWmb.

(** *** Warnings *)

(** The state once call site [site] has warned. *)
Definition set_warned (site : Z) (s : vstate) : vstate :=
  {| pg_checked := pg_checked s;
     hash_block_verified := hash_block_verified s;
     warned := Z.setbit (warned s) site |}.

(** WARN_ON_ONCE(condition) at call site [site].  The macro is defined
    outside these sources (include/asm-generic/bug.h): it evaluates to its
    condition and, when the condition holds, warns unless this call site
    has warned before, which it remembers in a static flag. *)
Definition WARN_ON_ONCE (site : Z) (condition : bool) : M bool :=
  fun s =>
    if condition then
      if Z.testbit (warned s) site then (true, s, [])
      else (true, set_warned site s, [EvWarn])
    else (false, s, []).

(** round_down(x, y) for a power of two y: x & ~(y - 1), on unsigned long. *)
Definition round_down (x y : Z) : Z := u64 (Z.land x (Z.lnot (y - 1))).

(** for (i = 0; i < blocks_per_page; i++) clear_bit(hblock_idx + i, ...),
    with [n] the iterations left. *)
Fixpoint clear_bits (n : nat) (hblock_idx i : Z) : M unit :=
  match n with
  | O => ret tt
  | S n' => clear_bit (u64 (hblock_idx + i)) ;;; clear_bits n' hblock_idx (i + 1)
  end.

Section Verifier.

Variable K : kernel.
Variable inode : inode_t.

Let vi := i_verity_info inode.
Let params := tree_params vi.

Definition PAGE_SIZE : Z := 2 ^ PAGE_SHIFT K.

(** is_hash_block_verified(vi, hpage, hblock_idx); the page is named by its
    index in the tree. *)
Definition is_hash_block_verified (hpage hblock_idx : Z) : M bool :=
  has <- bitmap_present ;;
  if negb has then PageChecked hpage
  else
    c <- PageChecked hpage ;;
    if c then
      smp_rmb ;;; test_bit hblock_idx
    else
      let bpp := blocks_per_page params in
      let hblock_idx := round_down hblock_idx bpp in
      clear_bits (Z.to_nat bpp) hblock_idx 0 ;;;
      smp_wmb ;;;
      SetPageChecked hpage ;;;
      ret false.

(** *** Calls into the page cache, kmap and the crypto layer *)

Definition call_read_merkle_tree_page (hpage_idx ra : Z) : M (option bytes) :=
  fun s =>
    let r := read_merkle_tree_page inode hpage_idx ra in
    (r, s, [EvReadPage hpage_idx ra
              (match r with Some _ => true | None => false end)]).

Definition kmap_local (v : view) : M unit := emit (EvKmap v).
Definition kunmap_local (v : view) : M unit := emit (EvKunmap v).
Definition put_page (hpage : Z) : M unit := emit (EvPutPage hpage).
Definition fsverity_err (d : diag) : M unit := emit (EvErr d).

(** fsverity_hash_block(params, inode, data, out): the hash of the
    block_size bytes at [data], or a failure. *)
Definition fsverity_hash_block (data : bytes) : M (option bytes) :=
  emit EvHashBlock ;;;
  ret (tfm (hash_alg params) (firstn (Z.to_nat (block_size params)) data)).

(** Lines 241-244: mark the hash block as verified. *)
Definition mark_verified (hpage hblock_idx : Z) : M unit :=
  has <- bitmap_present ;;
  if has then set_bit hblock_idx else SetPageChecked hpage.

(** The unwinding loop at the label error:, over the entries still held,
    hblocks[level - 1] first. *)
Fixpoint release_hblocks (held : list hblock) : M unit :=
  match held with
  | [] => ret tt
  | hb :: rest =>
      kunmap_local (VPage (hb_page hb)) ;;;
      put_page (hb_page hb) ;;;
      release_hblocks rest
  end.

(** How the ascent loop is left: through goto error, through goto descend
    with the wanted hash copied from a verified block, or at its end with the
    root hash wanted.  [held] is hblocks[0 .. level - 1] as a stack, its head
    being hblocks[level - 1]. *)
Inductive ascent :=
| AscError (level : Z) (held : list hblock)
| AscDescend (level : Z) (want_hash : bytes) (held : list hblock).

Section Walk.

Variable dblock : fsverity_pending_block.
Variable max_ra : Z.

Let data_pos := pos dblock.
Let hsize := digest_size params.

(** The loop  for (level = 0; level < params->num_levels; level++),
    with [n] the iterations left. *)
Fixpoint ascend (n : nat) (level hidx : Z) (held : list hblock) : M ascent :=
  match n with
  | O => ret (AscDescend level (root_hash vi) held)
  | S n' =>
      let next_hidx := Z.shiftr hidx (log_arity params) in
      let hblock_idx :=
        u64 (nth (Z.to_nat level) (level_start params) 0 + next_hidx) in
      let hpage_idx := Z.shiftr hblock_idx (log_blocks_per_page params) in
      let hblock_offset_in_page :=
        u32 (Z.land (u64 (Z.shiftl hblock_idx (log_blocksize params)))
                    (PAGE_SIZE - 1)) in
      let hoffset :=
        u32 (Z.land (u64 (Z.shiftl hidx (log_digestsize params)))
                    (u32 (block_size params - 1))) in
      r <- call_read_merkle_tree_page hpage_idx
             (if level =? 0
              then Z.min max_ra (u64 (tree_pages params - hpage_idx))
              else 0) ;;
      match r with
      | None =>
          fsverity_err (ErrReadPage hpage_idx) ;;;
          ret (AscError level held)
      | Some page_bytes =>
          kmap_local (VPage hpage_idx) ;;;
          let haddr := skipn (Z.to_nat hblock_offset_in_page) page_bytes in
          v <- is_hash_block_verified hpage_idx hblock_idx ;;
          if v then
            let want_hash := memcpy_from haddr hoffset hsize in
            kunmap_local (VPage hpage_idx) ;;;
            put_page hpage_idx ;;;
            ret (AscDescend level want_hash held)
          else
            ascend n' (level + 1) next_hidx
              ({| hb_page := hpage_idx; hb_addr := haddr;
                  hb_index := hblock_idx; hb_hoffset := hoffset |} :: held)
      end
  end.

(** The descent loop  for (; level > 0; level--)  followed by the check of
    the data block's hash, with the exits through corrupted: and error:. *)
Fixpoint descend (held : list hblock) (level : Z) (want_hash : bytes) : M bool :=
  match held with
  | hb :: rest =>
      r <- fsverity_hash_block (hb_addr hb) ;;
      match r with
      | None => release_hblocks held ;;; ret false
      | Some real =>
          if negb (memcmp_eq want_hash real hsize) then
            fsverity_err (ErrCorrupted data_pos (level - 1) want_hash real) ;;;
            release_hblocks held ;;;
            ret false
          else
            mark_verified (hb_page hb) (hb_index hb) ;;;
            let want_hash := memcpy_from (hb_addr hb) (hb_hoffset hb) hsize in
            kunmap_local (VPage (hb_page hb)) ;;;
            put_page (hb_page hb) ;;;
            descend rest (level - 1) want_hash
      end
  | [] =>
      if negb (memcmp_eq want_hash (real_hash dblock) hsize) then
        fsverity_err (ErrCorrupted data_pos (level - 1) want_hash
                        (real_hash dblock)) ;;;
        ret false
      else ret true
  end.

(** verify_data_block(inode, vi, dblock, max_ra_pages) *)
Definition verify_data_block : M bool :=
  let hidx := Z.shiftr data_pos (log_blocksize params) in
  if u64 (i_size inode) <=? data_pos then
    if memchr_inv0 (data dblock) (block_size params) then
      fsverity_err ErrPastEOF ;;; ret false
    else ret true
  else
    a <- ascend (Z.to_nat (num_levels params)) 0 hidx [] ;;
    match a with
    | AscError level held => release_hblocks held ;;; ret false
    | AscDescend level want_hash held => descend held level want_hash
    end.

End Walk.

(** *** The verification context *)

(** fsverity_init_verification_context(ctx, inode, max_ra_pages) *)
Definition fsverity_init_verification_context (max_ra : Z)
  : fsverity_verification_context :=
  {| max_ra_pages := max_ra; pending_blocks := [] |}.

Fixpoint kunmap_views (vs : list view) : M unit :=
  match vs with
  | [] => ret tt
  | v :: vs' => kunmap_local v ;;; kunmap_views vs'
  end.

(** fsverity_clear_pending_blocks(ctx): unmaps pending_blocks[num_pending - 1]
    down to pending_blocks[0], then sets num_pending to 0. *)
Definition fsverity_clear_pending_blocks (ctx : fsverity_verification_context)
  : M fsverity_verification_context :=
  kunmap_views (map data_view (rev (pending_blocks ctx))) ;;;
  ret {| max_ra_pages := max_ra_pages ctx; pending_blocks := [] |}.

(** Modelled from the spec: crypto_shash_finup_mb is not part of these
    sources; the design description gives it the semantics of as many
    independent block hashes, failing as a whole. *)
Fixpoint crypto_shash_finup_mb (datas : list bytes) : option (list bytes) :=
  match datas with
  | [] => Some []
  | d :: ds =>
      match tfm (hash_alg params) (firstn (Z.to_nat (block_size params)) d),
            crypto_shash_finup_mb ds with
      | Some h, Some hs => Some (h :: hs)
      | _, _ => None
      end
  end.

Definition set_real_hash (b : fsverity_pending_block) (h : bytes)
  : fsverity_pending_block :=
  {| data_view := data_view b; data := data b; pos := pos b; real_hash := h |}.

(** real_hashes[i] = ctx->pending_blocks[i].real_hash, filled by the hash. *)
Fixpoint store_real_hashes (bs : list fsverity_pending_block) (hs : list bytes)
  : list fsverity_pending_block :=
  match bs, hs with
  | b :: bs', h :: hs' => set_real_hash b h :: store_real_hashes bs' hs'
  | _, _ => bs
  end.

(** The loop over the pending blocks of fsverity_verify_pending_blocks,
    which returns false at the first block that does not verify. *)
Fixpoint verify_each (max_ra : Z) (bs : list fsverity_pending_block) : M bool :=
  match bs with
  | [] => ret true
  | b :: bs' =>
      ok <- verify_data_block b max_ra ;;
      if ok then verify_each max_ra bs' else ret false
  end.

(** fsverity_verify_pending_blocks(ctx) *)
Definition fsverity_verify_pending_blocks (ctx : fsverity_verification_context)
  : M (bool * fsverity_verification_context) :=
  if num_pending ctx =? 0 then ret (true, ctx)
  else
    emit (EvShashSetup (hashstate params)) ;;;
    let err := shash_setup_err (hash_alg params) in
    if negb (err =? 0) then
      fsverity_err (ErrImport err) ;;; ret (false, ctx)
    else
      emit (EvFinupMb (num_pending ctx)) ;;;
      match crypto_shash_finup_mb (map data (pending_blocks ctx)) with
      | None => fsverity_err ErrFinup ;;; ret (false, ctx)
      | Some hs =>
          let ctx :=
            {| max_ra_pages := max_ra_pages ctx;
               pending_blocks := store_real_hashes (pending_blocks ctx) hs |} in
          ok <- verify_each (max_ra_pages ctx) (pending_blocks ctx) ;;
          if ok then
            ctx <- fsverity_clear_pending_blocks ctx ;;
            ret (true, ctx)
          else ret (false, ctx)
      end.

(** IS_ALIGNED(x, a) on size_t *)
Definition IS_ALIGNED (x a : Z) : bool := Z.land x (u64 (a - 1)) =? 0.

(** The store into ctx->pending_blocks[i] (lines 356-358).  The array ends
    at index FS_VERITY_MAX_PENDING_DATA_BLOCKS - 1; a store past its end,
    which C leaves undefined, is recorded in the log. *)
Definition store_pending (i : Z) : M unit :=
  if i <? FS_VERITY_MAX_PENDING_DATA_BLOCKS K then ret tt
  else emit (EvOutOfBounds i).

(** The do-while loop of fsverity_add_data_blocks.  [fuel] bounds the number
    of iterations; [None] is returned when it runs out.  The real_hash of a
    queued block is not meaningful before the batch is hashed. *)
Fixpoint add_data_blocks_loop (fuel : nat) (data_folio : folio) (fpos : Z)
    (ctx : fsverity_verification_context) (len offset : Z)
  : M (option (bool * fsverity_verification_context)) :=
  match fuel with
  | O => ret None
  | S fuel' =>
      let v := VFolio (folio_index data_folio) offset in
      kmap_local v ;;;
      store_pending (num_pending ctx) ;;;
      let b := {| data_view := v;
                  data := skipn (Z.to_nat offset) (folio_bytes data_folio);
                  pos := u64 (fpos + offset);
                  real_hash := [] |} in
      let ctx := {| max_ra_pages := max_ra_pages ctx;
                    pending_blocks := pending_blocks ctx ++ [b] |} in
      r <- (if num_pending ctx =? mb_max_msgs (hash_alg params)
            then fsverity_verify_pending_blocks ctx
            else ret (true, ctx)) ;;
      let '(ok, ctx) := r in
      if negb ok then ret (Some (false, ctx))
      else
        let offset := u64 (offset + block_size params) in
        let len := u64 (len - block_size params) in
        if len =? 0 then ret (Some (true, ctx))
        else add_data_blocks_loop fuel' data_folio fpos ctx len offset
  end.

(** The WARN_ON_ONCE call sites of fsverity_add_data_blocks: the check of
    the range (line 350) and the check of the folio (line 352). *)
Definition warn_range : Z := 0.
Definition warn_folio : Z := 1.

(** fsverity_add_data_blocks(ctx, data_folio, len, offset) *)
Definition fsverity_add_data_blocks (ctx : fsverity_verification_context)
    (data_folio : folio) (len offset : Z)
  : M (option (bool * fsverity_verification_context)) :=
  let fpos := u64 (Z.shiftl (folio_index data_folio) (PAGE_SHIFT K)) in
  w <- WARN_ON_ONCE warn_range
         ((len <=? 0)
          || negb (IS_ALIGNED (Z.lor len offset) (block_size params))) ;;
  if w then ret (Some (false, ctx))
  else
    w <- WARN_ON_ONCE warn_folio
           (negb (folio_locked data_folio) || folio_uptodate data_folio) ;;
    if w then ret (Some (false, ctx))
    else
      add_data_blocks_loop (Z.to_nat (len / block_size params))
        data_folio fpos ctx len offset.

(** fsverity_verify_blocks(folio, len, offset) *)
Definition fsverity_verify_blocks (data_folio : folio) (len offset : Z)
  : M (option bool) :=
  let ctx := fsverity_init_verification_context 0 in
  r <- fsverity_add_data_blocks ctx data_folio len offset ;;
  match r with
  | None => ret None
  | Some (true, ctx) =>
      r <- fsverity_verify_pending_blocks ctx ;;
      let '(ok, ctx) := r in
      if ok then ret (Some true)
      else fsverity_clear_pending_blocks ctx ;;; ret (Some false)
  | Some (false, ctx) =>
      fsverity_clear_pending_blocks ctx ;;; ret (Some false)
  end.

(** The loop  bio_for_each_folio_all(fi, bio)  of fsverity_verify_bio, left
    with false at the first folio that cannot be added. *)
Fixpoint add_bio_folios (ctx : fsverity_verification_context)
    (segs : list (folio * Z * Z))
  : M (option (bool * fsverity_verification_context)) :=
  match segs with
  | [] => ret (Some (true, ctx))
  | (fi_folio, fi_length, fi_offset) :: segs' =>
      r <- fsverity_add_data_blocks ctx fi_folio fi_length fi_offset ;;
      match r with
      | None => ret None
      | Some (true, ctx) => add_bio_folios ctx segs'
      | Some (false, ctx) => ret (Some (false, ctx))
      end
  end.

Definition set_bi_status (b : bio) (st : Z) : bio :=
  {| bi_opf := bi_opf b; bi_size := bi_size b; bi_status := st;
     bi_segments := bi_segments b |}.

(** The label ioerr: of fsverity_verify_bio. *)
Definition bio_ioerr (b : bio) (ctx : fsverity_verification_context)
  : M (option bio) :=
  fsverity_clear_pending_blocks ctx ;;;
  ret (Some (set_bi_status b (BLK_STS_IOERR K))).

(** fsverity_verify_bio(bio): the bio as it is left.  The inode is that of
    the first folio of the bio, which has at least one segment. *)
Definition fsverity_verify_bio (b : bio) : M (option bio) :=
  let max_ra :=
    if negb (Z.land (bi_opf b) (REQ_RAHEAD K) =? 0)
    then Z.shiftr (bi_size b) (PAGE_SHIFT K + 2)
    else 0 in
  let ctx := fsverity_init_verification_context max_ra in
  r <- add_bio_folios ctx (bi_segments b) ;;
  match r with
  | None => ret None
  | Some (false, ctx) => bio_ioerr b ctx
  | Some (true, ctx) =>
      r <- fsverity_verify_pending_blocks ctx ;;
      let '(ok, ctx) := r in
      if ok then ret (Some b) else bio_ioerr b ctx
  end.

End Verifier.

(** ** Notions used in the statements *)

Section Notions.

Variable K : kernel.
Variable inode : inode_t.

Let vi := i_verity_info inode.
Let params := tree_params vi.

(** The state left by a computation, its result and its log. *)
Definition result_of {A} (r : A * vstate * list event) : A := fst (fst r).
Definition state_of {A} (r : A * vstate * list event) : vstate := snd (fst r).
Definition log_of {A} (r : A * vstate * list event) : list event := snd r.

(** The body of a data block is all zeroes. *)
Definition all_zero (body : bytes) : bool :=
  forallb (fun b => Byte.eqb b x00) body.

(** The block_size bytes a pending block stands for. *)
Definition body_of (b : fsverity_pending_block) : bytes :=
  firstn (Z.to_nat (block_size params)) (data b).

(** Page flag and bitmap bit as a reader finds them. *)
Definition page_flag (s : vstate) (p : Z) : bool := Z.testbit (pg_checked s) p.
Definition bitmap_bit (s : vstate) (i : Z) : bool :=
  match hash_block_verified s with
  | Some bm => Z.testbit bm i
  | None => false
  end.
Definition bitmap_mode (s : vstate) : Prop := hash_block_verified s <> None.

(** The tree-block indices that reside on page [p]. *)
Definition blocks_on_page (p : Z) : list Z :=
  map (fun i => p * blocks_per_page params + Z.of_nat i)
      (seq 0 (Z.to_nat (blocks_per_page params))).

(** The page geometry of the descriptor: blocks_per_page is the power of
    two that log_blocks_per_page names. *)
Definition pages_ok : Prop :=
  0 <= log_blocks_per_page params < 32 /\
  blocks_per_page params = 2 ^ log_blocks_per_page params.

(** What a context can hold: a pin on a tree page, or a local mapping. *)
Inductive resource :=
| RPin (idx : Z)
| RMap (v : view).

Definition view_eqb (v w : view) : bool :=
  match v, w with
  | VPage i, VPage j => i =? j
  | VFolio i o, VFolio j q => (i =? j) && (o =? q)
  | _, _ => false
  end.

(** The resources held after a log, given the stack [st] of those held
    before it, most recent first: a successful page read pins the page,
    kmap_local maps, and put_page and kunmap_local release.  The result is
    [None] when the log releases anything but the resource acquired last,
    so a log replayed to [Some st'] has released each resource it dropped
    exactly once and in the order kmap_local asks for. *)
Fixpoint held_after (evs : list event) (st : list resource)
  : option (list resource) :=
  match evs with
  | [] => Some st
  | EvReadPage idx _ true :: evs' => held_after evs' (RPin idx :: st)
  | EvKmap v :: evs' => held_after evs' (RMap v :: st)
  | EvKunmap v :: evs' =>
      match st with
      | RMap w :: st' => if view_eqb v w then held_after evs' st' else None
      | _ => None
      end
  | EvPutPage idx :: evs' =>
      match st with
      | RPin idx' :: st' => if idx =? idx' then held_after evs' st' else None
      | _ => None
      end
  | _ :: evs' => held_after evs' st
  end.

(** Events that neither acquire nor release. *)
Definition is_plain (e : event) : bool :=
  match e with
  | EvReadPage _ _ true | EvKmap _ | EvKunmap _ | EvPutPage _ => false
  | _ => true
  end.

(** Events a walk of the tree can log: anything but the hash setup, the
    multi-buffer hash, the warning, a store past the end of the queue and
    the mapping of data. *)
Definition is_walk_event (e : event) : bool :=
  match e with
  | EvShashSetup _ | EvFinupMb _ | EvWarn | EvOutOfBounds _ => false
  | EvKmap (VFolio _ _) | EvKunmap (VFolio _ _) => false
  | _ => true
  end.

(** The resources behind the entries of hblocks[], hblocks[level - 1] on
    top: each entry holds a mapping of a pinned page. *)
Definition hblock_resources (held : list hblock) : list resource :=
  flat_map (fun hb => [RMap (VPage (hb_page hb)); RPin (hb_page hb)]) held.

Definition ascent_held (a : ascent) : list hblock :=
  match a with
  | AscError _ held => held
  | AscDescend _ _ held => held
  end.

(** The mappings behind the pending blocks, the last one queued on top. *)
Definition pending_resources (bs : list fsverity_pending_block)
  : list resource :=
  map RMap (map data_view (rev bs)).

(** The walks of the blocks of a list, one after the other, with their
    verdicts. *)
Fixpoint walk_in_order (max_ra : Z) (bs : list fsverity_pending_block)
  : M (list bool) :=
  match bs with
  | [] => ret []
  | b :: bs' =>
      ok <- verify_data_block K inode b max_ra ;;
      oks <- walk_in_order max_ra bs' ;;
      ret (ok :: oks)
  end.

Definition count_finup (evs : list event) : nat :=
  length (filter (fun e => match e with EvFinupMb _ => true | _ => false end) evs).

(** One single-block verification: a context that holds this block alone is
    flushed. *)
Definition verify_single (max_ra : Z) (b : fsverity_pending_block) : M bool :=
  r <- fsverity_verify_pending_blocks K inode
         {| max_ra_pages := max_ra; pending_blocks := [b] |} ;;
  ret (fst r).

(** As many separate single-block verifications as there are blocks, all of
    them performed, in the order of the list; the read is accepted when each
    of them accepts. *)
Fixpoint verify_separately (max_ra : Z) (bs : list fsverity_pending_block)
  : M bool :=
  match bs with
  | [] => ret true
  | b :: bs' =>
      ok <- verify_single max_ra b ;;
      oks <- verify_separately max_ra bs' ;;
      ret (ok && oks)
  end.

(** The same separate verifications, given up at the first one that
    rejects. *)
Fixpoint verify_until_failure (max_ra : Z) (bs : list fsverity_pending_block)
  : M bool :=
  match bs with
  | [] => ret true
  | b :: bs' =>
      ok <- verify_single max_ra b ;;
      if ok then verify_until_failure max_ra bs' else ret false
  end.

(** Batch equivalence as the design description has it: same verdict and
    same memoization state, for every batch that fits the context. *)
Definition batch_equivalence : Prop :=
  forall (ctx : fsverity_verification_context) (s : vstate),
    num_pending ctx <= mb_max_msgs (hash_alg params) ->
    let batch := fsverity_verify_pending_blocks K inode ctx s in
    let sep := verify_separately (max_ra_pages ctx) (pending_blocks ctx) s in
    fst (result_of batch) = result_of sep /\
    state_of batch = state_of sep.

(** The fan-out and the height of the tree are not negative. *)
Definition levels_ok : Prop :=
  0 <= log_arity params /\ 0 <= num_levels params.

(** The block geometry of the descriptor: block_size is the power of two
    that log_blocksize names. *)
Definition blocks_ok : Prop :=
  0 <= log_blocksize params < 32 /\
  block_size params = 2 ^ log_blocksize params.

(** A length or offset is a size_t. *)
Definition is_size_t (x : Z) : Prop := 0 <= x < 2 ^ 64.

(** The verdict fsverity_verify_bio reaches, before it is written to the
    bio: every folio was added and the last batch flushed. *)
Definition bio_verified (b : bio) (s : vstate) : bool :=
  let max_ra :=
    if negb (Z.land (bi_opf b) (REQ_RAHEAD K) =? 0)
    then Z.shiftr (bi_size b) (PAGE_SHIFT K + 2)
    else 0 in
  let a := add_bio_folios K inode
             (fsverity_init_verification_context max_ra) (bi_segments b) s in
  match result_of a with
  | Some (true, ctx) =>
      fst (result_of (fsverity_verify_pending_blocks K inode ctx (state_of a)))
  | _ => false
  end.

(** The lengths of the segments of a bio are size_t values. *)
Definition bio_lengths_ok (b : bio) : Prop :=
  Forall (fun seg : folio * Z * Z => is_size_t (snd (fst seg))) (bi_segments b).

(** *** What a tree authenticates

    A tree is given by the bytes of its pages, [T idx] being page idx.  For
    the child number [hidx] of a level (a data block for level 0), the hash
    block that holds its digest, where that block lies and where in it the
    digest is: *)

Definition path_hblock_idx (level hidx : Z) : Z :=
  u64 (nth (Z.to_nat level) (level_start params) 0
       + Z.shiftr hidx (log_arity params)).

Definition path_hpage_idx (level hidx : Z) : Z :=
  Z.shiftr (path_hblock_idx level hidx) (log_blocks_per_page params).

Definition path_haddr (T : Z -> bytes) (level hidx : Z) : bytes :=
  skipn (Z.to_nat
           (u32 (Z.land (u64 (Z.shiftl (path_hblock_idx level hidx)
                                       (log_blocksize params)))
                        (PAGE_SIZE K - 1))))
        (T (path_hpage_idx level hidx)).

Definition path_hoffset (hidx : Z) : Z :=
  u32 (Z.land (u64 (Z.shiftl hidx (log_digestsize params)))
              (u32 (block_size params - 1))).

(** The digest that the tree authenticates for child [hidx] of level
    [level], [n] being the number of levels from this one up: the digest
    stored for that child, provided the hash block that stores it hashes to
    the digest authenticated for it in turn, up to the root hash.  [None]
    when the chain is broken or a hash cannot be computed. *)
Fixpoint authenticated (T : Z -> bytes) (n : nat) (level hidx : Z)
  : option bytes :=
  match n with
  | O => Some (root_hash vi)
  | S n' =>
      match authenticated T n' (level + 1) (Z.shiftr hidx (log_arity params)) with
      | None => None
      | Some want =>
          let haddr := path_haddr T level hidx in
          match tfm (hash_alg params)
                    (firstn (Z.to_nat (block_size params)) haddr) with
          | None => None
          | Some real =>
              if memcmp_eq want real (digest_size params)
              then Some (memcpy_from haddr (path_hoffset hidx)
                           (digest_size params))
              else None
          end
      end
  end.

Definition authenticated_digest (T : Z -> bytes) (position : Z)
  : option bytes :=
  authenticated T (Z.to_nat (num_levels params)) 0
    (Z.shiftr position (log_blocksize params)).

(** The tree authenticates [body] at [position]: the hash of the body is the
    digest authenticated there. *)
Definition authenticates (T : Z -> bytes) (position : Z) (body : bytes)
  : bool :=
  match authenticated_digest T position,
        tfm (hash_alg params) (firstn (Z.to_nat (block_size params)) body) with
  | Some want, Some real => memcmp_eq want real (digest_size params)
  | _, _ => false
  end.

(** The filesystem serves the pages of [T], when it serves any. *)
Definition serves (T : Z -> bytes) : Prop :=
  forall idx ra page_bytes,
    read_merkle_tree_page inode idx ra = Some page_bytes -> page_bytes = T idx.

(** The tree pages on the path of child [hidx] are read without error. *)
Fixpoint path_readable (T : Z -> bytes) (n : nat) (level hidx : Z) : Prop :=
  match n with
  | O => True
  | S n' =>
      (forall ra, read_merkle_tree_page inode (path_hpage_idx level hidx) ra
                  = Some (T (path_hpage_idx level hidx))) /\
      path_readable T n' (level + 1) (Z.shiftr hidx (log_arity params))
  end.

(** The answer is_hash_block_verified would give for a hash block. *)
Definition hblock_verified (s : vstate) (hblock_idx : Z) : bool :=
  let p := Z.shiftr hblock_idx (log_blocks_per_page params) in
  match hash_block_verified s with
  | None => page_flag s p
  | Some bm => page_flag s p && Z.testbit bm hblock_idx
  end.

(** Child [hidx] of level [level] lies on the path of a position within
    the file. *)
Definition on_path (level hidx : Z) : Prop :=
  exists position,
    0 <= position < i_size inode /\
    hidx = Z.shiftr (Z.shiftr position (log_blocksize params))
                    (level * log_arity params).

(** The tree authenticates hash block [b]: wherever [b] is the hash block of
    a path, the chain from the root down to it holds. *)
Definition hblock_authentic (T : Z -> bytes) (b : Z) : Prop :=
  forall level hidx,
    0 <= level < num_levels params ->
    on_path level hidx ->
    path_hblock_idx level hidx = b ->
    authenticated T (Z.to_nat (num_levels params - level)) level hidx <> None.

(** The memoization state marks only hash blocks that the tree
    authenticates. *)
Definition memo_sound (T : Z -> bytes) (s : vstate) : Prop :=
  forall b, hblock_verified s b = true -> hblock_authentic T b.

(** The levels of the tree do not overlap: a hash block on the path of a
    position within the file belongs to one level and has one index in it. *)
Definition levels_disjoint : Prop :=
  forall level hidx level' hidx',
    0 <= level < num_levels params -> 0 <= level' < num_levels params ->
    on_path level hidx -> on_path level' hidx' ->
    path_hblock_idx level hidx = path_hblock_idx level' hidx' ->
    level = level' /\
    Z.shiftr hidx (log_arity params) = Z.shiftr hidx' (log_arity params).

(** The page flag stands for a hash block only when the page holds one:
    without a bitmap, blocks_per_page is 1. *)
Definition encoding_ok (s : vstate) : Prop :=
  hash_block_verified s = None -> log_blocks_per_page params = 0.

(** The held blocks may be marked as the descent does it: when the block on
    top hashes to the digest wanted of it, the tree authenticates it, and
    the same goes on below with the digest it stores. *)
Fixpoint held_justified (T : Z -> bytes) (held : list hblock) (want : bytes)
  : Prop :=
  match held with
  | [] => True
  | hb :: rest =>
      forall real,
        tfm (hash_alg params)
            (firstn (Z.to_nat (block_size params)) (hb_addr hb)) = Some real ->
        memcmp_eq want real (digest_size params) = true ->
        hblock_authentic T (hb_index hb) /\
        held_justified T rest
          (memcpy_from (hb_addr hb) (hb_hoffset hb) (digest_size params))
  end.

(** The hash of the body of a pending block is in its real_hash, as the
    flush leaves it. *)
Definition hashed (b : fsverity_pending_block) : Prop :=
  tfm (hash_alg params) (body_of b) = Some (real_hash b).

(** Soundness as the design description has it: for a tree served by the
    filesystem, a sound memoization state and a hashed block, verification
    succeeds exactly when the tree authenticates the body at the position
    of the block, or the block is past the end of the file and all zero. *)
Definition soundness_as_stated : Prop :=
  forall (T : Z -> bytes) (dblock : fsverity_pending_block) (max_ra : Z)
         (s : vstate),
    serves T -> memo_sound T s -> hashed dblock ->
    (result_of (verify_data_block K inode dblock max_ra s) = true <->
     (pos dblock < i_size inode /\
      authenticates T (pos dblock) (data dblock) = true) \/
     (i_size inode <= pos dblock /\ all_zero (body_of dblock) = true)).

(** The digest the descent reaches from [want] through the held blocks, the
    topmost first: each block must hash to the digest wanted of it and
    yields the next wanted digest. *)
Fixpoint chain_digest (held : list hblock) (want : bytes) : option bytes :=
  match held with
  | [] => Some want
  | hb :: rest =>
      match tfm (hash_alg params)
                (firstn (Z.to_nat (block_size params)) (hb_addr hb)) with
      | None => None
      | Some real =>
          if memcmp_eq want real (digest_size params)
          then chain_digest rest
                 (memcpy_from (hb_addr hb) (hb_hoffset hb) (digest_size params))
          else None
      end
  end.

(** An entry of hblocks[] names a hash block and its page; with the bitmap
    in use the page has been seen by is_hash_block_verified. *)
Definition held_ok (s : vstate) (hb : hblock) : Prop :=
  0 <= hb_index hb /\
  hb_page hb = Z.shiftr (hb_index hb) (log_blocks_per_page params) /\
  (bitmap_mode s -> page_flag s (hb_page hb) = true).


(** *** The marks of a walk *)

(** The memoization state after the update that an event records: a flag
    set, a bit set, a bit cleared; any other event leaves it as it is. *)
Definition memo_step (s : vstate) (e : event) : vstate :=
  match e with
  | EvSetPageChecked p => state_of (SetPageChecked p s)
  | EvSetBit i => state_of (set_bit i s)
  | EvClearBit i => state_of (clear_bit i s)
  | _ => s
  end.

(** The memoization state after the updates of a log, in its order. *)
Definition memo_after (evs : list event) (s : vstate) : vstate :=
  fold_left memo_step evs s.

(** Every bit that the log sets, from state [s] on, is the bit of a hash
    block whose page has its flag set by then. *)
Fixpoint marks_on_flagged_pages (evs : list event) (s : vstate) : Prop :=
  match evs with
  | [] => True
  | e :: evs' =>
      match e with
      | EvSetBit b =>
          0 <= b /\
          page_flag s (Z.shiftr b (log_blocks_per_page params)) = true
      | _ => True
      end /\
      marks_on_flagged_pages evs' (memo_step s e)
  end.

(** No bit is set in the log. *)
Definition no_set_bit (evs : list event) : bool :=
  forallb (fun e => match e with EvSetBit _ => false | _ => true end) evs.

(** *** The queue of pending blocks *)

(** What the store into entry [i] of the queue logs: nothing when the array
    has that entry. *)
Definition store_log (i : Z) : list event :=
  if i <? FS_VERITY_MAX_PENDING_DATA_BLOCKS K then [] else [EvOutOfBounds i].

(** No store recorded in the log went past the end of the queue. *)
Definition in_bounds (evs : list event) : bool :=
  forallb (fun e => match e with EvOutOfBounds _ => false | _ => true end) evs.

(** The batch size suits the queue: at least one block, and no more blocks
    than the array of pending blocks has entries. *)
Definition batch_size_ok : Prop :=
  1 <= mb_max_msgs (hash_alg params) <= FS_VERITY_MAX_PENDING_DATA_BLOCKS K.

(** *** What a log shows *)

(** The readahead asked of the filesystem with each tree page read, in the
    order of the reads. *)
Definition readahead_of (evs : list event) : list Z :=
  flat_map (fun e => match e with EvReadPage _ ra _ => [ra] | _ => [] end) evs.

(** The tree pages read, successfully or not. *)
Definition pages_read (evs : list event) : list Z :=
  flat_map (fun e => match e with EvReadPage idx _ _ => [idx] | _ => [] end) evs.

(** The number of tree blocks hashed by fsverity_hash_block. *)
Definition count_hash_block (evs : list event) : nat :=
  length (filter (fun e => match e with EvHashBlock => true | _ => false end) evs).

(** Some read of a tree page failed. *)
Definition read_failed (evs : list event) : bool :=
  existsb (fun e => match e with EvReadPage _ _ false => true | _ => false end)
          evs.

(** Diagnostics: fsverity_err and the warning. *)
Definition is_diag (e : event) : bool :=
  match e with EvErr _ | EvWarn => true | _ => false end.

(** Events of the memoization layer: tests and updates of the page flags
    and of the bitmap, and the barriers between them. *)
Definition is_memo_event (e : event) : bool :=
  match e with
  | EvPageChecked _ | EvSetPageChecked _ | EvTestBit _ | EvSetBit _
  | EvClearBit _ | EvRmb | EvWmb => true
  | _ => false
  end.

Definition is_read (e : event) : bool :=
  match e with EvReadPage _ _ _ => true | _ => false end.

Definition no_diag (evs : list event) : bool :=
  forallb (fun e => negb (is_diag e)) evs.

(** fsverity_err has been called. *)
Definition has_err (evs : list event) : bool :=
  existsb (fun e => match e with EvErr _ => true | _ => false end) evs.

(** The readahead a walk asks for with its first read, that of the page of
    the leaf hash block of the data block at [position]. *)
Definition leaf_readahead (max_ra position : Z) : Z :=
  Z.min max_ra
    (u64 (tree_pages params
          - Z.shiftr (u64 (nth 0%nat (level_start params) 0
                           + Z.shiftr (Z.shiftr position (log_blocksize params))
                                      (log_arity params)))
                     (log_blocks_per_page params))).

(** The readahead asked with a read is between 0 and [m]. *)
Definition ra_within (m : Z) (e : event) : bool :=
  match e with
  | EvReadPage _ ra _ => (0 <=? ra) && (ra <=? m)
  | _ => true
  end.

(** The tree pages on the path of every position within the file are read
    without error, and are those of [T]. *)
Definition tree_readable (T : Z -> bytes) : Prop :=
  forall position,
    0 <= position < i_size inode ->
    path_readable T (Z.to_nat (num_levels params)) 0
      (Z.shiftr position (log_blocksize params)).

(** *** The blocks of a range *)

(** The data blocks of a range of a folio as fsverity_add_data_blocks
    queues them: [n] blocks from [offset] on, one block_size apart, not yet
    hashed. *)
Fixpoint range_blocks (n : nat) (data_folio : folio) (fpos offset : Z)
  : list fsverity_pending_block :=
  match n with
  | O => []
  | S n' =>
      {| data_view := VFolio (folio_index data_folio) offset;
         data := skipn (Z.to_nat offset) (folio_bytes data_folio);
         pos := u64 (fpos + offset);
         real_hash := [] |}
      :: range_blocks n' data_folio fpos (u64 (offset + block_size params))
  end.

(** The len / block_size blocks of the range (len, offset) of a folio. *)
Definition folio_blocks (data_folio : folio) (len offset : Z)
  : list fsverity_pending_block :=
  range_blocks (Z.to_nat (len / block_size params)) data_folio
    (u64 (Z.shiftl (folio_index data_folio) (PAGE_SHIFT K))) offset.

(** The checks of fsverity_add_data_blocks on its arguments: the length is
    positive, length and offset are aligned to the block size, and the
    folio is locked and not yet uptodate. *)
Definition range_valid (data_folio : folio) (len offset : Z) : bool :=
  negb ((len <=? 0)
        || negb (IS_ALIGNED (Z.lor len offset) (block_size params)))
  && negb (negb (folio_locked data_folio) || folio_uptodate data_folio).

(** The blocks of the segments of a bio in the order of the bio, provided
    every segment passes the checks. *)
Fixpoint bio_blocks (segs : list (folio * Z * Z))
  : option (list fsverity_pending_block) :=
  match segs with
  | [] => Some []
  | (fi_folio, fi_length, fi_offset) :: segs' =>
      if range_valid fi_folio fi_length fi_offset
      then option_map (app (folio_blocks fi_folio fi_length fi_offset))
                      (bio_blocks segs')
      else None
  end.

(** What the tree says about a block: a block within the file is
    authenticated at its position, a block at or past the end of the file
    is all zeroes. *)
Definition block_ok (T : Z -> bytes) (b : fsverity_pending_block) : bool :=
  if i_size inode <=? pos b then all_zero (body_of b)
  else authenticates T (pos b) (data b).

(** The crypto layer does not fail: the hash state is set up and every
    block can be hashed. *)
Definition crypto_ok : Prop :=
  shash_setup_err (hash_alg params) = 0 /\
  forall body, tfm (hash_alg params) body <> None.

(** The same file on a device that serves every page of [T]. *)
Definition served_by (T : Z -> bytes) : inode_t :=
  {| i_size := i_size inode;
     i_verity_info := i_verity_info inode;
     read_merkle_tree_page := fun idx _ => Some (T idx) |}.

(** The same file with another batch size: mb_max_msgs is [m], everything
    else is as it was. *)
Definition with_batch_size (m : Z) : inode_t :=
  {| i_size := i_size inode;
     i_verity_info :=
       {| tree_params :=
            {| hash_alg :=
                 {| tfm := tfm (hash_alg params);
                    shash_setup_err := shash_setup_err (hash_alg params);
                    mb_max_msgs := m |};
               hashstate := hashstate params;
               digest_size := digest_size params;
               block_size := block_size params;
               log_digestsize := log_digestsize params;
               log_blocksize := log_blocksize params;
               log_arity := log_arity params;
               log_blocks_per_page := log_blocks_per_page params;
               blocks_per_page := blocks_per_page params;
               num_levels := num_levels params;
               tree_pages := tree_pages params;
               level_start := level_start params |};
          root_hash := root_hash vi |};
     read_merkle_tree_page := read_merkle_tree_page inode |}.

End Notions.

(** ** Scenarios

    Concrete files and trees on which the definitions are run.  The block
    hash is a polynomial checksum, which stands in for the salted SHA-2 of
    the kernel. *)

Module Scenario.

Definition byte_of (n : N) : byte :=
  match Byte.of_N (n mod 256)%N with Some b => b | None => x00 end.

(** One pass over the bytes. *)
Definition checksum_state (bs : bytes) : N :=
  fold_left (fun acc b => (acc * 131 + Byte.to_N b + 1) mod 4294967291)%N bs 7%N.

(** Byte [i] of the digest, from the state the pass ends in. *)
Definition checksum_byte (st i : N) : byte :=
  byte_of (((st + i) * (2 * i + 1)) / 256)%N.

Definition checksum (hsize : nat) (bs : bytes) : option bytes :=
  let st := checksum_state bs in
  Some (map (fun i => checksum_byte st (N.of_nat i)) (seq 0 hsize)).

Definition digest_of (hsize : nat) (bs : bytes) : bytes :=
  match checksum hsize bs with Some h => h | None => [] end.

(** A tree block: the digests of its children, padded with zeroes. *)
Definition tree_block (bsize : nat) (digests : list bytes) : bytes :=
  firstn bsize (concat digests ++ repeat x00 bsize).

Definition alg (hsize : nat) (mb : Z) : fsverity_hash_alg :=
  {| tfm := checksum hsize; shash_setup_err := 0; mb_max_msgs := mb |}.

Definition linux : kernel :=
  {| PAGE_SHIFT := 12; REQ_RAHEAD := 2 ^ 19; BLK_STS_IOERR := 10;
     FS_VERITY_MAX_PENDING_DATA_BLOCKS := 2 |}.

(** *** S1 and S2: 4096-byte blocks, 32-byte digests, two data blocks *)

Definition s1_params : merkle_tree_params :=
  {| hash_alg := alg 32 2; hashstate := true;
     digest_size := 32; block_size := 4096;
     log_digestsize := 5; log_blocksize := 12; log_arity := 7;
     log_blocks_per_page := 0; blocks_per_page := 1;
     num_levels := 1; tree_pages := 1; level_start := [0] |}.

Definition s1_block0 : bytes := repeat x41 4096.
Definition s1_block1 : bytes := repeat x42 4096.

Definition s1_leaf : bytes :=
  tree_block 4096 [digest_of 32 s1_block0; digest_of 32 s1_block1].

Definition s1_inode : inode_t :=
  {| i_size := 8192;
     i_verity_info :=
       {| tree_params := s1_params; root_hash := digest_of 32 s1_leaf |};
     read_merkle_tree_page :=
       fun idx _ => if idx =? 0 then Some s1_leaf else None |}.

(** No tree page checked yet, no bitmap (block size = page size). *)
Definition fresh_A : vstate :=
  {| pg_checked := 0; hash_block_verified := None; warned := 0 |}.

Definition s1_folio (index : Z) (body : bytes) : folio :=
  {| folio_index := index; folio_locked := true; folio_uptodate := false;
     folio_bytes := body |}.



(** *** A small tree: 4-byte blocks, 2-byte digests, arity 2, two levels

    Data blocks 0..3; tree block 0 is the top block, tree blocks 1 and 2
    are the leaf hash blocks.  With 4-byte pages every tree block has its
    own page; with 8-byte pages two blocks share a page and the bitmap is
    in use. *)

Definition t_params (log_bpp : Z) : merkle_tree_params :=
  {| hash_alg := alg 2 2; hashstate := false;
     digest_size := 2; block_size := 4;
     log_digestsize := 1; log_blocksize := 2; log_arity := 1;
     log_blocks_per_page := log_bpp; blocks_per_page := 2 ^ log_bpp;
     num_levels := 2; tree_pages := Z.shiftr 4 log_bpp;
     level_start := [1; 0] |}.

Definition t_data (i : Z) : bytes :=
  match i with
  | 0 => [x10; x11; x12; x13]
  | 1 => [x20; x21; x22; x23]
  | 2 => [x30; x31; x32; x33]
  | 3 => [x40; x41; x42; x43]
  | _ => []
  end.

Definition t_leaf (i : Z) : bytes :=
  tree_block 4 [digest_of 2 (t_data (2 * i)); digest_of 2 (t_data (2 * i + 1))].

Definition t_top : bytes :=
  tree_block 4 [digest_of 2 (t_leaf 0); digest_of 2 (t_leaf 1)].

(** The tree blocks in storage order. *)
Definition t_blocks : list bytes := [t_top; t_leaf 0; t_leaf 1].

(** Tree page [idx] for pages of 2 ^ log_bpp blocks. *)
Definition t_page (log_bpp idx : Z) : bytes :=
  concat (firstn (Z.to_nat (2 ^ log_bpp))
            (skipn (Z.to_nat (idx * 2 ^ log_bpp)) t_blocks)).

Definition t_vi (log_bpp : Z) : fsverity_info :=
  {| tree_params := t_params log_bpp; root_hash := digest_of 2 t_top |}.

Definition t_inode (log_bpp : Z) : inode_t :=
  {| i_size := 16;
     i_verity_info := t_vi log_bpp;
     read_merkle_tree_page :=
       fun idx _ => if (0 <=? idx) && (idx <? Z.shiftr 4 log_bpp)
                    then Some (t_page log_bpp idx) else None |}.

(** The same file with a crypto layer that fails on the body of data
    block 2. *)
Definition t_inode_hash_fails : inode_t :=
  {| i_size := 16;
     i_verity_info :=
       {| tree_params :=
            {| hash_alg :=
                 {| tfm := fun bs => if bytes_eqb bs (t_data 2) then None
                                     else checksum 2 bs;
                    shash_setup_err := 0; mb_max_msgs := 2 |};
               hashstate := false;
               digest_size := 2; block_size := 4;
               log_digestsize := 1; log_blocksize := 2; log_arity := 1;
               log_blocks_per_page := 0; blocks_per_page := 1;
               num_levels := 2; tree_pages := 4;
               level_start := [1; 0] |};
          root_hash := digest_of 2 t_top |};
     read_merkle_tree_page :=
       fun idx _ => if (0 <=? idx) && (idx <? 4)
                    then Some (t_page 0 idx) else None |}.

(** The same file on a device that has lost the page of the top block:
    tree page 0 cannot be read, the pages of the leaf hash blocks can. *)
Definition t_inode_top_eio : inode_t :=
  {| i_size := 16;
     i_verity_info := t_vi 0;
     read_merkle_tree_page :=
       fun idx _ => if (1 <=? idx) && (idx <? 4)
                    then Some (t_page 0 idx) else None |}.

(** The same file on a device whose tree pages cannot be read. *)
Definition t_inode_eio (log_bpp : Z) : inode_t :=
  {| i_size := 16;
     i_verity_info := t_vi log_bpp;
     read_merkle_tree_page := fun _ _ => None |}.

Definition small (log_bpp : Z) : kernel :=
  {| PAGE_SHIFT := 2 + log_bpp; REQ_RAHEAD := 2 ^ 19; BLK_STS_IOERR := 10;
     FS_VERITY_MAX_PENDING_DATA_BLOCKS := 2 |}.

(** No tree page seen yet; the bitmap is allocated and empty. *)
Definition fresh_B : vstate :=
  {| pg_checked := 0; hash_block_verified := Some 0; warned := 0 |}.

Definition t_dblock (i : Z) (body : bytes) : fsverity_pending_block :=
  {| data_view := VFolio 0 (4 * i); data := body; pos := 4 * i;
     real_hash := digest_of 2 body |}.

(** The whole file in one folio. *)
Definition t_folio : folio :=
  {| folio_index := 0; folio_locked := true; folio_uptodate := false;
     folio_bytes := t_data 0 ++ t_data 1 ++ t_data 2 ++ t_data 3 |}.

(** A block of zeroes right at the end of the small file. *)
Definition eof_block : fsverity_pending_block :=
  {| data_view := VFolio 1 0; data := [x00; x00; x00; x00]; pos := 16;
     real_hash := [] |}.

(** Data block 0 of the small file with its first byte altered. *)
Definition t_bad0 : bytes := [x11; x11; x12; x13].

(** The whole file in one folio, with data block 0 altered in this way. *)
Definition t_bad_folio : folio :=
  {| folio_index := 0; folio_locked := true; folio_uptodate := false;
     folio_bytes := t_bad0 ++ t_data 1 ++ t_data 2 ++ t_data 3 |}.

(** Two pending blocks under different leaf hash blocks, the first one
    altered. *)
Definition bad_batch : fsverity_verification_context :=
  {| max_ra_pages := 0;
     pending_blocks := [t_dblock 0 t_bad0; t_dblock 2 (t_data 2)] |}.

(** Two pending blocks, both as the tree has them. *)
Definition good_batch : fsverity_verification_context :=
  {| max_ra_pages := 0;
     pending_blocks := [t_dblock 0 (t_data 0); t_dblock 2 (t_data 2)] |}.

(** A read-ahead bio over the whole small file. *)
Definition t_bio : bio :=
  {| bi_opf := 2 ^ 19; bi_size := 16; bi_status := 0;
     bi_segments := [(t_folio, 16, 0)] |}.


(** *** A file of one block

    The tree has no level: the root hash is the hash of the only data
    block, and there is no tree page to read. *)

Definition one_block_inode : inode_t :=
  {| i_size := 4;
     i_verity_info :=
       {| tree_params :=
            {| hash_alg := alg 2 2; hashstate := false;
               digest_size := 2; block_size := 4;
               log_digestsize := 1; log_blocksize := 2; log_arity := 1;
               log_blocks_per_page := 0; blocks_per_page := 1;
               num_levels := 0; tree_pages := 0; level_start := [] |};
          root_hash := digest_of 2 (t_data 0) |};
     read_merkle_tree_page := fun _ _ => None |}.

(** The small tree without a bitmap, with the leaf hash block of data
    blocks 2 and 3 (tree block 2, on page 2) marked verified. *)
Definition leaf2_verified : vstate :=
  {| pg_checked := 4; hash_block_verified := None; warned := 0 |}.

(** The small tree with the bitmap: page 1 not flagged, while the bits of
    its blocks 2 and 3 are still set from before the page was evicted. *)
Definition stale_B : vstate :=
  {| pg_checked := 0; hash_block_verified := Some 12; warned := 0 |}.

(** Page 1 flagged, no block of it verified yet. *)
Definition seen_B : vstate :=
  {| pg_checked := 2; hash_block_verified := Some 0; warned := 0 |}.

End Scenario.

(** ** Tactics

    Normal form of what a log shows once the log is known up to the logs of
    its parts. *)

Ltac log_simpl :=
  unfold readahead_of, pages_read, read_failed, no_diag, count_hash_block in *;
  simpl;
  rewrite ?app_nil_r, ?flat_map_app, ?existsb_app, ?forallb_app, ?filter_app,
    ?length_app;
  simpl.

(** ** Properties *)

(** *** Bytes and integers *)

Lemma bytes_eqb_eq (a b : bytes) : bytes_eqb a b = true <-> a = b.
Proof.
  revert b; induction a as [|x a IH]; intros [|y b]; simpl;
    try (split; [discriminate | discriminate]); try tauto.
  rewrite andb_true_iff, IH. split.
  - intros [H ->]. apply Byte.byte_dec_bl in H. now subst.
  - intros H; injection H as -> ->. split; [now apply Byte.byte_dec_lb | reflexivity].
Qed.

Lemma memchr_inv0_all_zero (p : bytes) (n : Z) :
  memchr_inv0 p n = negb (all_zero (firstn (Z.to_nat n) p)).
Proof.
  unfold memchr_inv0, all_zero.
  induction (firstn (Z.to_nat n) p) as [|b l IH]; simpl; [reflexivity|].
  rewrite IH, negb_andb. reflexivity.
Qed.

Lemma u64_small (x : Z) : 0 <= x < 2 ^ 64 -> u64 x = x.
Proof. intros H. unfold u64, wrap. now apply Z.mod_small. Qed.

Lemma u64_range (x : Z) : 0 <= u64 x < 2 ^ 64.
Proof. unfold u64, wrap. apply Z.mod_pos_bound. lia. Qed.

(** *** Running the monad *)

Lemma run_bind {A B} (m : M A) (k : A -> M B) (s : vstate) :
  bind m k s =
  (result_of (k (result_of (m s)) (state_of (m s))),
   state_of (k (result_of (m s)) (state_of (m s))),
   log_of (m s) ++ log_of (k (result_of (m s)) (state_of (m s)))).
Proof.
  unfold bind, result_of, state_of, log_of.
  destruct (m s) as [[a s1] e1]; simpl.
  destruct (k a s1) as [[b s2] e2]; reflexivity.
Qed.

Lemma result_bind {A B} (m : M A) (k : A -> M B) (s : vstate) :
  result_of (bind m k s) = result_of (k (result_of (m s)) (state_of (m s))).
Proof. now rewrite run_bind. Qed.

Lemma state_bind {A B} (m : M A) (k : A -> M B) (s : vstate) :
  state_of (bind m k s) = state_of (k (result_of (m s)) (state_of (m s))).
Proof. now rewrite run_bind. Qed.

Lemma log_bind {A B} (m : M A) (k : A -> M B) (s : vstate) :
  log_of (bind m k s)
    = log_of (m s) ++ log_of (k (result_of (m s)) (state_of (m s))).
Proof. now rewrite run_bind. Qed.

(** WARN_ON_ONCE evaluates to its condition; it leaves the memoization
    state alone and logs nothing but its warning. *)
Lemma warn_once_run (site : Z) (c : bool) (s : vstate) :
  WARN_ON_ONCE site c s
  = (c,
     if c && negb (Z.testbit (warned s) site) then set_warned site s else s,
     if c && negb (Z.testbit (warned s) site) then [EvWarn] else []).
Proof.
  unfold WARN_ON_ONCE. destruct c; [|reflexivity].
  destruct (Z.testbit (warned s) site); reflexivity.
Qed.

Lemma store_pending_run (K : kernel) (i : Z) (s : vstate) :
  store_pending K i s = (tt, s, store_log K i).
Proof.
  unfold store_pending, store_log.
  destruct (i <? FS_VERITY_MAX_PENDING_DATA_BLOCKS K); reflexivity.
Qed.

Lemma store_log_plain (K : kernel) (i : Z) :
  forallb is_plain (store_log K i) = true.
Proof.
  unfold store_log. destruct (i <? FS_VERITY_MAX_PENDING_DATA_BLOCKS K);
    reflexivity.
Qed.

Lemma held_after_store (K : kernel) (i : Z) (evs : list event)
    (st : list resource) :
  held_after (store_log K i ++ evs) st = held_after evs st.
Proof.
  unfold store_log. destruct (i <? FS_VERITY_MAX_PENDING_DATA_BLOCKS K);
    reflexivity.
Qed.

Lemma warn_once_cases (site : Z) (c : bool) (s : vstate) :
  exists s' evs,
    WARN_ON_ONCE site c s = (c, s', evs) /\
    (s' = s \/ s' = set_warned site s) /\
    (evs = [] \/ c = true /\ evs = [EvWarn]).
Proof.
  rewrite warn_once_run. destruct c; cbn [andb].
  - destruct (negb _); eexists; eexists; (split; [reflexivity|]); tauto.
  - eexists; eexists; (split; [reflexivity|]); tauto.
Qed.

Section Properties.

Variable K : kernel.
Variable inode : inode_t.

Let vi := i_verity_info inode.
Let params := tree_params vi.

(** C9 (zero-length rejection): fsverity_add_data_blocks with len == 0
    returns false, whatever the offset and the folio, and so does
    fsverity_verify_blocks; nothing is mapped, hashed or walked, and the
    only effect is that of the WARN_ON_ONCE of the range check: the
    warning, unless that call site has warned before, and its flag. *)
Theorem zero_length_rejected (ctx : fsverity_verification_context)
    (data_folio : folio) (offset : Z) (s : vstate) :
  let seen := Z.testbit (warned s) warn_range in
  fsverity_add_data_blocks K inode ctx data_folio 0 offset s
    = (Some (false, ctx),
       if seen then s else set_warned warn_range s,
       if seen then [] else [EvWarn]) /\
  fsverity_verify_blocks K inode data_folio 0 offset s
    = (Some false,
       if seen then s else set_warned warn_range s,
       if seen then [] else [EvWarn]) /\
  IS_ALIGNED (Z.lor 0 0) (block_size params) = true.
Proof.
  intros seen. subst seen.
  unfold fsverity_verify_blocks, fsverity_add_data_blocks, bind, WARN_ON_ONCE.
  cbn [Z.leb Z.compare orb].
  destruct (Z.testbit (warned s) warn_range); repeat split; reflexivity.
Qed.

(** The block at or past the end of the file: the zero test and nothing
    else. *)
Lemma past_eof_run (dblock : fsverity_pending_block) (max_ra : Z) (s : vstate) :
  0 <= i_size inode < 2 ^ 63 ->
  i_size inode <= pos dblock ->
  let zero := all_zero (body_of inode dblock) in
  verify_data_block K inode dblock max_ra s
    = (zero, s, if zero then [] else [EvErr ErrPastEOF]).
Proof.
  intros Hsz Hpos zero. subst zero. unfold verify_data_block.
  rewrite u64_small by lia.
  replace (i_size inode <=? pos dblock) with true
    by (symmetry; apply Z.leb_le; exact Hpos).
  rewrite memchr_inv0_all_zero. unfold body_of.
  destruct (all_zero _); reflexivity.
Qed.

(** C2 (past-EOF contract): a data block whose position is at or beyond
    i_size is accepted exactly when the block_size bytes of its body are all
    zero; otherwise it is rejected with the corruption diagnostic.  The
    memoization state is left as it was and the log shows no call at all
    besides that diagnostic, so no tree page was read. *)
Theorem past_eof_contract (dblock : fsverity_pending_block) (max_ra : Z)
    (s : vstate) :
  0 <= i_size inode < 2 ^ 63 ->
  i_size inode <= pos dblock ->
  let zero := all_zero (body_of inode dblock) in
  let r := verify_data_block K inode dblock max_ra s in
  result_of r = zero /\
  state_of r = s /\
  log_of r = (if zero then [] else [EvErr ErrPastEOF]) /\
  (forall idx ra ok, ~ In (EvReadPage idx ra ok) (log_of r)).
Proof.
  intros Hsz Hpos zero r.
  assert (Hr : r = (zero, s, if zero then [] else [EvErr ErrPastEOF]))
    by (now apply past_eof_run).
  rewrite Hr. unfold result_of, state_of, log_of; simpl.
  repeat split; try reflexivity.
  intros idx ra ok. destruct zero; simpl; [tauto|].
  intros [H|[]]; discriminate.
Qed.

(** *** The memoization layer *)

Lemma round_down_pow2 (x k : Z) :
  0 <= x < 2 ^ 64 -> 0 <= k ->
  round_down x (2 ^ k) = Z.shiftr x k * 2 ^ k.
Proof.
  intros Hx Hk. unfold round_down.
  replace (2 ^ k - 1) with (Z.ones k) by (rewrite Z.ones_equiv; lia).
  rewrite <- Z.ldiff_land, Z.ldiff_ones_r by assumption.
  rewrite Z.shiftl_mul_pow2, Z.shiftr_div_pow2 by assumption.
  apply u64_small.
  assert (0 < 2 ^ k) by (apply Z.pow_pos_nonneg; lia).
  pose proof (Z.mul_div_le x (2 ^ k) ltac:(lia)).
  assert (0 <= x / 2 ^ k) by (apply Z.div_pos; lia).
  nia.
Qed.

Lemma same_page_iff (j p k : Z) :
  0 <= k ->
  Z.shiftr j k = p <-> p * 2 ^ k <= j < p * 2 ^ k + 2 ^ k.
Proof.
  intros Hk. rewrite Z.shiftr_div_pow2 by assumption.
  assert (0 < 2 ^ k) by (apply Z.pow_pos_nonneg; lia).
  split.
  - intros <-. pose proof (Z.mul_div_le j (2 ^ k) ltac:(lia)).
    pose proof (Z.mul_succ_div_gt j (2 ^ k) ltac:(lia)). lia.
  - intros Hj. symmetry. apply Z.div_unique with (r := j - p * 2 ^ k); lia.
Qed.

(** The clearing loop: its log, and the bits it leaves. *)
Lemma clear_bits_run (n : nat) (base i : Z) (s : vstate) (bm : Z) :
  hash_block_verified s = Some bm ->
  0 <= base -> 0 <= i -> base + i + Z.of_nat n <= 2 ^ 64 ->
  exists bm',
    clear_bits n base i s =
      (tt, {| pg_checked := pg_checked s; hash_block_verified := Some bm';
              warned := warned s |},
       map (fun j => EvClearBit (base + i + Z.of_nat j)) (seq 0 n)) /\
    forall j, Z.testbit bm' j =
              (Z.testbit bm j &&
               negb ((base + i <=? j) && (j <? base + i + Z.of_nat n)))%bool.
Proof.
  revert i s bm. induction n as [|n IH]; intros i s bm Hbm Hb Hi Hle.
  - exists bm. split.
    + simpl. unfold ret. destruct s; simpl in *; now subst.
    + intros j. replace (j <? base + i + Z.of_nat 0) with (j <? base + i)
        by (f_equal; lia).
      destruct (Z.leb_spec (base + i) j), (Z.ltb_spec j (base + i));
        simpl; try lia; now rewrite andb_true_r.
  - cbn [clear_bits]. rewrite run_bind.
    unfold clear_bit at 1 2 3; unfold result_of, state_of, log_of; simpl fst; simpl snd.
    rewrite Hbm; simpl option_map.
    rewrite u64_small by lia.
    edestruct (IH (i + 1)
                  {| pg_checked := pg_checked s;
                     hash_block_verified := Some (Z.clearbit bm (base + i));
                     warned := warned s |}
                  (Z.clearbit bm (base + i))) as (bm' & Hrun & Hbits);
      [reflexivity | lia | lia | lia |].
    exists bm'. split.
    + rewrite Hrun. simpl. f_equal. f_equal.
      * f_equal. lia.
      * rewrite <- seq_shift, map_map. apply map_ext. intros j. f_equal. lia.
    + intros j. rewrite Hbits, Z.clearbit_eqb.
      destruct (Z.eqb_spec (base + i) j), (Z.leb_spec (base + (i + 1)) j),
        (Z.ltb_spec j (base + (i + 1) + Z.of_nat n)),
        (Z.leb_spec (base + i) j), (Z.ltb_spec j (base + i + Z.of_nat (S n)));
        simpl; try lia; rewrite ?andb_true_r, ?andb_false_r; reflexivity.
Qed.

Lemma is_verified_page_mode (p b : Z) (s : vstate) :
  hash_block_verified s = None ->
  is_hash_block_verified inode p b s = (page_flag s p, s, [EvPageChecked p]).
Proof.
  intros H. unfold is_hash_block_verified, bind, bitmap_present, PageChecked.
  rewrite H. reflexivity.
Qed.

Lemma is_verified_bitmap_seen (p b bm : Z) (s : vstate) :
  hash_block_verified s = Some bm ->
  page_flag s p = true ->
  is_hash_block_verified inode p b s
    = (Z.testbit bm b, s, [EvPageChecked p; EvRmb; EvTestBit b]).
Proof.
  intros H Hf. unfold is_hash_block_verified, bind, bitmap_present, PageChecked.
  rewrite H. simpl. unfold page_flag in Hf. rewrite Hf. simpl.
  rewrite H. reflexivity.
Qed.

Lemma is_verified_bitmap_new (p b bm : Z) (s : vstate) :
  pages_ok inode ->
  hash_block_verified s = Some bm ->
  page_flag s p = false ->
  0 <= b < 2 ^ 64 ->
  let hp := Z.shiftr b (log_blocks_per_page params) in
  exists bm',
    is_hash_block_verified inode p b s
      = (false,
         {| pg_checked := Z.setbit (pg_checked s) p;
            hash_block_verified := Some bm'; warned := warned s |},
         [EvPageChecked p] ++ map EvClearBit (blocks_on_page inode hp)
           ++ [EvWmb; EvSetPageChecked p]) /\
    forall j, Z.testbit bm' j =
              (Z.testbit bm j &&
               negb (Z.shiftr j (log_blocks_per_page params) =? hp))%bool.
Proof.
  intros [Hk Hbpp] H Hf Hb hp. fold vi in Hk, Hbpp. fold params in Hk, Hbpp.
  set (k := log_blocks_per_page params) in *.
  assert (Hpow : 0 < 2 ^ k) by (apply Z.pow_pos_nonneg; lia).
  assert (Hhp : 0 <= hp)
    by (subst hp; rewrite Z.shiftr_div_pow2 by lia; apply Z.div_pos; lia).
  assert (Hrd : round_down b (2 ^ k) = hp * 2 ^ k)
    by (apply round_down_pow2; lia).
  assert (Htop : hp * 2 ^ k + 2 ^ k <= 2 ^ 64).
  { assert (hp < 2 ^ (64 - k)).
    { subst hp. rewrite Z.shiftr_div_pow2 by lia.
      apply Z.div_lt_upper_bound; [lia|].
      rewrite <- Z.pow_add_r by lia. replace (k + (64 - k)) with 64 by lia. lia. }
    replace (2 ^ 64) with (2 ^ (64 - k) * 2 ^ k)
      by (rewrite <- Z.pow_add_r by lia; f_equal; lia).
    nia. }
  destruct (clear_bits_run (Z.to_nat (2 ^ k)) (hp * 2 ^ k) 0 s bm H)
    as (bm' & Hrun & Hbits); [nia | lia | rewrite Z2Nat.id by lia; lia |].
  exists bm'. split.
  - unfold is_hash_block_verified, bind, bitmap_present, PageChecked.
    rewrite H. simpl. unfold page_flag in Hf. rewrite Hf. simpl.
    fold vi. fold params. rewrite Hbpp. fold k. rewrite Hrd, Hrun. simpl.
    f_equal. f_equal. f_equal.
    unfold blocks_on_page. fold vi. fold params. rewrite Hbpp. fold k.
    rewrite map_map. apply map_ext. intros j. f_equal. lia.
  - intros j. rewrite Hbits. f_equal. f_equal.
    rewrite Z2Nat.id by lia. rewrite Z.add_0_r.
    destruct (Z.eqb_spec (Z.shiftr j k) hp) as [E|E].
    + apply same_page_iff in E; [|lia].
      destruct (Z.leb_spec (hp * 2 ^ k) j), (Z.ltb_spec j (hp * 2 ^ k + 2 ^ k));
        simpl; lia.
    + destruct (Z.leb_spec (hp * 2 ^ k) j), (Z.ltb_spec j (hp * 2 ^ k + 2 ^ k));
        simpl; try reflexivity.
      exfalso. apply E. apply same_page_iff; lia.
Qed.

(** C6 (read protocol of the bitmap encoding): with the bitmap in use, a
    query for block B on its page P whose flag is set tests the flag, issues
    a read barrier and returns the bitmap bit of B, changing nothing; a query
    on a page whose flag is clear clears the bitmap bit of every block
    residing on P (and no other bit), then issues a write barrier, then sets
    the flag of P, and returns false. *)
Theorem bitmap_read_protocol (p b bm : Z) (s : vstate) :
  pages_ok inode ->
  hash_block_verified s = Some bm ->
  0 <= b < 2 ^ 64 ->
  p = Z.shiftr b (log_blocks_per_page params) ->
  let r := is_hash_block_verified inode p b s in
  (page_flag s p = true ->
     r = (Z.testbit bm b, s, [EvPageChecked p; EvRmb; EvTestBit b])) /\
  (page_flag s p = false ->
     result_of r = false /\
     log_of r = [EvPageChecked p] ++ map EvClearBit (blocks_on_page inode p)
                  ++ [EvWmb; EvSetPageChecked p] /\
     page_flag (state_of r) p = true /\
     (forall q, q <> p -> page_flag (state_of r) q = page_flag s q) /\
     (forall j, bitmap_bit (state_of r) j =
                (Z.testbit bm j &&
                 negb (Z.shiftr j (log_blocks_per_page params) =? p))%bool)).
Proof.
  intros Hok H Hb Hp r. split; intros Hf.
  - subst r. now apply is_verified_bitmap_seen.
  - destruct (is_verified_bitmap_new p b bm s Hok H Hf Hb) as (bm' & Hrun & Hbits).
    subst r. rewrite Hrun. unfold result_of, state_of, log_of, page_flag, bitmap_bit.
    simpl. rewrite <- Hp in *.
    assert (0 <= p).
    { subst p. destruct Hok as [Hk _]. fold vi in Hk. fold params in Hk.
      rewrite Z.shiftr_div_pow2 by lia.
      apply Z.div_pos; [lia | apply Z.pow_pos_nonneg; lia]. }
    repeat split.
    + now apply Z.setbit_eq.
    + intros q Hq. apply Z.setbit_neq; [assumption | congruence].
    + exact Hbits.
Qed.

(** The marking of lines 241-244 with the bitmap in use: the bit of the
    block is set, and nothing else changes. *)
Lemma mark_verified_bitmap (p b bm : Z) (s : vstate) :
  hash_block_verified s = Some bm ->
  mark_verified p b s
    = (tt, {| pg_checked := pg_checked s;
              hash_block_verified := Some (Z.setbit bm b);
              warned := warned s |}, [EvSetBit b]).
Proof.
  intros H. unfold mark_verified, bind, bitmap_present, set_bit.
  rewrite H. simpl. rewrite H. reflexivity.
Qed.

Lemma mark_verified_page (p b : Z) (s : vstate) :
  hash_block_verified s = None ->
  mark_verified p b s
    = (tt, {| pg_checked := Z.setbit (pg_checked s) p;
              hash_block_verified := None; warned := warned s |},
       [EvSetPageChecked p]).
Proof.
  intros H. unfold mark_verified, bind, bitmap_present, SetPageChecked.
  rewrite H. simpl. rewrite H. reflexivity.
Qed.

(** *** Pins and mappings along a walk *)

Lemma view_eqb_refl (v : view) : view_eqb v v = true.
Proof. destruct v; simpl; rewrite ?Z.eqb_refl; reflexivity. Qed.

Lemma held_after_app (e1 e2 : list event) (st : list resource) :
  held_after (e1 ++ e2) st =
  match held_after e1 st with
  | Some st1 => held_after e2 st1
  | None => None
  end.
Proof.
  revert st; induction e1 as [|e e1 IH]; intros st; [reflexivity|].
  destruct e; simpl; try apply IH.
  - destruct ok; apply IH.
  - destruct st as [|[|w] st]; try reflexivity. destruct (view_eqb v w); [apply IH | reflexivity].
  - destruct st as [|[idx'|] st]; try reflexivity. destruct (idx =? idx'); [apply IH | reflexivity].
Qed.

Lemma held_after_plain (evs : list event) (st : list resource) :
  forallb is_plain evs = true -> held_after evs st = Some st.
Proof.
  induction evs as [|e evs IH]; [reflexivity|].
  simpl. rewrite andb_true_iff. intros [He Hevs].
  destruct e; simpl in He; try discriminate; simpl; try now apply IH.
  destruct ok; [discriminate | now apply IH].
Qed.

Lemma held_after_cat (e1 e2 : list event) (st st1 st2 : list resource) :
  held_after e1 st = Some st1 -> held_after e2 st1 = Some st2 ->
  held_after (e1 ++ e2) st = Some st2.
Proof. intros H1 H2. now rewrite held_after_app, H1. Qed.

Lemma clear_bits_plain (n : nat) (base i : Z) (s : vstate) :
  forallb is_plain (log_of (clear_bits n base i s)) = true.
Proof.
  revert i s; induction n as [|n IH]; intros i s; [reflexivity|].
  cbn [clear_bits]. rewrite run_bind. unfold log_of at 1. cbn [snd].
  rewrite forallb_app, IH. reflexivity.
Qed.

Lemma is_verified_plain (p b : Z) (s : vstate) :
  forallb is_plain (log_of (is_hash_block_verified inode p b s)) = true.
Proof.
  unfold is_hash_block_verified, bind, bitmap_present, PageChecked.
  destruct (hash_block_verified s); simpl; [|reflexivity].
  destruct (Z.testbit (pg_checked s) p); simpl; [reflexivity|].
  pose proof (clear_bits_plain
                (Z.to_nat (blocks_per_page params))
                (round_down b (blocks_per_page params)) 0 s) as Hc.
  fold vi. fold params.
  destruct (clear_bits _ _ _ s) as [[u s1] e1]. unfold log_of in *. simpl in *.
  rewrite forallb_app, Hc. reflexivity.
Qed.

Lemma mark_verified_plain (p b : Z) (s : vstate) :
  forallb is_plain (log_of (mark_verified p b s)) = true.
Proof.
  unfold mark_verified, bind, bitmap_present.
  destruct (hash_block_verified s); reflexivity.
Qed.

Lemma release_hblocks_run (held : list hblock) (s : vstate) :
  state_of (release_hblocks held s) = s /\
  forall st, held_after (log_of (release_hblocks held s))
               (hblock_resources held ++ st) = Some st.
Proof.
  induction held as [|hb held [IHs IHl]]; [split; reflexivity|].
  cbn [release_hblocks]. unfold bind, kunmap_local, put_page, emit.
  destruct (release_hblocks held s) as [[u s1] e1].
  unfold state_of, log_of in *. simpl in *. split; [exact IHs|].
  intros st. rewrite Z.eqb_refl. apply IHl.
Qed.

Lemma descend_balanced (dblock : fsverity_pending_block) (held : list hblock)
    (level : Z) (want : bytes) (s : vstate) (st : list resource) :
  held_after (log_of (descend inode dblock held level want s))
    (hblock_resources held ++ st) = Some st.
Proof.
  revert level want s; induction held as [|hb held IH]; intros level want s.
  - cbn [descend]. destruct (negb _); reflexivity.
  - cbn [descend]. unfold bind at 1. unfold fsverity_hash_block at 1.
    unfold bind at 1, emit, ret. cbn [app]. fold vi. fold params.
    destruct (tfm (hash_alg params) _) as [real|].
    + destruct (negb (memcmp_eq want real _)).
      * unfold bind, fsverity_err, emit.
        destruct (release_hblocks_run (hb :: held) s) as [_ Hl].
        specialize (Hl st).
        destruct (release_hblocks (hb :: held) s) as [[u s1] e1].
        unfold log_of in *. simpl in *. rewrite ?app_nil_r. exact Hl.
      * unfold bind at 1.
        pose proof (mark_verified_plain (hb_page hb) (hb_index hb) s) as Hm.
        destruct (mark_verified (hb_page hb) (hb_index hb) s) as [[u s1] e1].
        unfold bind, kunmap_local, put_page, emit.
        specialize (IH (level - 1)
                       (memcpy_from (hb_addr hb) (hb_hoffset hb)
                          (digest_size params)) s1).
        destruct (descend inode dblock held _ _ s1) as [[ok s2] e2].
        unfold log_of in *. simpl in *.
        rewrite held_after_app, (held_after_plain _ _ Hm).
        simpl. rewrite ?view_eqb_refl, ?Z.eqb_refl. exact IH.
    + unfold bind.
      destruct (release_hblocks_run (hb :: held) s) as [_ Hl].
      specialize (Hl st).
      destruct (release_hblocks (hb :: held) s) as [[u s1] e1].
      unfold log_of in *. simpl in *. rewrite ?app_nil_r. exact Hl.
Qed.

Lemma ascend_balanced (max_ra : Z) (n : nat) (level hidx : Z)
    (held : list hblock) (s : vstate) (st : list resource)
    (a : ascent) (s' : vstate) (evs : list event) :
  ascend K inode max_ra n level hidx held s = (a, s', evs) ->
  held_after evs (hblock_resources held ++ st)
    = Some (hblock_resources (ascent_held a) ++ st).
Proof.
  revert level hidx held s a s' evs; induction n as [|n IH];
    intros level hidx held s a s' evs H.
  - injection H as <- _ <-. reflexivity.
  - cbn [ascend] in H. fold vi in H. fold params in H.
    set (hblock_idx := u64 (nth (Z.to_nat level) (level_start params) 0 +
                            Z.shiftr hidx (log_arity params))) in H.
    set (hpage_idx := Z.shiftr hblock_idx (log_blocks_per_page params)) in H.
    set (ra := if level =? 0 then _ else 0) in H.
    unfold bind at 1 in H. unfold call_read_merkle_tree_page at 1 in H.
    destruct (read_merkle_tree_page inode hpage_idx ra) as [page_bytes|].
    + unfold bind at 1 in H. unfold kmap_local at 1, emit in H.
      unfold bind at 1 in H.
      pose proof (is_verified_plain hpage_idx hblock_idx s) as Hv.
      destruct (is_hash_block_verified inode hpage_idx hblock_idx s)
        as [[v s1] e1].
      destruct v.
      * unfold bind, kunmap_local, put_page, emit, ret in H.
        injection H as <- _ <-.
        unfold log_of in *. simpl in *.
        rewrite held_after_app, (held_after_plain _ _ Hv).
        simpl. rewrite ?view_eqb_refl, ?Z.eqb_refl. reflexivity.
      * match type of H with
        | context [ascend _ _ _ _ _ _ (?h :: held) s1] => set (hb := h) in H
        end.
        destruct (ascend K inode max_ra n (level + 1)
                    (Z.shiftr hidx (log_arity params)) (hb :: held) s1)
          as [[a2 s2] e2] eqn:E2.
        apply (IH _ _ _ _ _ _ _) in E2.
        injection H as <- _ <-.
        unfold log_of in *. simpl in *.
        rewrite held_after_app, (held_after_plain _ _ Hv). exact E2.
    + unfold bind, fsverity_err, emit, ret in H.
      injection H as <- _ <-. reflexivity.
Qed.

(** A walk leaves the pins and mappings as it found them: every tree page
    it pinned and mapped has been unmapped and released, once, whatever the
    verdict. *)
Lemma walk_balanced (dblock : fsverity_pending_block) (max_ra : Z)
    (s : vstate) (st : list resource) :
  held_after (log_of (verify_data_block K inode dblock max_ra s)) st = Some st.
Proof.
  unfold verify_data_block. fold vi. fold params.
  destruct (u64 (i_size inode) <=? pos dblock).
  - destruct (memchr_inv0 _ _); reflexivity.
  - unfold bind.
    destruct (ascend K inode max_ra _ 0 _ [] s) as [[a s1] e1] eqn:Ea.
    apply (ascend_balanced _ _ _ _ _ _ st) in Ea. simpl in Ea.
    destruct a as [level held | level want held]; simpl in Ea.
    + destruct (release_hblocks_run held s1) as [_ Hl]. specialize (Hl st).
      destruct (release_hblocks held s1) as [[u s2] e2].
      unfold log_of in *. simpl in *.
      rewrite app_nil_r.
      now apply held_after_cat with (st1 := hblock_resources held ++ st).
    + pose proof (descend_balanced dblock held level want s1 st) as Hd.
      destruct (descend inode dblock held level want s1) as [[ok s2] e2].
      unfold log_of in *. simpl in *.
      now apply held_after_cat with (st1 := hblock_resources held ++ st).
Qed.

(** The events of a walk. *)

Lemma clear_bits_walk_events (n : nat) (base i : Z) (s : vstate) :
  forallb is_walk_event (log_of (clear_bits n base i s)) = true.
Proof.
  revert i s; induction n as [|n IH]; intros i s; [reflexivity|].
  cbn [clear_bits]. rewrite run_bind. unfold log_of at 1. cbn [snd].
  rewrite forallb_app, IH. reflexivity.
Qed.

Lemma is_verified_walk_events (p b : Z) (s : vstate) :
  forallb is_walk_event (log_of (is_hash_block_verified inode p b s)) = true.
Proof.
  unfold is_hash_block_verified, bind, bitmap_present, PageChecked.
  destruct (hash_block_verified s); simpl; [|reflexivity].
  destruct (Z.testbit (pg_checked s) p); simpl; [reflexivity|].
  pose proof (clear_bits_walk_events
                (Z.to_nat (blocks_per_page params))
                (round_down b (blocks_per_page params)) 0 s) as Hc.
  fold vi. fold params.
  destruct (clear_bits _ _ _ s) as [[u s1] e1]. unfold log_of in *. simpl in *.
  rewrite forallb_app, Hc. reflexivity.
Qed.

Lemma mark_verified_walk_events (p b : Z) (s : vstate) :
  forallb is_walk_event (log_of (mark_verified p b s)) = true.
Proof.
  unfold mark_verified, bind, bitmap_present.
  destruct (hash_block_verified s); reflexivity.
Qed.

Lemma release_walk_events (held : list hblock) (s : vstate) :
  forallb is_walk_event (log_of (release_hblocks held s)) = true.
Proof.
  induction held as [|hb held IH]; [reflexivity|].
  cbn [release_hblocks]. unfold bind, kunmap_local, put_page, emit.
  destruct (release_hblocks held s) as [[u s1] e1].
  unfold log_of in *. simpl in *. exact IH.
Qed.

Lemma descend_walk_events (dblock : fsverity_pending_block)
    (held : list hblock) (level : Z) (want : bytes) (s : vstate) :
  forallb is_walk_event (log_of (descend inode dblock held level want s)) = true.
Proof.
  revert level want s; induction held as [|hb held IH]; intros level want s.
  - cbn [descend]. destruct (negb _); reflexivity.
  - cbn [descend]. unfold bind at 1. unfold fsverity_hash_block at 1.
    unfold bind at 1, emit, ret. cbn [app]. fold vi. fold params.
    pose proof (release_walk_events (hb :: held) s) as Hl.
    destruct (tfm (hash_alg params) _) as [real|].
    + destruct (negb (memcmp_eq want real _)).
      * unfold bind, fsverity_err, emit.
        destruct (release_hblocks (hb :: held) s) as [[u s1] e1].
        unfold log_of in *. simpl in *. rewrite ?app_nil_r. exact Hl.
      * unfold bind at 1.
        pose proof (mark_verified_walk_events (hb_page hb) (hb_index hb) s) as Hm.
        destruct (mark_verified (hb_page hb) (hb_index hb) s) as [[u s1] e1].
        unfold bind, kunmap_local, put_page, emit.
        specialize (IH (level - 1)
                       (memcpy_from (hb_addr hb) (hb_hoffset hb)
                          (digest_size params)) s1).
        destruct (descend inode dblock held _ _ s1) as [[ok s2] e2].
        unfold log_of in *. simpl in *.
        rewrite forallb_app, Hm. simpl. exact IH.
    + unfold bind.
      destruct (release_hblocks (hb :: held) s) as [[u s1] e1].
      unfold log_of in *. simpl in *. rewrite ?app_nil_r. exact Hl.
Qed.

Lemma ascend_walk_events (max_ra : Z) (n : nat) (level hidx : Z)
    (held : list hblock) (s : vstate) :
  forallb is_walk_event (log_of (ascend K inode max_ra n level hidx held s))
    = true.
Proof.
  revert level hidx held s; induction n as [|n IH]; intros level hidx held s;
    [reflexivity|].
  cbn [ascend]. fold vi. fold params.
  set (hblock_idx := u64 (nth (Z.to_nat level) (level_start params) 0 +
                          Z.shiftr hidx (log_arity params))).
  set (hpage_idx := Z.shiftr hblock_idx (log_blocks_per_page params)).
  set (ra := if level =? 0 then _ else 0).
  unfold bind at 1. unfold call_read_merkle_tree_page at 1.
  destruct (read_merkle_tree_page inode hpage_idx ra) as [page_bytes|].
  - unfold bind at 1. unfold kmap_local at 1, emit.
    unfold bind at 1.
    pose proof (is_verified_walk_events hpage_idx hblock_idx s) as Hv.
    destruct (is_hash_block_verified inode hpage_idx hblock_idx s)
      as [[v s1] e1].
    destruct v.
    + unfold bind, kunmap_local, put_page, emit, ret.
      unfold log_of in *. simpl in *.
      rewrite forallb_app, Hv. reflexivity.
    + match goal with
      | |- context [ascend _ _ _ _ _ _ (?h :: held) s1] => set (hb := h)
      end.
      specialize (IH (level + 1) (Z.shiftr hidx (log_arity params))
                     (hb :: held) s1).
      destruct (ascend K inode max_ra n _ _ (hb :: held) s1) as [[a s2] e2].
      unfold log_of in *. simpl in *.
      rewrite forallb_app, Hv. exact IH.
  - reflexivity.
Qed.

Lemma walk_events (dblock : fsverity_pending_block) (max_ra : Z) (s : vstate) :
  forallb is_walk_event (log_of (verify_data_block K inode dblock max_ra s))
    = true.
Proof.
  unfold verify_data_block. fold vi. fold params.
  destruct (u64 (i_size inode) <=? pos dblock).
  - destruct (memchr_inv0 _ _); reflexivity.
  - unfold bind.
    pose proof (ascend_walk_events max_ra (Z.to_nat (num_levels params)) 0
                  (Z.shiftr (pos dblock) (log_blocksize params)) [] s) as Ha.
    destruct (ascend K inode max_ra _ 0 _ [] s) as [[a s1] e1].
    destruct a as [level held | level want held].
    + pose proof (release_walk_events held s1) as Hl.
      destruct (release_hblocks held s1) as [[u s2] e2].
      unfold log_of in *. simpl in *.
      now rewrite !forallb_app, Ha, Hl.
    + pose proof (descend_walk_events dblock held level want s1) as Hd.
      destruct (descend inode dblock held level want s1) as [[ok s2] e2].
      unfold log_of in *. simpl in *.
      now rewrite forallb_app, Ha, Hd.
Qed.

Lemma verify_each_walk_events (max_ra : Z) (bs : list fsverity_pending_block)
    (s : vstate) :
  forallb is_walk_event (log_of (verify_each K inode max_ra bs s)) = true.
Proof.
  revert s; induction bs as [|b bs IH]; intros s; [reflexivity|].
  cbn [verify_each]. unfold bind.
  pose proof (walk_events b max_ra s) as Hw.
  destruct (verify_data_block K inode b max_ra s) as [[ok s1] e1].
  destruct ok.
  - specialize (IH s1). destruct (verify_each K inode max_ra bs s1) as [[ok2 s2] e2].
    unfold log_of in *. simpl in *. now rewrite forallb_app, Hw, IH.
  - unfold ret, log_of in *. simpl in *. now rewrite app_nil_r.
Qed.

Lemma count_finup_walk (evs : list event) :
  forallb is_walk_event evs = true -> count_finup evs = 0%nat.
Proof.
  unfold count_finup. induction evs as [|e evs IH]; [reflexivity|].
  simpl. rewrite andb_true_iff. intros [He Hevs].
  destruct e; simpl in *; try discriminate; now apply IH.
Qed.

Lemma count_finup_app (e1 e2 : list event) :
  count_finup (e1 ++ e2) = (count_finup e1 + count_finup e2)%nat.
Proof. unfold count_finup. now rewrite filter_app, length_app. Qed.

Lemma count_finup_kunmap (vs : list view) :
  count_finup (map EvKunmap vs) = 0%nat.
Proof. induction vs; [reflexivity | assumption]. Qed.

(** A loop over the pending blocks that ends with true has walked every one
    of them, in order, each with the verdict true. *)
Lemma verify_each_in_order (max_ra : Z) (bs : list fsverity_pending_block)
    (s : vstate) :
  result_of (verify_each K inode max_ra bs s) = true ->
  walk_in_order K inode max_ra bs s
    = (repeat true (length bs),
       state_of (verify_each K inode max_ra bs s),
       log_of (verify_each K inode max_ra bs s)).
Proof.
  revert s; induction bs as [|b bs IH]; intros s; [reflexivity|].
  cbn [verify_each walk_in_order]. unfold bind.
  destruct (verify_data_block K inode b max_ra s) as [[ok s1] e1].
  destruct ok.
  - specialize (IH s1).
    destruct (verify_each K inode max_ra bs s1) as [[ok2 s2] e2].
    unfold result_of, state_of, log_of in *. simpl in *.
    intros ->. rewrite (IH eq_refl). simpl. now rewrite app_nil_r.
  - unfold result_of. simpl. discriminate.
Qed.

(** *** Flushing the pending blocks *)

Lemma kunmap_views_run (vs : list view) (s : vstate) :
  kunmap_views vs s = (tt, s, map EvKunmap vs).
Proof.
  induction vs as [|v vs IH]; [reflexivity|].
  simpl. unfold bind, kunmap_local, emit. rewrite IH. reflexivity.
Qed.

Lemma clear_pending_run (ctx : fsverity_verification_context) (s : vstate) :
  fsverity_clear_pending_blocks ctx s
    = ({| max_ra_pages := max_ra_pages ctx; pending_blocks := [] |}, s,
       map EvKunmap (map data_view (rev (pending_blocks ctx)))).
Proof.
  unfold fsverity_clear_pending_blocks, bind. rewrite kunmap_views_run.
  simpl. now rewrite app_nil_r.
Qed.

Lemma store_real_hashes_views (bs : list fsverity_pending_block) (hs : list bytes) :
  map data_view (store_real_hashes bs hs) = map data_view bs.
Proof.
  revert hs; induction bs as [|b bs IH]; intros [|h hs]; simpl; try reflexivity.
  now rewrite IH.
Qed.

Lemma store_real_hashes_length (bs : list fsverity_pending_block) (hs : list bytes) :
  length (store_real_hashes bs hs) = length bs.
Proof.
  revert hs; induction bs as [|b bs IH]; intros [|h hs]; simpl; try reflexivity.
  now rewrite IH.
Qed.

(** What the multi-buffer hash leaves in the real_hash slots: the block
    hash of each body. *)
Lemma finup_mb_hashes (bs : list fsverity_pending_block) (hs : list bytes) :
  crypto_shash_finup_mb inode (map data bs) = Some hs ->
  map real_hash (store_real_hashes bs hs) = hs /\
  Forall (fun b => tfm (hash_alg params) (body_of inode b) = Some (real_hash b))
         (store_real_hashes bs hs).
Proof.
  revert hs; induction bs as [|b bs IH]; intros hs; simpl.
  - intros [= <-]. split; [reflexivity | constructor].
  - destruct (tfm _ _) eqn:Eh; [|discriminate].
    destruct (crypto_shash_finup_mb inode (map data bs)) eqn:Er; [|discriminate].
    intros [= <-]. destruct (IH l eq_refl) as [IH1 IH2]. simpl. split.
    + now rewrite IH1.
    + constructor; [exact Eh | exact IH2].
Qed.

Lemma num_pending_nonzero (ctx : fsverity_verification_context) :
  pending_blocks ctx <> [] -> (num_pending ctx =? 0) = false.
Proof.
  intros H. apply Z.eqb_neq. unfold num_pending.
  destruct (pending_blocks ctx); [congruence | simpl; lia].
Qed.

Lemma flush_empty (ctx : fsverity_verification_context) (s : vstate) :
  pending_blocks ctx = [] ->
  fsverity_verify_pending_blocks K inode ctx s = ((true, ctx), s, []).
Proof.
  intros H. unfold fsverity_verify_pending_blocks, num_pending. rewrite H.
  reflexivity.
Qed.

Lemma flush_setup_err (ctx : fsverity_verification_context) (s : vstate) :
  pending_blocks ctx <> [] ->
  shash_setup_err (hash_alg params) <> 0 ->
  fsverity_verify_pending_blocks K inode ctx s
    = ((false, ctx), s,
       [EvShashSetup (hashstate params);
        EvErr (ErrImport (shash_setup_err (hash_alg params)))]).
Proof.
  intros H He. unfold fsverity_verify_pending_blocks.
  rewrite (num_pending_nonzero ctx H). fold vi. fold params.
  apply Z.eqb_neq in He. unfold bind, emit. rewrite He. reflexivity.
Qed.

Lemma flush_finup_err (ctx : fsverity_verification_context) (s : vstate) :
  pending_blocks ctx <> [] ->
  shash_setup_err (hash_alg params) = 0 ->
  crypto_shash_finup_mb inode (map data (pending_blocks ctx)) = None ->
  fsverity_verify_pending_blocks K inode ctx s
    = ((false, ctx), s,
       [EvShashSetup (hashstate params); EvFinupMb (num_pending ctx);
        EvErr ErrFinup]).
Proof.
  intros H He Hf. unfold fsverity_verify_pending_blocks.
  rewrite (num_pending_nonzero ctx H). fold vi. fold params.
  unfold bind, emit. rewrite He, Hf. reflexivity.
Qed.

Lemma flush_walk (ctx : fsverity_verification_context) (s : vstate)
    (hs : list bytes) :
  pending_blocks ctx <> [] ->
  shash_setup_err (hash_alg params) = 0 ->
  crypto_shash_finup_mb inode (map data (pending_blocks ctx)) = Some hs ->
  let hashed := store_real_hashes (pending_blocks ctx) hs in
  let w := verify_each K inode (max_ra_pages ctx) hashed s in
  let head := [EvShashSetup (hashstate params); EvFinupMb (num_pending ctx)] in
  fsverity_verify_pending_blocks K inode ctx s
    = if result_of w
      then ((true, {| max_ra_pages := max_ra_pages ctx; pending_blocks := [] |}),
            state_of w,
            head ++ log_of w
              ++ map EvKunmap (map data_view (rev (pending_blocks ctx))))
      else ((false, {| max_ra_pages := max_ra_pages ctx;
                       pending_blocks := hashed |}),
            state_of w, head ++ log_of w).
Proof.
  intros H He Hf hashed w head. unfold fsverity_verify_pending_blocks.
  rewrite (num_pending_nonzero ctx H). fold vi. fold params.
  unfold bind, emit. rewrite He, Hf. simpl.
  fold hashed. fold w. unfold result_of, state_of, log_of.
  destruct w as [[ok s1] e1]. simpl. destruct ok.
  - rewrite clear_pending_run. simpl. subst hashed.
    rewrite map_rev, store_real_hashes_views, <- map_rev.
    now rewrite !app_nil_r.
  - simpl. now rewrite app_nil_r.
Qed.

Lemma verify_each_balanced (max_ra : Z) (bs : list fsverity_pending_block)
    (s : vstate) (st : list resource) :
  held_after (log_of (verify_each K inode max_ra bs s)) st = Some st.
Proof.
  revert s; induction bs as [|b bs IH]; intros s; [reflexivity|].
  cbn [verify_each]. unfold bind.
  pose proof (walk_balanced b max_ra s st) as Hw.
  destruct (verify_data_block K inode b max_ra s) as [[ok s1] e1].
  destruct ok.
  - specialize (IH s1). destruct (verify_each K inode max_ra bs s1) as [[ok2 s2] e2].
    unfold log_of in *. simpl in *. now apply held_after_cat with (st1 := st).
  - unfold ret, log_of in *. simpl in *. now rewrite app_nil_r.
Qed.

Lemma kunmap_all_held (vs : list view) (st : list resource) :
  held_after (map EvKunmap vs) (map RMap vs ++ st) = Some st.
Proof.
  induction vs as [|v vs IH]; [reflexivity|].
  simpl. now rewrite view_eqb_refl.
Qed.

(** What a flush does to the mappings of the pending blocks: all of them are
    released when it succeeds, none when it fails; what the walks pinned and
    mapped is released in both cases. *)
Lemma flush_held (ctx : fsverity_verification_context) (s : vstate)
    (st : list resource) :
  let r := fsverity_verify_pending_blocks K inode ctx s in
  (fst (result_of r) = true ->
     pending_blocks (snd (result_of r)) = [] /\
     held_after (log_of r) (pending_resources (pending_blocks ctx) ++ st)
       = Some st) /\
  (fst (result_of r) = false ->
     map data_view (pending_blocks (snd (result_of r)))
       = map data_view (pending_blocks ctx) /\
     held_after (log_of r) (pending_resources (pending_blocks ctx) ++ st)
       = Some (pending_resources (pending_blocks ctx) ++ st)).
Proof.
  intros r. subst r.
  destruct (pending_blocks ctx) as [|b0 bs0] eqn:Ep.
  { rewrite (flush_empty ctx s Ep). unfold result_of, log_of. simpl.
    split; [intros _; split; [exact Ep | reflexivity] | discriminate]. }
  assert (Hne : pending_blocks ctx <> []) by (rewrite Ep; discriminate).
  rewrite <- Ep.
  destruct (Z.eq_dec (shash_setup_err (hash_alg params)) 0) as [He|He].
  2:{ rewrite (flush_setup_err ctx s Hne He). unfold result_of, log_of. simpl.
      split; [discriminate | intros _; split; reflexivity]. }
  destruct (crypto_shash_finup_mb inode (map data (pending_blocks ctx)))
    as [hs|] eqn:Ef.
  2:{ rewrite (flush_finup_err ctx s Hne He Ef). unfold result_of, log_of. simpl.
      split; [discriminate | intros _; split; reflexivity]. }
  rewrite (flush_walk ctx s hs Hne He Ef).
  pose proof (verify_each_balanced (max_ra_pages ctx)
                (store_real_hashes (pending_blocks ctx) hs) s) as Hw.
  destruct (verify_each K inode (max_ra_pages ctx) _ s) as [[ok s1] e1].
  unfold result_of, log_of in *. simpl in *. destruct ok; simpl.
  - split; [intros _ | discriminate]. split; [reflexivity|].
    rewrite held_after_app, Hw. apply kunmap_all_held.
  - split; [discriminate | intros _]. split.
    + apply store_real_hashes_views.
    + apply Hw.
Qed.

(** *** Adding blocks *)

Lemma pending_resources_views (bs bs' : list fsverity_pending_block) :
  map data_view bs = map data_view bs' ->
  pending_resources bs = pending_resources bs'.
Proof.
  intros H. unfold pending_resources. now rewrite !map_rev, H.
Qed.

Lemma pending_resources_snoc (bs : list fsverity_pending_block)
    (b : fsverity_pending_block) :
  pending_resources (bs ++ [b]) = RMap (data_view b) :: pending_resources bs.
Proof.
  unfold pending_resources. now rewrite rev_app_distr.
Qed.

Lemma add_loop_held (fuel : nat) (data_folio : folio) (fpos : Z)
    (ctx : fsverity_verification_context) (len offset : Z) (s : vstate)
    (st : list resource)
    (ok : bool) (ctx' : fsverity_verification_context) (s' : vstate)
    (evs : list event) :
  add_data_blocks_loop K inode fuel data_folio fpos ctx len offset s
    = (Some (ok, ctx'), s', evs) ->
  held_after evs (pending_resources (pending_blocks ctx) ++ st)
    = Some (pending_resources (pending_blocks ctx') ++ st).
Proof.
  revert ctx len offset s ok ctx' s' evs; induction fuel as [|fuel IH];
    intros ctx len offset s ok ctx' s' evs H; [discriminate|].
  cbn [add_data_blocks_loop] in H. fold vi in H. fold params in H.
  match type of H with
  | context [pending_blocks ctx ++ [?blk]] => set (b := blk) in H
  end.
  set (ctx1 := {| max_ra_pages := max_ra_pages ctx;
                  pending_blocks := pending_blocks ctx ++ [b] |}) in H.
  unfold bind at 1 in H. unfold kmap_local at 1, emit in H.
  unfold bind at 1 in H. rewrite store_pending_run in H.
  unfold bind at 1 in H.
  assert (Hf : exists ok2 ctx2 s2 e2,
             (if num_pending ctx1 =? mb_max_msgs (hash_alg params)
              then fsverity_verify_pending_blocks K inode ctx1
              else ret (true, ctx1)) s = ((ok2, ctx2), s2, e2) /\
             held_after e2 (pending_resources (pending_blocks ctx1) ++ st)
               = Some (pending_resources (pending_blocks ctx2) ++ st)).
  { destruct (num_pending ctx1 =? mb_max_msgs (hash_alg params)).
    - destruct (flush_held ctx1 s st) as [Ht Hf].
      destruct (fsverity_verify_pending_blocks K inode ctx1 s)
        as [[[ok2 ctx2] s2] e2].
      unfold result_of, log_of in Ht, Hf. simpl in Ht, Hf.
      exists ok2, ctx2, s2, e2. split; [reflexivity|]. destruct ok2.
      + destruct (Ht eq_refl) as [Hp Hh]. rewrite Hp. exact Hh.
      + destruct (Hf eq_refl) as [Hv Hh].
        rewrite (pending_resources_views _ _ Hv). exact Hh.
    - exists true, ctx1, s, []. split; reflexivity. }
  destruct Hf as (ok2 & ctx2 & s2 & e2 & Hrun & Hheld).
  rewrite Hrun in H. cbn [pending_blocks ctx1] in Hheld.
  rewrite pending_resources_snoc in Hheld.
  destruct ok2; cbn [negb] in H.
  - destruct (u64 (len - block_size params) =? 0).
    + injection H as <- <- <- <-. simpl.
      rewrite app_nil_r, held_after_store. exact Hheld.
    + destruct (add_data_blocks_loop K inode fuel data_folio fpos ctx2 _ _ s2)
        as [[r3 s3] e3] eqn:E3.
      injection H as -> <- <-.
      apply IH in E3. simpl. rewrite held_after_store.
      now apply held_after_cat with (st1 := pending_resources (pending_blocks ctx2) ++ st).
  - injection H as <- <- <- <-. simpl.
    rewrite app_nil_r, held_after_store. exact Hheld.
Qed.

Lemma add_loop_total (fuel : nat) (data_folio : folio) (fpos : Z)
    (ctx : fsverity_verification_context) (len offset : Z) (s : vstate) :
  0 < block_size params ->
  (0 < fuel)%nat ->
  len = Z.of_nat fuel * block_size params ->
  len < 2 ^ 64 ->
  result_of (add_data_blocks_loop K inode fuel data_folio fpos ctx len offset s)
    <> None.
Proof.
  intros Hbs. revert ctx len offset s; induction fuel as [|fuel IH];
    intros ctx len offset s Hfuel Hlen Hmax; [lia|].
  cbn [add_data_blocks_loop]. fold vi. fold params.
  match goal with
  | |- context [pending_blocks ctx ++ [?blk]] => set (b := blk)
  end.
  set (ctx1 := {| max_ra_pages := max_ra_pages ctx;
                  pending_blocks := pending_blocks ctx ++ [b] |}).
  unfold bind at 1. unfold kmap_local at 1, emit.
  unfold bind at 1. rewrite store_pending_run.
  unfold bind at 1.
  destruct ((if num_pending ctx1 =? mb_max_msgs (hash_alg params)
             then fsverity_verify_pending_blocks K inode ctx1
             else ret (true, ctx1)) s) as [[[ok2 ctx2] s2] e2].
  destruct ok2; cbn [negb]; [|discriminate].
  assert (Hlen' : u64 (len - block_size params)
                  = Z.of_nat fuel * block_size params).
  { rewrite u64_small; [lia | nia]. }
  rewrite Hlen'.
  destruct (Z.eqb_spec (Z.of_nat fuel * block_size params) 0) as [E|E];
    [discriminate|].
  specialize (IH ctx2 (Z.of_nat fuel * block_size params)
                 (u64 (offset + block_size params)) s2).
  destruct (add_data_blocks_loop K inode fuel data_folio fpos ctx2 _ _ s2)
    as [[r3 s3] e3].
  unfold result_of in *. cbn [fst] in *.
  apply IH; [destruct fuel; [simpl in E; lia | lia] | reflexivity | nia].
Qed.

Lemma aligned_multiple (len offset : Z) :
  blocks_ok inode ->
  0 <= len ->
  IS_ALIGNED (Z.lor len offset) (block_size params) = true ->
  len = len / block_size params * block_size params.
Proof.
  intros [Hk Hbs] Hlen Ha. fold vi in Hk, Hbs. fold params in Hk, Hbs.
  unfold IS_ALIGNED in Ha. apply Z.eqb_eq in Ha.
  assert (Hpow : 0 < 2 ^ log_blocksize params) by (apply Z.pow_pos_nonneg; lia).
  assert (Hlt : 2 ^ log_blocksize params < 2 ^ 64)
    by (apply Z.pow_lt_mono_r; lia).
  rewrite u64_small in Ha by lia.
  rewrite Hbs in Ha |- *.
  replace (2 ^ log_blocksize params - 1) with (Z.ones (log_blocksize params)) in Ha
    by (rewrite Z.ones_equiv; lia).
  rewrite Z.land_lor_distr_l in Ha. apply Z.lor_eq_0_iff in Ha as [Ha _].
  rewrite Z.land_ones in Ha by lia.
  pose proof (Z.div_mod len (2 ^ log_blocksize params) ltac:(lia)). lia.
Qed.

(** fsverity_add_data_blocks by cases on its two checks. *)
Lemma add_data_blocks_run (ctx : fsverity_verification_context)
    (data_folio : folio) (len offset : Z) (s : vstate) :
  fsverity_add_data_blocks K inode ctx data_folio len offset s
  = if (len <=? 0) || negb (IS_ALIGNED (Z.lor len offset) (block_size params))
    then (Some (false, ctx),
          state_of (WARN_ON_ONCE warn_range true s),
          log_of (WARN_ON_ONCE warn_range true s))
    else if negb (folio_locked data_folio) || folio_uptodate data_folio
    then (Some (false, ctx),
          state_of (WARN_ON_ONCE warn_folio true s),
          log_of (WARN_ON_ONCE warn_folio true s))
    else add_data_blocks_loop K inode (Z.to_nat (len / block_size params))
           data_folio (u64 (Z.shiftl (folio_index data_folio) (PAGE_SHIFT K)))
           ctx len offset s.
Proof.
  unfold fsverity_add_data_blocks. fold vi. fold params.
  destruct (_ || _).
  { unfold bind, WARN_ON_ONCE.
    destruct (Z.testbit (warned s) warn_range); reflexivity. }
  destruct (_ || _).
  { unfold bind, WARN_ON_ONCE.
    destruct (Z.testbit (warned s) warn_folio); reflexivity. }
  unfold bind, WARN_ON_ONCE.
  destruct (add_data_blocks_loop K inode _ data_folio _ ctx len offset s)
    as [[r s'] evs].
  reflexivity.
Qed.

(** What passing the two checks means. *)
Lemma range_valid_true (data_folio : folio) (len offset : Z) :
  range_valid inode data_folio len offset = true ->
  0 < len /\
  IS_ALIGNED (Z.lor len offset) (block_size params) = true /\
  folio_locked data_folio = true /\ folio_uptodate data_folio = false.
Proof.
  unfold range_valid. fold vi. fold params.
  destruct (Z.leb_spec len 0), (IS_ALIGNED _ _), (folio_locked data_folio),
    (folio_uptodate data_folio); cbn; try discriminate.
  intros _. repeat split; assumption.
Qed.

(** fsverity_add_data_blocks either refuses the range at one of its two
    WARN_ON_ONCE, which warns the first time, or runs its loop. *)
Lemma add_data_blocks_cases (ctx : fsverity_verification_context)
    (data_folio : folio) (len offset : Z) (s : vstate) :
  (range_valid inode data_folio len offset = false /\
   exists site sw ew,
     fsverity_add_data_blocks K inode ctx data_folio len offset s
       = (Some (false, ctx), sw, ew) /\
     (site = warn_range \/ site = warn_folio) /\
     (Z.testbit (warned s) site = true /\ sw = s /\ ew = [] \/
      Z.testbit (warned s) site = false /\
      sw = set_warned site s /\ ew = [EvWarn])) \/
  (range_valid inode data_folio len offset = true /\
   fsverity_add_data_blocks K inode ctx data_folio len offset s
     = add_data_blocks_loop K inode (Z.to_nat (len / block_size params))
         data_folio (u64 (Z.shiftl (folio_index data_folio) (PAGE_SHIFT K)))
         ctx len offset s).
Proof.
  rewrite add_data_blocks_run. unfold range_valid. fold vi. fold params.
  destruct (_ || _); cbn [negb andb].
  { left. split; [reflexivity|]. exists warn_range.
    rewrite warn_once_run. cbn [andb state_of log_of fst snd].
    destruct (Z.testbit (warned s) warn_range); cbn [negb];
      eexists; eexists; (split; [reflexivity|]); split; auto. }
  destruct (_ || _); cbn [negb].
  { left. split; [reflexivity|]. exists warn_folio.
    rewrite warn_once_run. cbn [andb state_of log_of fst snd].
    destruct (Z.testbit (warned s) warn_folio); cbn [negb];
      eexists; eexists; (split; [reflexivity|]); split; auto. }
  right. split; reflexivity.
Qed.

Lemma add_data_blocks_held (ctx : fsverity_verification_context)
    (data_folio : folio) (len offset : Z) (s : vstate) (st : list resource)
    (ok : bool) (ctx' : fsverity_verification_context) (s' : vstate)
    (evs : list event) :
  fsverity_add_data_blocks K inode ctx data_folio len offset s
    = (Some (ok, ctx'), s', evs) ->
  held_after evs (pending_resources (pending_blocks ctx) ++ st)
    = Some (pending_resources (pending_blocks ctx') ++ st).
Proof.
  destruct (add_data_blocks_cases ctx data_folio len offset s)
    as [(_ & site & sw & ew & -> & _ & Hw) | (_ & ->)].
  - intros [= <- <- <- <-].
    destruct Hw as [(_ & _ & ->) | (_ & _ & ->)]; reflexivity.
  - apply add_loop_held.
Qed.

Lemma add_data_blocks_total (ctx : fsverity_verification_context)
    (data_folio : folio) (len offset : Z) (s : vstate) :
  blocks_ok inode -> is_size_t len ->
  result_of (fsverity_add_data_blocks K inode ctx data_folio len offset s)
    <> None.
Proof.
  intros Hok Hlen. rewrite add_data_blocks_run.
  destruct (Z.leb_spec len 0) as [Hl|Hl]; cbn [orb]; [discriminate|].
  destruct (IS_ALIGNED _ _) eqn:Ha; cbn [negb]; [|discriminate].
  destruct (_ || _); [discriminate|].
  pose proof (aligned_multiple len offset Hok ltac:(lia) Ha) as Hm.
  destruct Hok as [Hk Hbs]. fold vi in Hk, Hbs. fold params in Hk, Hbs.
  assert (Hpow : 0 < block_size params)
    by (rewrite Hbs; apply Z.pow_pos_nonneg; lia).
  assert (0 < len / block_size params).
  { apply Z.div_str_pos. split; [lia|].
    destruct (Z.le_gt_cases (block_size params) len); [assumption|].
    rewrite Z.div_small in Hm by lia. lia. }
  destruct Hlen.
  apply add_loop_total; [lia | lia | rewrite Z2Nat.id by lia; exact Hm | lia].
Qed.

Lemma add_bio_folios_held (segs : list (folio * Z * Z))
    (ctx : fsverity_verification_context) (s : vstate) (st : list resource)
    (ok : bool) (ctx' : fsverity_verification_context) (s' : vstate)
    (evs : list event) :
  add_bio_folios K inode ctx segs s = (Some (ok, ctx'), s', evs) ->
  held_after evs (pending_resources (pending_blocks ctx) ++ st)
    = Some (pending_resources (pending_blocks ctx') ++ st).
Proof.
  revert ctx s ok ctx' s' evs; induction segs as [|[[f len] off] segs IH];
    intros ctx s ok ctx' s' evs H.
  - injection H as <- <- <- <-. reflexivity.
  - cbn [add_bio_folios] in H. unfold bind in H.
    destruct (fsverity_add_data_blocks K inode ctx f len off s)
      as [[[[ok1 ctx1]|] s1] e1] eqn:E1.
    + apply (add_data_blocks_held _ _ _ _ _ st) in E1.
      destruct ok1.
      * destruct (add_bio_folios K inode ctx1 segs s1) as [[r2 s2] e2] eqn:E2.
        injection H as -> <- <-. apply IH in E2.
        now apply held_after_cat
          with (st1 := pending_resources (pending_blocks ctx1) ++ st).
      * injection H as <- <- <- <-. now rewrite app_nil_r.
    + discriminate.
Qed.

Lemma add_bio_folios_total (segs : list (folio * Z * Z))
    (ctx : fsverity_verification_context) (s : vstate) :
  blocks_ok inode ->
  Forall (fun seg : folio * Z * Z => is_size_t (snd (fst seg))) segs ->
  result_of (add_bio_folios K inode ctx segs s) <> None.
Proof.
  intros Hok Hsegs. revert ctx s; induction Hsegs as [|[[f len] off] segs Hl _ IH];
    intros ctx s; [discriminate|].
  cbn [add_bio_folios]. unfold bind.
  pose proof (add_data_blocks_total ctx f len off s Hok Hl) as Ht.
  destruct (fsverity_add_data_blocks K inode ctx f len off s)
    as [[[[ok1 ctx1]|] s1] e1]; [|now contradiction Ht].
  destruct ok1.
  - specialize (IH ctx1 s1).
    destruct (add_bio_folios K inode ctx1 segs s1) as [[r2 s2] e2].
    exact IH.
  - discriminate.
Qed.

(** How fsverity_verify_blocks ends: with a verdict, and with the pins and
    mappings as they were. *)
Lemma verify_blocks_held (data_folio : folio) (len offset : Z) (s : vstate)
    (st : list resource) :
  blocks_ok inode -> is_size_t len ->
  let r := fsverity_verify_blocks K inode data_folio len offset s in
  (exists ok, result_of r = Some ok) /\ held_after (log_of r) st = Some st.
Proof.
  intros Hok Hlen r. subst r. unfold fsverity_verify_blocks, bind.
  pose proof (add_data_blocks_total (fsverity_init_verification_context 0)
                data_folio len offset s Hok Hlen) as Ht.
  destruct (fsverity_add_data_blocks K inode _ data_folio len offset s)
    as [[[[ok1 ctx1]|] s1] e1] eqn:E1; [|now contradiction Ht].
  apply (add_data_blocks_held _ _ _ _ _ st) in E1. simpl in E1.
  destruct ok1.
  - destruct (flush_held ctx1 s1 st) as [Hs Hf].
    destruct (fsverity_verify_pending_blocks K inode ctx1 s1)
      as [[[ok2 ctx2] s2] e2].
    unfold result_of, log_of in *. simpl in Hs, Hf. destruct ok2.
    + simpl. split; [now exists true|]. destruct (Hs eq_refl) as [_ Hh].
      rewrite app_nil_r.
      now apply held_after_cat
        with (st1 := pending_resources (pending_blocks ctx1) ++ st).
    + rewrite clear_pending_run. simpl. split; [now exists false|].
      destruct (Hf eq_refl) as [Hv Hh]. rewrite app_nil_r.
      apply held_after_cat
        with (st1 := pending_resources (pending_blocks ctx1) ++ st);
        [exact E1|].
      apply held_after_cat
        with (st1 := pending_resources (pending_blocks ctx1) ++ st);
        [exact Hh|].
      rewrite (pending_resources_views _ _ (eq_sym Hv)).
      apply kunmap_all_held.
  - rewrite clear_pending_run. unfold result_of, log_of. simpl.
    split; [now exists false|]. rewrite app_nil_r.
    apply held_after_cat
      with (st1 := pending_resources (pending_blocks ctx1) ++ st);
      [exact E1 | apply kunmap_all_held].
Qed.

Lemma bio_ioerr_run (b : bio) (ctx : fsverity_verification_context)
    (s : vstate) :
  bio_ioerr K b ctx s
    = (Some (set_bi_status b (BLK_STS_IOERR K)), s,
       map EvKunmap (map data_view (rev (pending_blocks ctx)))).
Proof.
  unfold bio_ioerr, bind. rewrite clear_pending_run. simpl.
  now rewrite app_nil_r.
Qed.

(** How fsverity_verify_bio ends: the bio is left untouched when every folio
    was added and the last batch flushed, and with bi_status set to
    BLK_STS_IOERR otherwise; the pins and mappings are as they were. *)
Lemma verify_bio_run (b : bio) (s : vstate) (st : list resource) :
  blocks_ok inode -> bio_lengths_ok b ->
  let r := fsverity_verify_bio K inode b s in
  result_of r = Some (if bio_verified K inode b s then b
                      else set_bi_status b (BLK_STS_IOERR K)) /\
  held_after (log_of r) st = Some st.
Proof.
  intros Hok Hlen r. subst r. unfold fsverity_verify_bio, bio_verified, bind.
  set (ctx0 := fsverity_init_verification_context _).
  pose proof (add_bio_folios_total (bi_segments b) ctx0 s Hok Hlen) as Ht.
  destruct (add_bio_folios K inode ctx0 (bi_segments b) s)
    as [[[[ok1 ctx1]|] s1] e1] eqn:E1; [|now contradiction Ht].
  apply (add_bio_folios_held _ _ _ st) in E1. simpl in E1.
  unfold result_of at 2, state_of at 1. cbn [fst snd].
  destruct ok1.
  - destruct (flush_held ctx1 s1 st) as [Hs Hf].
    destruct (fsverity_verify_pending_blocks K inode ctx1 s1)
      as [[[ok2 ctx2] s2] e2].
    unfold result_of, log_of in *. simpl in Hs, Hf. cbn [fst snd]. destruct ok2.
    + simpl. split; [reflexivity|]. destruct (Hs eq_refl) as [_ Hh].
      rewrite app_nil_r.
      now apply held_after_cat
        with (st1 := pending_resources (pending_blocks ctx1) ++ st).
    + rewrite bio_ioerr_run. simpl. split; [reflexivity|].
      destruct (Hf eq_refl) as [Hv Hh].
      apply held_after_cat
        with (st1 := pending_resources (pending_blocks ctx1) ++ st);
        [exact E1|].
      apply held_after_cat
        with (st1 := pending_resources (pending_blocks ctx1) ++ st);
        [exact Hh|].
      rewrite (pending_resources_views _ _ (eq_sym Hv)).
      apply kunmap_all_held.
  - rewrite bio_ioerr_run. unfold result_of, log_of. simpl.
    split; [reflexivity|].
    apply held_after_cat
      with (st1 := pending_resources (pending_blocks ctx1) ++ st);
      [exact E1 | apply kunmap_all_held].
Qed.

(** C8 (no mapping leak): a walk releases every tree page it pinned and
    mapped during its ascent exactly once, whether it leaves through the
    descent, the shortcut of a verified block or the error exit; and when
    fsverity_verify_blocks or fsverity_verify_bio returns, with success or
    failure, no tree page and no data view that the call pinned or mapped
    is still held. *)
Theorem no_mapping_leak :
  blocks_ok inode ->
  (forall dblock max_ra s st,
     held_after (log_of (verify_data_block K inode dblock max_ra s)) st
       = Some st) /\
  (forall data_folio len offset s,
     is_size_t len ->
     let r := fsverity_verify_blocks K inode data_folio len offset s in
     (exists ok, result_of r = Some ok) /\ held_after (log_of r) [] = Some []) /\
  (forall b s,
     bio_lengths_ok b ->
     let r := fsverity_verify_bio K inode b s in
     (exists b', result_of r = Some b') /\ held_after (log_of r) [] = Some []).
Proof.
  intros Hok. split; [|split].
  - intros. apply walk_balanced.
  - intros f len off s Hlen. now apply verify_blocks_held.
  - intros b s Hlen r.
    destruct (verify_bio_run b s [] Hok Hlen) as [Hr Hh].
    split; [eexists; exact Hr | exact Hh].
Qed.

(** C10 (frame condition on the bio): fsverity_verify_bio returns the bio
    exactly as it received it when every segment was added and the final
    flush succeeded; otherwise the only field it writes is bi_status, which
    becomes BLK_STS_IOERR. *)
Theorem verify_bio_status_frame (b : bio) (s : vstate) :
  blocks_ok inode -> bio_lengths_ok b ->
  let r := result_of (fsverity_verify_bio K inode b s) in
  (bio_verified K inode b s = true -> r = Some b) /\
  (bio_verified K inode b s = false ->
     exists b', r = Some b' /\
       bi_status b' = BLK_STS_IOERR K /\
       bi_opf b' = bi_opf b /\ bi_size b' = bi_size b /\
       bi_segments b' = bi_segments b).
Proof.
  intros Hok Hlen r. subst r.
  destruct (verify_bio_run b s [] Hok Hlen) as [Hr _]. rewrite Hr.
  split; intros ->; [reflexivity|].
  eexists; split; [reflexivity|]. repeat split.
Qed.

Lemma flush_max_ra (ctx : fsverity_verification_context) (s : vstate) :
  max_ra_pages (snd (result_of (fsverity_verify_pending_blocks K inode ctx s)))
    = max_ra_pages ctx.
Proof.
  destruct (pending_blocks ctx) as [|b0 bs0] eqn:Ep.
  { now rewrite (flush_empty ctx s Ep). }
  assert (Hne : pending_blocks ctx <> []) by (rewrite Ep; discriminate).
  destruct (Z.eq_dec (shash_setup_err (hash_alg params)) 0) as [He|He].
  2:{ now rewrite (flush_setup_err ctx s Hne He). }
  destruct (crypto_shash_finup_mb inode (map data (pending_blocks ctx)))
    as [hs|] eqn:Ef.
  2:{ now rewrite (flush_finup_err ctx s Hne He Ef). }
  rewrite (flush_walk ctx s hs Hne He Ef).
  destruct (result_of (verify_each K inode (max_ra_pages ctx) _ s)); reflexivity.
Qed.

(** A loop over the pending blocks that ends with false has walked the
    blocks up to the first one that does not verify, in order, and no
    block after it. *)
Lemma verify_each_stops (max_ra : Z) (bs : list fsverity_pending_block)
    (s : vstate) :
  result_of (verify_each K inode max_ra bs s) = false ->
  exists pre b post,
    bs = pre ++ b :: post /\
    walk_in_order K inode max_ra (pre ++ [b]) s
      = (repeat true (length pre) ++ [false],
         state_of (verify_each K inode max_ra bs s),
         log_of (verify_each K inode max_ra bs s)).
Proof.
  revert s; induction bs as [|b bs IH]; intros s; [discriminate|].
  cbn [verify_each]. unfold bind.
  destruct (verify_data_block K inode b max_ra s) as [[ok s1] e1] eqn:E1.
  destruct ok.
  - specialize (IH s1).
    destruct (verify_each K inode max_ra bs s1) as [[ok2 s2] e2].
    cbn [result_of state_of log_of fst snd] in *.
    intros ->. destruct (IH eq_refl) as (pre & b' & post & -> & Hw).
    exists (b :: pre), b', post. split; [reflexivity|].
    cbn [app walk_in_order length repeat]. unfold bind.
    rewrite E1, Hw. cbn [ret]. now rewrite app_nil_r.
  - intros _. exists [], b, bs. split; [reflexivity|].
    cbn [app walk_in_order length repeat]. unfold bind.
    rewrite E1. reflexivity.
Qed.

(** C7 (flush postcondition and error atomicity): with nothing pending the
    flush is a no-op that returns true.  When the import of the hash state
    fails, the flush returns false at once: nothing is hashed, nothing is
    walked, the context and the state are as they were.  When the
    multi-buffer hash fails, it returns false as soon: nothing is walked.
    Otherwise one multi-buffer hash has stored in every pending entry the
    hash of its body, and either every entry is walked in the order of the
    queue with the verdict true, every mapped view is released, num_pending
    is 0 and the flush returns true; or the entries are walked in that
    order up to the first one whose walk fails, none after it is walked,
    no view is released and the flush returns false with the entries still
    queued.  Whenever it returns false, num_pending and the mapped views
    are as they were, left for teardown. *)
Theorem flush_postcondition (ctx : fsverity_verification_context)
    (s : vstate) (st : list resource) :
  let r := fsverity_verify_pending_blocks K inode ctx s in
  let ok := fst (result_of r) in
  let ctx' := snd (result_of r) in
  let bs := pending_blocks ctx in
  let mapped := pending_resources bs in
  let setup := EvShashSetup (hashstate params) in
  let finup := EvFinupMb (num_pending ctx) in
  (bs = [] -> r = ((true, ctx), s, [])) /\
  (bs <> [] -> shash_setup_err (hash_alg params) <> 0 ->
     r = ((false, ctx), s,
          [setup; EvErr (ErrImport (shash_setup_err (hash_alg params)))])) /\
  (bs <> [] -> shash_setup_err (hash_alg params) = 0 ->
   crypto_shash_finup_mb inode (map data bs) = None ->
     r = ((false, ctx), s, [setup; finup; EvErr ErrFinup])) /\
  (bs <> [] -> shash_setup_err (hash_alg params) = 0 ->
   forall hs,
     crypto_shash_finup_mb inode (map data bs) = Some hs ->
     let hashed := store_real_hashes bs hs in
     Forall (fun b => tfm (hash_alg params) (body_of inode b)
                      = Some (real_hash b)) hashed /\
     count_finup (log_of r) = 1%nat /\
     ((exists wlog,
         walk_in_order K inode (max_ra_pages ctx) hashed s
           = (repeat true (length hashed), state_of r, wlog) /\
         result_of r
           = (true, {| max_ra_pages := max_ra_pages ctx;
                       pending_blocks := [] |}) /\
         log_of r = [setup; finup] ++ wlog
                    ++ map EvKunmap (map data_view (rev bs))) \/
      (exists pre b post wlog,
         hashed = pre ++ b :: post /\
         walk_in_order K inode (max_ra_pages ctx) (pre ++ [b]) s
           = (repeat true (length pre) ++ [false], state_of r, wlog) /\
         result_of r
           = (false, {| max_ra_pages := max_ra_pages ctx;
                        pending_blocks := hashed |}) /\
         log_of r = [setup; finup] ++ wlog))) /\
  (ok = true ->
     num_pending ctx' = 0 /\
     held_after (log_of r) (mapped ++ st) = Some st) /\
  (ok = false ->
     bs <> [] /\
     num_pending ctx' = num_pending ctx /\
     max_ra_pages ctx' = max_ra_pages ctx /\
     map data_view (pending_blocks ctx') = map data_view bs /\
     held_after (log_of r) (mapped ++ st) = Some (mapped ++ st)).
Proof.
  intros r ok ctx' bs mapped setup finup.
  split; [intros Hp; subst r; now apply flush_empty|].
  split; [intros Hne He; subst r; now apply flush_setup_err|].
  split; [intros Hne He Ef; subst r; now apply flush_finup_err|].
  split.
  { intros Hne He hs Ef hashed.
    assert (Hr := flush_walk ctx s hs Hne He Ef). cbv zeta in Hr. fold r in Hr.
    fold bs in Hr. fold hashed in Hr.
    pose proof (verify_each_in_order (max_ra_pages ctx) hashed s) as Hord.
    pose proof (verify_each_stops (max_ra_pages ctx) hashed s) as Hstop.
    pose proof (verify_each_walk_events (max_ra_pages ctx) hashed s) as Hev.
    split; [now apply (finup_mb_hashes _ _ Ef)|].
    destruct (result_of (verify_each K inode (max_ra_pages ctx) hashed s))
      eqn:Ew; rewrite Hr; cbn [result_of state_of log_of fst snd].
    - split.
      { rewrite !count_finup_app, (count_finup_walk _ Hev), count_finup_kunmap.
        reflexivity. }
      left. exists (log_of (verify_each K inode (max_ra_pages ctx) hashed s)).
      split; [now apply Hord|]. split; reflexivity.
    - split.
      { rewrite !count_finup_app, (count_finup_walk _ Hev). reflexivity. }
      right. destruct (Hstop eq_refl) as (pre & b & post & Hsplit & Hw).
      exists pre, b, post,
        (log_of (verify_each K inode (max_ra_pages ctx) hashed s)).
      split; [exact Hsplit|]. split; [exact Hw|]. split; reflexivity. }
  destruct (flush_held ctx s st) as [Hheld_t Hheld_f]. fold r in Hheld_t, Hheld_f.
  fold ok in Hheld_t, Hheld_f. fold ctx' in Hheld_t, Hheld_f.
  fold bs in Hheld_t, Hheld_f. fold mapped in Hheld_t, Hheld_f.
  split.
  - intros Hok. destruct (Hheld_t Hok) as [Hnil Hh].
    split; [unfold num_pending; now rewrite Hnil | exact Hh].
  - intros Hok. destruct (Hheld_f Hok) as [Hviews Hh].
    split.
    { intros Hnil. subst ok r. rewrite (flush_empty ctx s Hnil) in Hok.
      discriminate. }
    split.
    { unfold num_pending. apply (f_equal (@length view)) in Hviews.
      rewrite !length_map in Hviews. now rewrite Hviews. }
    split; [subst ctx' r; apply flush_max_ra|].
    split; assumption.
Qed.

(** *** One flush against separate verifications *)

Lemma verify_single_run (max_ra : Z) (b : fsverity_pending_block) (s : vstate) :
  let r := verify_single K inode max_ra b s in
  (shash_setup_err (hash_alg params) <> 0 ->
     result_of r = false /\ state_of r = s) /\
  (shash_setup_err (hash_alg params) = 0 ->
     match tfm (hash_alg params) (body_of inode b) with
     | None => result_of r = false /\ state_of r = s
     | Some h =>
         let w := verify_data_block K inode (set_real_hash b h) max_ra s in
         result_of r = result_of w /\ state_of r = state_of w
     end).
Proof.
  intros r. subst r. unfold verify_single, bind.
  set (ctx := {| max_ra_pages := max_ra; pending_blocks := [b] |}).
  assert (Hne : pending_blocks ctx <> []) by discriminate.
  split; intros He.
  - rewrite (flush_setup_err ctx s Hne He). split; reflexivity.
  - unfold body_of. fold vi. fold params.
    destruct (tfm (hash_alg params) (firstn (Z.to_nat (block_size params)) (data b)))
      as [h|] eqn:Eh.
    + assert (Ef : crypto_shash_finup_mb inode (map data (pending_blocks ctx))
                   = Some [h]).
      { simpl. fold vi. fold params. now rewrite Eh. }
      rewrite (flush_walk ctx s [h] Hne He Ef).
      cbn [pending_blocks ctx store_real_hashes max_ra_pages verify_each].
      unfold bind.
      destruct (verify_data_block K inode (set_real_hash b h) max_ra s)
        as [[ok s1] e1].
      destruct ok; unfold result_of, state_of; simpl; split; reflexivity.
    + assert (Ef : crypto_shash_finup_mb inode (map data (pending_blocks ctx))
                   = None).
      { simpl. fold vi. fold params. now rewrite Eh. }
      rewrite (flush_finup_err ctx s Hne He Ef). split; reflexivity.
Qed.

Lemma verify_separately_cons (max_ra : Z) (b : fsverity_pending_block)
    (bs : list fsverity_pending_block) (s : vstate) :
  let r1 := verify_single K inode max_ra b s in
  let r2 := verify_separately K inode max_ra bs (state_of r1) in
  result_of (verify_separately K inode max_ra (b :: bs) s)
    = (result_of r1 && result_of r2)%bool /\
  state_of (verify_separately K inode max_ra (b :: bs) s) = state_of r2.
Proof.
  cbn [verify_separately]. unfold bind.
  destruct (verify_single K inode max_ra b s) as [[ok s1] e1].
  unfold result_of, state_of. simpl.
  destruct (verify_separately K inode max_ra bs s1) as [[oks s2] e2].
  split; reflexivity.
Qed.

(** A failing hash makes the separate verifications reject as well. *)
Lemma verify_separately_finup_err (max_ra : Z)
    (bs : list fsverity_pending_block) (s : vstate) :
  crypto_shash_finup_mb inode (map data bs) = None ->
  result_of (verify_separately K inode max_ra bs s) = false.
Proof.
  revert s; induction bs as [|b bs IH]; intros s; [discriminate|].
  cbn [map crypto_shash_finup_mb]. fold vi. fold params. intros Hf.
  destruct (verify_separately_cons max_ra b bs s) as [-> _].
  destruct (verify_single_run max_ra b s) as [Hbad Hgood].
  destruct (Z.eq_dec (shash_setup_err (hash_alg params)) 0) as [He|He].
  2:{ destruct (Hbad He) as [-> _]. reflexivity. }
  specialize (Hgood He). unfold body_of in Hgood. fold vi in Hgood. fold params in Hgood.
  destruct (tfm (hash_alg params) _) as [h|].
  - destruct (crypto_shash_finup_mb inode (map data bs)) eqn:Er; [discriminate|].
    rewrite (IH _ eq_refl). apply andb_false_r.
  - destruct Hgood as [-> _]. reflexivity.
Qed.

(** With the hashes computed, the loop of the flush and the separate
    verifications agree on the verdict, and on the state when they accept;
    when the loop rejects, it stops where the separate verifications first
    reject. *)
Lemma verify_each_separately (max_ra : Z) (bs : list fsverity_pending_block)
    (hs : list bytes) (s : vstate) :
  shash_setup_err (hash_alg params) = 0 ->
  crypto_shash_finup_mb inode (map data bs) = Some hs ->
  let w := verify_each K inode max_ra (store_real_hashes bs hs) s in
  let sep := verify_separately K inode max_ra bs s in
  result_of w = result_of sep /\
  (result_of w = true -> state_of w = state_of sep) /\
  (result_of w = false ->
     exists pre b post,
       bs = pre ++ b :: post /\
       result_of (verify_separately K inode max_ra pre s) = true /\
       result_of (verify_single K inode max_ra b
                    (state_of (verify_separately K inode max_ra pre s))) = false /\
       state_of w = state_of (verify_separately K inode max_ra (pre ++ [b]) s)).
Proof.
  intros He. revert hs s; induction bs as [|b bs IH]; intros hs s Hf.
  - injection Hf as <-. cbn. repeat split; discriminate.
  - cbn [map crypto_shash_finup_mb] in Hf. fold vi in Hf. fold params in Hf.
    destruct (tfm (hash_alg params) _) as [h|] eqn:Eh; [|discriminate].
    destruct (crypto_shash_finup_mb inode (map data bs)) as [hs'|] eqn:Er;
      [|discriminate].
    injection Hf as <-. cbv zeta.
    cbn [store_real_hashes verify_each].
    rewrite !result_bind, !state_bind.
    destruct (verify_separately_cons max_ra b bs s) as [Hres Hst].
    cbv zeta in Hres, Hst. rewrite Hres, Hst. clear Hres Hst.
    destruct (verify_single_run max_ra b s) as [_ Hgood].
    specialize (Hgood He). unfold body_of in Hgood.
    fold vi in Hgood. fold params in Hgood. rewrite Eh in Hgood.
    cbv zeta in Hgood. destruct Hgood as [Hr1 Hs1]. rewrite Hr1, Hs1.
    set (w1 := verify_data_block K inode (set_real_hash b h) max_ra s) in *.
    clearbody w1.
    destruct (result_of w1) eqn:E1.
    + destruct (IH hs' (state_of w1) eq_refl) as (IHr & IHs & IHp).
      cbn [andb]. split; [exact IHr|]. split; [exact IHs|].
      intros Hfalse.
      destruct (IHp Hfalse) as (pre & b' & post & -> & Hpre & Hb' & Hst').
      exists (b :: pre), b', post. split; [reflexivity|].
      destruct (verify_separately_cons max_ra b pre s) as [Hres2 Hst2].
      cbv zeta in Hres2, Hst2. rewrite Hres2, Hst2, Hr1, Hs1, Hpre.
      split; [reflexivity|]. split; [exact Hb'|].
      cbn [app].
      destruct (verify_separately_cons max_ra b (pre ++ [b']) s) as [_ Hst3].
      cbv zeta in Hst3. rewrite Hst3, Hs1. exact Hst'.
    + cbn [andb].
      split; [reflexivity|]. split; [discriminate|]. intros _.
      exists [], b, bs. split; [reflexivity|]. cbn [app].
      split; [reflexivity|].
      change (state_of (verify_separately K inode max_ra [] s)) with s.
      split; [now rewrite Hr1|].
      destruct (verify_separately_cons max_ra b [] s) as [_ Hst3].
      cbv zeta in Hst3. rewrite Hst3.
      change (state_of (ret false (state_of w1))) with (state_of w1).
      now rewrite Hs1.
Qed.

(** With the hashes computed, the flush is the separate verifications given
    up at the first rejection: same verdict, same memoization state. *)
Lemma verify_each_until_failure (max_ra : Z) (bs : list fsverity_pending_block)
    (hs : list bytes) (s : vstate) :
  shash_setup_err (hash_alg params) = 0 ->
  crypto_shash_finup_mb inode (map data bs) = Some hs ->
  let w := verify_each K inode max_ra (store_real_hashes bs hs) s in
  let sep := verify_until_failure K inode max_ra bs s in
  result_of w = result_of sep /\ state_of w = state_of sep.
Proof.
  intros He. revert hs s; induction bs as [|b bs IH]; intros hs s Hf.
  - injection Hf as <-. split; reflexivity.
  - cbn [map crypto_shash_finup_mb] in Hf. fold vi in Hf. fold params in Hf.
    destruct (tfm (hash_alg params) _) as [h|] eqn:Eh; [|discriminate].
    destruct (crypto_shash_finup_mb inode (map data bs)) as [hs'|] eqn:Er;
      [|discriminate].
    injection Hf as <-. cbv zeta.
    cbn [store_real_hashes verify_each verify_until_failure].
    rewrite !result_bind, !state_bind.
    destruct (verify_single_run max_ra b s) as [_ Hgood].
    specialize (Hgood He). unfold body_of in Hgood.
    fold vi in Hgood. fold params in Hgood. rewrite Eh in Hgood.
    cbv zeta in Hgood. destruct Hgood as [-> ->].
    set (w1 := verify_data_block K inode (set_real_hash b h) max_ra s).
    clearbody w1.
    destruct (result_of w1); [now apply IH | split; reflexivity].
Qed.

Lemma batch_until_failure (ctx : fsverity_verification_context) (s : vstate) :
  shash_setup_err (hash_alg params) = 0 ->
  crypto_shash_finup_mb inode (map data (pending_blocks ctx)) <> None ->
  let batch := fsverity_verify_pending_blocks K inode ctx s in
  let sep := verify_until_failure K inode (max_ra_pages ctx)
               (pending_blocks ctx) s in
  fst (result_of batch) = result_of sep /\ state_of batch = state_of sep.
Proof.
  intros He Hf batch sep. subst batch sep.
  destruct (pending_blocks ctx) as [|b0 bs0] eqn:Ep.
  { rewrite (flush_empty ctx s Ep). split; reflexivity. }
  assert (Hne : pending_blocks ctx <> []) by (rewrite Ep; discriminate).
  rewrite <- Ep in *. clear Ep.
  destruct (crypto_shash_finup_mb inode (map data (pending_blocks ctx)))
    as [hs|] eqn:Ef; [|congruence].
  rewrite (flush_walk ctx s hs Hne He Ef).
  destruct (verify_each_until_failure (max_ra_pages ctx) (pending_blocks ctx)
              hs s He Ef) as [Hres Hst].
  destruct (result_of (verify_each K inode (max_ra_pages ctx) _ s)) eqn:Ew;
    unfold result_of at 1, state_of at 1; cbn [fst snd]; split; assumption.
Qed.

(** *** Soundness of the walk *)

Lemma testbit_setbit_mono (a n m : Z) :
  Z.testbit a m = true -> Z.testbit (Z.setbit a n) m = true.
Proof. intros H. now rewrite Z.setbit_spec', Z.lor_spec, H. Qed.

Lemma hpage_nonneg (b : Z) :
  0 <= b -> 0 <= Z.shiftr b (log_blocks_per_page params).
Proof. intros H. now apply Z.shiftr_nonneg. Qed.

(** The query, as the walk uses it: on the page of the block. *)
Lemma is_verified_spec (b : Z) (s : vstate) :
  pages_ok inode -> 0 <= b < 2 ^ 64 ->
  let p := Z.shiftr b (log_blocks_per_page params) in
  let r := is_hash_block_verified inode p b s in
  result_of r = hblock_verified inode s b /\
  (result_of r = true -> state_of r = s) /\
  (forall q, page_flag s q = true -> page_flag (state_of r) q = true) /\
  (hash_block_verified (state_of r) = None <-> hash_block_verified s = None) /\
  (bitmap_mode s -> page_flag (state_of r) p = true) /\
  (forall b', hblock_verified inode (state_of r) b' = true ->
              hblock_verified inode s b' = true).
Proof.
  intros Hok Hb p r.
  assert (Hp : 0 <= p) by (apply hpage_nonneg; lia).
  unfold hblock_verified. fold vi. fold params. fold p.
  destruct (hash_block_verified s) as [bm|] eqn:Hbm.
  - destruct (page_flag s p) eqn:Hf.
    + subst r. rewrite (is_verified_bitmap_seen p b bm s Hbm Hf).
      unfold result_of, state_of. simpl. rewrite Hbm.
      split; [reflexivity|]. split; [reflexivity|]. split; [tauto|].
      split; [tauto|]. split; [intros _; exact Hf | tauto].
    + destruct (is_verified_bitmap_new p b bm s Hok Hbm Hf Hb)
        as (bm' & Hrun & Hbits).
      subst r. rewrite Hrun. unfold result_of, state_of. simpl.
      split; [reflexivity|]. split; [discriminate|].
      split; [intros q Hq; now apply testbit_setbit_mono|].
      split; [split; discriminate|].
      split; [intros _; now apply Z.setbit_eq|].
      intros b'. rewrite Hbits. fold p.
      set (p' := Z.shiftr b' (log_blocks_per_page params)).
      destruct (Z.eqb_spec p' p) as [E|E].
      { rewrite !andb_false_r. discriminate. }
      unfold page_flag. simpl.
      rewrite Z.setbit_neq by (assumption || congruence).
      now rewrite andb_true_r.
  - subst r. rewrite (is_verified_page_mode p b s Hbm).
    unfold result_of, state_of, bitmap_mode. simpl. rewrite Hbm.
    split; [reflexivity|]. split; [reflexivity|]. split; [tauto|].
    split; [tauto|]. split; [congruence | tauto].
Qed.

Lemma memo_sound_weaken (T : Z -> bytes) (s s' : vstate) :
  (forall b, hblock_verified inode s' b = true ->
             hblock_verified inode s b = true) ->
  memo_sound K inode T s -> memo_sound K inode T s'.
Proof. intros H Hs b Hv. apply Hs. now apply H. Qed.

Lemma on_path_up (level hidx : Z) :
  0 <= log_arity params -> 0 <= level ->
  on_path inode level hidx ->
  on_path inode (level + 1) (Z.shiftr hidx (log_arity params)).
Proof.
  intros Ha Hl (position & Hp & ->). exists position. split; [assumption|].
  fold vi. fold params. rewrite Z.shiftr_shiftr by assumption.
  f_equal. lia.
Qed.

Lemma held_ok_mono (s s' : vstate) (hb : hblock) :
  (forall q, page_flag s q = true -> page_flag s' q = true) ->
  (hash_block_verified s' = None <-> hash_block_verified s = None) ->
  held_ok inode s hb -> held_ok inode s' hb.
Proof.
  intros Hf Hm (H1 & H2 & H3). repeat split; try assumption.
  intros Hb. apply Hf, H3. unfold bitmap_mode in *. tauto.
Qed.

(** The verdict of the descent, whatever the state. *)
Lemma descend_result (dblock : fsverity_pending_block) (held : list hblock)
    (level : Z) (want : bytes) (s : vstate) :
  result_of (descend inode dblock held level want s) =
  match chain_digest inode held want with
  | Some d => memcmp_eq d (real_hash dblock) (digest_size params)
  | None => false
  end.
Proof.
  revert level want s; induction held as [|hb held IH]; intros level want s.
  - cbn [descend chain_digest]. fold vi. fold params.
    destruct (memcmp_eq want _ _); reflexivity.
  - cbn [descend chain_digest]. rewrite result_bind.
    change (result_of (fsverity_hash_block inode (hb_addr hb) s))
      with (tfm (hash_alg params)
              (firstn (Z.to_nat (block_size params)) (hb_addr hb))).
    change (state_of (fsverity_hash_block inode (hb_addr hb) s)) with s.
    fold vi. fold params.
    destruct (tfm (hash_alg params) _) as [real|].
    + destruct (memcmp_eq want real _); cbn [negb].
      * rewrite !result_bind. apply IH.
      * rewrite !result_bind. reflexivity.
    + rewrite result_bind. reflexivity.
Qed.

(** Whether a hash block is authenticated does not depend on the child that
    asks. *)
Lemma authenticated_same_block (T : Z -> bytes) (n : nat) (level hidx hidx' : Z) :
  Z.shiftr hidx (log_arity params) = Z.shiftr hidx' (log_arity params) ->
  authenticated K inode T (S n) level hidx <> None ->
  authenticated K inode T (S n) level hidx' <> None.
Proof.
  intros Heq. cbn [authenticated].
  unfold path_haddr, path_hpage_idx, path_hblock_idx.
  fold vi. fold params. rewrite <- Heq.
  destruct (authenticated K inode T n (level + 1) _) as [w|]; [|tauto].
  destruct (tfm (hash_alg params) _) as [real|]; [|tauto].
  destruct (memcmp_eq w real _); [discriminate | tauto].
Qed.

Lemma hblock_authentic_path (T : Z -> bytes) (level hidx : Z) :
  levels_disjoint inode ->
  0 <= level < num_levels params ->
  on_path inode level hidx ->
  authenticated K inode T (Z.to_nat (num_levels params - level)) level hidx
    <> None ->
  hblock_authentic K inode T (path_hblock_idx inode level hidx).
Proof.
  intros Hdis Hl Hon Hauth level' hidx' Hl' Hon' Heq.
  destruct (Hdis level' hidx' level hidx Hl' Hl Hon' Hon Heq) as [-> Hsame].
  fold vi in Hsame, Hauth |- *. fold params in Hsame, Hauth |- *.
  destruct (Z.to_nat (num_levels params - level)) as [|n] eqn:En; [lia|].
  now apply (authenticated_same_block T n level hidx hidx').
Qed.

(** The ascent, from a sound memoization state and along readable pages:
    it leaves through the descent, the state is still sound, and the digest
    that the descent will reach through the held blocks is the one the tree
    authenticates. *)
Lemma ascend_spec (T : Z -> bytes) (max_ra : Z) (n : nat) (level hidx : Z)
    (held : list hblock) (s : vstate)
    (a : ascent) (s' : vstate) (evs : list event) :
  pages_ok inode -> 0 <= log_arity params ->
  memo_sound K inode T s ->
  path_readable inode T n level hidx ->
  Z.of_nat n + level = num_levels params -> 0 <= level ->
  on_path inode level hidx ->
  ascend K inode max_ra n level hidx held s = (a, s', evs) ->
  memo_sound K inode T s' /\
  (forall q, page_flag s q = true -> page_flag s' q = true) /\
  (hash_block_verified s' = None <-> hash_block_verified s = None) /\
  exists l want held',
    a = AscDescend l want held' /\
    chain_digest inode held' want
      = match authenticated K inode T n level hidx with
        | Some w => chain_digest inode held w
        | None => None
        end /\
    (Forall (held_ok inode s) held -> Forall (held_ok inode s') held') /\
    incl held held' /\
    (n <> O ->
       (hblock_verified inode s (path_hblock_idx inode level hidx) = true /\
        held' = held /\ s' = s) \/
       (exists hb, In hb held' /\
                   hb_index hb = path_hblock_idx inode level hidx)) /\
    (levels_disjoint inode ->
     (forall w, authenticated K inode T n level hidx = Some w ->
                held_justified K inode T held w) ->
     held_justified K inode T held' want).
Proof.
  intros Hok Harity. revert level hidx held s a s' evs; induction n as [|n IH];
    intros level hidx held s a s' evs Hsound Hpath Hn Hlevel Hon H.
  - injection H as <- <- _. split; [assumption|]. split; [tauto|]. split; [tauto|].
    exists level, (root_hash vi), held.
    split; [reflexivity|]. split; [reflexivity|]. split; [tauto|].
    split; [apply incl_refl|]. split; [tauto|].
    intros _ Hj. now apply Hj.
  - destruct Hpath as [Hread Hrest].
    assert (Hlv : 0 <= level < num_levels params) by lia.
    pose proof (fun Hv => Hsound _ Hv level hidx Hlv Hon eq_refl) as Hmemo.
    fold vi in Hmemo. fold params in Hmemo.
    replace (Z.to_nat (num_levels params - level)) with (S n) in Hmemo by lia.
    cbn [authenticated] in Hmemo |- *.
    unfold path_hpage_idx, path_hblock_idx in Hread.
    unfold path_haddr, path_hoffset, path_hpage_idx, path_hblock_idx in Hmemo |- *.
    cbn [ascend] in H.
    fold vi in H, Hread, Hmemo |- *. fold params in H, Hread, Hmemo |- *.
    set (hblock_idx := u64 (nth (Z.to_nat level) (level_start params) 0 +
                            Z.shiftr hidx (log_arity params))) in *.
    set (hpage_idx := Z.shiftr hblock_idx (log_blocks_per_page params)) in *.
    set (haddr := skipn _ (T hpage_idx)) in *.
    set (hoffset := u32 (Z.land (u64 (Z.shiftl hidx (log_digestsize params)))
                                (u32 (block_size params - 1)))) in *.
    set (ra := if level =? 0 then _ else 0) in H.
    unfold bind at 1 in H. unfold call_read_merkle_tree_page at 1 in H.
    rewrite (Hread ra) in H.
    unfold bind at 1 in H. unfold kmap_local at 1, emit in H.
    unfold bind at 1 in H. fold haddr in H.
    pose proof (is_verified_spec hblock_idx s Hok (u64_range _)) as Hspec.
    cbv zeta in Hspec. fold hpage_idx in Hspec.
    destruct (is_hash_block_verified inode hpage_idx hblock_idx s)
      as [[v s1] e1].
    unfold result_of, state_of in Hspec. cbn [fst snd] in Hspec.
    destruct Hspec as (Hv & Hsame & Hmono & Hmode & Hflag & Hweak).
    destruct v.
    + unfold bind, kunmap_local, put_page, emit, ret in H.
      injection H as <- <- _. rewrite (Hsame eq_refl) in *.
      split; [assumption|]. split; [tauto|]. split; [tauto|].
      exists level, (memcpy_from haddr hoffset (digest_size params)), held.
      split; [reflexivity|].
      specialize (Hmemo (eq_sym Hv)).
      assert (Hslot : match authenticated K inode T n (level + 1)
                              (Z.shiftr hidx (log_arity params)) with
                      | Some want =>
                          match tfm (hash_alg params)
                                  (firstn (Z.to_nat (block_size params)) haddr) with
                          | Some real =>
                              if memcmp_eq want real (digest_size params)
                              then Some (memcpy_from haddr hoffset
                                           (digest_size params))
                              else None
                          | None => None
                          end
                      | None => None
                      end
                      = Some (memcpy_from haddr hoffset (digest_size params))).
      { destruct (authenticated K inode T n (level + 1) _) as [w|];
          [|congruence].
        destruct (tfm (hash_alg params) _) as [real|]; [|congruence].
        destruct (memcmp_eq w real _); [reflexivity | congruence]. }
      split; [now rewrite Hslot|].
      split; [tauto|]. split; [apply incl_refl|].
      split; [intros _; left; repeat split; now symmetry|].
      intros _ Hj. apply Hj. exact Hslot.
    + match type of H with
      | context [ascend _ _ _ _ _ _ (?h :: held) s1] => set (hb := h) in H
      end.
      destruct (ascend K inode max_ra n (level + 1)
                  (Z.shiftr hidx (log_arity params)) (hb :: held) s1)
        as [[a2 s2] e2] eqn:E2.
      injection H as <- <- _.
      apply IH in E2;
        [|now apply (memo_sound_weaken T s s1) | assumption | lia | lia
         |now apply on_path_up].
      destruct E2 as (Hsound2 & Hmono2 & Hmode2 & l & want & held' & -> & Hchain
                      & Hheld & Hincl & _ & Hjust2).
      split; [assumption|]. split; [intros q Hq; now apply Hmono2, Hmono|].
      split; [tauto|].
      exists l, want, held'. split; [reflexivity|].
      split.
      { rewrite Hchain.
        destruct (authenticated K inode T n (level + 1) _) as [w|];
          [|reflexivity].
        cbn [chain_digest hb hb_addr hb_hoffset]. fold vi. fold params.
        destruct (tfm (hash_alg params) _) as [real|]; [|reflexivity].
        destruct (memcmp_eq w real _); reflexivity. }
      split.
      { intros Hall. apply Hheld. constructor.
        - repeat split.
          + apply u64_range.
          + intros Hb. apply Hflag. unfold bitmap_mode in *. tauto.
        - eapply Forall_impl; [|exact Hall].
          intros hb' Hhb'. now apply (held_ok_mono s s1). }
      split; [intros x Hx; apply Hincl; now right|].
      split; [intros _; right; exists hb;
              split; [apply Hincl; now left | reflexivity]|].
      intros Hdis Hj. apply (Hjust2 Hdis).
      intros w Hw. cbn [held_justified hb hb_addr hb_hoffset hb_index].
      fold vi. fold params. intros real Hreal Hcmp.
      assert (Hthis : match authenticated K inode T n (level + 1)
                              (Z.shiftr hidx (log_arity params)) with
                      | Some want =>
                          match tfm (hash_alg params)
                                  (firstn (Z.to_nat (block_size params)) haddr) with
                          | Some real =>
                              if memcmp_eq want real (digest_size params)
                              then Some (memcpy_from haddr hoffset
                                           (digest_size params))
                              else None
                          | None => None
                          end
                      | None => None
                      end
                      = Some (memcpy_from haddr hoffset (digest_size params)))
        by (now rewrite Hw, Hreal, Hcmp).
      split; [|now apply Hj].
      apply (hblock_authentic_path T level hidx Hdis Hlv Hon).
      fold vi. fold params.
      replace (Z.to_nat (num_levels params - level)) with (S n) by lia.
      cbn [authenticated].
      unfold path_haddr, path_hoffset, path_hpage_idx, path_hblock_idx.
      fold vi. fold params. fold hblock_idx. fold hpage_idx. fold haddr.
      fold hoffset. rewrite Hthis. discriminate.
Qed.

Lemma mark_verified_spec (b : Z) (s : vstate) :
  0 <= b ->
  let p := Z.shiftr b (log_blocks_per_page params) in
  let s1 := state_of (mark_verified p b s) in
  (bitmap_mode s -> page_flag s p = true) ->
  (forall q, page_flag s q = true -> page_flag s1 q = true) /\
  (hash_block_verified s1 = None <-> hash_block_verified s = None) /\
  (forall b', hblock_verified inode s b' = true ->
              hblock_verified inode s1 b' = true) /\
  hblock_verified inode s1 b = true.
Proof.
  intros Hb p s1 Hflag. subst s1.
  assert (Hp : 0 <= p) by (now apply hpage_nonneg).
  unfold hblock_verified. fold vi. fold params. fold p.
  destruct (hash_block_verified s) as [bm|] eqn:Hbm.
  - rewrite (mark_verified_bitmap p b bm s Hbm).
    unfold state_of, page_flag in *. simpl.
    split; [tauto|]. split; [split; discriminate|]. split.
    + intros b'. rewrite !andb_true_iff. intros [H1 H2].
      split; [assumption | now apply testbit_setbit_mono].
    + rewrite Hflag by (unfold bitmap_mode; congruence).
      now apply Z.setbit_eq.
  - rewrite (mark_verified_page p b s Hbm).
    unfold state_of, page_flag in *. simpl.
    split; [intros q; apply testbit_setbit_mono|]. split; [tauto|]. split.
    + intros b'. apply testbit_setbit_mono.
    + now apply Z.setbit_eq.
Qed.

(** The state the descent leaves: marks are only added, and when every
    held block hashes to the digest wanted of it, every held block is
    marked. *)
Lemma descend_state (dblock : fsverity_pending_block) (held : list hblock)
    (level : Z) (want : bytes) (s : vstate) :
  Forall (held_ok inode s) held ->
  let s' := state_of (descend inode dblock held level want s) in
  (forall q, page_flag s q = true -> page_flag s' q = true) /\
  (hash_block_verified s' = None <-> hash_block_verified s = None) /\
  (forall b, hblock_verified inode s b = true ->
             hblock_verified inode s' b = true) /\
  (chain_digest inode held want <> None ->
   forall hb, In hb held -> hblock_verified inode s' (hb_index hb) = true).
Proof.
  revert level want s; induction held as [|hb held IH]; intros level want s Hall.
  - cbn [descend chain_digest]. fold vi. fold params.
    destruct (memcmp_eq want _ _); cbn [negb];
      (split; [tauto|]; split; [tauto|]; split; [tauto|]; intros _ hb []).
  - inversion Hall as [|? ? Hhb Hrest]; subst.
    cbn [descend chain_digest]. rewrite state_bind.
    change (result_of (fsverity_hash_block inode (hb_addr hb) s))
      with (tfm (hash_alg params)
              (firstn (Z.to_nat (block_size params)) (hb_addr hb))).
    change (state_of (fsverity_hash_block inode (hb_addr hb) s)) with s.
    fold vi. fold params.
    pose proof (release_hblocks_run (hb :: held) s) as [Hrel _].
    destruct (tfm (hash_alg params) _) as [real|].
    + destruct (memcmp_eq want real _); cbn [negb].
      * destruct Hhb as (Hidx & Hpage & Hflag).
        pose proof (mark_verified_spec (hb_index hb) s Hidx) as Hmark.
        cbv zeta in Hmark. fold vi in Hpage. fold params in Hpage.
        rewrite <- Hpage in Hmark.
        specialize (Hmark Hflag).
        destruct Hmark as (Hm1 & Hm2 & Hm3 & Hm4).
        rewrite !state_bind.
        set (s1 := state_of (mark_verified (hb_page hb) (hb_index hb) s)) in *.
        change (state_of (kunmap_local (VPage (hb_page hb)) s1)) with s1.
        change (state_of (put_page (hb_page hb) s1)) with s1.
        assert (Hall1 : Forall (held_ok inode s1) held).
        { eapply Forall_impl; [|exact Hrest].
          intros hb' Hhb'. now apply (held_ok_mono s s1). }
        destruct (IH (level - 1)
                     (memcpy_from (hb_addr hb) (hb_hoffset hb)
                        (digest_size params)) s1 Hall1)
          as (I1 & I2 & I3 & I4).
        split; [intros q Hq; now apply I1, Hm1|].
        split; [tauto|].
        split; [intros b Hb; now apply I3, Hm3|].
        intros Hchain hb' [<-|Hin]; [now apply I3 | now apply I4].
      * rewrite !state_bind.
        change (state_of (fsverity_err _ s)) with s.
        rewrite Hrel. change (state_of (ret false s)) with s.
        split; [tauto|]. split; [tauto|]. split; [tauto|]. congruence.
    + rewrite state_bind, Hrel. change (state_of (ret false s)) with s.
      split; [tauto|]. split; [tauto|]. split; [tauto|]. congruence.
Qed.

(** A state in which no tree page has its flag set is sound. *)
Lemma memo_sound_fresh (T : Z -> bytes) (s : vstate) :
  pg_checked s = 0 -> memo_sound K inode T s.
Proof.
  intros H b Hv. exfalso. revert Hv. unfold hblock_verified, page_flag.
  rewrite H, Z.bits_0. destruct (hash_block_verified s); discriminate.
Qed.

(** The walk of a block that lies within the file. *)
Lemma walk_spec (T : Z -> bytes) (dblock : fsverity_pending_block)
    (max_ra : Z) (s : vstate) :
  pages_ok inode -> levels_ok inode ->
  0 <= i_size inode < 2 ^ 63 ->
  0 <= pos dblock < i_size inode ->
  memo_sound K inode T s ->
  path_readable inode T (Z.to_nat (num_levels params)) 0
    (Z.shiftr (pos dblock) (log_blocksize params)) ->
  let r := verify_data_block K inode dblock max_ra s in
  result_of r =
    match authenticated_digest K inode T (pos dblock) with
    | Some d => memcmp_eq d (real_hash dblock) (digest_size params)
    | None => false
    end /\
  (1 <= num_levels params ->
   authenticated_digest K inode T (pos dblock) <> None ->
   hblock_verified inode (state_of r)
     (path_hblock_idx inode 0 (Z.shiftr (pos dblock) (log_blocksize params)))
     = true).
Proof.
  intros Hok [Harity Hlv] Hsz Hpos Hsound Hpath r. subst r.
  fold vi in Harity, Hlv. fold params in Harity, Hlv.
  unfold verify_data_block, authenticated_digest. fold vi. fold params.
  rewrite u64_small by lia.
  replace (i_size inode <=? pos dblock) with false
    by (symmetry; apply Z.leb_gt; lia).
  assert (Hon : on_path inode 0
                  (Z.shiftr (pos dblock) (log_blocksize params))).
  { exists (pos dblock). split; [assumption|]. fold vi. fold params.
    now rewrite Z.mul_0_l, Z.shiftr_0_r. }
  rewrite result_bind, state_bind.
  set (hidx := Z.shiftr (pos dblock) (log_blocksize params)) in *.
  destruct (ascend K inode max_ra (Z.to_nat (num_levels params)) 0 hidx [] s)
    as [[a s1] e1] eqn:Ea.
  apply (ascend_spec T) in Ea; [|assumption..|lia|lia|assumption].
  destruct Ea as (Hsound1 & Hmono & Hmode & l & want & held & -> & Hchain
                  & Hheld & _ & Hleaf & _).
  unfold result_of at 2 3, state_of at 2. cbn [fst snd].
  rewrite descend_result, Hchain.
  split.
  { destruct (authenticated K inode T _ 0 hidx); reflexivity. }
  intros Hn Hauth.
  destruct (descend_state dblock held l want s1 (Hheld (Forall_nil _)))
    as (_ & _ & Hkeep & Hmarks).
  destruct Hleaf as [(Hv & -> & ->)|(hb & Hin & Hidx)]; [lia | |].
  - now apply Hkeep.
  - rewrite <- Hidx. apply Hmarks; [|assumption].
    rewrite Hchain.
    destruct (authenticated K inode T _ 0 hidx); [discriminate | congruence].
Qed.

(** *** The memoization state stays sound *)

Lemma encoding_ok_mono (s s' : vstate) :
  (hash_block_verified s' = None <-> hash_block_verified s = None) ->
  encoding_ok inode s -> encoding_ok inode s'.
Proof. unfold encoding_ok. tauto. Qed.

Lemma mark_verified_sound (T : Z -> bytes) (b : Z) (s : vstate) :
  0 <= b ->
  encoding_ok inode s ->
  memo_sound K inode T s ->
  hblock_authentic K inode T b ->
  memo_sound K inode T
    (state_of (mark_verified (Z.shiftr b (log_blocks_per_page params)) b s)).
Proof.
  intros Hb Henc Hsound Hauth b'. unfold hblock_verified.
  pose proof (Hsound b') as Hold. unfold hblock_verified in Hold.
  fold vi in Hold |- *. fold params in Hold |- *.
  destruct (hash_block_verified s) as [bm|] eqn:Hbm.
  - rewrite (mark_verified_bitmap _ b bm s Hbm).
    unfold state_of, page_flag in *. simpl.
    destruct (Z.eq_dec b b') as [<-|Hne]; [intros _; exact Hauth|].
    rewrite Z.setbit_neq by assumption. exact Hold.
  - rewrite (mark_verified_page _ b s Hbm).
    unfold state_of, page_flag in *. simpl.
    pose proof (Henc Hbm) as H0. fold vi in H0. fold params in H0.
    rewrite H0, !Z.shiftr_0_r in *.
    destruct (Z.eq_dec b b') as [<-|Hne]; [intros _; exact Hauth|].
    rewrite Z.setbit_neq by assumption. exact Hold.
Qed.

(** The descent marks only blocks that the tree authenticates. *)
Lemma descend_sound (T : Z -> bytes) (dblock : fsverity_pending_block)
    (held : list hblock) (level : Z) (want : bytes) (s : vstate) :
  Forall (held_ok inode s) held ->
  encoding_ok inode s ->
  memo_sound K inode T s ->
  held_justified K inode T held want ->
  memo_sound K inode T (state_of (descend inode dblock held level want s)).
Proof.
  revert level want s; induction held as [|hb held IH];
    intros level want s Hall Henc Hsound Hjust.
  - cbn [descend]. fold vi. fold params.
    destruct (memcmp_eq want _ _); exact Hsound.
  - inversion Hall as [|? ? Hhb Hrest]; subst.
    cbn [descend]. rewrite state_bind.
    change (result_of (fsverity_hash_block inode (hb_addr hb) s))
      with (tfm (hash_alg params)
              (firstn (Z.to_nat (block_size params)) (hb_addr hb))).
    change (state_of (fsverity_hash_block inode (hb_addr hb) s)) with s.
    fold vi. fold params.
    pose proof (release_hblocks_run (hb :: held) s) as [Hrel _].
    cbn [held_justified] in Hjust. fold vi in Hjust. fold params in Hjust.
    destruct (tfm (hash_alg params) _) as [real|].
    + destruct (memcmp_eq want real _) eqn:Hcmp; cbn [negb].
      * destruct (Hjust real eq_refl Hcmp) as [Hauth Hjust'].
        destruct Hhb as (Hidx & Hpage & Hflag).
        fold vi in Hpage. fold params in Hpage.
        pose proof (mark_verified_spec (hb_index hb) s Hidx) as Hmark.
        cbv zeta in Hmark. rewrite <- Hpage in Hmark.
        destruct (Hmark Hflag) as (Hm1 & Hm2 & _ & _).
        pose proof (mark_verified_sound T (hb_index hb) s Hidx Henc Hsound Hauth)
          as Hsound1.
        rewrite <- Hpage in Hsound1.
        rewrite !state_bind.
        set (s1 := state_of (mark_verified (hb_page hb) (hb_index hb) s)) in *.
        change (state_of (kunmap_local (VPage (hb_page hb)) s1)) with s1.
        change (state_of (put_page (hb_page hb) s1)) with s1.
        apply IH; try assumption.
        -- eapply Forall_impl; [|exact Hrest].
           intros hb' Hhb'. now apply (held_ok_mono s s1).
        -- now apply (encoding_ok_mono s s1).
      * rewrite !state_bind.
        change (state_of (fsverity_err _ s)) with s.
        rewrite Hrel. exact Hsound.
    + rewrite state_bind, Hrel. exact Hsound.
Qed.

(** Soundness of the memoization state is an invariant of verification:
    in a tree whose levels do not overlap and whose pages on the path are
    read without error, verify_data_block takes a sound state to a sound
    state, whatever its verdict. *)
Theorem memo_sound_preserved (T : Z -> bytes) (dblock : fsverity_pending_block)
    (max_ra : Z) (s : vstate) :
  pages_ok inode -> levels_ok inode -> levels_disjoint inode ->
  0 <= i_size inode < 2 ^ 63 -> 0 <= pos dblock ->
  encoding_ok inode s ->
  memo_sound K inode T s ->
  path_readable inode T (Z.to_nat (num_levels params)) 0
    (Z.shiftr (pos dblock) (log_blocksize params)) ->
  memo_sound K inode T (state_of (verify_data_block K inode dblock max_ra s)).
Proof.
  intros Hok [Harity Hlv] Hdis Hsz Hpos0 Henc Hsound Hpath.
  fold vi in Harity, Hlv. fold params in Harity, Hlv.
  destruct (Z.lt_ge_cases (pos dblock) (i_size inode)) as [Hpos|Hpos].
  2:{ rewrite (past_eof_run dblock max_ra s Hsz Hpos). exact Hsound. }
  unfold verify_data_block. fold vi. fold params.
  rewrite u64_small by lia.
  replace (i_size inode <=? pos dblock) with false
    by (symmetry; apply Z.leb_gt; lia).
  assert (Hon : on_path inode 0
                  (Z.shiftr (pos dblock) (log_blocksize params))).
  { exists (pos dblock). split; [lia|]. fold vi. fold params.
    now rewrite Z.mul_0_l, Z.shiftr_0_r. }
  rewrite state_bind.
  set (hidx := Z.shiftr (pos dblock) (log_blocksize params)) in *.
  destruct (ascend K inode max_ra (Z.to_nat (num_levels params)) 0 hidx [] s)
    as [[a s1] e1] eqn:Ea.
  apply (ascend_spec T) in Ea; [|assumption..|lia|lia|assumption].
  destruct Ea as (Hsound1 & Hmono & Hmode & l & want & held & -> & _
                  & Hheld & _ & _ & Hjust).
  unfold result_of, state_of at 2. cbn [fst snd].
  apply descend_sound.
  - apply Hheld. constructor.
  - now apply (encoding_ok_mono s s1).
  - exact Hsound1.
  - apply (Hjust Hdis). intros w _. exact I.
Qed.


(** *** The memoization layer, as a cache *)

(** X1 (marking is idempotent and order-independent): the mark of lines
    241-244, made twice, leaves the state of one mark, and two marks leave
    the same state in either order, in both encodings; so readers that
    verify the same or different hash blocks need not be serialised. *)
Theorem mark_verified_idempotent (p b p' b' : Z) (s : vstate) :
  state_of (mark_verified p b (state_of (mark_verified p b s)))
    = state_of (mark_verified p b s) /\
  state_of (mark_verified p' b' (state_of (mark_verified p b s)))
    = state_of (mark_verified p b (state_of (mark_verified p' b' s))).
Proof.
  assert (Hi : forall a n, Z.setbit (Z.setbit a n) n = Z.setbit a n).
  { intros a n. unfold Z.setbit. now rewrite <- Z.lor_assoc, Z.lor_diag. }
  assert (Hc : forall a n m,
             Z.setbit (Z.setbit a n) m = Z.setbit (Z.setbit a m) n).
  { intros a n m. unfold Z.setbit. rewrite <- !Z.lor_assoc. f_equal.
    apply Z.lor_comm. }
  destruct (hash_block_verified s) as [bm|] eqn:Hbm.
  - rewrite (mark_verified_bitmap p b bm s Hbm),
      (mark_verified_bitmap p' b' bm s Hbm).
    cbn [state_of fst snd].
    erewrite !mark_verified_bitmap by reflexivity.
    cbn [state_of fst snd pg_checked]. split; f_equal; f_equal.
    + apply Hi.
    + apply Hc.
  - rewrite (mark_verified_page p b s Hbm), (mark_verified_page p' b' s Hbm).
    cbn [state_of fst snd].
    erewrite !mark_verified_page by reflexivity.
    cbn [state_of fst snd pg_checked]. split; f_equal.
    + apply Hi.
    + apply Hc.
Qed.

(** X2 (the query is stable): is_hash_block_verified asked a second time
    for the same block gives the answer it gave the first time and changes
    nothing any more, whatever the encoding and the state it started from. *)
Theorem query_is_stable (b : Z) (s : vstate) :
  pages_ok inode -> 0 <= b < 2 ^ 64 ->
  let p := Z.shiftr b (log_blocks_per_page params) in
  let r1 := is_hash_block_verified inode p b s in
  let r2 := is_hash_block_verified inode p b (state_of r1) in
  result_of r2 = result_of r1 /\ state_of r2 = state_of r1.
Proof.
  intros Hok Hb p r1 r2.
  assert (Hp : 0 <= p) by (apply hpage_nonneg; lia).
  destruct (hash_block_verified s) as [bm|] eqn:Hbm.
  - destruct (page_flag s p) eqn:Hf.
    + pose proof (is_verified_bitmap_seen p b bm s Hbm Hf) as E.
      subst r2 r1. rewrite E. cbn [state_of fst snd]. rewrite E.
      split; reflexivity.
    + destruct (is_verified_bitmap_new p b bm s Hok Hbm Hf Hb)
        as (bm' & Hrun & Hbits).
      subst r2 r1. rewrite Hrun. cbn [state_of fst snd].
      erewrite is_verified_bitmap_seen;
        [|reflexivity | unfold page_flag; cbn [pg_checked]; now apply Z.setbit_eq].
      cbn [result_of state_of fst snd]. split; [|reflexivity].
      rewrite Hbits. fold p. now rewrite Z.eqb_refl, andb_false_r.
  - pose proof (is_verified_page_mode p b s Hbm) as E.
    subst r2 r1. rewrite E. cbn [state_of fst snd]. rewrite E.
    split; reflexivity.
Qed.

(** X3 (a mark is found again): after the query of a hash block on its page
    and the mark of that block, as the walk makes them, the next query for
    the block returns true and changes nothing, in both encodings and
    whatever the state before. *)
Theorem mark_then_query (b : Z) (s : vstate) :
  pages_ok inode -> 0 <= b < 2 ^ 64 ->
  let p := Z.shiftr b (log_blocks_per_page params) in
  let s0 := state_of (is_hash_block_verified inode p b s) in
  let s1 := state_of (mark_verified p b s0) in
  let r := is_hash_block_verified inode p b s1 in
  result_of r = true /\ state_of r = s1.
Proof.
  intros Hok Hb p s0 s1 r.
  destruct (is_verified_spec b s Hok Hb) as (_ & _ & _ & Hmode & Hflag & _).
  fold p in Hmode, Hflag. fold s0 in Hmode, Hflag.
  assert (Hflag0 : bitmap_mode s0 -> page_flag s0 p = true).
  { intros Hm. apply Hflag. unfold bitmap_mode in *. tauto. }
  destruct (mark_verified_spec b s0 (proj1 Hb) Hflag0) as (_ & _ & _ & Hmarked).
  fold p in Hmarked. fold s1 in Hmarked.
  destruct (is_verified_spec b s1 Hok Hb) as (Hres & Hsame & _).
  fold p in Hres, Hsame. fold r in Hres, Hsame.
  rewrite Hmarked in Hres. split; [exact Hres | now apply Hsame].
Qed.

(** X4 (a mark stands for one hash block): with the bitmap in use the mark
    of a block leaves the answer for every other block as it was, blocks of
    the same page included; without the bitmap it leaves the answer for
    every block of another page as it was. *)
Theorem mark_verified_isolated (b b' : Z) (s : vstate) :
  0 <= b ->
  let p := Z.shiftr b (log_blocks_per_page params) in
  let s1 := state_of (mark_verified p b s) in
  (bitmap_mode s -> b' <> b ->
     hblock_verified inode s1 b' = hblock_verified inode s b') /\
  (Z.shiftr b' (log_blocks_per_page params) <> p ->
     hblock_verified inode s1 b' = hblock_verified inode s b').
Proof.
  intros Hb p s1. subst s1.
  assert (Hp : 0 <= p) by (now apply hpage_nonneg).
  unfold hblock_verified, bitmap_mode. fold vi. fold params.
  destruct (hash_block_verified s) as [bm|] eqn:Hbm.
  - rewrite (mark_verified_bitmap p b bm s Hbm).
    cbn [state_of fst snd hash_block_verified]. unfold page_flag.
    cbn [pg_checked].
    assert (Hne : b' <> b -> Z.testbit (Z.setbit bm b) b' = Z.testbit bm b').
    { intros Hne. apply Z.setbit_neq; [assumption | congruence]. }
    split.
    + intros _ H. now rewrite Hne.
    + intros H. rewrite Hne; [reflexivity|]. intros ->. now apply H.
  - rewrite (mark_verified_page p b s Hbm).
    cbn [state_of fst snd hash_block_verified]. unfold page_flag.
    cbn [pg_checked]. split; [congruence|].
    intros H. apply Z.setbit_neq; [assumption | congruence].
Qed.

(** X5 (a page that is not flagged is not trusted): when the flag of the
    page is clear, as it is for a page that has just been read into the page
    cache, is_hash_block_verified returns false whatever the bitmap holds,
    so the block is verified again; and afterwards no block of that page
    counts as verified, in both encodings. *)
Theorem unchecked_page_not_trusted (b : Z) (s : vstate) :
  pages_ok inode -> 0 <= b < 2 ^ 64 ->
  let p := Z.shiftr b (log_blocks_per_page params) in
  let r := is_hash_block_verified inode p b s in
  page_flag s p = false ->
  result_of r = false /\
  forall b', Z.shiftr b' (log_blocks_per_page params) = p ->
             hblock_verified inode (state_of r) b' = false.
Proof.
  intros Hok Hb p r Hf.
  unfold hblock_verified. fold vi. fold params.
  destruct (hash_block_verified s) as [bm|] eqn:Hbm.
  - destruct (is_verified_bitmap_new p b bm s Hok Hbm Hf Hb)
      as (bm' & Hrun & Hbits).
    subst r. rewrite Hrun. cbn [result_of state_of fst snd hash_block_verified].
    split; [reflexivity|]. intros b' Hb'.
    rewrite Hbits, Hb'. fold p. now rewrite Z.eqb_refl, !andb_false_r.
  - subst r. rewrite (is_verified_page_mode p b s Hbm).
    cbn [result_of state_of fst snd]. rewrite Hbm.
    split; [exact Hf|]. intros b' ->. exact Hf.
Qed.

(** *** What a walk logs and what it leaves *)

Lemma forallb_weaken (f g : event -> bool) (evs : list event) :
  (forall e, f e = true -> g e = true) ->
  forallb f evs = true -> forallb g evs = true.
Proof.
  intros H. induction evs as [|e evs IH]; [reflexivity|].
  cbn [forallb]. rewrite !andb_true_iff. intros [He Hevs].
  split; [now apply H | now apply IH].
Qed.

Lemma clear_bits_memo_events (n : nat) (base i : Z) (s : vstate) :
  forallb is_memo_event (log_of (clear_bits n base i s)) = true.
Proof.
  revert i s; induction n as [|n IH]; intros i s; [reflexivity|].
  cbn [clear_bits]. rewrite run_bind. unfold log_of at 1. cbn [snd].
  rewrite forallb_app, IH. reflexivity.
Qed.

Lemma is_verified_memo_events (p b : Z) (s : vstate) :
  forallb is_memo_event (log_of (is_hash_block_verified inode p b s)) = true.
Proof.
  unfold is_hash_block_verified, bind, bitmap_present, PageChecked.
  destruct (hash_block_verified s); simpl; [|reflexivity].
  destruct (Z.testbit (pg_checked s) p); simpl; [reflexivity|].
  pose proof (clear_bits_memo_events
                (Z.to_nat (blocks_per_page params))
                (round_down b (blocks_per_page params)) 0 s) as Hc.
  fold vi. fold params.
  destruct (clear_bits _ _ _ s) as [[u s1] e1]. unfold log_of in *. simpl in *.
  rewrite forallb_app, Hc. reflexivity.
Qed.

Lemma mark_verified_memo_events (p b : Z) (s : vstate) :
  forallb is_memo_event (log_of (mark_verified p b s)) = true.
Proof.
  unfold mark_verified, bind, bitmap_present.
  destruct (hash_block_verified s); reflexivity.
Qed.

(** What the memoization layer logs is no read, no hash and no
    diagnostic. *)
Lemma memo_events_quiet (evs : list event) :
  forallb is_memo_event evs = true ->
  readahead_of evs = [] /\ pages_read evs = [] /\ read_failed evs = false /\
  count_hash_block evs = 0%nat /\ no_diag evs = true.
Proof.
  induction evs as [|e evs IH]; [repeat split; reflexivity|].
  cbn [forallb]. rewrite andb_true_iff. intros [He Hevs].
  destruct (IH Hevs) as (I1 & I2 & I3 & I4 & I5).
  unfold readahead_of, pages_read, read_failed, count_hash_block, no_diag in *.
  destruct e; try discriminate; cbn; repeat split; assumption.
Qed.

Lemma readahead_of_app (e1 e2 : list event) :
  readahead_of (e1 ++ e2) = readahead_of e1 ++ readahead_of e2.
Proof. unfold readahead_of. apply flat_map_app. Qed.

Lemma pages_read_app (e1 e2 : list event) :
  pages_read (e1 ++ e2) = pages_read e1 ++ pages_read e2.
Proof. unfold pages_read. apply flat_map_app. Qed.

Lemma read_failed_app (e1 e2 : list event) :
  read_failed (e1 ++ e2) = (read_failed e1 || read_failed e2)%bool.
Proof. unfold read_failed. apply existsb_app. Qed.

Lemma count_hash_block_app (e1 e2 : list event) :
  count_hash_block (e1 ++ e2)
    = (count_hash_block e1 + count_hash_block e2)%nat.
Proof. unfold count_hash_block. now rewrite filter_app, length_app. Qed.

Lemma no_diag_app (e1 e2 : list event) :
  no_diag (e1 ++ e2) = (no_diag e1 && no_diag e2)%bool.
Proof. unfold no_diag. apply forallb_app. Qed.

Lemma release_quiet (held : list hblock) (s : vstate) :
  let evs := log_of (release_hblocks held s) in
  readahead_of evs = [] /\ pages_read evs = [] /\ read_failed evs = false /\
  count_hash_block evs = 0%nat /\ no_diag evs = true.
Proof.
  induction held as [|hb held IH]; [repeat split; reflexivity|].
  cbn [release_hblocks]. unfold bind, kunmap_local, put_page, emit.
  destruct (release_hblocks held s) as [[u s1] e1].
  unfold log_of in *. simpl in *. exact IH.
Qed.

(** The query neither adds nor removes an answer of the memoization
    state. *)
Lemma is_verified_keeps (b : Z) (s : vstate) :
  pages_ok inode -> 0 <= b < 2 ^ 64 ->
  let p := Z.shiftr b (log_blocks_per_page params) in
  forall b', hblock_verified inode
               (state_of (is_hash_block_verified inode p b s)) b'
             = hblock_verified inode s b'.
Proof.
  intros Hok Hb p b'.
  assert (Hp : 0 <= p) by (apply hpage_nonneg; lia).
  unfold hblock_verified. fold vi. fold params.
  destruct (hash_block_verified s) as [bm|] eqn:Hbm.
  - destruct (page_flag s p) eqn:Hf.
    + rewrite (is_verified_bitmap_seen p b bm s Hbm Hf).
      cbn [state_of fst snd]. now rewrite Hbm.
    + destruct (is_verified_bitmap_new p b bm s Hok Hbm Hf Hb)
        as (bm' & Hrun & Hbits).
      rewrite Hrun. cbn [state_of fst snd hash_block_verified].
      rewrite Hbits. fold p.
      set (p' := Z.shiftr b' (log_blocks_per_page params)).
      unfold page_flag. cbn [pg_checked].
      destruct (Z.eqb_spec p' p) as [E|E].
      * rewrite E. unfold page_flag in Hf. rewrite Hf.
        now rewrite !andb_false_r.
      * rewrite Z.setbit_neq by (assumption || congruence).
        now rewrite andb_true_r.
  - rewrite (is_verified_page_mode p b s Hbm).
    cbn [state_of fst snd]. now rewrite Hbm.
Qed.

Lemma descend_quiet (dblock : fsverity_pending_block) (held : list hblock)
    (level : Z) (want : bytes) (s : vstate)
    (ok : bool) (s' : vstate) (evs : list event) :
  descend inode dblock held level want s = (ok, s', evs) ->
  readahead_of evs = [] /\ pages_read evs = [] /\ read_failed evs = false /\
  (ok = true -> no_diag evs = true).
Proof.
  revert level want s ok s' evs; induction held as [|hb held IH];
    intros level want s ok s' evs H.
  - cbn [descend] in H.
    destruct (negb _); injection H as <- _ <-; repeat split; discriminate.
  - cbn [descend] in H. unfold bind at 1 in H.
    unfold fsverity_hash_block at 1 in H.
    unfold bind at 1, emit, ret in H. cbn [app] in H.
    fold vi in H. fold params in H.
    pose proof (release_quiet (hb :: held) s) as Hl. cbv zeta in Hl.
    destruct Hl as (L1 & L2 & L3 & _).
    destruct (tfm (hash_alg params) _) as [real|].
    + destruct (negb (memcmp_eq want real _)).
      * unfold bind, fsverity_err, emit in H.
        destruct (release_hblocks (hb :: held) s) as [[u s1] e1].
        cbn [log_of snd] in L1, L2, L3.
        injection H as <- _ <-. log_simpl. rewrite L1, L2, L3.
        repeat split. discriminate.
      * unfold bind at 1 in H.
        pose proof (memo_events_quiet _
                      (mark_verified_memo_events (hb_page hb) (hb_index hb) s))
          as (M1 & M2 & M3 & _ & M5).
        destruct (mark_verified (hb_page hb) (hb_index hb) s) as [[u s1] e1].
        cbn [log_of snd] in M1, M2, M3, M5.
        unfold bind, kunmap_local, put_page, emit in H.
        destruct (descend inode dblock held _ _ s1) as [[ok2 s2] e2] eqn:E2.
        apply IH in E2. destruct E2 as (I1 & I2 & I3 & I4).
        injection H as <- _ <-. log_simpl.
        rewrite M1, M2, M3, M5, I1, I2, I3.
        repeat split. intros Hok. now apply I4.
    + unfold bind in H.
      destruct (release_hblocks (hb :: held) s) as [[u s1] e1].
      cbn [log_of snd] in L1, L2, L3.
      injection H as <- _ <-. log_simpl. rewrite L1, L2, L3.
      repeat split. discriminate.
Qed.

(** The log of the ascent: no tree block is hashed; it ends in the error exit
    exactly when a read failed; only its first read can ask for readahead,
    and only at level 0. *)
Lemma ascend_log (max_ra : Z) (n : nat) (level hidx : Z)
    (held : list hblock) (s : vstate)
    (a : ascent) (s' : vstate) (evs : list event) :
  0 <= level ->
  ascend K inode max_ra n level hidx held s = (a, s', evs) ->
  count_hash_block evs = 0%nat /\
  match a with
  | AscDescend _ _ _ => read_failed evs = false /\ no_diag evs = true
  | AscError _ _ => read_failed evs = true
  end /\
  exists k,
    readahead_of evs
      = firstn k ((if level =? 0
                   then Z.min max_ra
                          (u64 (tree_pages params - path_hpage_idx inode level hidx))
                   else 0) :: repeat 0 n).
Proof.
  revert level hidx held s a s' evs; induction n as [|n IH];
    intros level hidx held s a s' evs Hlevel H.
  - injection H as <- _ <-. repeat split. now exists 0%nat.
  - cbn [ascend] in H. unfold path_hpage_idx, path_hblock_idx.
    fold vi in H |- *. fold params in H |- *.
    set (hblock_idx := u64 (nth (Z.to_nat level) (level_start params) 0 +
                            Z.shiftr hidx (log_arity params))) in *.
    set (hpage_idx := Z.shiftr hblock_idx (log_blocks_per_page params)) in *.
    set (ra := if level =? 0 then _ else 0) in *.
    unfold bind at 1 in H. unfold call_read_merkle_tree_page at 1 in H.
    destruct (read_merkle_tree_page inode hpage_idx ra) as [page_bytes|].
    + unfold bind at 1 in H. unfold kmap_local at 1, emit in H.
      unfold bind at 1 in H.
      pose proof (memo_events_quiet _
                    (is_verified_memo_events hpage_idx hblock_idx s))
        as (M1 & M2 & M3 & M4 & M5).
      destruct (is_hash_block_verified inode hpage_idx hblock_idx s)
        as [[v s1] e1].
      cbn [log_of snd] in M1, M2, M3, M4, M5.
      destruct v.
      * unfold bind, kunmap_local, put_page, emit, ret in H.
        injection H as <- _ <-. cbn [app].
        change (EvReadPage hpage_idx ra true :: EvKmap (VPage hpage_idx)
                  :: e1 ++ [EvKunmap (VPage hpage_idx); EvPutPage hpage_idx])
          with ([EvReadPage hpage_idx ra true; EvKmap (VPage hpage_idx)]
                  ++ e1 ++ [EvKunmap (VPage hpage_idx); EvPutPage hpage_idx]).
        rewrite !count_hash_block_app, !read_failed_app, !no_diag_app,
          !readahead_of_app, M1, M3, M4, M5.
        repeat split. now exists 1%nat.
      * match type of H with
        | context [ascend _ _ _ _ _ _ (?h :: held) s1] => set (hb := h) in H
        end.
        destruct (ascend K inode max_ra n (level + 1)
                    (Z.shiftr hidx (log_arity params)) (hb :: held) s1)
          as [[a2 s2] e2] eqn:E2.
        apply IH in E2; [|lia].
        destruct E2 as (Hh & Ha & k & Hk).
        replace (level + 1 =? 0) with false in Hk
          by (symmetry; apply Z.eqb_neq; lia).
        injection H as <- _ <-. cbn [app].
        change (EvReadPage hpage_idx ra true :: EvKmap (VPage hpage_idx)
                  :: e1 ++ e2)
          with ([EvReadPage hpage_idx ra true; EvKmap (VPage hpage_idx)]
                  ++ e1 ++ e2).
        rewrite !count_hash_block_app, !read_failed_app, !no_diag_app,
          !readahead_of_app, M1, M3, M4, M5, Hh, Hk.
        split; [reflexivity|]. split.
        -- destruct a2 as [l h | l w h]; cbn [orb andb].
           ++ exact Ha.
           ++ destruct Ha as [-> ->]. split; reflexivity.
        -- exists (S k). reflexivity.
    + unfold bind, fsverity_err, emit, ret in H.
      injection H as <- _ <-. repeat split. now exists 1%nat.
Qed.

(** The state the ascent leaves: the answers of the memoization state are
    those it found, and every held block is ready to be marked. *)
Lemma ascend_marks (max_ra : Z) (n : nat) (level hidx : Z)
    (held : list hblock) (s : vstate)
    (a : ascent) (s' : vstate) (evs : list event) :
  pages_ok inode ->
  ascend K inode max_ra n level hidx held s = (a, s', evs) ->
  (forall b, hblock_verified inode s' b = hblock_verified inode s b) /\
  (hash_block_verified s' = None <-> hash_block_verified s = None) /\
  (Forall (held_ok inode s) held -> Forall (held_ok inode s') (ascent_held a)).
Proof.
  intros Hok. revert level hidx held s a s' evs; induction n as [|n IH];
    intros level hidx held s a s' evs H.
  - injection H as <- <- _. split; [reflexivity | tauto].
  - cbn [ascend] in H. fold vi in H. fold params in H.
    set (hblock_idx := u64 (nth (Z.to_nat level) (level_start params) 0 +
                            Z.shiftr hidx (log_arity params))) in *.
    set (hpage_idx := Z.shiftr hblock_idx (log_blocks_per_page params)) in *.
    set (ra := if level =? 0 then _ else 0) in *.
    unfold bind at 1 in H. unfold call_read_merkle_tree_page at 1 in H.
    destruct (read_merkle_tree_page inode hpage_idx ra) as [page_bytes|].
    + unfold bind at 1 in H. unfold kmap_local at 1, emit in H.
      unfold bind at 1 in H.
      pose proof (is_verified_spec hblock_idx s Hok (u64_range _)) as Hspec.
      pose proof (is_verified_keeps hblock_idx s Hok (u64_range _)) as Hkeep.
      cbv zeta in Hspec, Hkeep. fold hpage_idx in Hspec, Hkeep.
      destruct (is_hash_block_verified inode hpage_idx hblock_idx s)
        as [[v s1] e1].
      unfold result_of, state_of in Hspec, Hkeep. cbn [fst snd] in Hspec, Hkeep.
      destruct Hspec as (_ & Hsame & Hmono & Hmode & Hflag & _).
      destruct v.
      * unfold bind, kunmap_local, put_page, emit, ret in H.
        injection H as <- <- _. rewrite (Hsame eq_refl).
        split; [reflexivity | tauto].
      * match type of H with
        | context [ascend _ _ _ _ _ _ (?h :: held) s1] => set (hb := h) in H
        end.
        destruct (ascend K inode max_ra n (level + 1)
                    (Z.shiftr hidx (log_arity params)) (hb :: held) s1)
          as [[a2 s2] e2] eqn:E2.
        apply IH in E2. destruct E2 as (Hsame2 & Hmode2 & Hheld2).
        injection H as <- <- _.
        split; [intros b; now rewrite Hsame2, Hkeep|].
        split; [tauto|].
        intros Hall. apply Hheld2. constructor.
        -- repeat split.
           ++ apply u64_range.
           ++ intros Hb. apply Hflag. unfold bitmap_mode in *. tauto.
        -- eapply Forall_impl; [|exact Hall].
           intros hb' Hhb'. now apply (held_ok_mono s s1).
    + unfold bind, fsverity_err, emit, ret in H.
      injection H as <- <- _. split; [reflexivity | tauto].
Qed.

(** The log of a walk. *)
Lemma walk_log (dblock : fsverity_pending_block) (max_ra : Z) (s : vstate)
    (ok : bool) (s' : vstate) (evs : list event) :
  verify_data_block K inode dblock max_ra s = (ok, s', evs) ->
  (ok = true -> no_diag evs = true /\ read_failed evs = false) /\
  (read_failed evs = true -> ok = false /\ count_hash_block evs = 0%nat) /\
  exists k,
    readahead_of evs
      = firstn k (leaf_readahead inode max_ra (pos dblock)
                    :: repeat 0 (Z.to_nat (num_levels params))).
Proof.
  unfold verify_data_block. fold vi. fold params.
  destruct (u64 (i_size inode) <=? pos dblock).
  - destruct (memchr_inv0 _ _); intros [= <- _ <-].
    + repeat split; try discriminate. now exists 0%nat.
    + repeat split; try discriminate. now exists 0%nat.
  - unfold bind.
    destruct (ascend K inode max_ra _ 0 _ [] s) as [[a s1] e1] eqn:Ea.
    apply ascend_log in Ea; [|lia].
    destruct Ea as (Hh & Ha & k & Hk).
    change (readahead_of e1
            = firstn k (leaf_readahead inode max_ra (pos dblock)
                          :: repeat 0 (Z.to_nat (num_levels params)))) in Hk.
    destruct a as [level held | level want held].
    + pose proof (release_quiet held s1) as Hl. cbv zeta in Hl.
      destruct (release_hblocks held s1) as [[u s2] e2].
      cbn [log_of snd] in Hl. destruct Hl as (L1 & _ & L3 & L4 & _).
      intros [= <- _ <-]. rewrite app_nil_r.
      rewrite readahead_of_app, read_failed_app, count_hash_block_app,
        L1, L3, L4, Hh, Ha, app_nil_r.
      split; [discriminate|]. split; [now split|]. now exists k.
    + destruct (descend inode dblock held level want s1) as [[ok2 s2] e2] eqn:Ed.
      apply descend_quiet in Ed. destruct Ed as (D1 & _ & D3 & D4).
      destruct Ha as [Ha1 Ha2].
      intros [= <- _ <-].
      rewrite readahead_of_app, read_failed_app, no_diag_app,
        D1, D3, Ha1, Ha2, app_nil_r.
      split; [intros Hok; now rewrite (D4 Hok)|].
      split; [discriminate|]. now exists k.
Qed.

(** The state a walk leaves: no answer of the memoization state is taken
    back, and none is added when a read failed. *)
Lemma walk_marks (dblock : fsverity_pending_block) (max_ra : Z) (s : vstate) :
  pages_ok inode ->
  let r := verify_data_block K inode dblock max_ra s in
  (forall b, hblock_verified inode s b = true ->
             hblock_verified inode (state_of r) b = true) /\
  (hash_block_verified (state_of r) = None <-> hash_block_verified s = None) /\
  (read_failed (log_of r) = true ->
   forall b, hblock_verified inode (state_of r) b = hblock_verified inode s b).
Proof.
  intros Hok r. subst r.
  destruct (verify_data_block K inode dblock max_ra s) as [[ok s'] evs] eqn:H.
  cbn [state_of log_of fst snd].
  unfold verify_data_block in H. fold vi in H. fold params in H.
  destruct (u64 (i_size inode) <=? pos dblock).
  - destruct (memchr_inv0 _ _); injection H as _ <- <-;
      (split; [tauto | split; [tauto | discriminate]]).
  - unfold bind in H.
    destruct (ascend K inode max_ra _ 0 _ [] s) as [[a s1] e1] eqn:Ea.
    pose proof (ascend_log _ _ _ _ _ _ _ _ _ (Z.le_refl 0) Ea) as (_ & Hl & _).
    apply ascend_marks in Ea; [|assumption].
    destruct Ea as (Hsame & Hmode & Hheld). specialize (Hheld (Forall_nil _)).
    destruct a as [level held | level want held]; cbn [ascent_held] in Hheld.
    + pose proof (release_hblocks_run held s1) as [Hrel _].
      destruct (release_hblocks held s1) as [[u s2] e2].
      cbn [state_of fst snd] in Hrel. subst s2.
      injection H as _ <- _.
      split; [intros b Hb; now rewrite Hsame|].
      split; [exact Hmode | intros _ b; apply Hsame].
    + pose proof (descend_state dblock held level want s1 Hheld)
        as (_ & Hmode2 & Hkeep & _).
      destruct (descend inode dblock held level want s1) as [[ok2 s2] e2] eqn:Ed.
      apply descend_quiet in Ed. destruct Ed as (_ & _ & D3 & _).
      cbn [state_of fst snd] in Hkeep, Hmode2.
      injection H as _ <- <-.
      split; [intros b Hb; apply Hkeep; now rewrite Hsame|].
      split; [tauto|].
      destruct Hl as [Hl _]. rewrite read_failed_app, Hl, D3. discriminate.
Qed.

(** *** The marks of a walk, one by one

    The log of a walk records every update of the memoization state, so
    that the state at any point of the walk is the one the log gives up to
    there. *)

Lemma memo_after_app (e1 e2 : list event) (s : vstate) :
  memo_after (e1 ++ e2) s = memo_after e2 (memo_after e1 s).
Proof. apply fold_left_app. Qed.

Lemma traced_bind {A B} (m : M A) (k : A -> M B) :
  (forall s, state_of (m s) = memo_after (log_of (m s)) s) ->
  (forall a s, state_of (k a s) = memo_after (log_of (k a s)) s) ->
  forall s, state_of (bind m k s) = memo_after (log_of (bind m k s)) s.
Proof.
  intros Hm Hk s. unfold bind.
  specialize (Hm s). destruct (m s) as [[a s1] e1].
  specialize (Hk a s1). destruct (k a s1) as [[b s2] e2].
  cbn [state_of log_of fst snd] in *.
  now rewrite memo_after_app, <- Hm.
Qed.

Lemma clear_bits_traced (n : nat) (base i : Z) (s : vstate) :
  state_of (clear_bits n base i s)
    = memo_after (log_of (clear_bits n base i s)) s.
Proof.
  revert i s; induction n as [|n IH]; intros i s; [reflexivity|].
  cbn [clear_bits]. apply traced_bind; [reflexivity|]. intros _. apply IH.
Qed.

Lemma is_verified_traced (p b : Z) (s : vstate) :
  state_of (is_hash_block_verified inode p b s)
    = memo_after (log_of (is_hash_block_verified inode p b s)) s.
Proof.
  unfold is_hash_block_verified. cbv zeta.
  apply traced_bind; [reflexivity|]. intros has s1.
  destruct has; cbn [negb]; [|reflexivity].
  apply traced_bind; [reflexivity|]. intros c s2. destruct c.
  - apply traced_bind; [reflexivity|]. reflexivity.
  - apply traced_bind; [intros s3; apply clear_bits_traced|]. intros _ s3.
    apply traced_bind; [reflexivity|]. intros _ s4.
    apply traced_bind; [reflexivity|]. reflexivity.
Qed.

Lemma release_traced (held : list hblock) (s : vstate) :
  state_of (release_hblocks held s)
    = memo_after (log_of (release_hblocks held s)) s.
Proof.
  revert s; induction held as [|hb held IH]; intros s; [reflexivity|].
  cbn [release_hblocks].
  apply traced_bind; [reflexivity|]. intros _ s1.
  apply traced_bind; [reflexivity|]. intros _. apply IH.
Qed.

Lemma mark_verified_traced (p b : Z) (s : vstate) :
  state_of (mark_verified p b s) = memo_after (log_of (mark_verified p b s)) s.
Proof.
  unfold mark_verified.
  apply traced_bind; [reflexivity|]. intros has s1. destruct has; reflexivity.
Qed.

Lemma ascend_traced (max_ra : Z) (n : nat) (level hidx : Z)
    (held : list hblock) (s : vstate) :
  state_of (ascend K inode max_ra n level hidx held s)
    = memo_after (log_of (ascend K inode max_ra n level hidx held s)) s.
Proof.
  revert level hidx held s; induction n as [|n IH]; intros level hidx held s;
    [reflexivity|].
  cbn [ascend]. cbv zeta.
  apply traced_bind; [reflexivity|]. intros r s1.
  destruct r as [page_bytes|].
  - apply traced_bind; [reflexivity|]. intros _ s2.
    apply traced_bind; [intros s3; apply is_verified_traced|]. intros v s3.
    destruct v.
    + apply traced_bind; [reflexivity|]. intros _ s4.
      apply traced_bind; [reflexivity|]. reflexivity.
    + apply IH.
  - apply traced_bind; [reflexivity|]. reflexivity.
Qed.

Lemma descend_traced (dblock : fsverity_pending_block) (held : list hblock)
    (level : Z) (want : bytes) (s : vstate) :
  state_of (descend inode dblock held level want s)
    = memo_after (log_of (descend inode dblock held level want s)) s.
Proof.
  revert level want s; induction held as [|hb held IH]; intros level want s.
  - cbn [descend]. destruct (negb _); [|reflexivity].
    apply traced_bind; [reflexivity|]. reflexivity.
  - cbn [descend].
    apply traced_bind; [reflexivity|]. intros r s1.
    destruct r as [real|].
    + destruct (negb _).
      * apply traced_bind; [reflexivity|]. intros _ s2.
        apply traced_bind; [intros s3; apply release_traced|]. reflexivity.
      * apply traced_bind; [intros s2; apply mark_verified_traced|].
        intros _ s2. cbv zeta.
        apply traced_bind; [reflexivity|]. intros _ s3.
        apply traced_bind; [reflexivity|]. intros _. apply IH.
    + apply traced_bind; [intros s2; apply release_traced|]. reflexivity.
Qed.

(** The state a walk leaves is the one its log gives. *)
Lemma walk_traced (dblock : fsverity_pending_block) (max_ra : Z) (s : vstate) :
  state_of (verify_data_block K inode dblock max_ra s)
    = memo_after (log_of (verify_data_block K inode dblock max_ra s)) s.
Proof.
  unfold verify_data_block. cbv zeta.
  destruct (_ <=? _).
  - destruct (memchr_inv0 _ _); [|reflexivity].
    apply traced_bind; [reflexivity|]. reflexivity.
  - apply traced_bind; [intros s1; apply ascend_traced|]. intros a s1.
    destruct a as [level held | level want held].
    + apply traced_bind; [intros s2; apply release_traced|]. reflexivity.
    + apply descend_traced.
Qed.

Lemma no_set_bit_app (e1 e2 : list event) :
  no_set_bit (e1 ++ e2) = (no_set_bit e1 && no_set_bit e2)%bool.
Proof. apply forallb_app. Qed.

Lemma no_set_bit_bind {A B} (m : M A) (k : A -> M B) :
  (forall s, no_set_bit (log_of (m s)) = true) ->
  (forall a s, no_set_bit (log_of (k a s)) = true) ->
  forall s, no_set_bit (log_of (bind m k s)) = true.
Proof.
  intros Hm Hk s. unfold bind.
  specialize (Hm s). destruct (m s) as [[a s1] e1].
  specialize (Hk a s1). destruct (k a s1) as [[b s2] e2].
  cbn [log_of snd] in *. now rewrite no_set_bit_app, Hm, Hk.
Qed.

Lemma clear_bits_no_set_bit (n : nat) (base i : Z) (s : vstate) :
  no_set_bit (log_of (clear_bits n base i s)) = true.
Proof.
  revert i s; induction n as [|n IH]; intros i s; [reflexivity|].
  cbn [clear_bits]. apply no_set_bit_bind; [reflexivity|]. intros _. apply IH.
Qed.

Lemma is_verified_no_set_bit (p b : Z) (s : vstate) :
  no_set_bit (log_of (is_hash_block_verified inode p b s)) = true.
Proof.
  unfold is_hash_block_verified. cbv zeta.
  apply no_set_bit_bind; [reflexivity|]. intros has s1.
  destruct has; cbn [negb]; [|reflexivity].
  apply no_set_bit_bind; [reflexivity|]. intros c s2. destruct c.
  - apply no_set_bit_bind; [reflexivity|]. reflexivity.
  - apply no_set_bit_bind; [intros s3; apply clear_bits_no_set_bit|].
    intros _ s3.
    apply no_set_bit_bind; [reflexivity|]. intros _ s4.
    apply no_set_bit_bind; [reflexivity|]. reflexivity.
Qed.

Lemma release_no_set_bit (held : list hblock) (s : vstate) :
  no_set_bit (log_of (release_hblocks held s)) = true.
Proof.
  revert s; induction held as [|hb held IH]; intros s; [reflexivity|].
  cbn [release_hblocks].
  apply no_set_bit_bind; [reflexivity|]. intros _ s1.
  apply no_set_bit_bind; [reflexivity|]. intros _. apply IH.
Qed.

(** The ascent sets no bit: it queries, and marks nothing. *)
Lemma ascend_no_set_bit (max_ra : Z) (n : nat) (level hidx : Z)
    (held : list hblock) (s : vstate) :
  no_set_bit (log_of (ascend K inode max_ra n level hidx held s)) = true.
Proof.
  revert level hidx held s; induction n as [|n IH]; intros level hidx held s;
    [reflexivity|].
  cbn [ascend]. cbv zeta.
  apply no_set_bit_bind; [reflexivity|]. intros r s1.
  destruct r as [page_bytes|].
  - apply no_set_bit_bind; [reflexivity|]. intros _ s2.
    apply no_set_bit_bind; [intros s3; apply is_verified_no_set_bit|].
    intros v s3. destruct v.
    + apply no_set_bit_bind; [reflexivity|]. intros _ s4.
      apply no_set_bit_bind; [reflexivity|]. reflexivity.
    + apply IH.
  - apply no_set_bit_bind; [reflexivity|]. reflexivity.
Qed.

Lemma no_set_bit_marks (evs : list event) (s : vstate) :
  no_set_bit evs = true -> marks_on_flagged_pages inode evs s.
Proof.
  revert s; induction evs as [|e evs IH]; intros s; [constructor|].
  cbn [no_set_bit forallb]. rewrite andb_true_iff. intros [He Hevs].
  cbn [marks_on_flagged_pages].
  split; [destruct e; try exact I; discriminate | now apply IH].
Qed.

Lemma marks_app (e1 e2 : list event) (s : vstate) :
  marks_on_flagged_pages inode e1 s ->
  marks_on_flagged_pages inode e2 (memo_after e1 s) ->
  marks_on_flagged_pages inode (e1 ++ e2) s.
Proof.
  revert s; induction e1 as [|e e1 IH]; intros s; [intros _ H; exact H|].
  cbn [app marks_on_flagged_pages]. intros [He H1] H2.
  split; [exact He | apply IH; assumption].
Qed.

Lemma marks_bind {A B} (m : M A) (k : A -> M B) (s : vstate) :
  state_of (m s) = memo_after (log_of (m s)) s ->
  marks_on_flagged_pages inode (log_of (m s)) s ->
  marks_on_flagged_pages inode
    (log_of (k (result_of (m s)) (state_of (m s)))) (state_of (m s)) ->
  marks_on_flagged_pages inode (log_of (bind m k s)) s.
Proof.
  unfold bind. destruct (m s) as [[a s1] e1].
  cbn [result_of state_of log_of fst snd].
  destruct (k a s1) as [[b s2] e2]. cbn [log_of snd].
  intros -> H1 H2. now apply marks_app.
Qed.

(** The descent marks only hash blocks whose page has its flag set: each
    held block was queried during the ascent. *)
Lemma descend_marks_flagged (dblock : fsverity_pending_block)
    (held : list hblock) (level : Z) (want : bytes) (s : vstate) :
  Forall (held_ok inode s) held ->
  marks_on_flagged_pages inode
    (log_of (descend inode dblock held level want s)) s.
Proof.
  revert level want s; induction held as [|hb held IH]; intros level want s Hall.
  - cbn [descend]. destruct (negb _); cbn; tauto.
  - inversion Hall as [|? ? Hhb Hrest]; subst.
    cbn [descend].
    apply marks_bind; [reflexivity | cbn; tauto |].
    change (result_of (fsverity_hash_block inode (hb_addr hb) s))
      with (tfm (hash_alg params)
              (firstn (Z.to_nat (block_size params)) (hb_addr hb))).
    change (state_of (fsverity_hash_block inode (hb_addr hb) s)) with s.
    destruct (tfm (hash_alg params) _) as [real|].
    + destruct (negb _).
      * apply no_set_bit_marks.
        apply no_set_bit_bind; [reflexivity|]. intros _ s1.
        apply no_set_bit_bind; [intros s2; apply release_no_set_bit|].
        reflexivity.
      * destruct Hhb as (Hidx & Hpage & Hflag).
        fold vi in Hpage. fold params in Hpage.
        pose proof (mark_verified_spec (hb_index hb) s Hidx) as Hmark.
        cbv zeta in Hmark. rewrite <- Hpage in Hmark.
        destruct (Hmark Hflag) as (Hm1 & Hm2 & _ & _).
        apply marks_bind; [apply mark_verified_traced | |].
        { destruct (hash_block_verified s) as [bm|] eqn:Hbm.
          - rewrite (mark_verified_bitmap _ _ bm s Hbm). cbn.
            fold vi. fold params. rewrite <- Hpage.
            repeat split; [assumption|]. apply Hflag.
            unfold bitmap_mode. congruence.
          - rewrite (mark_verified_page _ _ s Hbm). cbn. tauto. }
        set (s1 := state_of (mark_verified (hb_page hb) (hb_index hb) s)) in *.
        cbv zeta.
        apply marks_bind; [reflexivity | cbn; tauto |].
        apply marks_bind; [reflexivity | cbn; tauto |].
        change (state_of (put_page (hb_page hb)
                  (state_of (kunmap_local (VPage (hb_page hb)) s1)))) with s1.
        apply IH.
        eapply Forall_impl; [|exact Hrest].
        intros hb' Hhb'. now apply (held_ok_mono s s1).
    + apply no_set_bit_marks.
      apply no_set_bit_bind; [intros s2; apply release_no_set_bit|].
      reflexivity.
Qed.

(** Every mark of a walk is made on a page whose flag is set. *)
Lemma walk_marks_flagged (dblock : fsverity_pending_block) (max_ra : Z)
    (s : vstate) :
  pages_ok inode ->
  marks_on_flagged_pages inode
    (log_of (verify_data_block K inode dblock max_ra s)) s.
Proof.
  intros Hok. unfold verify_data_block. cbv zeta.
  destruct (_ <=? _).
  - destruct (memchr_inv0 _ _); cbn; tauto.
  - apply marks_bind;
      [apply ascend_traced | apply no_set_bit_marks, ascend_no_set_bit |].
    destruct (ascend K inode max_ra _ 0 _ [] s) as [[a s1] e1] eqn:Ea.
    cbn [result_of state_of fst snd].
    apply ascend_marks in Ea; [|assumption].
    destruct Ea as (_ & _ & Hheld). specialize (Hheld (Forall_nil _)).
    destruct a as [level held | level want held]; cbn [ascent_held] in Hheld.
    + apply no_set_bit_marks.
      apply no_set_bit_bind; [intros s2; apply release_no_set_bit|].
      reflexivity.
    + now apply descend_marks_flagged.
Qed.

Lemma marks_at (evs : list event) (s : vstate) (pre post : list event)
    (b : Z) :
  marks_on_flagged_pages inode evs s ->
  evs = pre ++ EvSetBit b :: post ->
  0 <= b /\
  page_flag (memo_after pre s) (Z.shiftr b (log_blocks_per_page params)) = true.
Proof.
  intros H ->. revert s H. induction pre as [|e pre IH]; intros s H.
  - cbn [app marks_on_flagged_pages] in H. destruct H as [H _]. exact H.
  - cbn [app marks_on_flagged_pages] in H. destruct H as [_ H].
    apply (IH _ H).
Qed.

Lemma memo_after_mode (evs : list event) (s : vstate) :
  bitmap_mode s -> bitmap_mode (memo_after evs s).
Proof.
  revert s; induction evs as [|e evs IH]; intros s Hs; [exact Hs|].
  cbn [memo_after fold_left]. apply IH.
  unfold bitmap_mode in *.
  destruct e; cbn [memo_step state_of SetPageChecked set_bit clear_bit
                     hash_block_verified fst snd]; try assumption;
    destruct (hash_block_verified s); [discriminate | congruence
                                       | discriminate | congruence].
Qed.

(** C5 (marking in the bitmap encoding): with the bitmap in use, a mark is
    the one set_bit that the log shows as EvSetBit, and at every mark that a
    walk makes, of a hash block B on its page P, the flag of P is set
    already, by the query that the ascent made of that block; after the
    mark the bitmap bit of B is set, and so is the flag of P.  The state
    meant at a point of the walk is the one the log gives up to there,
    which at the end is the state the walk leaves. *)
Theorem mark_bitmap_in_walk (dblock : fsverity_pending_block) (max_ra : Z)
    (s : vstate) :
  pages_ok inode -> bitmap_mode s ->
  let r := verify_data_block K inode dblock max_ra s in
  (forall p b s1,
     bitmap_mode s1 ->
     log_of (mark_verified p b s1) = [EvSetBit b] /\
     state_of (mark_verified p b s1) = memo_after [EvSetBit b] s1) /\
  state_of r = memo_after (log_of r) s /\
  (forall pre b post,
     log_of r = pre ++ EvSetBit b :: post ->
     let p := Z.shiftr b (log_blocks_per_page params) in
     let before := memo_after pre s in
     let after := memo_after (pre ++ [EvSetBit b]) s in
     page_flag before p = true /\
     bitmap_bit after b = true /\ page_flag after p = true).
Proof.
  intros Hok Hmode r. split; [|split].
  - intros p b s1 Hs1. unfold bitmap_mode in Hs1.
    destruct (hash_block_verified s1) as [bm|] eqn:Hbm; [|congruence].
    rewrite (mark_verified_bitmap p b bm s1 Hbm).
    cbn [log_of state_of fst snd memo_after fold_left memo_step set_bit].
    rewrite Hbm. split; reflexivity.
  - apply walk_traced.
  - intros pre b post Hlog p before after.
    destruct (marks_at (log_of r) s pre post b
                (walk_marks_flagged dblock max_ra s Hok) Hlog) as [Hb Hflag].
    fold p in Hflag. fold before in Hflag.
    subst after. rewrite memo_after_app. fold before.
    pose proof (memo_after_mode pre s Hmode) as Hm. fold before in Hm.
    unfold bitmap_mode in Hm.
    cbn [memo_after fold_left memo_step state_of set_bit fst snd].
    unfold bitmap_bit, page_flag in *.
    cbn [hash_block_verified pg_checked].
    destruct (hash_block_verified before) as [bm|]; [|congruence].
    cbn [option_map].
    split; [exact Hflag|]. split; [now apply Z.setbit_eq | exact Hflag].
Qed.

Lemma firstn_zeros (k n : nat) :
  Forall (fun ra => ra = 0) (firstn k (repeat 0 n)).
Proof.
  revert k; induction n as [|n IH]; intros k.
  - destruct k; constructor.
  - destruct k; cbn [repeat firstn]; constructor; [reflexivity | apply IH].
Qed.

Lemma ra_within_readahead (m : Z) (evs : list event) :
  forallb (ra_within m) evs
    = forallb (fun ra => (0 <=? ra) && (ra <=? m))%bool (readahead_of evs).
Proof.
  unfold readahead_of. induction evs as [|e evs IH]; [reflexivity|].
  cbn [forallb flat_map]. rewrite forallb_app, <- IH.
  destruct e; cbn [ra_within forallb]; rewrite ?andb_true_r; reflexivity.
Qed.

Lemma leaf_readahead_range (max_ra position : Z) :
  0 <= max_ra -> 0 <= leaf_readahead inode max_ra position <= max_ra.
Proof.
  intros H. unfold leaf_readahead.
  match goal with |- context [u64 ?x] => pose proof (u64_range x) end.
  lia.
Qed.

(** Every read of a walk asks for a readahead between 0 and max_ra_pages. *)
Lemma walk_readahead_within (dblock : fsverity_pending_block) (max_ra : Z)
    (s : vstate) :
  0 <= max_ra ->
  forallb (ra_within max_ra)
          (log_of (verify_data_block K inode dblock max_ra s)) = true.
Proof.
  intros Hra.
  destruct (verify_data_block K inode dblock max_ra s) as [[ok s'] evs] eqn:H.
  apply walk_log in H. destruct H as (_ & _ & k & Hk).
  cbn [log_of snd]. rewrite ra_within_readahead, Hk.
  apply forallb_forall. intros ra Hin.
  pose proof (leaf_readahead_range max_ra (pos dblock) Hra) as Hleaf.
  destruct k as [|k]; [destruct Hin|]. cbn [firstn] in Hin.
  destruct Hin as [<-|Hin].
  - apply andb_true_iff. split; [apply Z.leb_le | apply Z.leb_le]; lia.
  - pose proof (firstn_zeros k (Z.to_nat (num_levels params))) as Hz.
    rewrite Forall_forall in Hz. rewrite (Hz ra Hin).
    apply andb_true_iff. split; [apply Z.leb_le | apply Z.leb_le]; lia.
Qed.

(** X6 (an accepted block is accepted silently): when verify_data_block
    returns true, no read of a tree page has failed and neither a
    diagnostic nor a warning has been logged. *)
Theorem accepted_block_is_quiet (dblock : fsverity_pending_block)
    (max_ra : Z) (s : vstate) :
  let r := verify_data_block K inode dblock max_ra s in
  result_of r = true ->
  no_diag (log_of r) = true /\ read_failed (log_of r) = false.
Proof.
  intros r. subst r.
  destruct (verify_data_block K inode dblock max_ra s) as [[ok s'] evs] eqn:H.
  apply walk_log in H. cbn [result_of log_of fst snd]. tauto.
Qed.

(** X7 (a tree page that cannot be read): when the read of a tree page
    fails, verify_data_block rejects the block, no tree block has been
    hashed, and the memoization state answers for every hash block as it
    did before: nothing has been marked. *)
Theorem read_error_rejects (dblock : fsverity_pending_block)
    (max_ra : Z) (s : vstate) :
  pages_ok inode ->
  let r := verify_data_block K inode dblock max_ra s in
  read_failed (log_of r) = true ->
  result_of r = false /\
  count_hash_block (log_of r) = 0%nat /\
  forall b, hblock_verified inode (state_of r) b = hblock_verified inode s b.
Proof.
  intros Hok r Hfail.
  destruct (walk_marks dblock max_ra s Hok) as (_ & _ & Hsame).
  fold r in Hsame. specialize (Hsame Hfail). subst r.
  destruct (verify_data_block K inode dblock max_ra s) as [[ok s'] evs] eqn:H.
  apply walk_log in H. cbn [result_of log_of state_of fst snd] in *.
  destruct H as (_ & H & _). destruct (H Hfail) as [-> ->].
  repeat split. exact Hsame.
Qed.

(** X8 (readahead of a walk): only the first read of a walk, that of the
    page of the leaf hash block, asks the filesystem for readahead, namely
    for min(max_ra_pages, tree_pages - hpage_idx) pages; the reads of the
    levels above ask for none.  With max_ra_pages not negative, no read asks
    for more than max_ra_pages. *)
Theorem walk_readahead (dblock : fsverity_pending_block) (max_ra : Z)
    (s : vstate) :
  let evs := log_of (verify_data_block K inode dblock max_ra s) in
  match readahead_of evs with
  | [] => True
  | ra :: rest =>
      ra = leaf_readahead inode max_ra (pos dblock) /\
      Forall (fun x => x = 0) rest
  end /\
  (0 <= max_ra -> Forall (fun ra => 0 <= ra <= max_ra) (readahead_of evs)).
Proof.
  intros evs. subst evs. split.
  - destruct (verify_data_block K inode dblock max_ra s) as [[ok s'] evs] eqn:H.
    apply walk_log in H. destruct H as (_ & _ & k & Hk).
    cbn [log_of snd]. rewrite Hk.
    destruct k as [|k]; cbn [firstn]; [exact I|].
    split; [reflexivity | apply firstn_zeros].
  - intros Hra. pose proof (walk_readahead_within dblock max_ra s Hra) as H.
    rewrite ra_within_readahead in H. rewrite forallb_forall in H.
    apply Forall_forall. intros ra Hin. specialize (H ra Hin).
    apply andb_true_iff in H. destruct H as [H1 H2].
    apply Z.leb_le in H1, H2. lia.
Qed.

(** X9 (a file without tree levels): when the tree has no level, so that
    the root hash is the hash of the only data block, the verification of a
    block within the file reads no tree page and touches no memoization
    state: it compares the hash of the block with the root hash, and logs
    the corruption diagnostic, with level -1, when they differ. *)
Theorem tree_less_file (dblock : fsverity_pending_block) (max_ra : Z)
    (s : vstate) :
  num_levels params = 0 ->
  0 <= i_size inode < 2 ^ 63 -> pos dblock < i_size inode ->
  let same := memcmp_eq (root_hash vi) (real_hash dblock) (digest_size params) in
  verify_data_block K inode dblock max_ra s
    = (same, s,
       if same then []
       else [EvErr (ErrCorrupted (pos dblock) (-1) (root_hash vi)
                      (real_hash dblock))]).
Proof.
  intros Hn Hsz Hpos same. subst same.
  unfold verify_data_block. fold vi. fold params.
  rewrite u64_small by lia.
  replace (i_size inode <=? pos dblock) with false
    by (symmetry; apply Z.leb_gt; lia).
  rewrite Hn. cbn [Z.to_nat ascend]. unfold bind, ret. cbn [descend].
  fold vi. fold params.
  destruct (memcmp_eq _ _ _); reflexivity.
Qed.

(** X10 (the shortcut of a verified leaf block): when the leaf hash block of
    a data block within the file is already marked verified, the walk reads
    the one tree page that holds it, hashes no tree block, leaves the
    memoization state as it was, and accepts exactly when the digest stored
    for the data block in that page equals the hash of the block. *)
Theorem verified_leaf_shortcut (dblock : fsverity_pending_block) (max_ra : Z)
    (s : vstate) (page_bytes : bytes) :
  pages_ok inode ->
  0 <= i_size inode < 2 ^ 63 -> pos dblock < i_size inode ->
  1 <= num_levels params ->
  let hidx := Z.shiftr (pos dblock) (log_blocksize params) in
  read_merkle_tree_page inode (path_hpage_idx inode 0 hidx)
    (leaf_readahead inode max_ra (pos dblock)) = Some page_bytes ->
  hblock_verified inode s (path_hblock_idx inode 0 hidx) = true ->
  let r := verify_data_block K inode dblock max_ra s in
  result_of r
    = memcmp_eq (memcpy_from (path_haddr K inode (fun _ => page_bytes) 0 hidx)
                   (path_hoffset inode hidx) (digest_size params))
        (real_hash dblock) (digest_size params) /\
  state_of r = s /\
  pages_read (log_of r) = [path_hpage_idx inode 0 hidx] /\
  count_hash_block (log_of r) = 0%nat.
Proof.
  intros Hok Hsz Hpos Hn hidx Hread Hv r. subst r.
  destruct (verify_data_block K inode dblock max_ra s) as [[ok s'] evs] eqn:H.
  cbn [result_of state_of log_of fst snd].
  unfold verify_data_block in H. fold vi in H. fold params in H.
  rewrite u64_small in H by lia.
  replace (i_size inode <=? pos dblock) with false in H
    by (symmetry; apply Z.leb_gt; lia).
  fold hidx in H.
  destruct (Z.to_nat (num_levels params)) as [|n] eqn:En; [lia|].
  cbn [ascend] in H. fold vi in H. fold params in H.
  unfold path_haddr, path_hoffset, leaf_readahead in *.
  unfold path_hpage_idx, path_hblock_idx in *.
  fold vi in Hread, Hv |- *. fold params in Hread, Hv |- *.
  change (Z.to_nat 0) with 0%nat in *. fold hidx in Hread.
  set (hblock_idx := u64 (nth 0%nat (level_start params) 0 +
                          Z.shiftr hidx (log_arity params))) in *.
  set (hpage_idx := Z.shiftr hblock_idx (log_blocks_per_page params)) in *.
  change (0 =? 0) with true in H. cbv iota in H.
  unfold bind at 1 in H. unfold bind at 1 in H.
  unfold call_read_merkle_tree_page at 1 in H. rewrite Hread in H.
  unfold bind at 1 in H. unfold kmap_local at 1, emit in H.
  unfold bind at 1 in H.
  pose proof (is_verified_spec hblock_idx s Hok (u64_range _)) as Hspec.
  cbv zeta in Hspec. fold hpage_idx in Hspec.
  pose proof (memo_events_quiet _
                (is_verified_memo_events hpage_idx hblock_idx s))
    as (_ & M2 & _ & M4 & _).
  destruct (is_hash_block_verified inode hpage_idx hblock_idx s)
    as [[v s1] e1].
  cbn [result_of state_of log_of fst snd] in Hspec, M2, M4.
  destruct Hspec as (Hres & Hsame & _).
  rewrite Hv in Hres. subst v. rewrite (Hsame eq_refl) in H.
  unfold bind, kunmap_local, put_page, emit, ret in H. cbn [descend] in H.
  fold vi in H. fold params in H.
  destruct (memcmp_eq _ (real_hash dblock) _) eqn:Ecmp; cbn [negb] in H;
    injection H as <- <- <-; log_simpl; rewrite ?M2, ?M4;
    repeat split; reflexivity.
Qed.

(** X11 (memoization does not change the verdict): from any two memoization
    states that mark only hash blocks the tree authenticates, and with any
    readahead, the verification of one and the same block gives the same
    verdict, provided the tree pages on the path of a block within the file
    are read without error. *)
Theorem verdict_independent_of_memo (T : Z -> bytes)
    (dblock : fsverity_pending_block) (max_ra max_ra' : Z) (s1 s2 : vstate) :
  pages_ok inode -> levels_ok inode ->
  0 <= i_size inode < 2 ^ 63 -> 0 <= pos dblock ->
  memo_sound K inode T s1 -> memo_sound K inode T s2 ->
  (pos dblock < i_size inode ->
   path_readable inode T (Z.to_nat (num_levels params)) 0
     (Z.shiftr (pos dblock) (log_blocksize params))) ->
  result_of (verify_data_block K inode dblock max_ra s1)
    = result_of (verify_data_block K inode dblock max_ra' s2).
Proof.
  intros Hok Hlv Hsz Hpos0 Hs1 Hs2 Hpath.
  destruct (Z.lt_ge_cases (pos dblock) (i_size inode)) as [Hpos|Hpos].
  - destruct (walk_spec T dblock max_ra s1 Hok Hlv Hsz (conj Hpos0 Hpos)
                Hs1 (Hpath Hpos)) as [-> _].
    destruct (walk_spec T dblock max_ra' s2 Hok Hlv Hsz (conj Hpos0 Hpos)
                Hs2 (Hpath Hpos)) as [-> _].
    reflexivity.
  - now rewrite !(past_eof_run dblock _ _ Hsz Hpos).
Qed.

Lemma walk_keeps_memo_sound (T : Z -> bytes) (dblock : fsverity_pending_block)
    (max_ra : Z) (s : vstate) :
  pages_ok inode -> levels_ok inode -> levels_disjoint inode ->
  0 <= i_size inode < 2 ^ 63 -> tree_readable inode T ->
  0 <= pos dblock ->
  memo_sound K inode T s /\ encoding_ok inode s ->
  memo_sound K inode T (state_of (verify_data_block K inode dblock max_ra s)) /\
  encoding_ok inode (state_of (verify_data_block K inode dblock max_ra s)).
Proof.
  intros Hok Hlv Hdis Hsz Hread Hpos0 [Hsound Henc].
  destruct (Z.lt_ge_cases (pos dblock) (i_size inode)) as [Hpos|Hpos].
  2:{ rewrite (past_eof_run dblock max_ra s Hsz Hpos). now split. }
  split.
  - apply memo_sound_preserved; try assumption. apply Hread. lia.
  - destruct (walk_marks dblock max_ra s Hok) as (_ & Hmode & _).
    now apply (encoding_ok_mono s).
Qed.

(** *** Invariants of the walks, lifted to the entry points *)

Lemma store_real_hashes_pos (bs : list fsverity_pending_block) (hs : list bytes) :
  Forall (fun b => 0 <= pos b) bs ->
  Forall (fun b => 0 <= pos b) (store_real_hashes bs hs).
Proof.
  intros H. revert hs. induction H as [|b bs Hb Hbs IH]; intros hs.
  - destruct hs; constructor.
  - destruct hs as [|h hs]; cbn [store_real_hashes].
    + now constructor.
    + constructor; [exact Hb | apply IH].
Qed.

Section Lifting.

(** An invariant [P] of the memoization state and a property [Q] of the
    tree page reads that every walk with readahead [max_ra] keeps; [P] does
    not look at the flags of the warnings. *)
Variable P : vstate -> Prop.
Variable Q : event -> bool.
Variable max_ra : Z.

Hypothesis HQ : forall e, is_read e = false -> Q e = true.
Hypothesis HP : forall site s, P s -> P (set_warned site s).
Hypothesis Hwalk :
  forall dblock s, 0 <= pos dblock -> P s ->
    P (state_of (verify_data_block K inode dblock max_ra s)) /\
    forallb Q (log_of (verify_data_block K inode dblock max_ra s)) = true.

Lemma kunmap_lift (vs : list view) : forallb Q (map EvKunmap vs) = true.
Proof.
  induction vs as [|v vs IH]; [reflexivity|].
  cbn [map forallb]. now rewrite HQ, IH.
Qed.

Lemma store_log_lift (i : Z) : forallb Q (store_log K i) = true.
Proof.
  unfold store_log. destruct (i <? FS_VERITY_MAX_PENDING_DATA_BLOCKS K);
    [reflexivity|].
  cbn [forallb]. now rewrite HQ.
Qed.

Lemma verify_each_lift (bs : list fsverity_pending_block) (s : vstate) :
  Forall (fun b => 0 <= pos b) bs -> P s ->
  P (state_of (verify_each K inode max_ra bs s)) /\
  forallb Q (log_of (verify_each K inode max_ra bs s)) = true.
Proof.
  intros Hbs. revert s. induction Hbs as [|b bs Hb _ IH]; intros s Hs.
  - split; [exact Hs | reflexivity].
  - cbn [verify_each]. unfold bind.
    destruct (Hwalk b s Hb Hs) as [Hp Hq].
    destruct (verify_data_block K inode b max_ra s) as [[ok s1] e1].
    cbn [state_of log_of fst snd] in Hp, Hq.
    destruct ok.
    + destruct (IH s1 Hp) as [Hp2 Hq2].
      destruct (verify_each K inode max_ra bs s1) as [[ok2 s2] e2].
      cbn [state_of log_of fst snd] in *.
      split; [exact Hp2 | now rewrite forallb_app, Hq, Hq2].
    + cbn [ret state_of log_of fst snd].
      split; [exact Hp | now rewrite app_nil_r].
Qed.

Lemma flush_lift (ctx : fsverity_verification_context) (s : vstate) :
  max_ra_pages ctx = max_ra ->
  Forall (fun b => 0 <= pos b) (pending_blocks ctx) -> P s ->
  let r := fsverity_verify_pending_blocks K inode ctx s in
  P (state_of r) /\ forallb Q (log_of r) = true /\
  Forall (fun b => 0 <= pos b) (pending_blocks (snd (result_of r))).
Proof.
  intros Hra Hpos Hs r. subst r.
  destruct (pending_blocks ctx) as [|b0 bs0] eqn:Ep.
  { rewrite (flush_empty ctx s Ep). cbn [state_of log_of result_of fst snd].
    rewrite Ep. repeat split; [exact Hs | constructor]. }
  assert (Hne : pending_blocks ctx <> []) by (rewrite Ep; discriminate).
  rewrite <- Ep in *. clear Ep.
  destruct (Z.eq_dec (shash_setup_err (hash_alg params)) 0) as [He|He].
  2:{ rewrite (flush_setup_err ctx s Hne He).
      cbn [state_of log_of result_of fst snd forallb].
      rewrite !HQ by reflexivity. repeat split; assumption. }
  destruct (crypto_shash_finup_mb inode (map data (pending_blocks ctx)))
    as [hs|] eqn:Ef.
  2:{ rewrite (flush_finup_err ctx s Hne He Ef).
      cbn [state_of log_of result_of fst snd forallb].
      rewrite !HQ by reflexivity. repeat split; assumption. }
  rewrite (flush_walk ctx s hs Hne He Ef). rewrite Hra.
  destruct (verify_each_lift (store_real_hashes (pending_blocks ctx) hs) s
              (store_real_hashes_pos _ hs Hpos) Hs) as [Hp Hq].
  destruct (verify_each K inode max_ra _ s) as [[ok s1] e1].
  cbn [state_of log_of result_of fst snd] in *.
  destruct ok; cbn [state_of log_of result_of fst snd pending_blocks].
  - split; [exact Hp|]. split; [|constructor].
    cbn [app forallb]. rewrite !HQ by reflexivity.
    now rewrite forallb_app, Hq, kunmap_lift.
  - split; [exact Hp|]. split; [|now apply store_real_hashes_pos].
    cbn [app forallb]. now rewrite !HQ by reflexivity.
Qed.

Lemma add_loop_lift (fuel : nat) (data_folio : folio) (fpos : Z)
    (ctx : fsverity_verification_context) (len offset : Z) (s : vstate)
    (r : option (bool * fsverity_verification_context)) (s' : vstate)
    (evs : list event) :
  max_ra_pages ctx = max_ra ->
  Forall (fun b => 0 <= pos b) (pending_blocks ctx) -> P s ->
  add_data_blocks_loop K inode fuel data_folio fpos ctx len offset s
    = (r, s', evs) ->
  P s' /\ forallb Q evs = true /\
  match r with
  | Some (_, ctx') =>
      max_ra_pages ctx' = max_ra /\
      Forall (fun b => 0 <= pos b) (pending_blocks ctx')
  | None => True
  end.
Proof.
  revert ctx len offset s r s' evs; induction fuel as [|fuel IH];
    intros ctx len offset s r s' evs Hra Hpos Hs H.
  { injection H as <- <- <-. repeat split; assumption. }
  cbn [add_data_blocks_loop] in H. fold vi in H. fold params in H.
  match type of H with
  | context [pending_blocks ctx ++ [?blk]] => set (b := blk) in H
  end.
  set (ctx1 := {| max_ra_pages := max_ra_pages ctx;
                  pending_blocks := pending_blocks ctx ++ [b] |}) in H.
  unfold bind at 1 in H. unfold kmap_local at 1, emit in H.
  unfold bind at 1 in H. rewrite store_pending_run in H.
  unfold bind at 1 in H.
  assert (Hpos1 : Forall (fun b => 0 <= pos b) (pending_blocks ctx1)).
  { cbn [ctx1 pending_blocks]. apply Forall_app. split; [exact Hpos|].
    constructor; [|constructor]. cbn [b pos]. apply u64_range. }
  assert (Hf : exists ok2 ctx2 s2 e2,
             (if num_pending ctx1 =? mb_max_msgs (hash_alg params)
              then fsverity_verify_pending_blocks K inode ctx1
              else ret (true, ctx1)) s = ((ok2, ctx2), s2, e2) /\
             P s2 /\ forallb Q e2 = true /\ max_ra_pages ctx2 = max_ra /\
             Forall (fun b => 0 <= pos b) (pending_blocks ctx2)).
  { destruct (num_pending ctx1 =? mb_max_msgs (hash_alg params)).
    - destruct (flush_lift ctx1 s Hra Hpos1 Hs) as (Hp & Hq & Hposn).
      pose proof (flush_max_ra ctx1 s) as Hm.
      destruct (fsverity_verify_pending_blocks K inode ctx1 s)
        as [[[ok2 ctx2] s2] e2].
      cbn [state_of log_of result_of fst snd] in *.
      exists ok2, ctx2, s2, e2. repeat split; try assumption.
      rewrite Hm. exact Hra.
    - exists true, ctx1, s, []. repeat split; assumption. }
  destruct Hf as (ok2 & ctx2 & s2 & e2 & Hrun & Hp2 & Hq2 & Hra2 & Hpos2).
  rewrite Hrun in H.
  destruct ok2; cbn [negb] in H.
  - destruct (u64 (len - block_size params) =? 0).
    + injection H as <- <- <-. cbn [ret app forallb].
      rewrite HQ by reflexivity.
      rewrite app_nil_r, forallb_app, store_log_lift.
      repeat split; assumption.
    + destruct (add_data_blocks_loop K inode fuel data_folio fpos ctx2 _ _ s2)
        as [[r3 s3] e3] eqn:E3.
      injection H as <- <- <-.
      destruct (IH _ _ _ _ _ _ _ Hra2 Hpos2 Hp2 E3) as (Hp3 & Hq3 & Hr3).
      split; [exact Hp3|]. split; [|exact Hr3].
      cbn [app forallb]. rewrite HQ by reflexivity.
      now rewrite !forallb_app, store_log_lift, Hq2, Hq3.
  - injection H as <- <- <-. cbn [ret app forallb].
    rewrite HQ by reflexivity.
    rewrite app_nil_r, forallb_app, store_log_lift.
    repeat split; assumption.
Qed.

Lemma add_data_blocks_lift (ctx : fsverity_verification_context)
    (data_folio : folio) (len offset : Z) (s : vstate)
    (r : option (bool * fsverity_verification_context)) (s' : vstate)
    (evs : list event) :
  max_ra_pages ctx = max_ra ->
  Forall (fun b => 0 <= pos b) (pending_blocks ctx) -> P s ->
  fsverity_add_data_blocks K inode ctx data_folio len offset s = (r, s', evs) ->
  P s' /\ forallb Q evs = true /\
  match r with
  | Some (_, ctx') =>
      max_ra_pages ctx' = max_ra /\
      Forall (fun b => 0 <= pos b) (pending_blocks ctx')
  | None => True
  end.
Proof.
  intros Hra Hpos Hs.
  destruct (add_data_blocks_cases ctx data_folio len offset s)
    as [(_ & site & sw & ew & -> & _ & Hw) | (_ & ->)].
  - intros [= <- <- <-].
    destruct Hw as [(_ & -> & ->) | (_ & -> & ->)]; cbn [forallb].
    + repeat split; assumption.
    + rewrite HQ by reflexivity. repeat split; try assumption.
      now apply HP.
  - now apply add_loop_lift.
Qed.

Lemma add_bio_folios_lift (segs : list (folio * Z * Z))
    (ctx : fsverity_verification_context) (s : vstate)
    (r : option (bool * fsverity_verification_context)) (s' : vstate)
    (evs : list event) :
  max_ra_pages ctx = max_ra ->
  Forall (fun b => 0 <= pos b) (pending_blocks ctx) -> P s ->
  add_bio_folios K inode ctx segs s = (r, s', evs) ->
  P s' /\ forallb Q evs = true /\
  match r with
  | Some (_, ctx') =>
      max_ra_pages ctx' = max_ra /\
      Forall (fun b => 0 <= pos b) (pending_blocks ctx')
  | None => True
  end.
Proof.
  revert ctx s r s' evs; induction segs as [|[[f len] off] segs IH];
    intros ctx s r s' evs Hra Hpos Hs H.
  - injection H as <- <- <-. repeat split; assumption.
  - cbn [add_bio_folios] in H. unfold bind in H.
    destruct (fsverity_add_data_blocks K inode ctx f len off s)
      as [[r1 s1] e1] eqn:E1.
    destruct (add_data_blocks_lift _ _ _ _ _ _ _ _ Hra Hpos Hs E1)
      as (Hp1 & Hq1 & Hr1).
    destruct r1 as [[ok1 ctx1]|].
    + destruct Hr1 as [Hra1 Hpos1]. destruct ok1.
      * destruct (add_bio_folios K inode ctx1 segs s1) as [[r2 s2] e2] eqn:E2.
        injection H as <- <- <-.
        destruct (IH _ _ _ _ _ Hra1 Hpos1 Hp1 E2) as (Hp2 & Hq2 & Hr2).
        split; [exact Hp2|]. split; [|exact Hr2].
        now rewrite forallb_app, Hq1, Hq2.
      * injection H as <- <- <-. rewrite app_nil_r.
        repeat split; assumption.
    + injection H as <- <- <-. rewrite app_nil_r. repeat split; assumption.
Qed.

Lemma verify_bio_lift (b : bio) (s : vstate) :
  max_ra = (if negb (Z.land (bi_opf b) (REQ_RAHEAD K) =? 0)
            then Z.shiftr (bi_size b) (PAGE_SHIFT K + 2) else 0) ->
  P s ->
  let r := fsverity_verify_bio K inode b s in
  P (state_of r) /\ forallb Q (log_of r) = true.
Proof.
  intros Hra Hs r. subst r. unfold fsverity_verify_bio, bind.
  rewrite <- Hra.
  destruct (add_bio_folios K inode (fsverity_init_verification_context max_ra)
              (bi_segments b) s) as [[r1 s1] e1] eqn:E1.
  destruct (add_bio_folios_lift (bi_segments b)
              (fsverity_init_verification_context max_ra) s r1 s1 e1
              eq_refl (Forall_nil _) Hs E1) as (Hp1 & Hq1 & Hr1).
  destruct r1 as [[ok1 ctx1]|].
  - destruct Hr1 as [Hra1 Hpos1]. destruct ok1.
    + destruct (flush_lift ctx1 s1 Hra1 Hpos1 Hp1) as (Hp2 & Hq2 & _).
      destruct (fsverity_verify_pending_blocks K inode ctx1 s1)
        as [[[ok2 ctx2] s2] e2].
      cbn [state_of log_of result_of fst snd] in *.
      destruct ok2.
      * cbn [ret log_of state_of fst snd]. rewrite app_nil_r.
        split; [exact Hp2 | now rewrite forallb_app, Hq1, Hq2].
      * rewrite bio_ioerr_run. cbn [log_of state_of fst snd].
        split; [exact Hp2|].
        now rewrite !forallb_app, Hq1, Hq2, kunmap_lift.
    + rewrite bio_ioerr_run. cbn [state_of log_of fst snd].
      split; [exact Hp1 | now rewrite forallb_app, Hq1, kunmap_lift].
  - cbn [ret state_of log_of fst snd]. rewrite app_nil_r.
    split; assumption.
Qed.

Lemma verify_blocks_lift (data_folio : folio) (len offset : Z) (s : vstate) :
  max_ra = 0 -> P s ->
  let r := fsverity_verify_blocks K inode data_folio len offset s in
  P (state_of r) /\ forallb Q (log_of r) = true.
Proof.
  intros Hra Hs r. subst r. unfold fsverity_verify_blocks, bind.
  rewrite <- Hra.
  destruct (fsverity_add_data_blocks K inode
              (fsverity_init_verification_context max_ra)
              data_folio len offset s) as [[r1 s1] e1] eqn:E1.
  destruct (add_data_blocks_lift (fsverity_init_verification_context max_ra)
              data_folio len offset s r1 s1 e1
              eq_refl (Forall_nil _) Hs E1) as (Hp1 & Hq1 & Hr1).
  destruct r1 as [[ok1 ctx1]|].
  - destruct Hr1 as [Hra1 Hpos1]. destruct ok1.
    + destruct (flush_lift ctx1 s1 Hra1 Hpos1 Hp1) as (Hp2 & Hq2 & _).
      destruct (fsverity_verify_pending_blocks K inode ctx1 s1)
        as [[[ok2 ctx2] s2] e2].
      cbn [state_of log_of result_of fst snd] in *.
      destruct ok2.
      * cbn [ret log_of state_of fst snd]. rewrite app_nil_r.
        split; [exact Hp2 | now rewrite forallb_app, Hq1, Hq2].
      * rewrite clear_pending_run. cbn [ret log_of state_of fst snd].
        rewrite app_nil_r. split; [exact Hp2|].
        now rewrite !forallb_app, Hq1, Hq2, kunmap_lift.
    + rewrite clear_pending_run. cbn [ret state_of log_of fst snd].
      rewrite app_nil_r.
      split; [exact Hp1 | now rewrite forallb_app, Hq1, kunmap_lift].
  - cbn [ret state_of log_of fst snd]. rewrite app_nil_r.
    split; assumption.
Qed.

End Lifting.

Lemma ra_within_Forall (m : Z) (evs : list event) :
  forallb (ra_within m) evs = true ->
  Forall (fun ra => 0 <= ra <= m) (readahead_of evs).
Proof.
  rewrite ra_within_readahead, forallb_forall, Forall_forall.
  intros H ra Hin. specialize (H ra Hin).
  apply andb_true_iff in H. destruct H as [H1 H2].
  apply Z.leb_le in H1, H2. lia.
Qed.

(** X12 (a mark is never taken back): a hash block that the memoization
    state answers as verified is still answered as verified after
    verify_data_block, after fsverity_verify_blocks and after
    fsverity_verify_bio, whatever their verdict. *)
Theorem marks_never_cleared (b : Z) :
  pages_ok inode ->
  (forall dblock max_ra s,
     hblock_verified inode s b = true ->
     hblock_verified inode
       (state_of (verify_data_block K inode dblock max_ra s)) b = true) /\
  (forall data_folio len offset s,
     hblock_verified inode s b = true ->
     hblock_verified inode
       (state_of (fsverity_verify_blocks K inode data_folio len offset s)) b
     = true) /\
  (forall bi s,
     hblock_verified inode s b = true ->
     hblock_verified inode (state_of (fsverity_verify_bio K inode bi s)) b
     = true).
Proof.
  intros Hok.
  assert (Hwalk : forall max_ra dblock s, 0 <= pos dblock ->
            hblock_verified inode s b = true ->
            hblock_verified inode
              (state_of (verify_data_block K inode dblock max_ra s)) b = true /\
            forallb (fun _ : event => true)
              (log_of (verify_data_block K inode dblock max_ra s)) = true).
  { intros max_ra dblock s _ Hs. split.
    - now apply walk_marks.
    - apply forallb_forall. reflexivity. }
  split; [|split].
  - intros dblock max_ra s Hs. now apply walk_marks.
  - intros data_folio len offset s Hs.
    apply (verify_blocks_lift (fun s' => hblock_verified inode s' b = true)
             (fun _ => true) 0 (fun _ _ => eq_refl) (fun _ _ H => H)
             (Hwalk 0)
             data_folio len offset s eq_refl Hs).
  - intros bi s Hs.
    apply (verify_bio_lift (fun s' => hblock_verified inode s' b = true)
             (fun _ => true) _ (fun _ _ => eq_refl) (fun _ _ H => H)
             (Hwalk _)
             bi s eq_refl Hs).
Qed.

(** X13 (the entry points keep the memoization state sound): in a tree
    whose levels do not overlap and whose pages are read without error,
    fsverity_verify_blocks and fsverity_verify_bio take a memoization state
    that marks only hash blocks the tree authenticates to one that does so
    too, whatever the verdict and wherever a batch was given up. *)
Theorem entry_points_keep_memo_sound (T : Z -> bytes) :
  pages_ok inode -> levels_ok inode -> levels_disjoint inode ->
  0 <= i_size inode < 2 ^ 63 -> tree_readable inode T ->
  (forall data_folio len offset s,
     memo_sound K inode T s -> encoding_ok inode s ->
     let s' := state_of (fsverity_verify_blocks K inode data_folio len offset s) in
     memo_sound K inode T s' /\ encoding_ok inode s') /\
  (forall bi s,
     memo_sound K inode T s -> encoding_ok inode s ->
     let s' := state_of (fsverity_verify_bio K inode bi s) in
     memo_sound K inode T s' /\ encoding_ok inode s').
Proof.
  intros Hok Hlv Hdis Hsz Hread.
  assert (Hwalk : forall max_ra dblock s, 0 <= pos dblock ->
            memo_sound K inode T s /\ encoding_ok inode s ->
            (memo_sound K inode T
               (state_of (verify_data_block K inode dblock max_ra s)) /\
             encoding_ok inode
               (state_of (verify_data_block K inode dblock max_ra s))) /\
            forallb (fun _ : event => true)
              (log_of (verify_data_block K inode dblock max_ra s)) = true).
  { intros max_ra dblock s Hpos Hs. split.
    - now apply walk_keeps_memo_sound.
    - apply forallb_forall. reflexivity. }
  split.
  - intros data_folio len offset s Hs Henc s'. subst s'.
    apply (verify_blocks_lift
             (fun s' => memo_sound K inode T s' /\ encoding_ok inode s')
             (fun _ => true) 0 (fun _ _ => eq_refl) (fun _ _ H => H)
             (Hwalk 0)
             data_folio len offset s eq_refl (conj Hs Henc)).
  - intros bi s Hs Henc s'. subst s'.
    apply (verify_bio_lift
             (fun s' => memo_sound K inode T s' /\ encoding_ok inode s')
             (fun _ => true) _ (fun _ _ => eq_refl) (fun _ _ H => H)
             (Hwalk _)
             bi s eq_refl (conj Hs Henc)).
Qed.

(** X14 (readahead of the entry points): fsverity_verify_blocks never asks
    the filesystem for readahead of tree pages.  fsverity_verify_bio asks
    for none unless the bio has REQ_RAHEAD set, and then for at most
    bi_size >> (PAGE_SHIFT + 2) pages with any one read. *)
Theorem entry_points_readahead :
  (forall data_folio len offset s,
     Forall (fun ra => ra = 0)
       (readahead_of
          (log_of (fsverity_verify_blocks K inode data_folio len offset s)))) /\
  (forall bi s,
     0 <= bi_size bi ->
     Forall (fun ra =>
               0 <= ra <= Z.shiftr (bi_size bi) (PAGE_SHIFT K + 2) /\
               (Z.land (bi_opf bi) (REQ_RAHEAD K) = 0 -> ra = 0))
       (readahead_of (log_of (fsverity_verify_bio K inode bi s)))).
Proof.
  assert (HQ : forall m e, is_read e = false -> ra_within m e = true)
    by (intros m e; destruct e; try reflexivity; discriminate).
  assert (Hwalk : forall max_ra, 0 <= max_ra ->
            forall dblock s, 0 <= pos dblock -> True ->
            True /\
            forallb (ra_within max_ra)
              (log_of (verify_data_block K inode dblock max_ra s)) = true).
  { intros max_ra Hra dblock s _ _. split; [exact I|].
    now apply walk_readahead_within. }
  split.
  - intros data_folio len offset s.
    destruct (verify_blocks_lift (fun _ => True) (ra_within 0) 0 (HQ 0)
                (fun _ _ H => H) (Hwalk 0 (Z.le_refl 0))
                data_folio len offset s eq_refl I)
      as [_ H].
    apply ra_within_Forall in H.
    eapply Forall_impl; [|exact H]. cbv beta. intros ra Hra. lia.
  - intros bi s Hsize.
    set (max_ra := if negb (Z.land (bi_opf bi) (REQ_RAHEAD K) =? 0)
                   then Z.shiftr (bi_size bi) (PAGE_SHIFT K + 2) else 0).
    assert (Hshift : 0 <= Z.shiftr (bi_size bi) (PAGE_SHIFT K + 2))
      by (now apply Z.shiftr_nonneg).
    assert (Hra : 0 <= max_ra)
      by (subst max_ra; destruct (negb _); lia).
    destruct (verify_bio_lift (fun _ => True) (ra_within max_ra) max_ra
                (HQ max_ra) (fun _ _ H => H) (Hwalk max_ra Hra)
                bi s eq_refl I) as [_ H].
    apply ra_within_Forall in H.
    eapply Forall_impl; [|exact H]. cbv beta. intros ra Hbound.
    subst max_ra.
    destruct (Z.eqb_spec (Z.land (bi_opf bi) (REQ_RAHEAD K)) 0) as [E|E];
      cbn [negb] in Hbound; split; lia.
Qed.

(** *** The entry points against separate verifications *)

Lemma verify_separately_app (max_ra : Z) (bs1 bs2 : list fsverity_pending_block)
    (s : vstate) :
  let r1 := verify_separately K inode max_ra bs1 s in
  let r2 := verify_separately K inode max_ra bs2 (state_of r1) in
  result_of (verify_separately K inode max_ra (bs1 ++ bs2) s)
    = (result_of r1 && result_of r2)%bool /\
  state_of (verify_separately K inode max_ra (bs1 ++ bs2) s) = state_of r2.
Proof.
  revert s; induction bs1 as [|b bs1 IH]; intros s; cbv zeta.
  - cbn [app]. split; reflexivity.
  - cbn [app].
    destruct (verify_separately_cons max_ra b (bs1 ++ bs2) s) as [-> ->].
    destruct (verify_separately_cons max_ra b bs1 s) as [-> ->].
    destruct (IH (state_of (verify_single K inode max_ra b s))) as [-> ->].
    split; [apply andb_assoc | reflexivity].
Qed.

(** One flush has the verdict of the separate verifications of its blocks,
    and on acceptance their state; the queue is then empty. *)
Lemma flush_separately (ctx : fsverity_verification_context) (s : vstate) :
  let r := fsverity_verify_pending_blocks K inode ctx s in
  let sep := verify_separately K inode (max_ra_pages ctx) (pending_blocks ctx) s in
  fst (result_of r) = result_of sep /\
  (result_of sep = true ->
   state_of r = state_of sep /\ pending_blocks (snd (result_of r)) = []).
Proof.
  intros r sep.
  destruct (pending_blocks ctx) as [|b0 bs0] eqn:Ep.
  { subst r sep. rewrite (flush_empty ctx s Ep).
    cbn [result_of state_of fst snd]. rewrite Ep. repeat split. }
  assert (Hne : pending_blocks ctx <> []) by (rewrite Ep; discriminate).
  subst sep. rewrite <- Ep in *. clear Ep.
  destruct (Z.eq_dec (shash_setup_err (hash_alg params)) 0) as [He|He].
  2:{ subst r. rewrite (flush_setup_err ctx s Hne He).
      cbn [result_of fst snd].
      destruct (pending_blocks ctx) as [|b bs]; [congruence|].
      destruct (verify_separately_cons (max_ra_pages ctx) b bs s) as [-> _].
      destruct (verify_single_run (max_ra_pages ctx) b s) as [Hbad _].
      destruct (Hbad He) as [-> _]. cbn [andb].
      split; [reflexivity | discriminate]. }
  destruct (crypto_shash_finup_mb inode (map data (pending_blocks ctx)))
    as [hs|] eqn:Ef.
  2:{ subst r. rewrite (flush_finup_err ctx s Hne He Ef).
      cbn [result_of fst snd].
      rewrite (verify_separately_finup_err (max_ra_pages ctx) _ s Ef).
      split; [reflexivity | discriminate]. }
  subst r. rewrite (flush_walk ctx s hs Hne He Ef).
  destruct (verify_each_separately (max_ra_pages ctx) (pending_blocks ctx) hs s
              He Ef) as (Hres & Hacc & _).
  destruct (result_of (verify_each K inode (max_ra_pages ctx) _ s)) eqn:Ew;
    cbn [result_of state_of fst snd pending_blocks].
  - split; [exact Hres|]. intros _. split; [now apply Hacc | reflexivity].
  - split; [exact Hres|]. rewrite <- Hres. discriminate.
Qed.

(** The tree pages a single-block verification reads are those of its
    walk; it reads none when the hash setup or the hash fails. *)
Lemma verify_single_reads (max_ra : Z) (b : fsverity_pending_block)
    (s : vstate) :
  let r := verify_single K inode max_ra b s in
  (shash_setup_err (hash_alg params) <> 0 -> pages_read (log_of r) = []) /\
  (shash_setup_err (hash_alg params) = 0 ->
     match tfm (hash_alg params) (body_of inode b) with
     | None => pages_read (log_of r) = []
     | Some h =>
         pages_read (log_of r)
         = pages_read (log_of (verify_data_block K inode (set_real_hash b h)
                                 max_ra s))
     end).
Proof.
  intros r. subst r. unfold verify_single, bind.
  set (ctx := {| max_ra_pages := max_ra; pending_blocks := [b] |}).
  assert (Hne : pending_blocks ctx <> []) by discriminate.
  split; intros He.
  - rewrite (flush_setup_err ctx s Hne He). reflexivity.
  - unfold body_of. fold vi. fold params.
    destruct (tfm (hash_alg params) (firstn (Z.to_nat (block_size params)) (data b)))
      as [h|] eqn:Eh.
    + assert (Ef : crypto_shash_finup_mb inode (map data (pending_blocks ctx))
                   = Some [h]).
      { simpl. fold vi. fold params. now rewrite Eh. }
      rewrite (flush_walk ctx s [h] Hne He Ef).
      cbn [pending_blocks ctx store_real_hashes max_ra_pages verify_each].
      unfold bind.
      destruct (verify_data_block K inode (set_real_hash b h) max_ra s)
        as [[ok s1] e1].
      destruct ok; cbn [ret result_of state_of log_of fst snd];
        unfold pages_read; cbn [app flat_map];
        rewrite ?flat_map_app; cbn [flat_map rev map app];
        now rewrite ?app_nil_r.
    + assert (Ef : crypto_shash_finup_mb inode (map data (pending_blocks ctx))
                   = None).
      { simpl. fold vi. fold params. now rewrite Eh. }
      rewrite (flush_finup_err ctx s Hne He Ef). reflexivity.
Qed.

(** With the hashes computed, the loop of the flush reads the tree pages
    that the separate verifications read until the first one rejects. *)
Lemma verify_each_until_failure_reads (max_ra : Z)
    (bs : list fsverity_pending_block) (hs : list bytes) (s : vstate) :
  shash_setup_err (hash_alg params) = 0 ->
  crypto_shash_finup_mb inode (map data bs) = Some hs ->
  pages_read (log_of (verify_each K inode max_ra (store_real_hashes bs hs) s))
  = pages_read (log_of (verify_until_failure K inode max_ra bs s)).
Proof.
  intros He. revert hs s; induction bs as [|b bs IH]; intros hs s Hf.
  - injection Hf as <-. reflexivity.
  - cbn [map crypto_shash_finup_mb] in Hf. fold vi in Hf. fold params in Hf.
    destruct (tfm (hash_alg params) _) as [h|] eqn:Eh; [|discriminate].
    destruct (crypto_shash_finup_mb inode (map data bs)) as [hs'|] eqn:Er;
      [|discriminate].
    injection Hf as <-.
    cbn [store_real_hashes verify_each verify_until_failure].
    rewrite !log_bind, !pages_read_app.
    destruct (verify_single_run max_ra b s) as [_ Hgood].
    destruct (verify_single_reads max_ra b s) as [_ Hreads].
    specialize (Hgood He). specialize (Hreads He). unfold body_of in Hgood, Hreads.
    fold vi in Hgood, Hreads. fold params in Hgood, Hreads.
    rewrite Eh in Hgood, Hreads.
    cbv zeta in Hgood. destruct Hgood as [-> ->]. rewrite Hreads.
    set (w1 := verify_data_block K inode (set_real_hash b h) max_ra s).
    clearbody w1.
    destruct (result_of w1); [f_equal; now apply IH | reflexivity].
Qed.

(** Separate verifications given up at the first rejection are the
    separate verifications of the blocks up to and including the first
    rejected one. *)
Lemma until_failure_prefix (max_ra : Z) (bs : list fsverity_pending_block)
    (s : vstate) :
  let u := verify_until_failure K inode max_ra bs s in
  result_of u = false ->
  exists pre b post,
    bs = pre ++ b :: post /\
    result_of (verify_separately K inode max_ra pre s) = true /\
    result_of (verify_single K inode max_ra b
                 (state_of (verify_separately K inode max_ra pre s))) = false /\
    state_of u = state_of (verify_separately K inode max_ra (pre ++ [b]) s) /\
    pages_read (log_of u)
    = pages_read (log_of (verify_separately K inode max_ra (pre ++ [b]) s)).
Proof.
  revert s; induction bs as [|b bs IH]; intros s u; subst u; [discriminate|].
  cbn [verify_until_failure]. unfold bind.
  destruct (verify_single K inode max_ra b s) as [[ok s1] e1] eqn:E1.
  destruct ok.
  - specialize (IH s1). cbv zeta in IH.
    destruct (verify_until_failure K inode max_ra bs s1) as [[ok2 s2] e2].
    cbn [result_of state_of log_of fst snd] in *.
    intros ->. destruct (IH eq_refl) as (pre & b' & post & -> & Hpre & Hb' & Hst & Hrd).
    exists (b :: pre), b', post. split; [reflexivity|].
    cbn [app verify_separately]. unfold bind. rewrite E1.
    destruct (verify_separately K inode max_ra pre s1) as [[ok3 s3] e3].
    destruct (verify_separately K inode max_ra (pre ++ [b']) s1)
      as [[ok4 s4] e4].
    cbn [ret result_of state_of log_of fst snd] in *.
    subst ok3. split; [reflexivity|]. split; [exact Hb'|].
    split; [exact Hst|].
    rewrite !pages_read_app, Hrd. cbn [pages_read flat_map].
    now rewrite !app_nil_r.
  - intros _. exists [], b, bs. split; [reflexivity|].
    cbn [app verify_separately]. unfold bind.
    change (state_of (ret true s)) with s. rewrite E1.
    cbn [ret result_of state_of log_of fst snd].
    split; [reflexivity|]. split; [reflexivity|]. split; [reflexivity|].
    rewrite !pages_read_app. cbn [pages_read flat_map]. now rewrite !app_nil_r.
Qed.

(** C3, as amended (batch equivalence): one flush of the pending blocks
    returns the verdict of as many separate single-block verifications made
    in the order of the queue, and leaves the memoization state they leave
    whenever that verdict is acceptance.  When the hash setup or the
    multi-buffer hash fails, the flush rejects with the memoization state
    untouched and without reading a tree page.  In every other case the
    flush is the separate verifications given up at the first rejection:
    same verdict, same memoization state, same tree pages read; so that a
    flush that rejects leaves the state, and has read the tree pages, of
    the separate verifications of the blocks up to and including the first
    rejected one, the later blocks not being walked. *)
Theorem batch_equivalence_amended (ctx : fsverity_verification_context)
    (s : vstate) :
  let batch := fsverity_verify_pending_blocks K inode ctx s in
  let max_ra := max_ra_pages ctx in
  let bs := pending_blocks ctx in
  let sep := verify_separately K inode max_ra bs s in
  let upto := verify_until_failure K inode max_ra bs s in
  fst (result_of batch) = result_of sep /\
  (result_of sep = true -> state_of batch = state_of sep) /\
  (bs <> [] ->
   shash_setup_err (hash_alg params) <> 0 \/
   crypto_shash_finup_mb inode (map data bs) = None ->
     fst (result_of batch) = false /\ state_of batch = s /\
     pages_read (log_of batch) = []) /\
  (shash_setup_err (hash_alg params) = 0 ->
   crypto_shash_finup_mb inode (map data bs) <> None ->
     fst (result_of batch) = result_of upto /\
     state_of batch = state_of upto /\
     pages_read (log_of batch) = pages_read (log_of upto) /\
     (fst (result_of batch) = false ->
      exists pre b post,
        bs = pre ++ b :: post /\
        result_of (verify_separately K inode max_ra pre s) = true /\
        result_of (verify_single K inode max_ra b
                     (state_of (verify_separately K inode max_ra pre s)))
          = false /\
        state_of batch
          = state_of (verify_separately K inode max_ra (pre ++ [b]) s) /\
        pages_read (log_of batch)
          = pages_read
              (log_of (verify_separately K inode max_ra (pre ++ [b]) s)))).
Proof.
  intros batch max_ra bs sep upto.
  assert (Hfail : bs <> [] ->
            shash_setup_err (hash_alg params) <> 0 \/
            crypto_shash_finup_mb inode (map data bs) = None ->
            fst (result_of batch) = false /\ state_of batch = s /\
            pages_read (log_of batch) = []).
  { intros Hne Hcause. subst batch.
    destruct (Z.eq_dec (shash_setup_err (hash_alg params)) 0) as [He|He].
    - destruct Hcause as [Hc|Ef]; [contradiction|].
      rewrite (flush_finup_err ctx s Hne He Ef). repeat split.
    - rewrite (flush_setup_err ctx s Hne He). repeat split. }
  assert (Hupto : shash_setup_err (hash_alg params) = 0 ->
            crypto_shash_finup_mb inode (map data bs) <> None ->
            fst (result_of batch) = result_of upto /\
            state_of batch = state_of upto /\
            pages_read (log_of batch) = pages_read (log_of upto)).
  { intros He Hf.
    destruct (batch_until_failure ctx s He Hf) as [Hres Hst].
    split; [exact Hres|]. split; [exact Hst|].
    subst batch upto.
    destruct bs as [|b0 bs0] eqn:Ep.
    { subst bs. rewrite (flush_empty ctx s Ep). reflexivity. }
    assert (Hne : pending_blocks ctx <> []) by (fold bs; rewrite Ep; discriminate).
    rewrite <- Ep in *. clear Ep. subst bs.
    destruct (crypto_shash_finup_mb inode (map data (pending_blocks ctx)))
      as [hs|] eqn:Ef; [|congruence].
    rewrite (flush_walk ctx s hs Hne He Ef).
    rewrite <- (verify_each_until_failure_reads max_ra (pending_blocks ctx)
                  hs s He Ef).
    fold max_ra.
    destruct (result_of (verify_each K inode max_ra _ s));
      cbn [log_of snd]; rewrite !pages_read_app; cbn [pages_read flat_map app].
    - assert (Hk : forall vs, flat_map
                     (fun e => match e with
                               | EvReadPage idx _ _ => [idx]
                               | _ => []
                               end) (map EvKunmap vs) = []).
      { induction vs as [|v vs IHv]; [reflexivity | exact IHv]. }
      now rewrite Hk, app_nil_r.
    - reflexivity. }
  assert (Hsep : fst (result_of batch) = result_of sep /\
                 (result_of sep = true -> state_of batch = state_of sep)).
  { subst batch sep.
    destruct (flush_separately ctx s) as [Hres Hacc]. cbv zeta in Hres, Hacc.
    split; [exact Hres|]. intros Ht. now apply Hacc. }
  split; [apply Hsep|]. split; [apply Hsep|]. split; [exact Hfail|].
  intros He Hf. destruct (Hupto He Hf) as (Hres & Hst & Hrd).
  split; [exact Hres|]. split; [exact Hst|]. split; [exact Hrd|].
  intros Hrej. rewrite Hres in Hrej.
  destruct (until_failure_prefix max_ra bs s Hrej)
    as (pre & b & post & Hsplit & Hpre & Hb & Hst' & Hrd').
  exists pre, b, post. fold upto in Hst', Hrd'.
  split; [exact Hsplit|]. split; [exact Hpre|]. split; [exact Hb|].
  split; [now rewrite Hst | now rewrite Hrd].
Qed.

(** The loop of fsverity_add_data_blocks against the separate
    verifications of the blocks queued before it and of the blocks of the
    range: when it returns true, a prefix of them has been verified with
    acceptance and the rest is pending; when it returns false, the separate
    verifications reject. *)
Lemma add_loop_separately (fuel : nat) (data_folio : folio) (fpos : Z)
    (ctx : fsverity_verification_context) (len offset : Z) (s : vstate)
    (ok : bool) (ctx' : fsverity_verification_context) (s' : vstate)
    (evs : list event) :
  0 < block_size params -> (0 < fuel)%nat ->
  len = Z.of_nat fuel * block_size params -> len < 2 ^ 64 ->
  add_data_blocks_loop K inode fuel data_folio fpos ctx len offset s
    = (Some (ok, ctx'), s', evs) ->
  let max_ra := max_ra_pages ctx in
  let all := pending_blocks ctx ++ range_blocks inode fuel data_folio fpos offset in
  max_ra_pages ctx' = max_ra /\
  if ok then
    exists done,
      all = done ++ pending_blocks ctx' /\
      result_of (verify_separately K inode max_ra done s) = true /\
      state_of (verify_separately K inode max_ra done s) = s'
  else result_of (verify_separately K inode max_ra all s) = false.
Proof.
  intros Hbs. revert ctx len offset s ok ctx' s' evs; induction fuel as [|fuel IH];
    intros ctx len offset s ok ctx' s' evs Hfuel Hlen Hmax H; [lia|].
  cbn [add_data_blocks_loop range_blocks] in H |- *.
  fold vi in H |- *. fold params in H |- *.
  match type of H with
  | context [pending_blocks ctx ++ [?blk]] => set (b := blk) in *
  end.
  set (ctx1 := {| max_ra_pages := max_ra_pages ctx;
                  pending_blocks := pending_blocks ctx ++ [b] |}) in H.
  set (rest := range_blocks inode fuel data_folio fpos
                 (u64 (offset + block_size params))).
  unfold bind at 1 in H. unfold kmap_local at 1, emit in H.
  unfold bind at 1 in H. rewrite store_pending_run in H.
  unfold bind at 1 in H.
  cbv zeta.
  replace (pending_blocks ctx ++ b :: rest)
    with (pending_blocks ctx1 ++ rest)
    by (cbn [ctx1 pending_blocks]; now rewrite <- app_assoc).
  set (max_ra := max_ra_pages ctx) in *.
  assert (Hf : exists ok2 ctx2 s2 e2,
             (if num_pending ctx1 =? mb_max_msgs (hash_alg params)
              then fsverity_verify_pending_blocks K inode ctx1
              else ret (true, ctx1)) s = ((ok2, ctx2), s2, e2) /\
             max_ra_pages ctx2 = max_ra /\
             if ok2 then
               exists done,
                 pending_blocks ctx1 = done ++ pending_blocks ctx2 /\
                 result_of (verify_separately K inode max_ra done s) = true /\
                 state_of (verify_separately K inode max_ra done s) = s2
             else result_of (verify_separately K inode max_ra
                               (pending_blocks ctx1) s) = false).
  { destruct (num_pending ctx1 =? mb_max_msgs (hash_alg params)).
    - destruct (flush_separately ctx1 s) as [Hres Hacc].
      pose proof (flush_max_ra ctx1 s) as Hm.
      change (max_ra_pages ctx1) with max_ra in Hres, Hacc, Hm.
      destruct (fsverity_verify_pending_blocks K inode ctx1 s)
        as [[[ok2 ctx2] s2] e2].
      cbn [result_of state_of fst snd] in Hres, Hacc, Hm.
      exists ok2, ctx2, s2, e2. split; [reflexivity|]. split; [exact Hm|].
      destruct ok2.
      + destruct (Hacc (eq_sym Hres)) as [Hst Hnil].
        exists (pending_blocks ctx1). rewrite Hnil, app_nil_r.
        split; [reflexivity|]. split; [now symmetry | now symmetry].
      + now symmetry.
    - exists true, ctx1, s, []. split; [reflexivity|]. split; [reflexivity|].
      exists []. repeat split. }
  destruct Hf as (ok2 & ctx2 & s2 & e2 & Hrun & Hra2 & Hsep).
  rewrite Hrun in H.
  destruct ok2; cbn [negb] in H.
  - destruct Hsep as (done & Hdone & Hres & Hst).
    assert (Hlen' : u64 (len - block_size params)
                    = Z.of_nat fuel * block_size params).
    { rewrite u64_small; [lia | nia]. }
    rewrite Hlen' in H.
    destruct (Z.eqb_spec (Z.of_nat fuel * block_size params) 0) as [E|E].
    + injection H as <- <- <- _.
      assert (fuel = 0%nat) by nia. subst fuel.
      split; [exact Hra2|].
      exists done. subst rest. cbn [range_blocks]. rewrite app_nil_r.
      repeat split; assumption.
    + destruct (add_data_blocks_loop K inode fuel data_folio fpos ctx2 _ _ s2)
        as [[r3 s3] e3] eqn:E3.
      injection H as -> <- _.
      apply IH in E3; [|destruct fuel; [simpl in E; lia | lia] | reflexivity | nia].
      cbv zeta in E3. rewrite Hra2 in E3. destruct E3 as [Hra3 Hsep3].
      split; [exact Hra3|].
      fold rest in Hsep3. rewrite Hdone, <- app_assoc.
      destruct (verify_separately_app max_ra done
                  (pending_blocks ctx2 ++ rest) s) as [Happ1 Happ2].
      cbv zeta in Happ1, Happ2. rewrite Hst in Happ1, Happ2.
      destruct ok.
      * destruct Hsep3 as (done3 & Hdone3 & Hres3 & Hst3).
        exists (done ++ done3). rewrite Hdone3, app_assoc.
        split; [reflexivity|].
        destruct (verify_separately_app max_ra done done3 s) as [Ha1 Ha2].
        cbv zeta in Ha1, Ha2. rewrite Hst in Ha1, Ha2.
        rewrite Ha1, Ha2, Hres, Hres3. split; [reflexivity | exact Hst3].
      * rewrite Happ1, Hsep3. apply andb_false_r.
  - injection H as <- <- <- _. split; [exact Hra2|].
    destruct (verify_separately_app max_ra (pending_blocks ctx1) rest s)
      as [-> _].
    now rewrite Hsep.
Qed.

Lemma add_data_blocks_separately (ctx : fsverity_verification_context)
    (data_folio : folio) (len offset : Z) (s : vstate)
    (ok : bool) (ctx' : fsverity_verification_context) (s' : vstate)
    (evs : list event) :
  blocks_ok inode -> is_size_t len ->
  fsverity_add_data_blocks K inode ctx data_folio len offset s
    = (Some (ok, ctx'), s', evs) ->
  let max_ra := max_ra_pages ctx in
  let all := pending_blocks ctx ++ folio_blocks K inode data_folio len offset in
  max_ra_pages ctx' = max_ra /\
  if range_valid inode data_folio len offset then
    if ok then
      exists done,
        all = done ++ pending_blocks ctx' /\
        result_of (verify_separately K inode max_ra done s) = true /\
        state_of (verify_separately K inode max_ra done s) = s'
    else result_of (verify_separately K inode max_ra all s) = false
  else ok = false.
Proof.
  intros Hok Hlen.
  destruct (add_data_blocks_cases ctx data_folio len offset s)
    as [(-> & site & sw & ew & -> & _ & _) | (Hv & ->)].
  { intros [= <- <- _ _]. split; reflexivity. }
  rewrite Hv. apply range_valid_true in Hv. destruct Hv as (Hl & Ha & _ & _).
  unfold folio_blocks. fold vi. fold params.
  pose proof (aligned_multiple len offset Hok ltac:(lia) Ha) as Hm.
  destruct Hok as [Hk Hbs]. fold vi in Hk, Hbs. fold params in Hk, Hbs.
  assert (Hpow : 0 < block_size params)
    by (rewrite Hbs; apply Z.pow_pos_nonneg; lia).
  assert (0 < len / block_size params).
  { apply Z.div_str_pos. split; [lia|].
    destruct (Z.le_gt_cases (block_size params) len); [assumption|].
    rewrite Z.div_small in Hm by lia. lia. }
  destruct Hlen.
  intros Hrun. apply add_loop_separately in Hrun;
    [exact Hrun | lia | lia | rewrite Z2Nat.id by lia; exact Hm | lia].
Qed.


Lemma add_bio_folios_separately (segs : list (folio * Z * Z))
    (ctx : fsverity_verification_context) (s : vstate)
    (ok : bool) (ctx' : fsverity_verification_context) (s' : vstate)
    (evs : list event) :
  blocks_ok inode ->
  Forall (fun seg : folio * Z * Z => is_size_t (snd (fst seg))) segs ->
  add_bio_folios K inode ctx segs s = (Some (ok, ctx'), s', evs) ->
  let max_ra := max_ra_pages ctx in
  max_ra_pages ctx' = max_ra /\
  match bio_blocks K inode segs with
  | Some bs =>
      if ok then
        exists done,
          pending_blocks ctx ++ bs = done ++ pending_blocks ctx' /\
          result_of (verify_separately K inode max_ra done s) = true /\
          state_of (verify_separately K inode max_ra done s) = s'
      else result_of (verify_separately K inode max_ra
                        (pending_blocks ctx ++ bs) s) = false
  | None => ok = false
  end.
Proof.
  intros Hok Hsegs. revert ctx s ok ctx' s' evs.
  induction Hsegs as [|[[f len] off] segs Hl _ IH];
    intros ctx s ok ctx' s' evs H; cbv zeta.
  - injection H as <- <- <- _. split; [reflexivity|].
    cbn [bio_blocks]. exists []. rewrite app_nil_r. repeat split.
  - cbn [add_bio_folios] in H. unfold bind in H.
    destruct (fsverity_add_data_blocks K inode ctx f len off s)
      as [[[[ok1 ctx1]|] s1] e1] eqn:E1; [|discriminate].
    apply add_data_blocks_separately in E1; [|assumption | exact Hl].
    cbv zeta in E1. destruct E1 as [Hra1 Hsep1].
    cbn [bio_blocks].
    set (max_ra := max_ra_pages ctx) in *.
    set (fb := folio_blocks K inode f len off) in *.
    destruct (range_valid inode f len off).
    2:{ subst ok1. injection H as <- <- <- _. split; [exact Hra1 | reflexivity]. }
    destruct ok1.
    + destruct Hsep1 as (done1 & Hdone1 & Hres1 & Hst1).
      destruct (add_bio_folios K inode ctx1 segs s1) as [[r2 s2] e2] eqn:E2.
      injection H as -> <- _.
      apply IH in E2. cbv zeta in E2. rewrite Hra1 in E2.
      destruct E2 as [Hra2 Hsep2]. split; [exact Hra2|].
      destruct (bio_blocks K inode segs) as [bs|]; cbn [option_map];
        [|exact Hsep2].
      rewrite app_assoc, Hdone1, <- app_assoc.
      destruct ok.
      * destruct Hsep2 as (done2 & Hdone2 & Hres2 & Hst2).
        exists (done1 ++ done2). rewrite Hdone2, app_assoc.
        split; [reflexivity|].
        destruct (verify_separately_app max_ra done1 done2 s) as [Ha1 Ha2].
        cbv zeta in Ha1, Ha2. rewrite Hst1 in Ha1, Ha2.
        rewrite Ha1, Ha2, Hres1, Hres2. split; [reflexivity | exact Hst2].
      * destruct (verify_separately_app max_ra done1
                    (pending_blocks ctx1 ++ bs) s) as [Ha1 _].
        cbv zeta in Ha1. rewrite Hst1 in Ha1.
        rewrite Ha1, Hsep2. apply andb_false_r.
    + injection H as <- <- <- _. split; [exact Hra1|].
      destruct (bio_blocks K inode segs) as [bs|]; cbn [option_map];
        [|reflexivity].
      rewrite app_assoc.
      destruct (verify_separately_app max_ra (pending_blocks ctx ++ fb) bs s)
        as [-> _].
      now rewrite Hsep1.
Qed.

(** The last flush: with the verdict of the queue so far, that of the
    whole. *)
Lemma last_flush_separately (ctx' : fsverity_verification_context)
    (max_ra : Z) (all done : list fsverity_pending_block) (s s' : vstate) :
  max_ra_pages ctx' = max_ra ->
  all = done ++ pending_blocks ctx' ->
  result_of (verify_separately K inode max_ra done s) = true ->
  state_of (verify_separately K inode max_ra done s) = s' ->
  let r := fsverity_verify_pending_blocks K inode ctx' s' in
  let sep := verify_separately K inode max_ra all s in
  fst (result_of r) = result_of sep /\
  (result_of sep = true -> state_of r = state_of sep).
Proof.
  intros Hra Hall Hres Hst r sep. subst r sep all.
  destruct (flush_separately ctx' s') as [Hv Hacc]. cbv zeta in Hv, Hacc.
  rewrite Hra in Hv, Hacc.
  destruct (verify_separately_app max_ra done (pending_blocks ctx') s)
    as [Ha1 Ha2].
  cbv zeta in Ha1, Ha2. rewrite Hst in Ha1, Ha2.
  rewrite Ha1, Ha2, Hres. cbn [andb].
  split; [exact Hv|]. intros Htrue. now apply Hacc.
Qed.

(** fsverity_verify_blocks against the separate verifications of the blocks
    of its range. *)
Lemma verify_blocks_separately (data_folio : folio) (len offset : Z)
    (s : vstate) :
  blocks_ok inode -> is_size_t len ->
  let r := fsverity_verify_blocks K inode data_folio len offset s in
  let sep := verify_separately K inode 0
               (folio_blocks K inode data_folio len offset) s in
  result_of r
    = Some (range_valid inode data_folio len offset && result_of sep)%bool /\
  (result_of r = Some true -> state_of r = state_of sep).
Proof.
  intros Hok Hlen r sep. subst r sep. unfold fsverity_verify_blocks, bind.
  pose proof (add_data_blocks_total (fsverity_init_verification_context 0)
                data_folio len offset s Hok Hlen) as Ht.
  destruct (fsverity_add_data_blocks K inode _ data_folio len offset s)
    as [[[[ok1 ctx1]|] s1] e1] eqn:E1; [|now contradiction Ht].
  apply add_data_blocks_separately in E1; [|assumption..].
  cbv zeta in E1. cbn [fsverity_init_verification_context max_ra_pages
                         pending_blocks app] in E1.
  destruct E1 as [Hra1 Hsep1].
  set (fb := folio_blocks K inode data_folio len offset) in *.
  destruct (range_valid inode data_folio len offset); cbn [andb].
  2:{ subst ok1. rewrite clear_pending_run.
      cbn [result_of fst snd]. split; [reflexivity | discriminate]. }
  destruct ok1.
  - destruct Hsep1 as (done & Hdone & Hres & Hst).
    destruct (last_flush_separately ctx1 0 fb done s s1 Hra1 Hdone Hres Hst)
      as [Hv Hacc]. cbv zeta in Hv, Hacc.
    destruct (fsverity_verify_pending_blocks K inode ctx1 s1)
      as [[[ok2 ctx2] s2] e2].
    cbn [result_of state_of fst snd] in Hv, Hacc.
    destruct ok2.
    + cbn [ret result_of state_of fst snd]. rewrite <- Hv.
      split; [reflexivity|]. intros _. now apply Hacc.
    + rewrite clear_pending_run. cbn [ret result_of state_of fst snd].
      rewrite <- Hv. split; [reflexivity | discriminate].
  - rewrite clear_pending_run. cbn [ret result_of state_of fst snd].
    rewrite Hsep1. split; [reflexivity | discriminate].
Qed.

(** The verdict reached on a bio against the separate verifications of the
    blocks of its segments. *)
Lemma bio_verified_separately (bi : bio) (s : vstate) :
  blocks_ok inode -> bio_lengths_ok bi ->
  let max_ra :=
    if negb (Z.land (bi_opf bi) (REQ_RAHEAD K) =? 0)
    then Z.shiftr (bi_size bi) (PAGE_SHIFT K + 2)
    else 0 in
  bio_verified K inode bi s
    = match bio_blocks K inode (bi_segments bi) with
      | Some bs => result_of (verify_separately K inode max_ra bs s)
      | None => false
      end.
Proof.
  intros Hok Hlen max_ra.
  unfold bio_verified. fold max_ra.
  pose proof (add_bio_folios_total (bi_segments bi)
                (fsverity_init_verification_context max_ra) s Hok Hlen) as Ht.
  destruct (add_bio_folios K inode (fsverity_init_verification_context max_ra)
              (bi_segments bi) s) as [[[[ok1 ctx1]|] s1] e1] eqn:E1;
    [|now contradiction Ht].
  apply add_bio_folios_separately in E1; [|assumption..].
  cbv zeta in E1. cbn [fsverity_init_verification_context max_ra_pages
                         pending_blocks app] in E1.
  destruct E1 as [Hra1 Hsep1].
  cbn [result_of state_of fst snd].
  destruct (bio_blocks K inode (bi_segments bi)) as [bs|].
  2:{ now subst ok1. }
  destruct ok1.
  - destruct Hsep1 as (done & Hdone & Hres & Hst).
    destruct (last_flush_separately ctx1 max_ra bs done s s1 Hra1 Hdone Hres Hst)
      as [Hv _]. cbv zeta in Hv. exact Hv.
  - now symmetry.
Qed.

(** *** The entry points against the tree *)

Lemma range_blocks_pos (n : nat) (data_folio : folio) (fpos offset : Z) :
  Forall (fun b => 0 <= pos b) (range_blocks inode n data_folio fpos offset).
Proof.
  revert offset; induction n as [|n IH]; intros offset; cbn [range_blocks];
    constructor; [cbn [pos]; apply u64_range | apply IH].
Qed.

Lemma bio_blocks_pos (segs : list (folio * Z * Z))
    (bs : list fsverity_pending_block) :
  bio_blocks K inode segs = Some bs -> Forall (fun b => 0 <= pos b) bs.
Proof.
  revert bs; induction segs as [|[[f len] off] segs IH]; intros bs;
    cbn [bio_blocks].
  - intros [= <-]. constructor.
  - destruct (range_valid inode f len off); [|discriminate].
    destruct (bio_blocks K inode segs) as [bs'|]; [|discriminate].
    intros [= <-]. apply Forall_app. split; [apply range_blocks_pos | now apply IH].
Qed.

Section Against_the_tree.

Variable T : Z -> bytes.

Hypothesis Hpages : pages_ok inode.
Hypothesis Hlevels : levels_ok inode.
Hypothesis Hdisjoint : levels_disjoint inode.
Hypothesis Hsize : 0 <= i_size inode < 2 ^ 63.
Hypothesis Hreadable : tree_readable inode T.
Hypothesis Hcrypto : crypto_ok inode.

Lemma verify_single_sound (max_ra : Z) (b : fsverity_pending_block)
    (s : vstate) :
  0 <= pos b ->
  memo_sound K inode T s /\ encoding_ok inode s ->
  let r := verify_single K inode max_ra b s in
  result_of r = block_ok K inode T b /\
  (memo_sound K inode T (state_of r) /\ encoding_ok inode (state_of r)).
Proof.
  intros Hpos Hs r. subst r.
  destruct Hcrypto as [He Htotal]. fold vi in He, Htotal. fold params in He, Htotal.
  destruct (verify_single_run max_ra b s) as [_ Hgood].
  specialize (Hgood He).
  destruct (tfm (hash_alg params) (body_of inode b)) as [h|] eqn:Eh;
    [|now contradiction (Htotal (body_of inode b))].
  cbv zeta in Hgood. destruct Hgood as [-> ->].
  split.
  2:{ apply walk_keeps_memo_sound; assumption. }
  unfold block_ok.
  destruct (Z.leb_spec (i_size inode) (pos b)) as [Heof|Hin].
  - now rewrite (past_eof_run (set_real_hash b h) max_ra s Hsize Heof).
  - destruct (walk_spec T (set_real_hash b h) max_ra s Hpages Hlevels Hsize
                (conj Hpos Hin) (proj1 Hs) (Hreadable _ (conj Hpos Hin)))
      as [-> _].
    unfold authenticates. unfold body_of in Eh.
    fold vi in Eh |- *. fold params in Eh |- *.
    cbn [pos real_hash set_real_hash]. now rewrite Eh.
Qed.

Lemma verify_separately_sound (max_ra : Z) (bs : list fsverity_pending_block)
    (s : vstate) :
  Forall (fun b => 0 <= pos b) bs ->
  memo_sound K inode T s /\ encoding_ok inode s ->
  let r := verify_separately K inode max_ra bs s in
  result_of r = forallb (block_ok K inode T) bs /\
  (memo_sound K inode T (state_of r) /\ encoding_ok inode (state_of r)).
Proof.
  intros Hbs. revert s. induction Hbs as [|b bs Hb _ IH]; intros s Hs; cbv zeta.
  - split; [reflexivity | exact Hs].
  - destruct (verify_separately_cons max_ra b bs s) as [-> ->].
    destruct (verify_single_sound max_ra b s Hb Hs) as [-> Hs1].
    destruct (IH _ Hs1) as [-> Hs2].
    split; [reflexivity | exact Hs2].
Qed.

End Against_the_tree.

(** X17 (soundness of the entry points): with a tree whose levels do not
    overlap and whose pages are read without error, a crypto layer that
    does not fail and a memoization state that marks only hash blocks the
    tree authenticates, fsverity_verify_blocks returns true exactly when
    the range passes its checks and every block of the range is one the
    tree authenticates at its position, or lies at or past the end of the
    file and is all zeroes; and fsverity_verify_bio leaves the bio
    untouched exactly when this holds of every segment. *)
Theorem entry_points_sound (T : Z -> bytes) :
  pages_ok inode -> levels_ok inode -> levels_disjoint inode ->
  blocks_ok inode -> 0 <= i_size inode < 2 ^ 63 ->
  tree_readable inode T -> crypto_ok inode ->
  (forall data_folio len offset s,
     is_size_t len -> memo_sound K inode T s -> encoding_ok inode s ->
     result_of (fsverity_verify_blocks K inode data_folio len offset s)
       = Some (range_valid inode data_folio len offset
               && forallb (block_ok K inode T)
                    (folio_blocks K inode data_folio len offset))%bool) /\
  (forall bi s,
     bio_lengths_ok bi -> memo_sound K inode T s -> encoding_ok inode s ->
     result_of (fsverity_verify_bio K inode bi s)
       = Some (if match bio_blocks K inode (bi_segments bi) with
                  | Some bs => forallb (block_ok K inode T) bs
                  | None => false
                  end
               then bi else set_bi_status bi (BLK_STS_IOERR K))).
Proof.
  intros Hpages Hlevels Hdis Hblocks Hsize Hread Hcrypto. split.
  - intros data_folio len offset s Hlen Hs Henc.
    destruct (verify_blocks_separately data_folio len offset s Hblocks Hlen)
      as [-> _].
    destruct (verify_separately_sound T Hpages Hlevels Hdis Hsize Hread Hcrypto
                0 (folio_blocks K inode data_folio len offset) s
                (range_blocks_pos _ _ _ _) (conj Hs Henc)) as [-> _].
    reflexivity.
  - intros bi s Hlen Hs Henc.
    destruct (verify_bio_run bi s [] Hblocks Hlen) as [-> _].
    rewrite (bio_verified_separately bi s Hblocks Hlen).
    destruct (bio_blocks K inode (bi_segments bi)) as [bs|] eqn:Ebs;
      [|reflexivity].
    destruct (verify_separately_sound T Hpages Hlevels Hdis Hsize Hread Hcrypto
                (if negb (Z.land (bi_opf bi) (REQ_RAHEAD K) =? 0)
                 then Z.shiftr (bi_size bi) (PAGE_SHIFT K + 2) else 0)
                bs s (bio_blocks_pos _ _ Ebs) (conj Hs Henc)) as [-> _].
    reflexivity.
Qed.

(** *** The queue of pending blocks *)

Lemma flush_num_pending (ctx : fsverity_verification_context) (s : vstate) :
  let r := fsverity_verify_pending_blocks K inode ctx s in
  if fst (result_of r) then num_pending (snd (result_of r)) = 0
  else num_pending (snd (result_of r)) = num_pending ctx.
Proof.
  intros r. destruct (flush_held ctx s []) as [Ht Hf]. fold r in Ht, Hf.
  destruct (fst (result_of r)).
  - destruct (Ht eq_refl) as [Hnil _]. unfold num_pending. now rewrite Hnil.
  - destruct (Hf eq_refl) as [Hviews _]. unfold num_pending.
    apply (f_equal (@length view)) in Hviews.
    rewrite !length_map in Hviews. now rewrite Hviews.
Qed.

Lemma in_bounds_app (e1 e2 : list event) :
  in_bounds (e1 ++ e2) = (in_bounds e1 && in_bounds e2)%bool.
Proof. apply forallb_app. Qed.

Lemma in_bounds_walk (evs : list event) :
  forallb is_walk_event evs = true -> in_bounds evs = true.
Proof.
  unfold in_bounds. induction evs as [|e evs IH]; [reflexivity|].
  cbn [forallb]. rewrite !andb_true_iff. intros [He Hevs].
  split; [destruct e; try reflexivity; discriminate | now apply IH].
Qed.

Lemma in_bounds_kunmap (vs : list view) : in_bounds (map EvKunmap vs) = true.
Proof. induction vs as [|v vs IH]; [reflexivity | exact IH]. Qed.

(** A flush stores nothing into the queue. *)
Lemma flush_in_bounds (ctx : fsverity_verification_context) (s : vstate) :
  in_bounds (log_of (fsverity_verify_pending_blocks K inode ctx s)) = true.
Proof.
  destruct (pending_blocks ctx) as [|b0 bs0] eqn:Ep.
  { now rewrite (flush_empty ctx s Ep). }
  assert (Hne : pending_blocks ctx <> []) by (rewrite Ep; discriminate).
  clear Ep.
  destruct (Z.eq_dec (shash_setup_err (hash_alg params)) 0) as [He|He].
  2:{ now rewrite (flush_setup_err ctx s Hne He). }
  destruct (crypto_shash_finup_mb inode (map data (pending_blocks ctx)))
    as [hs|] eqn:Ef.
  2:{ now rewrite (flush_finup_err ctx s Hne He Ef). }
  rewrite (flush_walk ctx s hs Hne He Ef).
  pose proof (in_bounds_walk _
                (verify_each_walk_events (max_ra_pages ctx)
                   (store_real_hashes (pending_blocks ctx) hs) s)) as Hw.
  destruct (result_of (verify_each K inode (max_ra_pages ctx) _ s));
    cbn [log_of snd]; rewrite !in_bounds_app, Hw, ?in_bounds_kunmap;
    reflexivity.
Qed.

Lemma add_loop_bound (fuel : nat) (data_folio : folio) (fpos : Z)
    (ctx : fsverity_verification_context) (len offset : Z) (s : vstate)
    (ok : bool) (ctx' : fsverity_verification_context) (s' : vstate)
    (evs : list event) :
  num_pending ctx < mb_max_msgs (hash_alg params) ->
  mb_max_msgs (hash_alg params) <= FS_VERITY_MAX_PENDING_DATA_BLOCKS K ->
  add_data_blocks_loop K inode fuel data_folio fpos ctx len offset s
    = (Some (ok, ctx'), s', evs) ->
  num_pending ctx' <= mb_max_msgs (hash_alg params) /\
  (ok = true -> num_pending ctx' < mb_max_msgs (hash_alg params)) /\
  in_bounds evs = true.
Proof.
  intros Hlt Hcap. revert ctx len offset s ok ctx' s' evs Hlt;
    induction fuel as [|fuel IH];
    intros ctx len offset s ok ctx' s' evs Hlt H; [discriminate|].
  cbn [add_data_blocks_loop] in H. fold vi in H. fold params in H.
  match type of H with
  | context [pending_blocks ctx ++ [?blk]] => set (b := blk) in H
  end.
  set (ctx1 := {| max_ra_pages := max_ra_pages ctx;
                  pending_blocks := pending_blocks ctx ++ [b] |}) in H.
  unfold bind at 1 in H. unfold kmap_local at 1, emit in H.
  unfold bind at 1 in H. rewrite store_pending_run in H.
  unfold bind at 1 in H.
  set (mb := mb_max_msgs (hash_alg params)) in *.
  assert (Hstore : store_log K (num_pending ctx) = []).
  { unfold store_log.
    destruct (Z.ltb_spec (num_pending ctx)
                (FS_VERITY_MAX_PENDING_DATA_BLOCKS K)); [reflexivity | lia]. }
  rewrite Hstore in H.
  assert (H1 : num_pending ctx1 = num_pending ctx + 1).
  { unfold num_pending. cbn [ctx1 pending_blocks].
    rewrite length_app. cbn [length]. lia. }
  assert (Hf : exists ok2 ctx2 s2 e2,
             (if num_pending ctx1 =? mb
              then fsverity_verify_pending_blocks K inode ctx1
              else ret (true, ctx1)) s = ((ok2, ctx2), s2, e2) /\
             num_pending ctx2 <= mb /\
             (ok2 = true -> num_pending ctx2 < mb) /\
             in_bounds e2 = true).
  { destruct (Z.eqb_spec (num_pending ctx1) mb) as [E|E].
    - pose proof (flush_num_pending ctx1 s) as Hn. cbv zeta in Hn.
      pose proof (flush_in_bounds ctx1 s) as Hb.
      destruct (fsverity_verify_pending_blocks K inode ctx1 s)
        as [[[ok2 ctx2] s2] e2].
      cbn [result_of log_of fst snd] in Hn, Hb.
      exists ok2, ctx2, s2, e2. split; [reflexivity|].
      assert (0 <= num_pending ctx) by (unfold num_pending; lia).
      destruct ok2;
        (split; [lia | split; [first [discriminate | intros _; lia]
                              | exact Hb]]).
    - exists true, ctx1, s, []. split; [reflexivity|].
      split; [lia | split; [intros _; lia | reflexivity]]. }
  destruct Hf as (ok2 & ctx2 & s2 & e2 & Hrun & Hle & Hlt2 & Hb2).
  rewrite Hrun in H.
  destruct ok2; cbn [negb] in H.
  - destruct (u64 (len - block_size params) =? 0).
    + injection H as <- <- _ <-.
      split; [exact Hle|]. split; [intros _; now apply Hlt2|].
      cbn [app]. now rewrite app_nil_r.
    + destruct (add_data_blocks_loop K inode fuel data_folio fpos ctx2 _ _ s2)
        as [[r3 s3] e3] eqn:E3.
      injection H as -> _ <-.
      apply IH in E3; [|now apply Hlt2].
      destruct E3 as (I1 & I2 & I3).
      split; [exact I1|]. split; [exact I2|].
      cbn [app].
      change (in_bounds (EvKmap (VFolio (folio_index data_folio) offset)
                           :: e2 ++ e3))
        with (in_bounds (e2 ++ e3)).
      now rewrite in_bounds_app, Hb2, I3.
  - injection H as <- <- _ <-.
    split; [exact Hle|]. split; [discriminate|].
    cbn [app]. now rewrite app_nil_r.
Qed.

Lemma add_data_blocks_bound (ctx : fsverity_verification_context)
    (data_folio : folio) (len offset : Z) (s : vstate)
    (ok : bool) (ctx' : fsverity_verification_context) (s' : vstate)
    (evs : list event) :
  num_pending ctx < mb_max_msgs (hash_alg params) ->
  mb_max_msgs (hash_alg params) <= FS_VERITY_MAX_PENDING_DATA_BLOCKS K ->
  fsverity_add_data_blocks K inode ctx data_folio len offset s
    = (Some (ok, ctx'), s', evs) ->
  num_pending ctx' <= mb_max_msgs (hash_alg params) /\
  (ok = true -> num_pending ctx' < mb_max_msgs (hash_alg params)) /\
  in_bounds evs = true.
Proof.
  intros Hlt Hcap.
  destruct (add_data_blocks_cases ctx data_folio len offset s)
    as [(_ & site & sw & ew & -> & _ & Hw) | (_ & ->)].
  - intros [= <- <- _ <-]. split; [lia|]. split; [discriminate|].
    destruct Hw as [(_ & _ & ->) | (_ & _ & ->)]; reflexivity.
  - now apply add_loop_bound.
Qed.

Lemma add_bio_folios_bound (segs : list (folio * Z * Z))
    (ctx : fsverity_verification_context) (s : vstate)
    (ok : bool) (ctx' : fsverity_verification_context) (s' : vstate)
    (evs : list event) :
  num_pending ctx < mb_max_msgs (hash_alg params) ->
  mb_max_msgs (hash_alg params) <= FS_VERITY_MAX_PENDING_DATA_BLOCKS K ->
  add_bio_folios K inode ctx segs s = (Some (ok, ctx'), s', evs) ->
  num_pending ctx' <= mb_max_msgs (hash_alg params) /\
  (ok = true -> num_pending ctx' < mb_max_msgs (hash_alg params)) /\
  in_bounds evs = true.
Proof.
  intros Hlt Hcap. revert ctx s ok ctx' s' evs Hlt.
  induction segs as [|[[f len] off] segs IH]; intros ctx s ok ctx' s' evs Hlt H.
  - injection H as <- <- _ <-.
    split; [lia|]. split; [intros _; exact Hlt | reflexivity].
  - cbn [add_bio_folios] in H. unfold bind in H.
    destruct (fsverity_add_data_blocks K inode ctx f len off s)
      as [[[[ok1 ctx1]|] s1] e1] eqn:E1; [|discriminate].
    apply add_data_blocks_bound in E1; [|assumption..].
    destruct E1 as (Hle1 & Hlt1 & Hb1).
    destruct ok1.
    + destruct (add_bio_folios K inode ctx1 segs s1) as [[r2 s2] e2] eqn:E2.
      injection H as -> _ <-.
      apply IH in E2; [|now apply Hlt1]. destruct E2 as (I1 & I2 & I3).
      split; [exact I1|]. split; [exact I2|].
      now rewrite in_bounds_app, Hb1, I3.
    + injection H as <- <- _ <-.
      split; [exact Hle1|]. split; [discriminate|]. now rewrite app_nil_r.
Qed.

(** With a batch size that suits the queue, no store of the entry points
    goes past the end of the array. *)
Lemma verify_blocks_in_bounds (data_folio : folio) (len offset : Z)
    (s : vstate) :
  blocks_ok inode -> batch_size_ok K inode -> is_size_t len ->
  in_bounds (log_of (fsverity_verify_blocks K inode data_folio len offset s))
  = true.
Proof.
  intros Hok [Hone Hcap] Hlen. fold vi in Hone, Hcap. fold params in Hone, Hcap.
  unfold fsverity_verify_blocks, bind.
  pose proof (add_data_blocks_total (fsverity_init_verification_context 0)
                data_folio len offset s Hok Hlen) as Ht.
  destruct (fsverity_add_data_blocks K inode _ data_folio len offset s)
    as [[[[ok1 ctx1]|] s1] e1] eqn:E1; [|now contradiction Ht].
  apply add_data_blocks_bound in E1;
    [|unfold num_pending; cbn; lia | exact Hcap].
  destruct E1 as (_ & _ & Hb1).
  destruct ok1.
  - pose proof (flush_in_bounds ctx1 s1) as Hb2.
    destruct (fsverity_verify_pending_blocks K inode ctx1 s1)
      as [[[ok2 ctx2] s2] e2].
    cbn [log_of snd] in Hb2. destruct ok2.
    + cbn [ret log_of snd]. now rewrite !in_bounds_app, Hb1, Hb2.
    + rewrite clear_pending_run. cbn [ret log_of snd].
      now rewrite !in_bounds_app, Hb1, Hb2, in_bounds_kunmap.
  - rewrite clear_pending_run. cbn [ret log_of snd].
    now rewrite !in_bounds_app, Hb1, in_bounds_kunmap.
Qed.

Lemma verify_bio_in_bounds (bi : bio) (s : vstate) :
  blocks_ok inode -> batch_size_ok K inode -> bio_lengths_ok bi ->
  in_bounds (log_of (fsverity_verify_bio K inode bi s)) = true.
Proof.
  intros Hok [Hone Hcap] Hlen. fold vi in Hone, Hcap. fold params in Hone, Hcap.
  unfold fsverity_verify_bio, bind.
  set (ctx0 := fsverity_init_verification_context _).
  pose proof (add_bio_folios_total (bi_segments bi) ctx0 s Hok Hlen) as Ht.
  destruct (add_bio_folios K inode ctx0 (bi_segments bi) s)
    as [[[[ok1 ctx1]|] s1] e1] eqn:E1; [|now contradiction Ht].
  apply add_bio_folios_bound in E1;
    [|unfold num_pending; cbn; lia | exact Hcap].
  destruct E1 as (_ & _ & Hb1).
  destruct ok1.
  - pose proof (flush_in_bounds ctx1 s1) as Hb2.
    destruct (fsverity_verify_pending_blocks K inode ctx1 s1)
      as [[[ok2 ctx2] s2] e2].
    cbn [log_of snd] in Hb2. destruct ok2.
    + cbn [ret log_of snd]. now rewrite !in_bounds_app, Hb1, Hb2.
    + rewrite bio_ioerr_run. cbn [log_of snd].
      now rewrite !in_bounds_app, Hb1, Hb2, in_bounds_kunmap.
  - rewrite bio_ioerr_run. cbn [log_of snd].
    now rewrite !in_bounds_app, Hb1, in_bounds_kunmap.
Qed.

(** X18 (the queue of pending blocks stays within its array): with a batch
    size between 1 and the number of entries of the array, a call of
    fsverity_add_data_blocks that finds fewer than mb_max_msgs blocks
    pending returns, with at most mb_max_msgs blocks pending, and with
    fewer when it returns true, so that the next call finds room; no store
    of the call goes past the end of the array.  The same holds of the loop
    over the folios of a bio, and so of fsverity_verify_blocks and
    fsverity_verify_bio, which start from an empty queue. *)
Theorem pending_blocks_bounded :
  blocks_ok inode -> batch_size_ok K inode ->
  (forall ctx s data_folio len offset,
     num_pending ctx < mb_max_msgs (hash_alg params) -> is_size_t len ->
     let r := fsverity_add_data_blocks K inode ctx data_folio len offset s in
     exists ok ctx',
       result_of r = Some (ok, ctx') /\
       num_pending ctx' <= mb_max_msgs (hash_alg params) /\
       (ok = true -> num_pending ctx' < mb_max_msgs (hash_alg params)) /\
       in_bounds (log_of r) = true) /\
  (forall ctx s segs,
     num_pending ctx < mb_max_msgs (hash_alg params) ->
     Forall (fun seg : folio * Z * Z => is_size_t (snd (fst seg))) segs ->
     let r := add_bio_folios K inode ctx segs s in
     exists ok ctx',
       result_of r = Some (ok, ctx') /\
       num_pending ctx' <= mb_max_msgs (hash_alg params) /\
       (ok = true -> num_pending ctx' < mb_max_msgs (hash_alg params)) /\
       in_bounds (log_of r) = true) /\
  (forall data_folio len offset s,
     is_size_t len ->
     in_bounds
       (log_of (fsverity_verify_blocks K inode data_folio len offset s))
     = true) /\
  (forall bi s,
     bio_lengths_ok bi ->
     in_bounds (log_of (fsverity_verify_bio K inode bi s)) = true).
Proof.
  intros Hok Hbatch. pose proof Hbatch as [Hone Hcap].
  fold vi in Hone, Hcap. fold params in Hone, Hcap.
  split; [|split; [|split]].
  - intros ctx s data_folio len offset Hlt Hlen r. subst r.
    pose proof (add_data_blocks_total ctx data_folio len offset s Hok Hlen)
      as Ht.
    destruct (fsverity_add_data_blocks K inode ctx data_folio len offset s)
      as [[[[ok ctx']|] s'] evs] eqn:E; [|now contradiction Ht].
    exists ok, ctx'. split; [reflexivity|].
    now apply (add_data_blocks_bound _ _ _ _ _ _ _ _ _ Hlt Hcap E).
  - intros ctx s segs Hlt Hsegs r. subst r.
    pose proof (add_bio_folios_total segs ctx s Hok Hsegs) as Ht.
    destruct (add_bio_folios K inode ctx segs s)
      as [[[[ok ctx']|] s'] evs] eqn:E; [|now contradiction Ht].
    exists ok, ctx'. split; [reflexivity|].
    now apply (add_bio_folios_bound _ _ _ _ _ _ _ Hlt Hcap E).
  - intros data_folio len offset s Hlen. now apply verify_blocks_in_bounds.
  - intros bi s Hlen. now apply verify_bio_in_bounds.
Qed.

Lemma is_aligned_iff (len offset : Z) :
  blocks_ok inode ->
  IS_ALIGNED (Z.lor len offset) (block_size params) = true <->
  len mod block_size params = 0 /\ offset mod block_size params = 0.
Proof.
  intros [Hk Hbs]. fold vi in Hk, Hbs. fold params in Hk, Hbs.
  unfold IS_ALIGNED. rewrite Z.eqb_eq.
  assert (Hpow : 0 < 2 ^ log_blocksize params) by (apply Z.pow_pos_nonneg; lia).
  assert (Hlt : 2 ^ log_blocksize params < 2 ^ 64)
    by (apply Z.pow_lt_mono_r; lia).
  rewrite Hbs. rewrite u64_small by lia.
  replace (2 ^ log_blocksize params - 1) with (Z.ones (log_blocksize params))
    by (rewrite Z.ones_equiv; lia).
  rewrite Z.land_lor_distr_l, Z.lor_eq_0_iff, !Z.land_ones by lia.
  reflexivity.
Qed.

(** X19 (what fsverity_add_data_blocks refuses, and what it does not): the
    checks pass exactly for a positive length, a length and an offset that
    are multiples of the block size, and a folio that is locked and not
    uptodate.  A range that fails them is refused at one of the two
    WARN_ON_ONCE, which warns the first time it fires and is silent
    afterwards: nothing is queued, mapped, hashed or read, the context and
    the memoization state are left as they were, and
    fsverity_verify_blocks returns false.  A range that passes them is not
    refused: the first block is mapped, and the call returns false only
    when the separate verifications of the blocks queued before and of the
    blocks of the range reject; when it returns true, the blocks no longer
    pending have been verified with acceptance. *)
Theorem invalid_range_rejected (ctx : fsverity_verification_context)
    (data_folio : folio) (len offset : Z) (s : vstate) :
  blocks_ok inode -> is_size_t len ->
  let r := fsverity_add_data_blocks K inode ctx data_folio len offset s in
  let valid := range_valid inode data_folio len offset in
  let all := pending_blocks ctx ++ folio_blocks K inode data_folio len offset in
  (valid = true <->
   0 < len /\ len mod block_size params = 0 /\
   offset mod block_size params = 0 /\
   folio_locked data_folio = true /\ folio_uptodate data_folio = false) /\
  (valid = false ->
   exists site,
     (site = warn_range \/ site = warn_folio) /\
     let seen := Z.testbit (warned s) site in
     r = (Some (false, ctx),
          if seen then s else set_warned site s,
          if seen then [] else [EvWarn]) /\
     fsverity_verify_blocks K inode data_folio len offset s
       = (Some false,
          if seen then s else set_warned site s,
          if seen then [] else [EvWarn])) /\
  (valid = true ->
   (exists evs,
      log_of r = EvKmap (VFolio (folio_index data_folio) offset) :: evs) /\
   exists ok ctx',
     result_of r = Some (ok, ctx') /\
     if ok then
       exists done,
         all = done ++ pending_blocks ctx' /\
         result_of (verify_separately K inode (max_ra_pages ctx) done s) = true
     else
       result_of (verify_separately K inode (max_ra_pages ctx) all s) = false).
Proof.
  intros Hok Hlen r valid all.
  pose proof (is_aligned_iff len offset Hok) as Hal.
  split; [|split].
  - subst valid. unfold range_valid. fold vi. fold params.
    destruct (IS_ALIGNED _ _).
    + destruct (Z.leb_spec len 0), (folio_locked data_folio),
        (folio_uptodate data_folio); cbn; split;
        try discriminate; try tauto; try lia;
        intros (? & ? & ? & ? & ?); try discriminate; lia.
    + rewrite orb_true_r. cbn. split; [discriminate|].
      intros (_ & H1 & H2 & _).
      assert (false = true) by (now apply Hal). discriminate.
  - subst valid r. unfold range_valid, fsverity_verify_blocks, bind.
    rewrite !add_data_blocks_run. fold vi. fold params.
    destruct ((len <=? 0) || negb (IS_ALIGNED _ _)); cbn [negb andb].
    + intros _. exists warn_range. split; [now left|].
      rewrite warn_once_run. cbn [andb state_of log_of fst snd].
      destruct (Z.testbit (warned s) warn_range); split; reflexivity.
    + destruct (negb (folio_locked data_folio) || folio_uptodate data_folio);
        cbn [negb]; [|discriminate].
      intros _. exists warn_folio. split; [now right|].
      rewrite warn_once_run. cbn [andb state_of log_of fst snd].
      destruct (Z.testbit (warned s) warn_folio); split; reflexivity.
  - intros Hv. subst valid. split.
    + subst r.
      destruct (add_data_blocks_cases ctx data_folio len offset s)
        as [(Hno & _) | (_ & ->)]; [congruence|].
      apply range_valid_true in Hv. destruct Hv as (Hl & Ha & _ & _).
      pose proof (aligned_multiple len offset Hok ltac:(lia) Ha) as Hm.
      destruct Hok as [Hk Hbs]. fold vi in Hk, Hbs. fold params in Hk, Hbs.
      assert (Hpow : 0 < block_size params)
        by (rewrite Hbs; apply Z.pow_pos_nonneg; lia).
      assert (Hq : 0 < len / block_size params).
      { apply Z.div_str_pos. split; [lia|].
        destruct (Z.le_gt_cases (block_size params) len); [assumption|].
        rewrite Z.div_small in Hm by lia. lia. }
      destruct (Z.to_nat (len / block_size params)) as [|fuel] eqn:Ef; [lia|].
      cbn [add_data_blocks_loop].
      unfold bind at 1. unfold kmap_local at 1, emit.
      match goal with
      | |- context [match ?m with (_, _) => _ end] =>
          destruct m as [[r1 s1] e1]
      end.
      exists e1. reflexivity.
    + subst r.
      pose proof (add_data_blocks_total ctx data_folio len offset s Hok Hlen)
        as Ht.
      destruct (fsverity_add_data_blocks K inode ctx data_folio len offset s)
        as [[[[ok ctx']|] s'] evs] eqn:E; [|now contradiction Ht].
      exists ok, ctx'. split; [reflexivity|].
      apply add_data_blocks_separately in E; [|assumption..].
      cbv zeta in E. destruct E as [_ E]. rewrite Hv in E.
      fold all in E. destruct ok; [|exact E].
      destruct E as (done & Hdone & Hres & _). now exists done.
Qed.

(** X20 (teardown of the queue): fsverity_clear_pending_blocks unmaps the
    views of the pending blocks, the one mapped last first, as kmap_local
    requires, and nothing else; it leaves the queue empty, the readahead
    setting and the memoization state as they were, and a second call does
    nothing. *)
Theorem clear_pending_blocks_releases (ctx : fsverity_verification_context)
    (s : vstate) (st : list resource) :
  let r := fsverity_clear_pending_blocks ctx s in
  state_of r = s /\
  num_pending (result_of r) = 0 /\
  max_ra_pages (result_of r) = max_ra_pages ctx /\
  log_of r = map EvKunmap (rev (map data_view (pending_blocks ctx))) /\
  held_after (log_of r) (pending_resources (pending_blocks ctx) ++ st)
    = Some st /\
  fsverity_clear_pending_blocks (result_of r) s = (result_of r, s, []).
Proof.
  intros r. subst r. rewrite clear_pending_run.
  cbn [state_of result_of log_of fst snd].
  split; [reflexivity|]. split; [reflexivity|]. split; [reflexivity|].
  split; [now rewrite map_rev|]. split.
  - unfold pending_resources. apply kunmap_all_held.
  - rewrite clear_pending_run. reflexivity.
Qed.

(** *** The work of a walk *)

Lemma descend_work (dblock : fsverity_pending_block) (held : list hblock)
    (level : Z) (want : bytes) (s : vstate)
    (ok : bool) (s' : vstate) (evs : list event) :
  descend inode dblock held level want s = (ok, s', evs) ->
  (count_hash_block evs <= length held)%nat.
Proof.
  revert level want s ok s' evs; induction held as [|hb held IH];
    intros level want s ok s' evs H.
  - cbn [descend] in H.
    destruct (negb _); injection H as _ _ <-; cbn; lia.
  - cbn [descend] in H. unfold bind at 1 in H.
    unfold fsverity_hash_block at 1 in H.
    unfold bind at 1, emit, ret in H. cbn [app] in H.
    fold vi in H. fold params in H.
    pose proof (release_quiet (hb :: held) s) as Hl. cbv zeta in Hl.
    destruct Hl as (_ & _ & _ & L4 & _).
    destruct (tfm (hash_alg params) _) as [real|].
    + destruct (negb (memcmp_eq want real _)).
      * unfold bind, fsverity_err, emit in H.
        destruct (release_hblocks (hb :: held) s) as [[u s1] e1].
        cbn [log_of snd] in L4.
        injection H as _ _ <-. log_simpl. rewrite L4. cbn [length]. lia.
      * unfold bind at 1 in H.
        pose proof (memo_events_quiet _
                      (mark_verified_memo_events (hb_page hb) (hb_index hb) s))
          as (_ & _ & _ & M4 & _).
        destruct (mark_verified (hb_page hb) (hb_index hb) s) as [[u s1] e1].
        cbn [log_of snd] in M4.
        unfold bind, kunmap_local, put_page, emit in H.
        destruct (descend inode dblock held _ _ s1) as [[ok2 s2] e2] eqn:E2.
        apply IH in E2.
        injection H as _ _ <-. log_simpl. rewrite M4. cbn [length]. lia.
    + unfold bind in H.
      destruct (release_hblocks (hb :: held) s) as [[u s1] e1].
      cbn [log_of snd] in L4.
      injection H as _ _ <-. log_simpl. rewrite L4. cbn [length]. lia.
Qed.

Lemma ascend_work (max_ra : Z) (n : nat) (level hidx : Z)
    (held : list hblock) (s : vstate)
    (a : ascent) (s' : vstate) (evs : list event) :
  ascend K inode max_ra n level hidx held s = (a, s', evs) ->
  (length (pages_read evs) <= n)%nat /\
  (length (ascent_held a) <= length held + length (pages_read evs))%nat.
Proof.
  revert level hidx held s a s' evs; induction n as [|n IH];
    intros level hidx held s a s' evs H.
  - injection H as <- _ <-. cbn. lia.
  - cbn [ascend] in H. fold vi in H. fold params in H.
    set (hblock_idx := u64 (nth (Z.to_nat level) (level_start params) 0 +
                            Z.shiftr hidx (log_arity params))) in *.
    set (hpage_idx := Z.shiftr hblock_idx (log_blocks_per_page params)) in *.
    set (ra := if level =? 0 then _ else 0) in *.
    unfold bind at 1 in H. unfold call_read_merkle_tree_page at 1 in H.
    destruct (read_merkle_tree_page inode hpage_idx ra) as [page_bytes|].
    + unfold bind at 1 in H. unfold kmap_local at 1, emit in H.
      unfold bind at 1 in H.
      pose proof (memo_events_quiet _
                    (is_verified_memo_events hpage_idx hblock_idx s))
        as (_ & M2 & _).
      destruct (is_hash_block_verified inode hpage_idx hblock_idx s)
        as [[v s1] e1].
      cbn [log_of snd] in M2.
      destruct v.
      * unfold bind, kunmap_local, put_page, emit, ret in H.
        injection H as <- _ <-. cbn [ascent_held]. log_simpl. rewrite M2.
        cbn [length app]. lia.
      * match type of H with
        | context [ascend _ _ _ _ _ _ (?h :: held) s1] => set (hb := h) in H
        end.
        destruct (ascend K inode max_ra n (level + 1)
                    (Z.shiftr hidx (log_arity params)) (hb :: held) s1)
          as [[a2 s2] e2] eqn:E2.
        apply IH in E2. destruct E2 as [Hn Hheld].
        injection H as <- _ <-. log_simpl. rewrite M2.
        unfold pages_read in Hn, Hheld. cbn [length app] in Hheld |- *. lia.
    + unfold bind, fsverity_err, emit, ret in H.
      injection H as <- _ <-. cbn [ascent_held]. log_simpl. lia.
Qed.

(** X21 (the work of a walk is bounded by the height of the tree): a walk
    reads at most num_levels tree pages, one per level, and hashes no more
    tree blocks than it read pages; a block at or past the end of the file
    costs neither. *)
Theorem walk_work_bounded (dblock : fsverity_pending_block) (max_ra : Z)
    (s : vstate) :
  let evs := log_of (verify_data_block K inode dblock max_ra s) in
  (length (pages_read evs) <= Z.to_nat (num_levels params))%nat /\
  (count_hash_block evs <= length (pages_read evs))%nat /\
  (u64 (i_size inode) <= pos dblock ->
   pages_read evs = [] /\ count_hash_block evs = 0%nat).
Proof.
  intros evs. subst evs.
  destruct (verify_data_block K inode dblock max_ra s) as [[ok s'] evs] eqn:H.
  cbn [log_of snd].
  unfold verify_data_block in H. fold vi in H. fold params in H.
  destruct (Z.leb_spec (u64 (i_size inode)) (pos dblock)) as [Hle|Hgt].
  - destruct (memchr_inv0 _ _); injection H as _ _ <-; cbn;
      repeat split; lia.
  - unfold bind in H.
    destruct (ascend K inode max_ra _ 0 _ [] s) as [[a s1] e1] eqn:Ea.
    pose proof (ascend_log _ _ _ _ _ _ _ _ _ (Z.le_refl 0) Ea) as (Hh & _ & _).
    apply ascend_work in Ea. destruct Ea as [Hn Hheld].
    cbn [length] in Hheld.
    destruct a as [level held | level want held]; cbn [ascent_held] in Hheld.
    + pose proof (release_quiet held s1) as Hl. cbv zeta in Hl.
      destruct (release_hblocks held s1) as [[u s2] e2].
      cbn [log_of snd] in Hl. destruct Hl as (_ & L2 & _ & L4 & _).
      injection H as _ _ <-.
      rewrite app_nil_r, pages_read_app, count_hash_block_app, L2, L4, Hh,
        app_nil_r.
      split; [exact Hn|]. split; lia.
    + destruct (descend inode dblock held level want s1) as [[ok2 s2] e2] eqn:Ed.
      pose proof (descend_quiet _ _ _ _ _ _ _ _ Ed) as (_ & D2 & _ & _).
      apply descend_work in Ed.
      injection H as _ _ <-.
      rewrite pages_read_app, count_hash_block_app, D2, Hh, app_nil_r.
      split; [exact Hn|]. split; lia.
Qed.

Lemma ascend_leaf (max_ra : Z) (n : nat) (level hidx : Z)
    (held : list hblock) (s : vstate)
    (a : ascent) (s' : vstate) (evs : list event) :
  pages_ok inode ->
  ascend K inode max_ra n level hidx held s = (a, s', evs) ->
  incl held (ascent_held a) /\
  (n <> O ->
   match a with
   | AscDescend _ _ held' =>
       hblock_verified inode s' (path_hblock_idx inode level hidx) = true \/
       exists hb, In hb held' /\
                  hb_index hb = path_hblock_idx inode level hidx
   | AscError _ _ => True
   end).
Proof.
  intros Hok. revert level hidx held s a s' evs; induction n as [|n IH];
    intros level hidx held s a s' evs H.
  - injection H as <- _ _. split; [apply incl_refl | congruence].
  - cbn [ascend] in H. unfold path_hblock_idx.
    fold vi in H |- *. fold params in H |- *.
    set (hblock_idx := u64 (nth (Z.to_nat level) (level_start params) 0 +
                            Z.shiftr hidx (log_arity params))) in *.
    set (hpage_idx := Z.shiftr hblock_idx (log_blocks_per_page params)) in *.
    set (ra := if level =? 0 then _ else 0) in *.
    unfold bind at 1 in H. unfold call_read_merkle_tree_page at 1 in H.
    destruct (read_merkle_tree_page inode hpage_idx ra) as [page_bytes|].
    + unfold bind at 1 in H. unfold kmap_local at 1, emit in H.
      unfold bind at 1 in H.
      pose proof (is_verified_spec hblock_idx s Hok (u64_range _)) as Hspec.
      cbv zeta in Hspec. fold hpage_idx in Hspec.
      destruct (is_hash_block_verified inode hpage_idx hblock_idx s)
        as [[v s1] e1].
      unfold result_of, state_of in Hspec. cbn [fst snd] in Hspec.
      destruct Hspec as (Hres & Hsame & _).
      destruct v.
      * unfold bind, kunmap_local, put_page, emit, ret in H.
        injection H as <- <- _. rewrite (Hsame eq_refl).
        split; [apply incl_refl|]. intros _. left. now symmetry.
      * match type of H with
        | context [ascend _ _ _ _ _ _ (?h :: held) s1] => set (hb := h) in H
        end.
        destruct (ascend K inode max_ra n (level + 1)
                    (Z.shiftr hidx (log_arity params)) (hb :: held) s1)
          as [[a2 s2] e2] eqn:E2.
        apply IH in E2. destruct E2 as [Hincl _].
        injection H as <- <- _.
        split; [intros x Hx; apply Hincl; now right|].
        intros _. destruct a2 as [l h | l w h]; [exact I|].
        right. exists hb. split; [apply Hincl; now left | reflexivity].
    + unfold bind, fsverity_err, emit, ret in H.
      injection H as <- _ _. split; [apply incl_refl | intros _; exact I].
Qed.

(** X22 (an accepted block leaves its leaf hash block verified): when the
    verification of a block within the file of a tree with at least one
    level returns true, the leaf hash block that holds the digest of the
    block is marked verified afterwards, whatever the memoization state
    was, so that later verifications under the same hash block stop at
    it. *)
Theorem accepted_block_memoizes_leaf (dblock : fsverity_pending_block)
    (max_ra : Z) (s : vstate) :
  pages_ok inode ->
  0 <= i_size inode < 2 ^ 63 -> pos dblock < i_size inode ->
  1 <= num_levels params ->
  let r := verify_data_block K inode dblock max_ra s in
  result_of r = true ->
  hblock_verified inode (state_of r)
    (path_hblock_idx inode 0 (Z.shiftr (pos dblock) (log_blocksize params)))
  = true.
Proof.
  intros Hok Hsz Hpos Hn r. subst r.
  unfold verify_data_block. fold vi. fold params.
  rewrite u64_small by lia.
  replace (i_size inode <=? pos dblock) with false
    by (symmetry; apply Z.leb_gt; lia).
  rewrite result_bind, state_bind.
  set (hidx := Z.shiftr (pos dblock) (log_blocksize params)).
  destruct (ascend K inode max_ra (Z.to_nat (num_levels params)) 0 hidx [] s)
    as [[a s1] e1] eqn:Ea.
  pose proof (ascend_leaf _ _ _ _ _ _ _ _ _ Hok Ea) as [_ Hleaf].
  apply ascend_marks in Ea; [|assumption].
  destruct Ea as (_ & _ & Hheld). specialize (Hheld (Forall_nil _)).
  cbn [result_of state_of fst snd].
  destruct a as [level held | level want held]; cbn [ascent_held] in Hheld.
  - rewrite result_bind. discriminate.
  - rewrite descend_result. intros Hres.
    destruct (descend_state dblock held level want s1 Hheld)
      as (_ & _ & Hkeep & Hmarks).
    assert (Hchain : chain_digest inode held want <> None)
      by (destruct (chain_digest inode held want); congruence).
    destruct Hleaf as [Hv|(hb & Hin & Hidx)]; [lia | |].
    + now apply Hkeep.
    + rewrite <- Hidx. now apply Hmarks.
Qed.

(** *** Verdicts and diagnostics *)

Lemma descend_diag (dblock : fsverity_pending_block) (held : list hblock)
    (level : Z) (want : bytes) (s : vstate)
    (ok : bool) (s' : vstate) (evs : list event) :
  (forall body, tfm (hash_alg params) body <> None) ->
  descend inode dblock held level want s = (ok, s', evs) ->
  ok = false -> no_diag evs = false.
Proof.
  intros Htotal.
  revert level want s ok s' evs; induction held as [|hb held IH];
    intros level want s ok s' evs H.
  - cbn [descend] in H.
    destruct (negb _); injection H as <- _ <-; [reflexivity | discriminate].
  - cbn [descend] in H. unfold bind at 1 in H.
    unfold fsverity_hash_block at 1 in H.
    unfold bind at 1, emit, ret in H. cbn [app] in H.
    fold vi in H. fold params in H.
    destruct (tfm (hash_alg params) _) as [real|] eqn:Eh;
      [|now contradiction (Htotal _ Eh)].
    destruct (negb (memcmp_eq want real _)).
    + unfold bind, fsverity_err, emit in H.
      destruct (release_hblocks (hb :: held) s) as [[u s1] e1].
      injection H as _ _ <-. reflexivity.
    + unfold bind at 1 in H.
      destruct (mark_verified (hb_page hb) (hb_index hb) s) as [[u s1] e1].
      unfold bind, kunmap_local, put_page, emit in H.
      destruct (descend inode dblock held _ _ s1) as [[ok2 s2] e2] eqn:E2.
      pose proof (IH _ _ _ _ _ _ E2) as IH2.
      injection H as <- _ <-. intros Hok. log_simpl.
      unfold no_diag in IH2. rewrite (IH2 Hok). now rewrite !andb_false_r.
Qed.

Lemma ascend_error_diag (max_ra : Z) (n : nat) (level hidx : Z)
    (held : list hblock) (s : vstate)
    (l : Z) (held' : list hblock) (s' : vstate) (evs : list event) :
  ascend K inode max_ra n level hidx held s = (AscError l held', s', evs) ->
  no_diag evs = false.
Proof.
  revert level hidx held s s' evs; induction n as [|n IH];
    intros level hidx held s s' evs H; [discriminate|].
  cbn [ascend] in H. fold vi in H. fold params in H.
  set (hblock_idx := u64 (nth (Z.to_nat level) (level_start params) 0 +
                          Z.shiftr hidx (log_arity params))) in *.
  set (hpage_idx := Z.shiftr hblock_idx (log_blocks_per_page params)) in *.
  set (ra := if level =? 0 then _ else 0) in *.
  unfold bind at 1 in H. unfold call_read_merkle_tree_page at 1 in H.
  destruct (read_merkle_tree_page inode hpage_idx ra) as [page_bytes|].
  - unfold bind at 1 in H. unfold kmap_local at 1, emit in H.
    unfold bind at 1 in H.
    destruct (is_hash_block_verified inode hpage_idx hblock_idx s)
      as [[v s1] e1].
    destruct v.
    + unfold bind, kunmap_local, put_page, emit, ret in H. discriminate.
    + match type of H with
      | context [ascend _ _ _ _ _ _ (?h :: held) s1] => set (hb := h) in H
      end.
      destruct (ascend K inode max_ra n (level + 1)
                  (Z.shiftr hidx (log_arity params)) (hb :: held) s1)
        as [[a2 s2] e2] eqn:E2.
      injection H as -> _ <-. apply IH in E2.
      log_simpl. unfold no_diag in E2. rewrite E2. apply andb_false_r.
  - unfold bind, fsverity_err, emit, ret in H.
    injection H as _ _ _ <-. reflexivity.
Qed.

(** The verdict of a walk and its diagnostics. *)
Lemma walk_diag (dblock : fsverity_pending_block) (max_ra : Z) (s : vstate) :
  let r := verify_data_block K inode dblock max_ra s in
  (result_of r = true -> no_diag (log_of r) = true) /\
  ((forall body, tfm (hash_alg params) body <> None) ->
   result_of r = false -> no_diag (log_of r) = false).
Proof.
  intros r. subst r.
  destruct (verify_data_block K inode dblock max_ra s) as [[ok s'] evs] eqn:H.
  cbn [result_of log_of fst snd]. split.
  { apply walk_log in H. tauto. }
  intros Htotal.
  unfold verify_data_block in H. fold vi in H. fold params in H.
  destruct (u64 (i_size inode) <=? pos dblock).
  - destruct (memchr_inv0 _ _); injection H as <- _ <-;
      [reflexivity | discriminate].
  - unfold bind in H.
    destruct (ascend K inode max_ra _ 0 _ [] s) as [[a s1] e1] eqn:Ea.
    destruct a as [level held | level want held].
    + apply ascend_error_diag in Ea.
      destruct (release_hblocks held s1) as [[u s2] e2].
      injection H as _ _ <-. intros _.
      now rewrite no_diag_app, Ea.
    + destruct (descend inode dblock held level want s1) as [[ok2 s2] e2] eqn:Ed.
      pose proof (descend_diag _ _ _ _ _ _ _ _ Htotal Ed) as Hd.
      injection H as <- _ <-. intros Hok.
      rewrite no_diag_app, (Hd Hok). apply andb_false_r.
Qed.

(** X23 (no silent rejection): with a crypto layer that does not fail,
    whenever verify_data_block returns false it has logged a diagnostic:
    the one of the past-EOF check, of the failed read or of the corrupted
    hash. *)
Theorem rejection_is_diagnosed (dblock : fsverity_pending_block)
    (max_ra : Z) (s : vstate) :
  (forall body, tfm (hash_alg params) body <> None) ->
  let r := verify_data_block K inode dblock max_ra s in
  result_of r = false ->
  exists d, In (EvErr d) (log_of r).
Proof.
  intros Htotal r Hres.
  destruct (walk_diag dblock max_ra s) as [_ Hd]. fold r in Hd.
  specialize (Hd Htotal Hres).
  pose proof (walk_events dblock max_ra s) as Hw. fold r in Hw.
  revert Hd Hw. unfold no_diag.
  induction (log_of r) as [|e evs IH]; [discriminate|].
  cbn [forallb]. intros Hd Hw.
  apply andb_true_iff in Hw. destruct Hw as [He Hw].
  destruct (is_diag e) eqn:Ediag.
  - destruct e; try discriminate.
    + exists d. now left.
  - cbn [negb andb] in Hd. destruct (IH Hd Hw) as [d Hin].
    exists d. now right.
Qed.

Lemma no_diag_kunmap (vs : list view) : no_diag (map EvKunmap vs) = true.
Proof. induction vs as [|v vs IH]; [reflexivity | exact IH]. Qed.

Lemma no_diag_store (i : Z) : no_diag (store_log K i) = true.
Proof.
  unfold store_log. destruct (i <? FS_VERITY_MAX_PENDING_DATA_BLOCKS K);
    reflexivity.
Qed.

Lemma has_err_app (e1 e2 : list event) :
  has_err (e1 ++ e2) = (has_err e1 || has_err e2)%bool.
Proof. apply existsb_app. Qed.

Lemma has_err_In (evs : list event) :
  has_err evs = true -> exists d, In (EvErr d) evs.
Proof.
  unfold has_err. rewrite existsb_exists. intros (e & Hin & He).
  destruct e; try discriminate. now exists d.
Qed.

(** Among the events of walks, a diagnostic is a call of fsverity_err. *)
Lemma walk_diag_err (evs : list event) :
  forallb is_walk_event evs = true -> no_diag evs = false ->
  has_err evs = true.
Proof.
  unfold no_diag, has_err. induction evs as [|e evs IH]; [discriminate|].
  cbn [forallb existsb]. rewrite andb_true_iff. intros [He Hevs].
  destruct e; cbn [is_diag negb andb orb]; try (now apply IH);
    try reflexivity; discriminate.
Qed.

Lemma verify_each_diag (max_ra : Z) (bs : list fsverity_pending_block)
    (s : vstate) :
  let r := verify_each K inode max_ra bs s in
  (result_of r = true -> no_diag (log_of r) = true) /\
  ((forall body, tfm (hash_alg params) body <> None) ->
   result_of r = false -> no_diag (log_of r) = false).
Proof.
  revert s; induction bs as [|b bs IH]; intros s; cbv zeta.
  - split; [reflexivity | discriminate].
  - cbn [verify_each]. unfold bind.
    destruct (walk_diag b max_ra s) as [Ht Hf].
    destruct (verify_data_block K inode b max_ra s) as [[ok s1] e1].
    cbn [result_of log_of fst snd] in Ht, Hf.
    destruct ok.
    + destruct (IH s1) as [It If].
      destruct (verify_each K inode max_ra bs s1) as [[ok2 s2] e2].
      cbn [result_of log_of fst snd] in *.
      rewrite no_diag_app, (Ht eq_refl). cbn [andb]. split; assumption.
    + cbn [ret result_of log_of fst snd]. rewrite app_nil_r.
      split; [discriminate | intros Htotal _; now apply Hf].
Qed.

(** A flush that accepts has logged no diagnostic; one that rejects has
    called fsverity_err, provided the block hash does not fail. *)
Lemma flush_diag (ctx : fsverity_verification_context) (s : vstate) :
  let r := fsverity_verify_pending_blocks K inode ctx s in
  (fst (result_of r) = true -> no_diag (log_of r) = true) /\
  ((forall body, tfm (hash_alg params) body <> None) ->
   fst (result_of r) = false -> has_err (log_of r) = true).
Proof.
  intros r. subst r.
  destruct (pending_blocks ctx) as [|b0 bs0] eqn:Ep.
  { rewrite (flush_empty ctx s Ep). split; [reflexivity | discriminate]. }
  assert (Hne : pending_blocks ctx <> []) by (rewrite Ep; discriminate).
  clear Ep.
  destruct (Z.eq_dec (shash_setup_err (hash_alg params)) 0) as [He|He].
  2:{ rewrite (flush_setup_err ctx s Hne He).
      split; [discriminate | reflexivity]. }
  destruct (crypto_shash_finup_mb inode (map data (pending_blocks ctx)))
    as [hs|] eqn:Ef.
  2:{ rewrite (flush_finup_err ctx s Hne He Ef).
      split; [discriminate | reflexivity]. }
  rewrite (flush_walk ctx s hs Hne He Ef).
  destruct (verify_each_diag (max_ra_pages ctx)
              (store_real_hashes (pending_blocks ctx) hs) s) as [Ht Hf].
  pose proof (verify_each_walk_events (max_ra_pages ctx)
                (store_real_hashes (pending_blocks ctx) hs) s) as Hw.
  destruct (verify_each K inode (max_ra_pages ctx) _ s) as [[ok s1] e1].
  cbn [result_of log_of fst snd] in *.
  destruct ok; cbn [result_of log_of fst snd].
  - split; [intros _ | discriminate].
    change (no_diag (e1 ++ map EvKunmap
                             (map data_view (rev (pending_blocks ctx)))) = true).
    now rewrite no_diag_app, (Ht eq_refl), no_diag_kunmap.
  - split; [discriminate | intros Htotal _].
    change (has_err e1 = true). apply walk_diag_err; [exact Hw | now apply Hf].
Qed.

Lemma add_loop_diag (fuel : nat) (data_folio : folio) (fpos : Z)
    (ctx : fsverity_verification_context) (len offset : Z) (s : vstate)
    (ok : bool) (ctx' : fsverity_verification_context) (s' : vstate)
    (evs : list event) :
  add_data_blocks_loop K inode fuel data_folio fpos ctx len offset s
    = (Some (ok, ctx'), s', evs) ->
  (ok = true -> no_diag evs = true) /\
  ((forall body, tfm (hash_alg params) body <> None) ->
   ok = false -> has_err evs = true).
Proof.
  revert ctx len offset s ok ctx' s' evs; induction fuel as [|fuel IH];
    intros ctx len offset s ok ctx' s' evs H; [discriminate|].
  cbn [add_data_blocks_loop] in H. fold vi in H. fold params in H.
  match type of H with
  | context [pending_blocks ctx ++ [?blk]] => set (b := blk) in H
  end.
  set (ctx1 := {| max_ra_pages := max_ra_pages ctx;
                  pending_blocks := pending_blocks ctx ++ [b] |}) in H.
  unfold bind at 1 in H. unfold kmap_local at 1, emit in H.
  unfold bind at 1 in H. rewrite store_pending_run in H.
  unfold bind at 1 in H.
  assert (Hf : exists ok2 ctx2 s2 e2,
             (if num_pending ctx1 =? mb_max_msgs (hash_alg params)
              then fsverity_verify_pending_blocks K inode ctx1
              else ret (true, ctx1)) s = ((ok2, ctx2), s2, e2) /\
             (ok2 = true -> no_diag e2 = true) /\
             ((forall body, tfm (hash_alg params) body <> None) ->
              ok2 = false -> has_err e2 = true)).
  { destruct (num_pending ctx1 =? mb_max_msgs (hash_alg params)).
    - pose proof (flush_diag ctx1 s) as Hd. cbv zeta in Hd.
      destruct (fsverity_verify_pending_blocks K inode ctx1 s)
        as [[[ok2 ctx2] s2] e2].
      cbn [result_of log_of fst snd] in Hd.
      exists ok2, ctx2, s2, e2. split; [reflexivity | exact Hd].
    - exists true, ctx1, s, []. split; [reflexivity|].
      split; [reflexivity | discriminate]. }
  destruct Hf as (ok2 & ctx2 & s2 & e2 & Hrun & Ht & Hfalse).
  rewrite Hrun in H.
  set (v := EvKmap (VFolio (folio_index data_folio) offset)) in *.
  set (sl := store_log K (num_pending ctx)) in *.
  assert (Hsl : no_diag sl = true) by apply no_diag_store.
  destruct ok2; cbn [negb] in H.
  - destruct (u64 (len - block_size params) =? 0).
    + injection H as <- _ _ <-. rewrite app_nil_r.
      split; [intros _ | discriminate].
      change (no_diag ([v] ++ sl ++ e2) = true).
      now rewrite !no_diag_app, Hsl, (Ht eq_refl).
    + destruct (add_data_blocks_loop K inode fuel data_folio fpos ctx2 _ _ s2)
        as [[r3 s3] e3] eqn:E3.
      injection H as -> _ <-.
      apply IH in E3. destruct E3 as [It If].
      split.
      * intros Hok. change (no_diag ([v] ++ (sl ++ (e2 ++ e3))) = true).
        rewrite !no_diag_app, Hsl, (Ht eq_refl), (It Hok).
        reflexivity.
      * intros Htotal Hok.
        change (has_err ([v] ++ (sl ++ (e2 ++ e3))) = true).
        rewrite !has_err_app, (If Htotal Hok).
        now rewrite !orb_true_r.
  - injection H as <- _ _ <-. rewrite app_nil_r.
    split; [discriminate | intros Htotal _].
    change (has_err ([v] ++ sl ++ e2) = true).
    rewrite !has_err_app, (Hfalse Htotal eq_refl). now rewrite !orb_true_r.
Qed.

Lemma add_data_blocks_diag (ctx : fsverity_verification_context)
    (data_folio : folio) (len offset : Z) (s : vstate)
    (ok : bool) (ctx' : fsverity_verification_context) (s' : vstate)
    (evs : list event) :
  fsverity_add_data_blocks K inode ctx data_folio len offset s
    = (Some (ok, ctx'), s', evs) ->
  (ok = true -> no_diag evs = true) /\
  ((forall body, tfm (hash_alg params) body <> None) ->
   ok = false -> range_valid inode data_folio len offset = true ->
   has_err evs = true).
Proof.
  destruct (add_data_blocks_cases ctx data_folio len offset s)
    as [(Hv & site & sw & ew & -> & _ & _) | (Hv & ->)].
  - intros [= <- _ _ _]. split; [discriminate | congruence].
  - intros H. apply add_loop_diag in H. destruct H as [Ht Hf].
    split; [exact Ht | intros Htotal Hok _; now apply Hf].
Qed.

Lemma add_bio_folios_diag (segs : list (folio * Z * Z))
    (ctx : fsverity_verification_context) (s : vstate)
    (ok : bool) (ctx' : fsverity_verification_context) (s' : vstate)
    (evs : list event) :
  add_bio_folios K inode ctx segs s = (Some (ok, ctx'), s', evs) ->
  (ok = true -> no_diag evs = true) /\
  ((forall body, tfm (hash_alg params) body <> None) ->
   ok = false -> bio_blocks K inode segs <> None ->
   has_err evs = true).
Proof.
  revert ctx s ok ctx' s' evs; induction segs as [|[[f len] off] segs IH];
    intros ctx s ok ctx' s' evs H.
  - injection H as <- _ _ <-. split; [reflexivity | discriminate].
  - cbn [add_bio_folios] in H. unfold bind in H.
    destruct (fsverity_add_data_blocks K inode ctx f len off s)
      as [[[[ok1 ctx1]|] s1] e1] eqn:E1; [|discriminate].
    apply add_data_blocks_diag in E1. destruct E1 as [Ht Hf].
    cbn [bio_blocks].
    destruct ok1.
    + destruct (add_bio_folios K inode ctx1 segs s1) as [[r2 s2] e2] eqn:E2.
      injection H as -> _ <-. apply IH in E2. destruct E2 as [It If].
      split.
      * intros Hok. now rewrite no_diag_app, (Ht eq_refl), (It Hok).
      * intros Htotal Hok Hsegs. rewrite has_err_app, If; try assumption.
        { apply orb_true_r. }
        destruct (range_valid inode f len off); [|congruence].
        destruct (bio_blocks K inode segs); [discriminate | exact Hsegs].
    + injection H as <- _ _ <-. rewrite app_nil_r.
      split; [discriminate | intros Htotal _ Hsegs].
      apply Hf; [assumption | reflexivity|].
      destruct (range_valid inode f len off); [reflexivity | congruence].
Qed.

(** X24 (the entry points report what they reject): when
    fsverity_verify_blocks returns true, or fsverity_verify_bio leaves the
    bio untouched after a successful verification, neither a diagnostic
    nor a warning has been logged; and with a crypto layer whose block
    hash does not fail, whenever they reject ranges that pass the checks
    of fsverity_add_data_blocks, fsverity_err has been called.  (A range
    that fails the checks is refused at a WARN_ON_ONCE, which warns once.) *)
Theorem entry_points_diagnose :
  (forall data_folio len offset s,
     let r := fsverity_verify_blocks K inode data_folio len offset s in
     (result_of r = Some true -> no_diag (log_of r) = true) /\
     ((forall body, tfm (hash_alg params) body <> None) ->
      result_of r = Some false ->
      range_valid inode data_folio len offset = true ->
      exists d, In (EvErr d) (log_of r))) /\
  (forall bi s,
     let r := fsverity_verify_bio K inode bi s in
     (bio_verified K inode bi s = true -> no_diag (log_of r) = true) /\
     ((forall body, tfm (hash_alg params) body <> None) ->
      result_of r <> None -> bio_verified K inode bi s = false ->
      bio_blocks K inode (bi_segments bi) <> None ->
      exists d, In (EvErr d) (log_of r))).
Proof.
  split.
  - intros data_folio len offset s r. subst r.
    unfold fsverity_verify_blocks, bind.
    destruct (fsverity_add_data_blocks K inode _ data_folio len offset s)
      as [[[[ok1 ctx1]|] s1] e1] eqn:E1.
    2:{ cbn [ret result_of log_of fst snd]. split; discriminate. }
    apply add_data_blocks_diag in E1. destruct E1 as [Ht Hf].
    destruct ok1.
    + pose proof (flush_diag ctx1 s1) as Hd. cbv zeta in Hd.
      destruct (fsverity_verify_pending_blocks K inode ctx1 s1)
        as [[[ok2 ctx2] s2] e2].
      cbn [result_of log_of fst snd] in Hd. destruct Hd as [Ft Ff].
      destruct ok2.
      * cbn [ret result_of log_of fst snd]. rewrite app_nil_r.
        split; [intros _ | discriminate].
        now rewrite no_diag_app, (Ht eq_refl), (Ft eq_refl).
      * rewrite clear_pending_run. cbn [ret result_of log_of fst snd].
        rewrite app_nil_r. split; [discriminate | intros Htotal _ _].
        apply has_err_In.
        rewrite !has_err_app, (Ff Htotal eq_refl). now rewrite !orb_true_r.
    + rewrite clear_pending_run. cbn [ret result_of log_of fst snd].
      rewrite app_nil_r. split; [discriminate | intros Htotal _ Hv].
      apply has_err_In. now rewrite has_err_app, (Hf Htotal eq_refl Hv).
  - intros bi s r. subst r.
    unfold fsverity_verify_bio, bio_verified, bind.
    set (ctx0 := fsverity_init_verification_context _).
    destruct (add_bio_folios K inode ctx0 (bi_segments bi) s)
      as [[[[ok1 ctx1]|] s1] e1] eqn:E1.
    2:{ cbn [ret result_of state_of log_of fst snd].
        split; [discriminate | intros _ H; now contradiction H]. }
    apply add_bio_folios_diag in E1. destruct E1 as [Ht Hf].
    cbn [result_of state_of fst snd].
    destruct ok1.
    + pose proof (flush_diag ctx1 s1) as Hd. cbv zeta in Hd.
      destruct (fsverity_verify_pending_blocks K inode ctx1 s1)
        as [[[ok2 ctx2] s2] e2].
      cbn [result_of log_of fst snd] in Hd |- *. destruct Hd as [Ft Ff].
      destruct ok2.
      * cbn [ret log_of snd]. rewrite app_nil_r.
        split; [intros _ | discriminate].
        now rewrite no_diag_app, (Ht eq_refl), (Ft eq_refl).
      * rewrite bio_ioerr_run. cbn [log_of snd].
        split; [discriminate | intros Htotal _ _ _].
        apply has_err_In.
        rewrite !has_err_app, (Ff Htotal eq_refl). now rewrite !orb_true_r.
    + rewrite bio_ioerr_run. cbn [log_of snd].
      split; [discriminate | intros Htotal _ _ Hsegs].
      apply has_err_In. now rewrite has_err_app, (Hf Htotal eq_refl Hsegs).
Qed.

End Properties.

(** Two computations that agree step by step agree. *)
Lemma bind_ext {A B} (m1 m2 : M A) (k1 k2 : A -> M B) (s : vstate) :
  m1 s = m2 s ->
  (forall a s1, k1 a s1 = k2 a s1) ->
  bind m1 k1 s = bind m2 k2 s.
Proof.
  intros Hm Hk. unfold bind. rewrite Hm.
  destruct (m2 s) as [[a s1] e1]. now rewrite Hk.
Qed.

(** ** Failing closed

    A walk on a device that fails to read some tree page is, as long as no
    read of the walk itself fails, the walk on a device that serves every
    page of the tree. *)

Section Failing_closed.

Variable K : kernel.
Variable inode : inode_t.
Variable T : Z -> bytes.

Let vi := i_verity_info inode.
Let params := tree_params vi.
Let inode' := served_by inode T.

Hypothesis Hserves : serves inode T.

Lemma descend_served (dblock : fsverity_pending_block) (held : list hblock)
    (level : Z) (want : bytes) (s : vstate) :
  descend inode' dblock held level want s
    = descend inode dblock held level want s.
Proof.
  revert level want s; induction held as [|hb held IH]; intros level want s.
  - reflexivity.
  - cbn [descend]. apply bind_ext; [reflexivity|]. intros r s1.
    destruct r as [real|]; [|reflexivity].
    change (digest_size (tree_params (i_verity_info inode')))
      with (digest_size (tree_params (i_verity_info inode))).
    destruct (negb (memcmp_eq want real _)); [reflexivity|].
    apply bind_ext; [reflexivity|]. intros u1 s2.
    apply bind_ext; [reflexivity|]. intros u2 s3.
    apply bind_ext; [reflexivity|]. intros u3 s4.
    apply IH.
Qed.

Lemma ascend_served (max_ra : Z) (n : nat) (level hidx : Z)
    (held : list hblock) (s : vstate)
    (a : ascent) (s' : vstate) (evs : list event) :
  ascend K inode max_ra n level hidx held s = (a, s', evs) ->
  read_failed evs = false ->
  ascend K inode' max_ra n level hidx held s = (a, s', evs).
Proof.
  revert level hidx held s a s' evs; induction n as [|n IH];
    intros level hidx held s a s' evs H Hrd; [exact H|].
  cbn [ascend] in H |- *.
  change (tree_params (i_verity_info inode')) with params.
  fold vi in H. fold params in H.
  set (hblock_idx := u64 (nth (Z.to_nat level) (level_start params) 0 +
                          Z.shiftr hidx (log_arity params))) in *.
  set (hpage_idx := Z.shiftr hblock_idx (log_blocks_per_page params)) in *.
  set (ra := if level =? 0 then _ else 0) in *.
  unfold bind at 1 in H. unfold call_read_merkle_tree_page at 1 in H.
  unfold bind at 1. unfold call_read_merkle_tree_page at 1.
  change (read_merkle_tree_page inode' hpage_idx ra) with (Some (T hpage_idx)).
  destruct (read_merkle_tree_page inode hpage_idx ra) as [page_bytes|] eqn:Er.
  - rewrite (Hserves _ _ _ Er) in H.
    unfold bind at 1 in H. unfold kmap_local at 1, emit in H.
    unfold bind at 1 in H.
    unfold bind at 1. unfold kmap_local at 1, emit.
    unfold bind at 1.
    change (is_hash_block_verified inode' hpage_idx hblock_idx s)
      with (is_hash_block_verified inode hpage_idx hblock_idx s).
    destruct (is_hash_block_verified inode hpage_idx hblock_idx s)
      as [[v s1] e1].
    destruct v.
    + exact H.
    + match type of H with
      | context [ascend _ _ _ _ _ _ (?h :: held) s1] => set (hb := h) in *
      end.
      destruct (ascend K inode max_ra n (level + 1)
                  (Z.shiftr hidx (log_arity params)) (hb :: held) s1)
        as [[a2 s2] e2] eqn:E2.
      injection H as <- <- <-.
      assert (Hrd2 : read_failed e2 = false).
      { revert Hrd. unfold read_failed.
        cbn [app existsb]. rewrite existsb_app, !orb_false_iff.
        intros (_ & _ & _ & H2). exact H2. }
      rewrite (IH _ _ _ _ _ _ _ E2 Hrd2). reflexivity.
  - exfalso. unfold bind, fsverity_err, emit, ret in H.
    injection H as _ _ <-. discriminate.
Qed.

(** A walk with no failed read is the walk on the device that serves the
    whole tree. *)
Lemma walk_served (dblock : fsverity_pending_block) (max_ra : Z) (s : vstate) :
  read_failed (log_of (verify_data_block K inode dblock max_ra s)) = false ->
  verify_data_block K inode' dblock max_ra s
    = verify_data_block K inode dblock max_ra s.
Proof.
  unfold verify_data_block.
  change (i_size inode') with (i_size inode).
  change (tree_params (i_verity_info inode')) with params.
  fold vi. fold params.
  destruct (u64 (i_size inode) <=? pos dblock); [reflexivity|].
  unfold bind.
  destruct (ascend K inode max_ra _ 0 _ [] s) as [[a s1] e1] eqn:Ea.
  intros Hrd.
  assert (Hrd1 : read_failed e1 = false).
  { revert Hrd. destruct a as [level held | level want held].
    - destruct (release_hblocks held s1) as [[u s2] e2].
      cbn [ret log_of snd]. unfold read_failed.
      rewrite existsb_app, orb_false_iff. tauto.
    - destruct (descend inode dblock held level want s1) as [[ok s2] e2].
      cbn [log_of snd]. unfold read_failed.
      rewrite existsb_app, orb_false_iff. tauto. }
  rewrite (ascend_served _ _ _ _ _ _ _ _ _ Ea Hrd1).
  destruct a as [level held | level want held]; [reflexivity|].
  now rewrite descend_served.
Qed.

Lemma path_readable_served (n : nat) (level hidx : Z) :
  path_readable inode' T n level hidx.
Proof.
  revert level hidx; induction n as [|n IH]; intros level hidx; [exact I|].
  split; [intros ra; reflexivity | apply IH].
Qed.

(** Along readable pages no read of a walk fails. *)
Lemma walk_reads_succeed (dblock : fsverity_pending_block) (max_ra : Z)
    (s : vstate) :
  pages_ok inode -> levels_ok inode ->
  0 <= i_size inode < 2 ^ 63 -> 0 <= pos dblock ->
  memo_sound K inode T s ->
  path_readable inode T (Z.to_nat (num_levels params)) 0
    (Z.shiftr (pos dblock) (log_blocksize params)) ->
  read_failed (log_of (verify_data_block K inode dblock max_ra s)) = false.
Proof.
  unfold params, vi. intros Hok [Harity Hlv] Hsz Hpos0 Hsound Hpath.
  destruct (Z.lt_ge_cases (pos dblock) (i_size inode)) as [Hpos|Hpos].
  2:{ rewrite (past_eof_run K inode dblock max_ra s Hsz Hpos).
      cbn [log_of snd]. now destruct (all_zero _). }
  destruct (verify_data_block K inode dblock max_ra s) as [[ok s'] evs] eqn:H.
  cbn [log_of snd].
  unfold verify_data_block in H.
  rewrite u64_small in H by lia.
  replace (i_size inode <=? pos dblock) with false in H
    by (symmetry; apply Z.leb_gt; lia).
  unfold bind in H.
  destruct (ascend K inode max_ra _ 0 _ [] s) as [[a s1] e1] eqn:Ea.
  pose proof (ascend_log K inode _ _ _ _ _ _ _ _ _ (Z.le_refl 0) Ea)
    as (_ & Hl & _).
  apply (ascend_spec K inode T) in Ea; [|assumption..|lia|lia|].
  2:{ exists (pos dblock). split; [lia|].
      now rewrite Z.mul_0_l, Z.shiftr_0_r. }
  destruct Ea as (_ & _ & _ & l & want & held & -> & _).
  destruct Hl as [Hl _].
  destruct (descend inode dblock held l want s1) as [[ok2 s2] e2] eqn:Ed.
  apply descend_quiet in Ed. destruct Ed as (_ & _ & D3 & _).
  injection H as _ _ <-.
  unfold read_failed in *. now rewrite existsb_app, Hl, D3.
Qed.

(** C1, as amended (soundness of verification): for a tree that the
    filesystem serves whenever it serves a page, a memoization state that
    marks only hash blocks the tree authenticates and a hashed data block,
    verification succeeds exactly when no read of a tree page fails during
    the walk and the block lies within the file and the tree authenticates
    its body at its position, or lies at or past the end of the file and
    its body is all zeroes.  So a block that is accepted is authentic,
    whatever the device does; a block that is authentic is rejected only
    when a read fails; and when the tree pages on the path of the block are
    read without error, none does. *)
Theorem verification_sound (dblock : fsverity_pending_block)
    (max_ra : Z) (s : vstate) :
  pages_ok inode -> levels_ok inode ->
  0 <= i_size inode < 2 ^ 63 -> 0 <= pos dblock ->
  memo_sound K inode T s ->
  hashed inode dblock ->
  let r := verify_data_block K inode dblock max_ra s in
  let authentic :=
    (pos dblock < i_size inode /\
     authenticates K inode T (pos dblock) (data dblock) = true) \/
    (i_size inode <= pos dblock /\ all_zero (body_of inode dblock) = true) in
  (result_of r = true <-> authentic /\ read_failed (log_of r) = false) /\
  (path_readable inode T (Z.to_nat (num_levels params)) 0
     (Z.shiftr (pos dblock) (log_blocksize params)) ->
   read_failed (log_of r) = false /\ (result_of r = true <-> authentic)).
Proof.
  intros Hok Hlv Hsz Hpos0 Hsound Hhash r authentic.
  assert (Hquiet : result_of r = true -> read_failed (log_of r) = false).
  { subst r.
    destruct (verify_data_block K inode dblock max_ra s) as [[ok s'] evs] eqn:H.
    cbn [result_of log_of fst snd]. intros ->.
    now destruct (walk_log K inode _ _ _ _ _ _ H) as [[_ Hq] _]. }
  assert (Hiff : read_failed (log_of r) = false ->
                 (result_of r = true <-> authentic)).
  { intros Hrd. subst r authentic.
    destruct (Z.lt_ge_cases (pos dblock) (i_size inode)) as [Hpos|Hpos].
    - rewrite <- (walk_served dblock max_ra s Hrd).
      destruct (walk_spec K inode' T dblock max_ra s Hok Hlv Hsz
                  (conj Hpos0 Hpos) Hsound (path_readable_served _ _ _))
        as [-> _].
      change (authenticated_digest K inode' T (pos dblock))
        with (authenticated_digest K inode T (pos dblock)).
      change (digest_size (tree_params (i_verity_info inode')))
        with (digest_size params).
      unfold authenticates. unfold hashed, body_of in Hhash.
      fold vi in Hhash |- *. fold params in Hhash |- *. rewrite Hhash.
      split; [intros H; left; now split
             | intros [[_ H]|[H _]]; [exact H | lia]].
    - rewrite (past_eof_run K inode dblock max_ra s Hsz Hpos).
      cbn [result_of fst].
      split; [intros H; right; now split
             | intros [[H _]|[_ H]]; [lia | exact H]]. }
  split.
  - split.
    + intros Hres. split; [apply Hiff; [now apply Hquiet | exact Hres]
                          | now apply Hquiet].
    + intros [Hauth Hrd]. now apply Hiff.
  - intros Hpath.
    assert (Hrd : read_failed (log_of r) = false)
      by (subst r; now apply walk_reads_succeed).
    split; [exact Hrd | now apply Hiff].
Qed.

End Failing_closed.

(** ** The batch size

    mb_max_msgs decides when the queue of pending blocks is flushed, and
    nothing else: a single-block verification does not look at it. *)

Section Batch_size.

Variable K : kernel.
Variable inode : inode_t.
Variable m : Z.

Let inode' := with_batch_size inode m.

Lemma descend_batch_size (dblock : fsverity_pending_block) (held : list hblock)
    (level : Z) (want : bytes) (s : vstate) :
  descend inode' dblock held level want s
    = descend inode dblock held level want s.
Proof.
  revert level want s; induction held as [|hb held IH]; intros level want s.
  - reflexivity.
  - cbn [descend]. apply bind_ext; [reflexivity|]. intros r s1.
    destruct r as [real|]; [|reflexivity].
    change (digest_size (tree_params (i_verity_info inode')))
      with (digest_size (tree_params (i_verity_info inode))).
    destruct (negb (memcmp_eq want real _)); [reflexivity|].
    apply bind_ext; [reflexivity|]. intros u1 s2.
    apply bind_ext; [reflexivity|]. intros u2 s3.
    apply bind_ext; [reflexivity|]. intros u3 s4.
    apply IH.
Qed.

Lemma ascend_batch_size (max_ra : Z) (n : nat) (level hidx : Z)
    (held : list hblock) (s : vstate) :
  ascend K inode' max_ra n level hidx held s
    = ascend K inode max_ra n level hidx held s.
Proof.
  revert level hidx held s; induction n as [|n IH]; intros level hidx held s.
  - reflexivity.
  - cbn [ascend]. apply bind_ext; [reflexivity|]. intros r s1.
    destruct r as [page_bytes|]; [|reflexivity].
    apply bind_ext; [reflexivity|]. intros u1 s2.
    apply bind_ext; [reflexivity|]. intros v s3.
    destruct v; [reflexivity|]. apply IH.
Qed.

Lemma verify_data_block_batch_size (dblock : fsverity_pending_block)
    (max_ra : Z) (s : vstate) :
  verify_data_block K inode' dblock max_ra s
    = verify_data_block K inode dblock max_ra s.
Proof.
  unfold verify_data_block.
  change (i_size inode') with (i_size inode).
  destruct (u64 (i_size inode) <=? pos dblock); [reflexivity|].
  apply bind_ext; [apply ascend_batch_size|]. intros a s1.
  destruct a as [level held | level want held]; [reflexivity|].
  apply descend_batch_size.
Qed.

Lemma verify_each_batch_size (max_ra : Z) (bs : list fsverity_pending_block)
    (s : vstate) :
  verify_each K inode' max_ra bs s = verify_each K inode max_ra bs s.
Proof.
  revert s; induction bs as [|b bs IH]; intros s; [reflexivity|].
  cbn [verify_each]. apply bind_ext; [apply verify_data_block_batch_size|].
  intros ok s1. destruct ok; [apply IH | reflexivity].
Qed.

Lemma finup_mb_batch_size (datas : list bytes) :
  crypto_shash_finup_mb inode' datas = crypto_shash_finup_mb inode datas.
Proof.
  induction datas as [|d ds IH]; [reflexivity|].
  cbn [crypto_shash_finup_mb]. rewrite IH. reflexivity.
Qed.

(** A flush does not look at the batch size. *)
Lemma flush_batch_size (ctx : fsverity_verification_context) (s : vstate) :
  fsverity_verify_pending_blocks K inode' ctx s
    = fsverity_verify_pending_blocks K inode ctx s.
Proof.
  unfold fsverity_verify_pending_blocks.
  destruct (num_pending ctx =? 0); [reflexivity|].
  apply bind_ext; [reflexivity|]. intros u1 s1.
  change (shash_setup_err (hash_alg (tree_params (i_verity_info inode'))))
    with (shash_setup_err (hash_alg (tree_params (i_verity_info inode)))).
  destruct (negb (_ =? 0)); [reflexivity|].
  apply bind_ext; [reflexivity|]. intros u2 s2.
  rewrite finup_mb_batch_size.
  destruct (crypto_shash_finup_mb inode _) as [hs|]; [|reflexivity].
  apply bind_ext; [apply verify_each_batch_size|]. intros ok s3.
  reflexivity.
Qed.

Lemma verify_separately_batch_size (max_ra : Z)
    (bs : list fsverity_pending_block) (s : vstate) :
  verify_separately K inode' max_ra bs s
    = verify_separately K inode max_ra bs s.
Proof.
  revert s; induction bs as [|b bs IH]; intros s; [reflexivity|].
  cbn [verify_separately].
  apply bind_ext.
  - unfold verify_single. apply bind_ext; [apply flush_batch_size|].
    reflexivity.
  - intros ok s1. apply bind_ext; [apply IH | reflexivity].
Qed.

Lemma range_blocks_batch_size (n : nat) (data_folio : folio) (fpos offset : Z) :
  range_blocks inode' n data_folio fpos offset
    = range_blocks inode n data_folio fpos offset.
Proof.
  revert offset; induction n as [|n IH]; intros offset; [reflexivity|].
  cbn [range_blocks]. rewrite IH. reflexivity.
Qed.

Lemma folio_blocks_batch_size (data_folio : folio) (len offset : Z) :
  folio_blocks K inode' data_folio len offset
    = folio_blocks K inode data_folio len offset.
Proof. unfold folio_blocks. apply range_blocks_batch_size. Qed.

Lemma bio_blocks_batch_size (segs : list (folio * Z * Z)) :
  bio_blocks K inode' segs = bio_blocks K inode segs.
Proof.
  induction segs as [|[[f len] off] segs IH]; [reflexivity|].
  cbn [bio_blocks]. rewrite IH, folio_blocks_batch_size. reflexivity.
Qed.

(** X15 (batching does not change the verdict): fsverity_verify_blocks
    rejects a range that fails its checks, and otherwise returns the
    verdict of the separate single-block verifications of the blocks of the
    range, in order; when it accepts, it leaves the memoization state they
    leave.  Among the batch sizes that suit the queue, from 1 to the number
    of entries of the array, the batch size does not matter: with any other
    of them the result is the same, and with each of them no store goes
    past the end of the array. *)
Theorem verify_blocks_verdict (data_folio : folio) (len offset : Z)
    (s : vstate) :
  blocks_ok inode -> is_size_t len ->
  batch_size_ok K inode ->
  1 <= m <= FS_VERITY_MAX_PENDING_DATA_BLOCKS K ->
  let r := fsverity_verify_blocks K inode data_folio len offset s in
  let r' := fsverity_verify_blocks K (with_batch_size inode m)
              data_folio len offset s in
  let sep := verify_separately K inode 0
               (folio_blocks K inode data_folio len offset) s in
  result_of r
    = Some (range_valid inode data_folio len offset && result_of sep)%bool /\
  (result_of r = Some true -> state_of r = state_of sep) /\
  result_of r' = result_of r /\
  in_bounds (log_of r) = true /\ in_bounds (log_of r') = true.
Proof.
  intros Hok Hlen Hbatch Hm r r' sep.
  destruct (verify_blocks_separately K inode data_folio len offset s Hok Hlen)
    as [Hres Hst].
  fold r in Hres, Hst. fold sep in Hres, Hst.
  split; [exact Hres|]. split; [exact Hst|].
  split.
  { destruct (verify_blocks_separately K inode' data_folio len offset s
                Hok Hlen) as [Hres' _].
    subst r'. fold inode'. rewrite Hres', Hres. subst sep.
    now rewrite folio_blocks_batch_size, verify_separately_batch_size. }
  split.
  - subst r. now apply verify_blocks_in_bounds.
  - subst r'. apply verify_blocks_in_bounds; [exact Hok | exact Hm | exact Hlen].
Qed.

(** X16 (the verdict on a bio): fsverity_verify_bio leaves the bio as it
    was exactly when every segment passes the checks of
    fsverity_add_data_blocks and the separate single-block verifications of
    the blocks of all segments, in the order of the bio and with the
    readahead of the bio, all accept; otherwise it sets bi_status to
    BLK_STS_IOERR.  Among the batch sizes that suit the queue the batch
    size does not matter: with any other of them the bio is left the same,
    and with each of them no store goes past the end of the array. *)
Theorem verify_bio_verdict (bi : bio) (s : vstate) :
  blocks_ok inode -> bio_lengths_ok bi ->
  batch_size_ok K inode ->
  1 <= m <= FS_VERITY_MAX_PENDING_DATA_BLOCKS K ->
  let r := fsverity_verify_bio K inode bi s in
  let r' := fsverity_verify_bio K (with_batch_size inode m) bi s in
  let max_ra :=
    if negb (Z.land (bi_opf bi) (REQ_RAHEAD K) =? 0)
    then Z.shiftr (bi_size bi) (PAGE_SHIFT K + 2)
    else 0 in
  let verdict :=
    match bio_blocks K inode (bi_segments bi) with
    | Some bs => result_of (verify_separately K inode max_ra bs s)
    | None => false
    end in
  result_of r
    = Some (if verdict then bi else set_bi_status bi (BLK_STS_IOERR K)) /\
  result_of r' = result_of r /\
  in_bounds (log_of r) = true /\ in_bounds (log_of r') = true.
Proof.
  intros Hok Hlen Hbatch Hm r r' max_ra verdict.
  assert (Hrun : forall i, blocks_ok i ->
            result_of (fsverity_verify_bio K i bi s)
            = Some (if match bio_blocks K i (bi_segments bi) with
                       | Some bs => result_of (verify_separately K i max_ra bs s)
                       | None => false
                       end
                    then bi else set_bi_status bi (BLK_STS_IOERR K))).
  { intros i Hi. destruct (verify_bio_run K i bi s [] Hi Hlen) as [-> _].
    now rewrite (bio_verified_separately K i bi s Hi Hlen). }
  split; [now apply Hrun|].
  split.
  { subst r r'.
    rewrite (Hrun inode Hok), (Hrun (with_batch_size inode m) Hok).
    fold inode'. rewrite bio_blocks_batch_size.
    destruct (bio_blocks K inode (bi_segments bi)) as [bs|]; [|reflexivity].
    now rewrite verify_separately_batch_size. }
  split.
  - subst r. now apply verify_bio_in_bounds.
  - subst r'. apply verify_bio_in_bounds; [exact Hok | exact Hm | exact Hlen].
Qed.

End Batch_size.

(** ** The properties on the scenarios *)

Import Scenario.

Lemma past_eof_contract_witness :
  0 <= i_size (t_inode 0) < 2 ^ 63 /\
  i_size (t_inode 0) <= pos eof_block /\
  result_of (verify_data_block (small 0) (t_inode 0) eof_block 0 fresh_A) = true.
Proof.
  assert (H1 : 0 <= i_size (t_inode 0) < 2 ^ 63) by (simpl; lia).
  assert (H2 : i_size (t_inode 0) <= pos eof_block) by (simpl; lia).
  split; [exact H1 | split; [exact H2 |]].
  exact (proj1 (past_eof_contract (small 0) (t_inode 0) eof_block 0 fresh_A H1 H2)).
Defined.

Lemma bitmap_read_protocol_witness :
  pages_ok (t_inode 1) /\
  is_hash_block_verified (t_inode 1) 1 2
    {| pg_checked := 2; hash_block_verified := Some 4; warned := 0 |}
  = (true, {| pg_checked := 2; hash_block_verified := Some 4; warned := 0 |},
     [EvPageChecked 1; EvRmb; EvTestBit 2]).
Proof.
  assert (H1 : pages_ok (t_inode 1)) by (unfold pages_ok; simpl; lia).
  split; [exact H1|].
  refine (proj1 (bitmap_read_protocol (t_inode 1) 1 2 4
                   {| pg_checked := 2; hash_block_verified := Some 4; warned := 0 |}
                   H1 eq_refl _ eq_refl) eq_refl).
  lia.
Defined.

Lemma mark_bitmap_in_walk_witness :
  let r := verify_data_block (small 1) (t_inode 1) (t_dblock 2 (t_data 2))
             0 fresh_B in
  let pre := firstn 19 (log_of r) in
  let post := skipn 20 (log_of r) in
  pages_ok (t_inode 1) /\ bitmap_mode fresh_B /\
  log_of r = pre ++ EvSetBit 2 :: post /\
  page_flag (memo_after pre fresh_B) 1 = true /\
  bitmap_bit (memo_after (pre ++ [EvSetBit 2]) fresh_B) 2 = true /\
  page_flag (memo_after (pre ++ [EvSetBit 2]) fresh_B) 1 = true.
Proof.
  intros r pre post.
  assert (H1 : pages_ok (t_inode 1)) by (unfold pages_ok; simpl; lia).
  assert (H2 : bitmap_mode fresh_B) by discriminate.
  assert (H3 : log_of r = pre ++ EvSetBit 2 :: post)
    by (vm_compute; reflexivity).
  split; [exact H1 | split; [exact H2 | split; [exact H3 |]]].
  exact (proj2 (proj2 (mark_bitmap_in_walk (small 1) (t_inode 1)
                         (t_dblock 2 (t_data 2)) 0 fresh_B H1 H2))
           pre 2 post H3).
Defined.

Lemma no_mapping_leak_witness :
  blocks_ok (t_inode 1) /\
  held_after
    (log_of (fsverity_verify_blocks (small 1) (t_inode 1) t_folio 16 0 fresh_B))
    [] = Some [].
Proof.
  assert (H1 : blocks_ok (t_inode 1)) by (unfold blocks_ok; simpl; lia).
  assert (H2 : is_size_t 16) by (unfold is_size_t; lia).
  split; [exact H1|].
  exact (proj2 (proj1 (proj2 (no_mapping_leak (small 1) (t_inode 1) H1))
                  t_folio 16 0 fresh_B H2)).
Defined.

Lemma verify_bio_status_frame_witness :
  blocks_ok (t_inode 1) /\ bio_lengths_ok t_bio /\
  result_of (fsverity_verify_bio (small 1) (t_inode 1) t_bio fresh_B)
    = Some t_bio.
Proof.
  assert (H1 : blocks_ok (t_inode 1)) by (unfold blocks_ok; simpl; lia).
  assert (H2 : bio_lengths_ok t_bio).
  { unfold bio_lengths_ok, t_bio, bi_segments.
    constructor; [unfold is_size_t; simpl; lia | constructor]. }
  split; [exact H1 | split; [exact H2 |]].
  refine (proj1 (verify_bio_status_frame (small 1) (t_inode 1) t_bio fresh_B
                   H1 H2) _).
  vm_compute. reflexivity.
Defined.

(** C3 as stated fails: the first of two pending blocks is altered, the
    second lies under another leaf hash block.  The flush stops at the first
    block; verifying both separately also marks the leaf hash block of the
    second. *)
Lemma batch_equivalence_counterexample :
  ~ batch_equivalence (small 0) (t_inode 0).
Proof.
  intros H.
  destruct (H bad_batch fresh_A) as [_ Hst]; [vm_compute; discriminate|].
  assert (E1 : state_of (fsverity_verify_pending_blocks (small 0) (t_inode 0)
                           bad_batch fresh_A)
               = {| pg_checked := 3; hash_block_verified := None; warned := 0 |})
    by (vm_compute; reflexivity).
  assert (E2 : state_of (verify_separately (small 0) (t_inode 0)
                           (max_ra_pages bad_batch) (pending_blocks bad_batch)
                           fresh_A)
               = {| pg_checked := 7; hash_block_verified := None; warned := 0 |})
    by (vm_compute; reflexivity).
  rewrite E1, E2 in Hst. discriminate.
Qed.

(** The levels of the small tree do not overlap: data blocks 0..3 have the
    leaf hash blocks 1 and 2, and both of these have the top block 0. *)
Lemma t_levels_disjoint : levels_disjoint (t_inode 0).
Proof.
  assert (A0 : forall p, 0 <= p < 16 ->
            Z.shiftr (Z.shiftr (Z.shiftr p 2) (0 * 1)) 1 = p / 8).
  { intros p Hp. rewrite !Z.shiftr_div_pow2 by lia.
    change (2 ^ (0 * 1)) with 1. rewrite Z.div_1_r, Z.div_div by lia.
    reflexivity. }
  assert (A1 : forall p, 0 <= p < 16 ->
            Z.shiftr (Z.shiftr (Z.shiftr p 2) (1 * 1)) 1 = 0).
  { intros p Hp. rewrite !Z.shiftr_div_pow2 by lia.
    rewrite !Z.div_div by lia. apply Z.div_small. simpl. lia. }
  assert (B : forall p, 0 <= p < 16 -> 0 <= p / 8 < 2).
  { intros p Hp. split; [apply Z.div_pos; lia|].
    apply Z.div_lt_upper_bound; lia. }
  intros level hidx level' hidx' Hl Hl' (p & Hp & ->) (p' & Hp' & ->).
  cbn [t_inode i_verity_info t_vi tree_params t_params num_levels i_size
       log_blocksize log_arity] in *.
  unfold path_hblock_idx.
  cbn [t_inode i_verity_info t_vi tree_params t_params level_start log_arity].
  assert (Hlev : level = 0 \/ level = 1) by lia.
  assert (Hlev' : level' = 0 \/ level' = 1) by lia.
  change (nth (Z.to_nat 0) [1; 0] 0) with 1.
  change (nth (Z.to_nat 1) [1; 0] 0) with 0.
  pose proof (B p Hp). pose proof (B p' Hp').
  destruct Hlev as [-> | ->], Hlev' as [-> | ->];
    change (nth (Z.to_nat 0) [1; 0] 0) with 1;
    change (nth (Z.to_nat 1) [1; 0] 0) with 0;
    rewrite ?(A0 p Hp), ?(A0 p' Hp'), ?(A1 p Hp), ?(A1 p' Hp');
    rewrite !u64_small by lia; intros Heq; split; lia.
Qed.

(** The invariant at work on the small tree: after the verification of data
    block 2 from a fresh state, the state is sound. *)
Lemma t_memo_sound_after_block_2 :
  memo_sound (small 0) (t_inode 0) (t_page 0)
    (state_of (verify_data_block (small 0) (t_inode 0) (t_dblock 2 (t_data 2))
                 0 fresh_A)).
Proof.
  apply memo_sound_preserved.
  - unfold pages_ok; simpl; lia.
  - unfold levels_ok; simpl; lia.
  - exact t_levels_disjoint.
  - simpl; lia.
  - simpl; lia.
  - intros _. reflexivity.
  - apply memo_sound_fresh. reflexivity.
  - split; [|split]; try (intros ra; reflexivity). exact I.
Qed.

(** On the device that has lost the page of the top block, data block 3 is
    accepted through the leaf hash block that the verification of data
    block 2 marked while the page could still be read; the path of the
    block is not readable, and the block is authentic all the same. *)
Lemma verification_sound_witness :
  let s2 := state_of (verify_data_block (small 0) (t_inode 0)
                        (t_dblock 2 (t_data 2)) 0 fresh_A) in
  let r := verify_data_block (small 0) t_inode_top_eio (t_dblock 3 (t_data 3))
             0 s2 in
  serves t_inode_top_eio (t_page 0) /\
  pages_ok t_inode_top_eio /\
  memo_sound (small 0) t_inode_top_eio (t_page 0) s2 /\
  hashed t_inode_top_eio (t_dblock 3 (t_data 3)) /\
  read_merkle_tree_page t_inode_top_eio 0 0 = None /\
  result_of r = true /\
  authenticates (small 0) t_inode_top_eio (t_page 0)
    (pos (t_dblock 3 (t_data 3))) (data (t_dblock 3 (t_data 3))) = true.
Proof.
  intros s2 r.
  assert (H0 : serves t_inode_top_eio (t_page 0)).
  { intros idx ra pg. unfold t_inode_top_eio, read_merkle_tree_page.
    destruct (_ && _); [now intros [= <-] | discriminate]. }
  assert (H1 : pages_ok t_inode_top_eio) by (unfold pages_ok; simpl; lia).
  assert (H2 : 0 <= i_size t_inode_top_eio < 2 ^ 63) by (simpl; lia).
  assert (H3 : levels_ok t_inode_top_eio) by (unfold levels_ok; simpl; lia).
  assert (H3' : 0 <= pos (t_dblock 3 (t_data 3))) by (simpl; lia).
  assert (H4 : memo_sound (small 0) t_inode_top_eio (t_page 0) s2)
    by exact t_memo_sound_after_block_2.
  assert (H6 : hashed t_inode_top_eio (t_dblock 3 (t_data 3))) by reflexivity.
  assert (H7 : result_of r = true) by (vm_compute; reflexivity).
  split; [exact H0 | split; [exact H1 | split; [exact H4 | split; [exact H6 |
    split; [reflexivity | split; [exact H7 |]]]]]].
  destruct (proj1 (proj1 (verification_sound (small 0) t_inode_top_eio
                            (t_page 0) H0 (t_dblock 3 (t_data 3)) 0 s2
                            H1 H3 H2 H3' H4 H6)) H7)
    as [[[_ Hauth] | [Heof _]] _].
  - exact Hauth.
  - exfalso. revert Heof. simpl. lia.
Defined.

(** C1 as stated fails: the tree authenticates data block 0 of the small
    file, the memoization state is fresh and the block is hashed, but the
    filesystem cannot read the tree pages, and the block is rejected. *)
Lemma soundness_counterexample :
  ~ soundness_as_stated (small 0) (t_inode_eio 0).
Proof.
  intros H.
  assert (Hs : serves (t_inode_eio 0) (t_page 0))
    by (intros idx ra pg; discriminate).
  assert (Hm : memo_sound (small 0) (t_inode_eio 0) (t_page 0) fresh_A)
    by (apply memo_sound_fresh; reflexivity).
  assert (Hh : hashed (t_inode_eio 0) (t_dblock 0 (t_data 0))) by reflexivity.
  assert (Hr : result_of (verify_data_block (small 0) (t_inode_eio 0)
                            (t_dblock 0 (t_data 0)) 0 fresh_A) = false)
    by (vm_compute; reflexivity).
  rewrite (proj2 (H (t_page 0) (t_dblock 0 (t_data 0)) 0 fresh_A Hs Hm Hh)) in Hr;
    [discriminate|].
  left. split; [simpl; lia | vm_compute; reflexivity].
Qed.




(** S1: both data blocks are accepted in one call; the leaf hash block is
    hashed once, by the walk of block 0, and the walk of block 1 finds it
    marked. *)
Lemma s1_accepts_both_blocks :
  let r := fsverity_verify_blocks linux s1_inode
             (s1_folio 0 (s1_block0 ++ s1_block1)) 8192 0 fresh_A in
  (result_of r,
   length (filter (fun e => match e with EvHashBlock => true | _ => false end)
             (log_of r)),
   hblock_verified s1_inode (state_of r) 0)
  = (Some true, 1%nat, true).
Proof.
  vm_compute. reflexivity.
Qed.

(** A failing hash separates the flush from the separate verifications even
    when these are given up at the first rejection: the crypto layer fails
    on the second pending block, the flush walks nothing, and the separate
    verifications have walked and marked the path of the first block before
    they reject. *)
Lemma batch_differs_on_hash_failure :
  let batch := fsverity_verify_pending_blocks (small 0) t_inode_hash_fails
                 good_batch fresh_A in
  let sep := verify_until_failure (small 0) t_inode_hash_fails 0
               (pending_blocks good_batch) fresh_A in
  (fst (result_of batch), state_of batch, result_of sep, state_of sep)
  = (false, fresh_A, false, {| pg_checked := 3; hash_block_verified := None; warned := 0 |}).
Proof.
  vm_compute. reflexivity.
Qed.

(** *** The cache, the walk and the entry points on the small tree *)

Lemma query_is_stable_witness :
  pages_ok (t_inode 1) /\
  (let r1 := is_hash_block_verified (t_inode 1) 1 2 stale_B in
   let r2 := is_hash_block_verified (t_inode 1) 1 2 (state_of r1) in
   result_of r2 = result_of r1 /\ state_of r2 = state_of r1).
Proof.
  assert (H1 : pages_ok (t_inode 1)) by (unfold pages_ok; simpl; lia).
  assert (H2 : 0 <= 2 < 2 ^ 64) by lia.
  split; [exact H1|].
  exact (query_is_stable (t_inode 1) 2 stale_B H1 H2).
Defined.

Lemma mark_then_query_witness :
  pages_ok (t_inode 1) /\
  (let s0 := state_of (is_hash_block_verified (t_inode 1) 1 2 fresh_B) in
   let s1 := state_of (mark_verified 1 2 s0) in
   let r := is_hash_block_verified (t_inode 1) 1 2 s1 in
   result_of r = true /\ state_of r = s1).
Proof.
  assert (H1 : pages_ok (t_inode 1)) by (unfold pages_ok; simpl; lia).
  assert (H2 : 0 <= 2 < 2 ^ 64) by lia.
  split; [exact H1|].
  exact (mark_then_query (t_inode 1) 2 fresh_B H1 H2).
Defined.

Lemma mark_verified_isolated_witness :
  0 <= 2 /\
  hblock_verified (t_inode 1) (state_of (mark_verified 1 2 seen_B)) 3
    = hblock_verified (t_inode 1) seen_B 3.
Proof.
  assert (H1 : 0 <= 2) by lia.
  assert (H2 : bitmap_mode seen_B) by discriminate.
  assert (H3 : 3 <> 2) by lia.
  split; [exact H1|].
  exact (proj1 (mark_verified_isolated (t_inode 1) 2 3 seen_B H1) H2 H3).
Defined.

Lemma unchecked_page_not_trusted_witness :
  pages_ok (t_inode 1) /\
  page_flag stale_B 1 = false /\
  (let r := is_hash_block_verified (t_inode 1) 1 2 stale_B in
   result_of r = false /\
   hblock_verified (t_inode 1) (state_of r) 3 = false).
Proof.
  assert (H1 : pages_ok (t_inode 1)) by (unfold pages_ok; simpl; lia).
  assert (H2 : 0 <= 2 < 2 ^ 64) by lia.
  assert (H3 : page_flag stale_B 1 = false) by reflexivity.
  split; [exact H1 | split; [exact H3 |]].
  destruct (unchecked_page_not_trusted (t_inode 1) 2 stale_B H1 H2 H3)
    as [Hres Hall].
  split; [exact Hres | exact (Hall 3 eq_refl)].
Defined.

Lemma accepted_block_is_quiet_witness :
  let r := verify_data_block (small 1) (t_inode 1) (t_dblock 2 (t_data 2))
             0 fresh_B in
  result_of r = true /\
  no_diag (log_of r) = true /\ read_failed (log_of r) = false.
Proof.
  intros r.
  assert (H1 : result_of r = true) by (vm_compute; reflexivity).
  split; [exact H1|].
  exact (accepted_block_is_quiet (small 1) (t_inode 1) (t_dblock 2 (t_data 2))
           0 fresh_B H1).
Defined.

Lemma read_error_rejects_witness :
  let r := verify_data_block (small 0) (t_inode_eio 0) (t_dblock 0 (t_data 0))
             0 fresh_A in
  pages_ok (t_inode_eio 0) /\
  read_failed (log_of r) = true /\
  result_of r = false /\ count_hash_block (log_of r) = 0%nat.
Proof.
  intros r.
  assert (H1 : pages_ok (t_inode_eio 0)) by (unfold pages_ok; simpl; lia).
  assert (H2 : read_failed (log_of r) = true) by (vm_compute; reflexivity).
  split; [exact H1 | split; [exact H2 |]].
  destruct (read_error_rejects (small 0) (t_inode_eio 0)
              (t_dblock 0 (t_data 0)) 0 fresh_A H1 H2) as (Hres & Hcount & _).
  split; [exact Hres | exact Hcount].
Defined.

Lemma walk_readahead_witness :
  0 <= 3 /\
  Forall (fun ra => 0 <= ra <= 3)
    (readahead_of
       (log_of (verify_data_block (small 0) (t_inode 0) (t_dblock 2 (t_data 2))
                  3 fresh_A))).
Proof.
  assert (H1 : 0 <= 3) by lia.
  split; [exact H1|].
  exact (proj2 (walk_readahead (small 0) (t_inode 0) (t_dblock 2 (t_data 2))
                  3 fresh_A) H1).
Defined.

Lemma tree_less_file_witness :
  num_levels (tree_params (i_verity_info one_block_inode)) = 0 /\
  0 <= i_size one_block_inode < 2 ^ 63 /\
  pos (t_dblock 0 (t_data 0)) < i_size one_block_inode /\
  verify_data_block (small 0) one_block_inode (t_dblock 0 (t_data 0)) 0 fresh_A
    = (true, fresh_A, []).
Proof.
  assert (H1 : num_levels (tree_params (i_verity_info one_block_inode)) = 0)
    by reflexivity.
  assert (H2 : 0 <= i_size one_block_inode < 2 ^ 63) by (simpl; lia).
  assert (H3 : pos (t_dblock 0 (t_data 0)) < i_size one_block_inode)
    by (simpl; lia).
  split; [exact H1 | split; [exact H2 | split; [exact H3 |]]].
  rewrite (tree_less_file (small 0) one_block_inode (t_dblock 0 (t_data 0))
             0 fresh_A H1 H2 H3).
  vm_compute. reflexivity.
Defined.

Lemma verified_leaf_shortcut_witness :
  pages_ok (t_inode 0) /\
  hblock_verified (t_inode 0) leaf2_verified 2 = true /\
  (let r := verify_data_block (small 0) (t_inode 0) (t_dblock 3 (t_data 3))
              0 leaf2_verified in
   state_of r = leaf2_verified /\
   pages_read (log_of r) = [2] /\
   count_hash_block (log_of r) = 0%nat).
Proof.
  assert (H1 : pages_ok (t_inode 0)) by (unfold pages_ok; simpl; lia).
  assert (H2 : 0 <= i_size (t_inode 0) < 2 ^ 63) by (simpl; lia).
  assert (H3 : pos (t_dblock 3 (t_data 3)) < i_size (t_inode 0))
    by (simpl; lia).
  assert (H4 : 1 <= num_levels (tree_params (i_verity_info (t_inode 0))))
    by (simpl; lia).
  assert (H5 : hblock_verified (t_inode 0) leaf2_verified 2 = true)
    by reflexivity.
  split; [exact H1 | split; [exact H5 |]].
  destruct (verified_leaf_shortcut (small 0) (t_inode 0) (t_dblock 3 (t_data 3))
              0 leaf2_verified (t_page 0 2) H1 H2 H3 H4 eq_refl H5)
    as (_ & Hst & Hreads & Hhash).
  split; [exact Hst | split; [exact Hreads | exact Hhash]].
Defined.

(** The tree pages of the small file are read without error. *)
Lemma t_tree_readable : tree_readable (t_inode 0) (t_page 0).
Proof.
  intros position Hpos.
  cbn [t_inode i_verity_info t_vi tree_params t_params num_levels i_size
       log_blocksize] in *.
  assert (Hh : Z.shiftr position 2 = 0 \/ Z.shiftr position 2 = 1 \/
               Z.shiftr position 2 = 2 \/ Z.shiftr position 2 = 3).
  { rewrite Z.shiftr_div_pow2 by lia. change (2 ^ 2) with 4.
    assert (0 <= position / 4 < 4)
      by (split; [apply Z.div_pos; lia | apply Z.div_lt_upper_bound; lia]).
    lia. }
  destruct Hh as [-> | [-> | [-> | ->]]];
    (split; [intros ra; reflexivity | split; [intros ra; reflexivity | exact I]]).
Qed.

Lemma t_crypto_ok : crypto_ok (t_inode 0).
Proof.
  split; [reflexivity|]. intros body. discriminate.
Qed.

Lemma verdict_independent_of_memo_witness :
  let s2 := state_of (verify_data_block (small 0) (t_inode 0)
                        (t_dblock 2 (t_data 2)) 0 fresh_A) in
  memo_sound (small 0) (t_inode 0) (t_page 0) fresh_A /\
  memo_sound (small 0) (t_inode 0) (t_page 0) s2 /\
  result_of (verify_data_block (small 0) (t_inode 0) (t_dblock 3 (t_data 3))
               0 fresh_A)
    = result_of (verify_data_block (small 0) (t_inode 0) (t_dblock 3 (t_data 3))
                   1 s2).
Proof.
  intros s2.
  assert (H1 : pages_ok (t_inode 0)) by (unfold pages_ok; simpl; lia).
  assert (H2 : levels_ok (t_inode 0)) by (unfold levels_ok; simpl; lia).
  assert (H3 : 0 <= i_size (t_inode 0) < 2 ^ 63) by (simpl; lia).
  assert (H4 : 0 <= pos (t_dblock 3 (t_data 3))) by (simpl; lia).
  assert (H5 : memo_sound (small 0) (t_inode 0) (t_page 0) fresh_A)
    by (apply memo_sound_fresh; reflexivity).
  assert (H6 : memo_sound (small 0) (t_inode 0) (t_page 0) s2)
    by exact t_memo_sound_after_block_2.
  assert (H7 : pos (t_dblock 3 (t_data 3)) < i_size (t_inode 0) ->
               path_readable (t_inode 0) (t_page 0)
                 (Z.to_nat (num_levels (tree_params (i_verity_info (t_inode 0)))))
                 0 (Z.shiftr (pos (t_dblock 3 (t_data 3)))
                      (log_blocksize (tree_params (i_verity_info (t_inode 0))))))
    by (intros _; apply t_tree_readable; simpl; lia).
  split; [exact H5 | split; [exact H6 |]].
  exact (verdict_independent_of_memo (small 0) (t_inode 0) (t_page 0)
           (t_dblock 3 (t_data 3)) 0 1 fresh_A s2 H1 H2 H3 H4 H5 H6 H7).
Defined.

Lemma marks_never_cleared_witness :
  pages_ok (t_inode 0) /\
  hblock_verified (t_inode 0) leaf2_verified 2 = true /\
  hblock_verified (t_inode 0)
    (state_of (fsverity_verify_blocks (small 0) (t_inode 0) t_folio 16 0
                 leaf2_verified)) 2 = true.
Proof.
  assert (H1 : pages_ok (t_inode 0)) by (unfold pages_ok; simpl; lia).
  assert (H2 : hblock_verified (t_inode 0) leaf2_verified 2 = true)
    by reflexivity.
  split; [exact H1 | split; [exact H2 |]].
  exact (proj1 (proj2 (marks_never_cleared (small 0) (t_inode 0) 2 H1))
           t_folio 16 0 leaf2_verified H2).
Defined.

Lemma entry_points_keep_memo_sound_witness :
  pages_ok (t_inode 0) /\ levels_disjoint (t_inode 0) /\
  tree_readable (t_inode 0) (t_page 0) /\
  memo_sound (small 0) (t_inode 0) (t_page 0)
    (state_of (fsverity_verify_blocks (small 0) (t_inode 0) t_folio 16 0
                 fresh_A)).
Proof.
  assert (H1 : pages_ok (t_inode 0)) by (unfold pages_ok; simpl; lia).
  assert (H2 : levels_ok (t_inode 0)) by (unfold levels_ok; simpl; lia).
  assert (H3 : 0 <= i_size (t_inode 0) < 2 ^ 63) by (simpl; lia).
  assert (H4 : memo_sound (small 0) (t_inode 0) (t_page 0) fresh_A)
    by (apply memo_sound_fresh; reflexivity).
  assert (H5 : encoding_ok (t_inode 0) fresh_A) by (intros _; reflexivity).
  split; [exact H1 | split; [exact t_levels_disjoint |
    split; [exact t_tree_readable |]]].
  exact (proj1 (proj1 (entry_points_keep_memo_sound (small 0) (t_inode 0)
                         (t_page 0) H1 H2 t_levels_disjoint H3 t_tree_readable)
                  t_folio 16 0 fresh_A H4 H5)).
Defined.

Lemma entry_points_readahead_witness :
  0 <= bi_size t_bio /\
  Forall (fun ra =>
            0 <= ra <= Z.shiftr (bi_size t_bio) (PAGE_SHIFT (small 1) + 2) /\
            (Z.land (bi_opf t_bio) (REQ_RAHEAD (small 1)) = 0 -> ra = 0))
    (readahead_of (log_of (fsverity_verify_bio (small 1) (t_inode 1) t_bio
                             fresh_B))).
Proof.
  assert (H1 : 0 <= bi_size t_bio) by (simpl; lia).
  split; [exact H1|].
  exact (proj2 (entry_points_readahead (small 1) (t_inode 1)) t_bio fresh_B H1).
Defined.

Lemma verify_blocks_verdict_witness :
  let r := fsverity_verify_blocks (small 1) (t_inode 1) t_folio 16 0 fresh_B in
  let r' := fsverity_verify_blocks (small 1) (with_batch_size (t_inode 1) 1)
              t_folio 16 0 fresh_B in
  blocks_ok (t_inode 1) /\ is_size_t 16 /\
  batch_size_ok (small 1) (t_inode 1) /\
  1 <= 1 <= FS_VERITY_MAX_PENDING_DATA_BLOCKS (small 1) /\
  result_of r
    = Some (range_valid (t_inode 1) t_folio 16 0
            && result_of (verify_separately (small 1) (t_inode 1) 0
                            (folio_blocks (small 1) (t_inode 1) t_folio 16 0)
                            fresh_B))%bool /\
  result_of r' = result_of r /\
  in_bounds (log_of r) = true /\ in_bounds (log_of r') = true.
Proof.
  intros r r'.
  assert (H1 : blocks_ok (t_inode 1)) by (unfold blocks_ok; simpl; lia).
  assert (H2 : is_size_t 16) by (unfold is_size_t; lia).
  assert (H3 : batch_size_ok (small 1) (t_inode 1))
    by (unfold batch_size_ok; simpl; lia).
  assert (H4 : 1 <= 1 <= FS_VERITY_MAX_PENDING_DATA_BLOCKS (small 1))
    by (simpl; lia).
  split; [exact H1 | split; [exact H2 | split; [exact H3 | split; [exact H4 |]]]].
  destruct (verify_blocks_verdict (small 1) (t_inode 1) 1 t_folio 16 0
              fresh_B H1 H2 H3 H4) as (Hres & _ & Hsame & Hb & Hb').
  split; [exact Hres | split; [exact Hsame | split; [exact Hb | exact Hb']]].
Defined.

Lemma verify_bio_verdict_witness :
  let r := fsverity_verify_bio (small 1) (t_inode 1) t_bio fresh_B in
  let r' := fsverity_verify_bio (small 1) (with_batch_size (t_inode 1) 1)
              t_bio fresh_B in
  blocks_ok (t_inode 1) /\ bio_lengths_ok t_bio /\
  batch_size_ok (small 1) (t_inode 1) /\
  1 <= 1 <= FS_VERITY_MAX_PENDING_DATA_BLOCKS (small 1) /\
  bio_blocks (small 1) (t_inode 1) (bi_segments t_bio)
    = Some (folio_blocks (small 1) (t_inode 1) t_folio 16 0) /\
  result_of r = Some t_bio /\
  result_of r' = result_of r /\
  in_bounds (log_of r) = true /\ in_bounds (log_of r') = true.
Proof.
  intros r r'.
  assert (H1 : blocks_ok (t_inode 1)) by (unfold blocks_ok; simpl; lia).
  assert (H2 : bio_lengths_ok t_bio).
  { unfold bio_lengths_ok, t_bio, bi_segments.
    constructor; [unfold is_size_t; simpl; lia | constructor]. }
  assert (H3 : batch_size_ok (small 1) (t_inode 1))
    by (unfold batch_size_ok; simpl; lia).
  assert (H4 : 1 <= 1 <= FS_VERITY_MAX_PENDING_DATA_BLOCKS (small 1))
    by (simpl; lia).
  split; [exact H1 | split; [exact H2 | split; [exact H3 | split; [exact H4 |
    split]]]].
  - vm_compute. reflexivity.
  - destruct (verify_bio_verdict (small 1) (t_inode 1) 1 t_bio fresh_B
                H1 H2 H3 H4) as (Hres & Hsame & Hb & Hb').
    split; [|split; [exact Hsame | split; [exact Hb | exact Hb']]].
    subst r. rewrite Hres. vm_compute. reflexivity.
Defined.

Lemma entry_points_sound_witness :
  pages_ok (t_inode 0) /\ levels_disjoint (t_inode 0) /\
  tree_readable (t_inode 0) (t_page 0) /\ crypto_ok (t_inode 0) /\
  forallb (block_ok (small 0) (t_inode 0) (t_page 0))
    (folio_blocks (small 0) (t_inode 0) t_folio 16 0) = true /\
  result_of (fsverity_verify_blocks (small 0) (t_inode 0) t_folio 16 0 fresh_A)
    = Some true.
Proof.
  assert (H1 : pages_ok (t_inode 0)) by (unfold pages_ok; simpl; lia).
  assert (H2 : levels_ok (t_inode 0)) by (unfold levels_ok; simpl; lia).
  assert (H3 : blocks_ok (t_inode 0)) by (unfold blocks_ok; simpl; lia).
  assert (H4 : 0 <= i_size (t_inode 0) < 2 ^ 63) by (simpl; lia).
  assert (H5 : is_size_t 16) by (unfold is_size_t; lia).
  assert (H6 : memo_sound (small 0) (t_inode 0) (t_page 0) fresh_A)
    by (apply memo_sound_fresh; reflexivity).
  assert (H7 : encoding_ok (t_inode 0) fresh_A) by (intros _; reflexivity).
  assert (H8 : forallb (block_ok (small 0) (t_inode 0) (t_page 0))
                 (folio_blocks (small 0) (t_inode 0) t_folio 16 0) = true)
    by (vm_compute; reflexivity).
  split; [exact H1 | split; [exact t_levels_disjoint |
    split; [exact t_tree_readable | split; [exact t_crypto_ok |
    split; [exact H8 |]]]]].
  rewrite (proj1 (entry_points_sound (small 0) (t_inode 0) (t_page 0)
                    H1 H2 t_levels_disjoint H3 H4 t_tree_readable t_crypto_ok)
             t_folio 16 0 fresh_A H5 H6 H7).
  rewrite H8. reflexivity.
Defined.

Lemma pending_blocks_bounded_witness :
  let ctx := fsverity_init_verification_context 0 in
  let mb := mb_max_msgs (hash_alg (tree_params (i_verity_info (t_inode 0)))) in
  let r := fsverity_add_data_blocks (small 0) (t_inode 0) ctx t_folio 16 0
             fresh_A in
  blocks_ok (t_inode 0) /\ batch_size_ok (small 0) (t_inode 0) /\
  num_pending ctx < mb /\ is_size_t 16 /\
  exists ok ctx',
    result_of r = Some (ok, ctx') /\
    num_pending ctx' <= mb /\
    (ok = true -> num_pending ctx' < mb) /\
    in_bounds (log_of r) = true.
Proof.
  intros ctx mb r.
  assert (H1 : blocks_ok (t_inode 0)) by (unfold blocks_ok; simpl; lia).
  assert (H2 : batch_size_ok (small 0) (t_inode 0))
    by (unfold batch_size_ok; simpl; lia).
  assert (H3 : num_pending ctx < mb) by (vm_compute; reflexivity).
  assert (H4 : is_size_t 16) by (unfold is_size_t; lia).
  split; [exact H1 | split; [exact H2 | split; [exact H3 | split; [exact H4 |]]]].
  exact (proj1 (pending_blocks_bounded (small 0) (t_inode 0) H1 H2)
           ctx fresh_A t_folio 16 0 H3 H4).
Defined.

(** A length that is not a multiple of the block size: the first call warns
    and sets the once-flag of the first WARN_ON_ONCE, the second call is
    refused in silence. *)
Lemma invalid_range_rejected_witness :
  let s1 := set_warned warn_range fresh_A in
  blocks_ok (t_inode 0) /\ is_size_t 6 /\
  range_valid (t_inode 0) t_folio 6 0 = false /\
  fsverity_verify_blocks (small 0) (t_inode 0) t_folio 6 0 fresh_A
    = (Some false, s1, [EvWarn]) /\
  fsverity_verify_blocks (small 0) (t_inode 0) t_folio 6 0 s1
    = (Some false, s1, []).
Proof.
  intros s1.
  assert (H1 : blocks_ok (t_inode 0)) by (unfold blocks_ok; simpl; lia).
  assert (H2 : is_size_t 6) by (unfold is_size_t; lia).
  assert (H3 : range_valid (t_inode 0) t_folio 6 0 = false) by reflexivity.
  split; [exact H1 | split; [exact H2 | split; [exact H3 | split]]].
  - destruct (proj1 (proj2 (invalid_range_rejected (small 0) (t_inode 0)
                              (fsverity_init_verification_context 0)
                              t_folio 6 0 fresh_A H1 H2)) H3)
      as (site & [-> | ->] & _ & Hv).
    + exact Hv.
    + exfalso. vm_compute in Hv. discriminate Hv.
  - destruct (proj1 (proj2 (invalid_range_rejected (small 0) (t_inode 0)
                              (fsverity_init_verification_context 0)
                              t_folio 6 0 s1 H1 H2)) H3)
      as (site & [-> | ->] & _ & Hv).
    + exact Hv.
    + exfalso. vm_compute in Hv. discriminate Hv.
Defined.

Lemma walk_work_bounded_witness :
  u64 (i_size (t_inode 0)) <= pos eof_block /\
  pages_read (log_of (verify_data_block (small 0) (t_inode 0) eof_block 0
                        fresh_A)) = [].
Proof.
  assert (H1 : u64 (i_size (t_inode 0)) <= pos eof_block)
    by (vm_compute; discriminate).
  split; [exact H1|].
  exact (proj1 (proj2 (proj2 (walk_work_bounded (small 0) (t_inode 0) eof_block
                                0 fresh_A)) H1)).
Defined.

Lemma accepted_block_memoizes_leaf_witness :
  let r := verify_data_block (small 1) (t_inode 1) (t_dblock 2 (t_data 2))
             0 fresh_B in
  pages_ok (t_inode 1) /\
  result_of r = true /\
  hblock_verified (t_inode 1) (state_of r) 2 = true.
Proof.
  intros r.
  assert (H1 : pages_ok (t_inode 1)) by (unfold pages_ok; simpl; lia).
  assert (H2 : 0 <= i_size (t_inode 1) < 2 ^ 63) by (simpl; lia).
  assert (H3 : pos (t_dblock 2 (t_data 2)) < i_size (t_inode 1))
    by (simpl; lia).
  assert (H4 : 1 <= num_levels (tree_params (i_verity_info (t_inode 1))))
    by (simpl; lia).
  assert (H5 : result_of r = true) by (vm_compute; reflexivity).
  split; [exact H1 | split; [exact H5 |]].
  exact (accepted_block_memoizes_leaf (small 1) (t_inode 1)
           (t_dblock 2 (t_data 2)) 0 fresh_B H1 H2 H3 H4 H5).
Defined.

Lemma rejection_is_diagnosed_witness :
  let r := verify_data_block (small 0) (t_inode 0) (t_dblock 0 t_bad0)
             0 fresh_A in
  result_of r = false /\ exists d, In (EvErr d) (log_of r).
Proof.
  intros r.
  assert (H1 : result_of r = false) by (vm_compute; reflexivity).
  split; [exact H1|].
  exact (rejection_is_diagnosed (small 0) (t_inode 0) (t_dblock 0 t_bad0)
           0 fresh_A (proj2 t_crypto_ok) H1).
Defined.

Lemma entry_points_diagnose_witness :
  let r := fsverity_verify_blocks (small 0) (t_inode 0) t_bad_folio 16 0
             fresh_A in
  (forall body,
     tfm (hash_alg (tree_params (i_verity_info (t_inode 0)))) body <> None) /\
  result_of r = Some false /\
  range_valid (t_inode 0) t_bad_folio 16 0 = true /\
  exists d, In (EvErr d) (log_of r).
Proof.
  intros r.
  assert (H1 : result_of r = Some false) by (vm_compute; reflexivity).
  assert (H2 : range_valid (t_inode 0) t_bad_folio 16 0 = true)
    by reflexivity.
  split; [exact (proj2 t_crypto_ok) | split; [exact H1 | split; [exact H2 |]]].
  exact (proj2 (proj1 (entry_points_diagnose (small 0) (t_inode 0))
                  t_bad_folio 16 0 fresh_A) (proj2 t_crypto_ok) H1 H2).
Defined.
